(* ===== verification/_CoqProject ===== *)
-Q . S2P
Prelude.v
StateErr.v
Threads.v
GoStrings.v
GoUtf8.v
GoSort.v
GoNet.v
GoTime.v
Json.v
JsonFacts.v
JsonDecode.v
GoPath.v
Ed2kLib.v
Ed2kRef.v
Ed2kWire.v
FileRecord.v
CatalogJson.v
CatalogJsonFacts.v
Search.v
SearchFacts.v
Catalog.v
CatalogFacts.v
Config.v
Storage.v
StorageFacts.v
CatalogRestart.v
ConfigJson.v
IdChange.v
OfferFiles.v
Sources.v
PeerServers.v
Limiter.v
Text.v
Frames.v
AuditLog.v
AdminLocale.v
GoCrypto.v
Rc4.v
Streams.v
Obfuscate.v
Handshake.v
Server.v
Snapshots.v
ServerFacts.v
FrameRule.v
ServerInv.v
ServerDemo.v
Locks.v
LocksFacts.v
Discipline.v
DisciplineFacts.v
Concurrency.v
Linear.v
ServerProps.v
ServerOutput.v
ServerRuns.v
Udp.v
UdpFacts.v
UdpProps.v
UdpReplies.v
Admin.v
AdminText.v
AdminFacts.v
AdminRuns.v
AdminFiles.v
AdminTextFacts.v
AdminScript.v
AdminPage.v
AdminPageFacts.v
AdminView.v
AdminViewFacts.v
Trace.v
Lifecycle.v
LifecycleFacts.v
System.v
Durability.v
Widths.v
Answers.v
Conn.v
ConnFacts.v
