(* ===== verification/Prelude.v ===== *)
(** * goed2k-server: a verified model of the ED2K server

    goed2k-server (package [ed2ksrv]) is an ED2K/eMule index server in Go. TCP
    clients log in, get a client ID, announce the files they share, search,
    ask for sources and for callbacks; an administrator maintains a static
    catalog of files over HTTP; UDP clients search and peers exchange status and
    server lists. This library translates the server into Rocq functions and
    proves what it promises.

    ** Parts and files

    - This file: bytes, machine integers with their wrap-around, little-endian
      numbers, results, iteration over Go maps in an unspecified order
      ([MapIter]), shared lemmas. [StateErr]: the state and error monad of the
      handlers. [Threads]: programs that take and release locks, and the pools of
      goroutines that run them, with [sync.RWMutex] as Go describes it.
    - [GoStrings], [GoUtf8], [GoSort], [GoNet], [GoTime], [GoPath], [GoCrypto]: the
      functions of Go's standard library that the server calls (strings, utf8,
      strconv, sort, net, time, path, md5, math/big).
    - [Json], [JsonFacts], [JsonDecode]: encoding/json, from the text to the
      fields of a struct: the scanner and its nesting limit, string escapes, the
      writers, the matching of field names, slices that are read over old ones.
    - [Ed2kLib], [Ed2kWire]: the third-party client library
      github.com/monkeyWie/goed2k, which is not part of the repository: its
      types and functions are the fields of two classes, the behaviour the
      server relies on is stated in law classes. [Ed2kRef] and the end of
      [Ed2kWire] give one instance that satisfies all laws, so that no theorem
      is vacuous and every definition can be evaluated.
    - [FileRecord] (catalog.go): the shared-file record, its normalisation and
      its search result entry.
    - [Search] (protocol.go): the decoder of search requests, evaluation of the
      expression tree, summary of a query. [SearchFacts]: its theorems.
    - [Catalog] (catalog.go): the static catalog with its trigram index.
      [CatalogFacts]: its theorems. [Storage] (storage.go, db_store.go,
      catalog.go): the JSON file and the SQL table behind it, with every failure
      of a file or database operation. [StorageFacts]: their theorems.
      [CatalogJson]: the JSON form of records, endpoints and request bodies, with
      [CatalogJsonFacts]. [CatalogRestart]: catalogs that are saved and loaded by
      the next process.
    - [Config] and [ConfigJson] (config.go: the settings, and how they are read
      from a file), [IdChange] (id_change_extended.go), [OfferFiles]
      (offerfiles.go), [Sources] (source ordering in server.go), [PeerServers]
      (peer_registry.go, the server lists), [Limiter] (udp_limit.go, in IEEE
      double precision), [Text] (text.go, login properties), [Frames] (framing
      in server.go), [AuditLog] (audit.go): one component each, definitions first.
    - [Rc4], [Streams], [Obfuscate] (obfuscate.go): the cipher, segmented byte
      streams and the connections that decipher them, the server half of the
      obfuscation handshake. [Handshake]: its theorem.
    - [Server] (server.go): state, sessions, counters, every TCP handler,
      connections, administration, and the events of a running server.
    - [ServerFacts], [FrameRule]: handlers that leave parts of the state alone,
      client IDs, the table of shared files. [ServerInv]: the invariants and
      their preservation by every event. [ServerProps], [ServerOutput],
      [ServerRuns]: the theorems. [ServerDemo]: a concrete server.
    - [Locks] (server.go, catalog.go, audit.go): the same handlers, the goroutine
      of a connection and the management operations with the locks they take.
      [LocksFacts]: what each does when it runs alone. [Discipline],
      [DisciplineFacts]: the order of the locks, what each protects, and that
      every handler respects both. [Concurrency], [Linear]: the theorems about
      goroutines that interleave.
    - [Udp] (server_udp.go, udp_search.go): the UDP service. [UdpFacts],
      [UdpProps], [UdpReplies]: its theorems.
    - [Snapshots] (server.go): what an administrator sees. [Admin] (admin.go,
      admin_ui.go): routes, token, paging and every HTTP handler; [AdminLocale]
      (admin_locale.go): the texts of the pages. [AdminFacts], [AdminRuns],
      [AdminFiles]: their theorems. [AdminText] (admin.go, server.go, audit.go):
      the JSON text of every answer. [AdminTextFacts]: what a client reads in it.
    - [AdminScript] (admin_ui.go, templates/admin.html): the script, the style
      sheet and the template of the page, word for word. [AdminPage]: what
      html/template makes of the template and its data. [AdminPageFacts]: tags,
      escaping, and what a name can do to the page. [AdminView] (the script in
      admin_ui.go): the functions that turn answers into HTML and texts.
      [AdminViewFacts]: their theorems.
    - [Trace] (trace.go): packet traces, as the lines of text in the trace file, and
      what they tell.
    - [Lifecycle] (server.go, main.go): loading, the accept loop, shutdown.
      [LifecycleFacts]: their theorems. [System]: the whole program as one
      transition system, and its invariant. [Durability]: what administrators
      store outlives the process. [Widths]: numbers stay within their Go types,
      through every handler and event. [Answers]: so every answer of the
      management interface can be encoded.
    - [Conn] (server.go, handleConn): the goroutine of one connection, from the
      first byte to the end of the stream. [ConnFacts]: its theorems.

    ** How state and operations correspond to the code

    A method of the server is a function of type [M A]: it takes the whole
    server state and returns a result or an error together with the new state.
    Sessions live in a heap addressed by connection numbers; the client table
    maps IDs to connection numbers, as the source maps IDs to pointers, so a
    stale entry or two entries for one session can be expressed. What is
    written to a connection is appended to the log [sv_sent]; the clock, the
    outcome of each write and name resolution are the class [World]. A run-time
    panic (a slice or index out of range) is the error [Panic], which nothing
    recovers from. An [event] is a new connection, a frame on a connection, the
    end of a connection, or an administrative change; [run_event] is what the
    server does. A [udp_event] is such an event, a datagram, a step of a search
    worker, or a round of peer pings: a search that arrives by UDP is queued by
    one event and answered by another. An HTTP request is a [Request], answered
    by [adminMux]. Each event runs to its end before the next one starts. How
    requests interleave is the subject of [Locks]: there a handler is a program
    whose steps are the acquisition or the release of a lock and the access to
    shared state in between, and a pool of such programs runs in any order. A
    program that runs alone does what the event does
    ([LocksFacts.goroutine_refines_events]). The
    stores have a state of their own: files, and the log of database commands
    with their outcomes. The process ([Lifecycle.Process]) puts the service, its
    listeners, the store and the tracer together, and [System.run_sys] is one
    step of the program.

    ** What the theorems show

    - Search: the decoder terminates, inverts an encoder for both request
      forms, accepts only well-formed trees within the depth bound, and the
      summary that drives the index accepts exactly what the tree accepts.
    - Catalog: an invariant of all reachable catalogs, the effect of upsert and
      delete, and the indexed search returns exactly what a full scan returns
      for keywords that are not hashes.
    - Stores: a save is all or nothing in the database, and what is saved is
      what is loaded, through the JSON text that is written, also where the
      database writes the text of its JSON column anew. A catalog survives
      the end of the process, whatever requests the process has served one after
      the other; a failed save of the JSON file loses it
      ([CatalogRestart.torn_save_loses_catalog]).
    - Configuration: what the text of a configuration file stands for, and which
      files are refused.
    - Codecs: round trips of the ID change packet, offers, search results that
      are offered again, server lists, compressed frames; inflation is bounded.
    - Limits: the token bucket admits at most its burst, configuration values
      are normalised into their ranges.
    - Server: no event panics; live clients can be found under their IDs, which
      are distinct; while no session logs in twice, shared files list only present
      clients and a disconnect leaves nothing behind; offers are published; search pages concatenate to the
      result list; callbacks reach their target only; administrative changes
      are written through to the store.
    - Interleaving: every request ends, unless a client logs in twice, which can
      block the whole server; what a lock protects does not change under it;
      changes of the catalog, whose accesses interleave as the lock lets them, are
      linearizable and respect the order in which requests end and begin; the
      store may lack a change that was answered with success.
    - Connections: the goroutine of a connection does what the events of the
      transition system do; an obfuscated connection is served as the plain one
      with the same frames; the two ends of a handshake agree on their keys; the
      state of the cipher is always a permutation.
    - UDP: no datagram panics or breaks an invariant, answers go to the sender
      (a callback apart); a request for sources gets those the catalog and the
      clients know, up to the limit, and a search all its results that fit.
    - Administration: every request is answered and keeps the invariants, a
      request without the token is inert and learns the name, the description and
      the uptime of the server only, the audit log tells of every change and how
      it ended, files are stored and deleted as documented, the pages of the list
      are parts of a sorted list of the matching files (of the same one, if no two
      tie), and a client that decodes an answer gets what the handler wrote.
    - The page: the name of the server cannot inject markup into the page, but
      the names that peers choose become markup in its tables; its Chinese texts
      are garbled ([AdminViewFacts.script_texts_read]).
    - The whole program: in any order of events, each of which runs to its end
      before the next begins, nothing panics, every request is
      answered, the invariants of all parts hold, every number stays within its
      type, and no answer in JSON is refused by the encoder.
    - Process: what a start and a shutdown leave behind; reading a trace file back
      gives, up to the configured size, the logical frames: those that handlers get
      and that readers of the wire get, after inflation.
    - Where the code departs from its comments or its intent, a theorem states
      the behaviour it has (the deviations are listed with the properties).

    ** Bounds and fuel

    Machine integers are [Z] with explicit wrap-around ([to_int], [to_int32],
    [to_uint16] and the like). Recursion that is not structural has fuel: one
    more than the depth bound for the search decoder, the length of the input
    for the legacy decoder and for text scanning, one more than the number of
    clients for the search of a free ID, one more than the length of the stream
    for the frame loop, two more than twice the length of the text for a JSON
    value; theorems show that each is enough. The JSON scanner's own nesting
    limit of 10000 is part of the model. Theorems about
    reachable servers assume fewer than 2^62 files and 2^32 clients, which
    memory guarantees.

    ** Not modelled

    The run of the page's script in a browser (events, requests, the document:
    its functions from answers to HTML are modelled, its local times and the texts
    of numbers beyond 53 bits are parameters), the text of log lines, the texts of
    errors of other packages, the HTTP server of net/http beyond its routing
    (the bodies of its own 404 and 301 answers included), the SQL drivers, signals
    and command-line flags. [capOfferedRecords] of server.go is not called.
    In the pools of goroutines the UDP service appears as the searches and source
    requests it makes, a write to a connection or to the store is one step that
    returns, and access to unprotected state is one step; two concurrent
    shutdowns are left out. *)

From Stdlib Require Import Strings.Byte Strings.String.
From Stdlib Require Export Init.Byte ZArith Lia.
From stdpp Require Export base tactics numbers countable gmap sorting option list.
Export Stdlib.Strings.String.StringSyntax.

(** ** Bytes *)

(** A Go [byte] is the kernel's 256-constructor enumeration; a Go [[]byte] and
    a Go [string] (an immutable byte sequence) are both lists of bytes. *)
Abbreviation byte := Init.Byte.byte.
Abbreviation bytes := (list Init.Byte.byte).

#[export] Instance byte_eq_dec : EqDecision byte := Byte.byte_eq_dec.

#[export] Program Instance byte_countable : Countable byte :=
  inj_countable Byte.to_N Byte.of_N _.
Next Obligation. intros b. apply Byte.of_to_N. Qed.

#[export] Instance byte_inhabited : Inhabited byte := populate x00.

(** A string literal of the source. *)
Definition lit (s : string) : bytes := list_byte_of_string s.
Arguments lit s%_string.

(** The numeric value of a byte, and the conversion [byte(z)] of Go, which
    keeps the low eight bits. *)
Definition byteZ (b : byte) : Z := Z.of_N (Byte.to_N b).
Definition byte_of_Z (z : Z) : byte :=
  default x00 (Byte.of_N (Z.to_N (z mod 256)%Z)).

Definition byte_eqb (a b : byte) : bool := bool_decide (a = b).
Definition bytes_eqb (a b : bytes) : bool := bool_decide (a = b).

(** Go's [len], an [int]. *)
Definition len {A} (l : list A) : Z := Z.of_nat (length l).

(** ** Machine integers

    A Go integer of width [w] is a [Z] in the range of that type; every
    conversion and every arithmetic result goes through the wrap of its type.
    [int] is 64 bits wide (the 64-bit targets the server is built for). *)
Definition wrap_u (w : Z) (z : Z) : Z := (z mod 2 ^ w)%Z.
Definition wrap_s (w : Z) (z : Z) : Z :=
  ((z + 2 ^ (w - 1)) mod 2 ^ w - 2 ^ (w - 1))%Z.

Definition to_uint16 := wrap_u 16.
Definition to_uint32 := wrap_u 32.
Definition to_uint64 := wrap_u 64.
Definition to_int32 := wrap_s 32.
Definition to_int64 := wrap_s 64.
Definition to_int := wrap_s 64.

Definition in_u (w z : Z) : Prop := (0 <= z < 2 ^ w)%Z.
Definition in_s (w z : Z) : Prop := (- 2 ^ (w - 1) <= z < 2 ^ (w - 1))%Z.

(** [x++] and [x += n] on an [int64] counter. *)
Definition add64 (x n : Z) : Z := to_int64 (x + n).

(** ** Errors *)

Inductive result (E A : Type) : Type :=
| Ok (a : A)
| Err (e : E).
Arguments Ok {E A} a.
Arguments Err {E A} e.

Definition rbind {E A B} (m : result E A) (k : A -> result E B) : result E B :=
  match m with Ok a => k a | Err e => Err e end.

(** Turn the absence of a value into an error. *)
Definition or_err {E A} (o : option A) (e : E) : result E A :=
  match o with Some a => Ok a | None => Err e end.

Definition is_ok {E A} (m : result E A) : bool :=
  match m with Ok _ => true | Err _ => false end.

Declare Scope go_scope.
Delimit Scope go_scope with go.
Notation "'let!' x ':=' m 'in' k" := (rbind m (fun x => k))
  (at level 10, x pattern, m at level 100, k at level 200,
   format "'[v' 'let!'  x  ':='  m  'in' '/' k ']'") : go_scope.

(** ** Little-endian encodings *)

(** The [n] low bytes of [z], least significant first
    ([binary.LittleEndian.PutUint16], [PutUint32], ...). *)
Fixpoint le_encode (n : nat) (z : Z) : bytes :=
  match n with
  | O => []
  | S n' => byte_of_Z z :: le_encode n' (z / 256)%Z
  end.

Fixpoint le_decode (l : bytes) : Z :=
  match l with
  | [] => 0%Z
  | b :: l' => (byteZ b + 256 * le_decode l')%Z
  end.

(** ** Iteration over Go maps

    [for k, v := range m] visits every entry once, in an order the language
    leaves open, and which may differ from one loop to the next. A [MapIter]
    chooses one for a run of the code; every theorem holds for all of them. Where
    a theorem compares several requests, each of them gets a [MapIter] of its own
    ([AdminFiles.files_listed]). *)
Class MapIter := {
  range_map : forall {K} `{Countable K} {V}, gmap K V -> list (K * V)
}.

Class MapIterLaws `{MapIter} : Prop := {
  range_map_perm : forall {K} `{Countable K} {V} (m : gmap K V),
    range_map m ≡ₚ map_to_list m
}.

(** The order used to evaluate examples. *)
#[export] Instance map_iter_std : MapIter | 100 :=
  { range_map := fun K _ _ V m => map_to_list m }.

#[export] Instance map_iter_std_laws : @MapIterLaws map_iter_std.
Proof. constructor. reflexivity. Qed.

(** ** Lemmas: bytes *)

Lemma byteZ_range b : (0 <= byteZ b < 256)%Z.
Proof.
  unfold byteZ. pose proof (Byte.to_N_bounded b). lia.
Qed.

Lemma byteZ_byte_of_Z z : byteZ (byte_of_Z z) = (z mod 256)%Z.
Proof.
  unfold byteZ, byte_of_Z.
  pose proof (Z.mod_pos_bound z 256 ltac:(lia)) as Hz.
  destruct (Byte.of_N (Z.to_N (z mod 256))) as [b|] eqn:E; simpl.
  - apply Byte.to_of_N in E. rewrite E. lia.
  - apply Byte.of_N_None_iff in E. lia.
Qed.

Lemma byte_of_Z_byteZ b : byte_of_Z (byteZ b) = b.
Proof.
  unfold byte_of_Z, byteZ. pose proof (Byte.to_N_bounded b).
  rewrite Z.mod_small by lia. rewrite N2Z.id, Byte.of_to_N. reflexivity.
Qed.

#[export] Instance byteZ_inj : Inj (=) (=) byteZ.
Proof.
  intros a b Hab. rewrite <- (byte_of_Z_byteZ a), <- (byte_of_Z_byteZ b).
  by rewrite Hab.
Qed.

Lemma byte_eqb_eq a b : byte_eqb a b = true <-> a = b.
Proof. apply bool_decide_eq_true. Qed.

Lemma byte_eqb_refl a : byte_eqb a a = true.
Proof. by apply byte_eqb_eq. Qed.

Lemma byte_eqb_neq a b : byte_eqb a b = false <-> a <> b.
Proof. apply bool_decide_eq_false. Qed.

Lemma bytes_eqb_eq a b : bytes_eqb a b = true <-> a = b.
Proof. apply bool_decide_eq_true. Qed.

Lemma bytes_eqb_neq a b : bytes_eqb a b = false <-> a <> b.
Proof. apply bool_decide_eq_false. Qed.

(** ** Lemmas: machine integers *)

Lemma wrap_u_range w z : (0 <= w)%Z -> in_u w (wrap_u w z).
Proof. intros. apply Z.mod_pos_bound. lia. Qed.

Lemma wrap_u_id w z : in_u w z -> wrap_u w z = z.
Proof. unfold in_u, wrap_u. intros. by apply Z.mod_small. Qed.

Lemma wrap_s_id w z : (0 < w)%Z -> in_s w z -> wrap_s w z = z.
Proof.
  unfold in_s, wrap_s. intros Hw Hz.
  assert (2 ^ w = 2 * 2 ^ (w - 1))%Z as Hp.
  { rewrite <- Z.pow_succ_r by lia. f_equal. lia. }
  rewrite Z.mod_small by lia. lia.
Qed.

Lemma wrap_s_range w z : (0 < w)%Z -> in_s w (wrap_s w z).
Proof.
  unfold in_s, wrap_s. intros Hw.
  assert (2 ^ w = 2 * 2 ^ (w - 1))%Z as Hp.
  { rewrite <- Z.pow_succ_r by lia. f_equal. lia. }
  pose proof (Z.mod_pos_bound (z + 2 ^ (w - 1)) (2 ^ w) ltac:(lia)). lia.
Qed.

Lemma to_int64_id z : in_s 64 z -> to_int64 z = z.
Proof. intros. by apply wrap_s_id. Qed.
Lemma to_int_id z : in_s 64 z -> to_int z = z.
Proof. intros. by apply wrap_s_id. Qed.
Lemma to_int32_id z : in_s 32 z -> to_int32 z = z.
Proof. intros. by apply wrap_s_id. Qed.
Lemma to_uint32_id z : in_u 32 z -> to_uint32 z = z.
Proof. intros. by apply wrap_u_id. Qed.

(** Signed and unsigned views of one word determine each other. *)
Lemma wrap_u_wrap_s w z : (0 < w)%Z -> wrap_u w (wrap_s w z) = wrap_u w z.
Proof.
  intros Hw. unfold wrap_u, wrap_s.
  rewrite Zminus_mod_idemp_l. f_equal. lia.
Qed.

Lemma wrap_s_wrap_u w z : (0 < w)%Z -> wrap_s w (wrap_u w z) = wrap_s w z.
Proof.
  intros Hw. unfold wrap_u, wrap_s. by rewrite Zplus_mod_idemp_l.
Qed.

(** ** Lemmas: little-endian encodings *)

Lemma le_encode_length n z : length (le_encode n z) = n.
Proof. revert z; induction n; intros; simpl; auto. Qed.

Lemma le_decode_range l : (0 <= le_decode l < 256 ^ len l)%Z.
Proof.
  unfold len. induction l as [|b l IH]; simpl length; [simpl; lia|].
  rewrite Nat2Z.inj_succ, Z.pow_succ_r by lia.
  simpl le_decode. pose proof (byteZ_range b). lia.
Qed.

Lemma le_decode_encode n z : le_decode (le_encode n z) = (z mod 256 ^ Z.of_nat n)%Z.
Proof.
  revert z; induction n as [|n IH]; intros z; [simpl; by rewrite Z.mod_1_r|].
  rewrite Nat2Z.inj_succ, Z.pow_succ_r by lia.
  simpl. rewrite byteZ_byte_of_Z, IH.
  rewrite (Z.rem_mul_r z 256) by lia. lia.
Qed.

Lemma le_decode_encode_small n z :
  (0 <= z < 256 ^ Z.of_nat n)%Z -> le_decode (le_encode n z) = z.
Proof. intros. rewrite le_decode_encode. by apply Z.mod_small. Qed.

Lemma le_encode_decode l : le_encode (length l) (le_decode l) = l.
Proof.
  induction l as [|b l IH]; simpl; [done|].
  pose proof (byteZ_range b). f_equal.
  - rewrite <- (byte_of_Z_byteZ b) at 2. apply byteZ_inj.
    rewrite !byteZ_byte_of_Z. rewrite Z.mul_comm, Z_mod_plus_full. done.
  - rewrite Z.mul_comm, Z.div_add by lia.
    rewrite Z.div_small by lia. simpl. done.
Qed.

(** ** Lemmas: results *)

Lemma rbind_ok {E A B} (m : result E A) (k : A -> result E B) b :
  rbind m k = Ok b <-> exists a, m = Ok a /\ k a = Ok b.
Proof.
  split.
  - destruct m; simpl; [eauto|discriminate].
  - intros (a & -> & Hk). done.
Qed.

Lemma or_err_ok {E A} (o : option A) (e : E) a : or_err o e = Ok a <-> o = Some a.
Proof. destruct o; simpl; split; congruence. Qed.

(** ** Lemmas: lists *)

Lemma len_nonneg {A} (l : list A) : (0 <= len l)%Z.
Proof. unfold len. lia. Qed.

Lemma len_app {A} (l k : list A) : len (l ++ k) = (len l + len k)%Z.
Proof. unfold len. rewrite length_app. lia. Qed.

Lemma len_cons {A} (x : A) l : len (x :: l) = (1 + len l)%Z.
Proof. unfold len. simpl. lia. Qed.

(** Lists with the same images correspond element by element. *)
Lemma map_eq_Forall2 {A B C} (f : A -> C) (g : B -> C) l k :
  map f l = map g k -> Forall2 (fun a b => f a = g b) l k.
Proof. revert k; induction l as [|a l IH]; intros [|b k] [=]; constructor; auto. Qed.

(** ** Automation *)

Create HintDb go.
#[export] Hint Resolve byteZ_range le_decode_range len_nonneg : go.
Create Rewrite HintDb go.
#[export] Hint Rewrite @len_app @len_cons le_encode_length byteZ_byte_of_Z
  byte_of_Z_byteZ : go.

(** Take a successful chain of binds in a hypothesis apart. *)
Ltac inv_ok :=
  repeat match goal with
  | H : rbind ?m _ = Ok _ |- _ =>
      let a := fresh "a" in let E := fresh "E" in
      apply rbind_ok in H as (a & E & H)
  | H : or_err _ _ = Ok _ |- _ => apply or_err_ok in H
  | H : Ok _ = Ok _ |- _ => injection H as H
  | H : Err _ = Ok _ |- _ => discriminate H
  | H : Ok _ = Err _ |- _ => discriminate H
  | a : (_ * _)%type |- _ => destruct a
  end; simplify_eq/=.

(** Split on every conditional of the goal, or of a hypothesis. *)
Ltac case_if_all :=
  repeat match goal with
  | |- context [if ?b then _ else _] => destruct b eqn:?
  end.

(** Decide the comparisons of constant bytes. *)
Ltac eval_eqb :=
  repeat match goal with
  | |- context [byte_eqb ?a ?b] =>
      let v := eval vm_compute in (byte_eqb a b) in
      match v with
      | true => change (byte_eqb a b) with true
      | false => change (byte_eqb a b) with false
      end
  | H : context [byte_eqb ?a ?b] |- _ =>
      let v := eval vm_compute in (byte_eqb a b) in
      match v with
      | true => change (byte_eqb a b) with true in H
      | false => change (byte_eqb a b) with false in H
      end
  end; cbv iota beta in *; cbn [negb orb andb] in *.

(** Follow a chain of comparisons of the byte [op] with constants. *)
Ltac switch op :=
  repeat match goal with
  | H : context [byte_eqb op ?c] |- _ =>
      let E := fresh "E" in
      destruct (byte_eqb op c) eqn:E;
      [apply byte_eqb_eq in E; subst op; eval_eqb|clear E]
  | |- context [byte_eqb op ?c] =>
      let E := fresh "E" in
      destruct (byte_eqb op c) eqn:E;
      [apply byte_eqb_eq in E; subst op; eval_eqb|clear E]
  end.
