(* ===== verification/StateErr.v ===== *)
(** * State and errors

    Handlers of the server are functions from a state to a result or an error
    and the new state: an error keeps the changes made before it, as a Go
    function that returns an error does. *)

From S2P Require Import Prelude.

Definition ST (S E A : Type) : Type := S -> result E A * S.

Section monad.
Context {S E : Type}.
Definition ret {A} (a : A) : ST S E A := fun s => (Ok a, s).
Definition fail {A} (e : E) : ST S E A := fun s => (Err e, s).
Definition bind {A B} (m : ST S E A) (k : A -> ST S E B) : ST S E B :=
  fun s => match m s with
           | (Ok a, s') => k a s'
           | (Err e, s') => (Err e, s')
           end.
Definition gets {A} (f : S -> A) : ST S E A := fun s => (Ok (f s), s).
Definition modify (f : S -> S) : ST S E unit := fun s => (Ok tt, f s).
Definition of_option {A} (o : option A) (e : E) : ST S E A :=
  match o with Some a => ret a | None => fail e end.
(** The result of [m] as a value: the source looks at the error itself. *)
Definition try_ {A} (m : ST S E A) : ST S E (result E A) :=
  fun s => let '(r, s') := m s in (Ok r, s').
(** An operation on a part of the state. *)
Definition zoom {T A} (get : T -> S) (put : S -> T -> T) (m : ST S E A) : ST T E A :=
  fun t => let '(r, s') := m (get t) in (r, put s' t).
End monad.

Declare Scope srv_scope.
Delimit Scope srv_scope with srv.
Notation "'do!' x ':=' m 'in' k" := (bind m (fun x => k))
  (at level 10, x pattern, m at level 100, k at level 200,
   format "'[v' 'do!'  x  ':='  m  'in' '/' k ']'") : srv_scope.
Notation "m ;;; k" := (bind m (fun _ : unit => k))
  (at level 100, right associativity, format "'[v' m ;;; '/' k ']'") : srv_scope.

Section laws.
Context {S E : Type}.

Lemma bind_gets {A B} (f : S -> A) (k : A -> ST S E B) s : bind (gets f) k s = k (f s) s.
Proof. done. Qed.

Lemma bind_ok {A B} (m : ST S E A) (k : A -> ST S E B) s a s' :
  m s = (Ok a, s') -> bind m k s = k a s'.
Proof. intros H. unfold bind. by rewrite H. Qed.

Lemma bind_err {A B} (m : ST S E A) (k : A -> ST S E B) s e s' :
  m s = (Err e, s') -> bind m k s = (Err e, s').
Proof. intros H. unfold bind. by rewrite H. Qed.

Lemma bind_ext {A B} (m : ST S E A) (k l : A -> ST S E B) s :
  (forall a s', m s = (Ok a, s') -> k a s' = l a s') -> bind m k s = bind m l s.
Proof. intros H. unfold bind. destruct (m s) as [[a|e] s']; [by apply H|done]. Qed.

Lemma bind_assoc {A B C} (m : ST S E A) (k : A -> ST S E B) (l : B -> ST S E C) s :
  bind (bind m k) l s = bind m (fun a => bind (k a) l) s.
Proof. unfold bind. by destruct (m s) as [[a|e] s']. Qed.
End laws.

(** ** What an operation does, whatever it returns

    [runs I R bad m]: from a state in [I], [m] moves along [R] and does not end
    in the error [bad]. *)
Section runs.
Context {S E : Type} (I : S -> Prop) (R : S -> S -> Prop) (bad : E).

Definition runs {A} (m : ST S E A) : Prop := forall s,
  I s -> R s (m s).2 /\ (m s).1 <> Err bad.

Context {HR : PreOrder R} (HI : forall s s', R s s' -> I s -> I s').

Lemma runs_ret {A} (a : A) : runs (ret a).
Proof. intros s _. split; [apply HR|done]. Qed.

Lemma runs_fail {A} e : e <> bad -> runs (fail e : ST S E A).
Proof. intros He s _. split; [apply HR|]. simpl. congruence. Qed.

Lemma runs_gets {A} (f : S -> A) : runs (gets f).
Proof. intros s _. split; [apply HR|done]. Qed.

Lemma runs_modify f : (forall s, I s -> R s (f s)) -> runs (modify f).
Proof. intros Hf s Hs. split; [by apply Hf|done]. Qed.

(** The continuation only meets results that [m] can have. *)
Lemma runs_bind_result {A B} (m : ST S E A) (k : A -> ST S E B) :
  runs m -> (forall s a s', m s = (Ok a, s') -> runs (k a)) -> runs (bind m k).
Proof using HI HR.
  intros Hm Hk s Hs. destruct (Hm s Hs) as [Hr Hn]. unfold bind.
  destruct (m s) as [[a|e] s1] eqn:Em; cbn [fst snd] in *; [|split; [done|congruence]].
  destruct (Hk _ _ _ Em s1 (HI _ _ Hr Hs)) as [Hr' Hn']. split; [by etransitivity|done].
Qed.

Lemma runs_bind {A B} (m : ST S E A) (k : A -> ST S E B) :
  runs m -> (forall a, runs (k a)) -> runs (bind m k).
Proof using HI HR. intros Hm Hk. apply runs_bind_result; [done|]. intros s a s' _. apply Hk. Qed.

(** The value read from the state may be used. *)
Lemma runs_bind_gets {A B} (f : S -> A) (k : A -> ST S E B) :
  (forall s, I s -> R s (k (f s) s).2 /\ (k (f s) s).1 <> Err bad) -> runs (bind (gets f) k).
Proof. intros Hk s Hs. rewrite bind_gets. by apply Hk. Qed.

Lemma runs_try {A} (m : ST S E A) : runs m -> runs (try_ m).
Proof.
  intros Hm s Hs. destruct (Hm s Hs) as [Hr Hn]. unfold try_. by destruct (m s) as [r s1].
Qed.
End runs.

Lemma runs_zoom {S T E A} I R I' R' (bad : E) (get : T -> S) put (m : ST S E A) :
  (forall t, I t -> I' (get t)) ->
  (forall t s', I t -> R' (get t) s' -> R t (put s' t)) ->
  runs I' R' bad m -> runs I R bad (zoom get put m).
Proof.
  intros Hget Hput Hm t Ht. destruct (Hm (get t) (Hget t Ht)) as [Hr Hn].
  unfold zoom. destruct (m (get t)) as [r s']. cbn [fst snd] in *. split; [by apply Hput|done].
Qed.
