(* ===== verification/Threads.v ===== *)
(** * Goroutines and locks

    Handlers as the goroutines run them: programs whose steps are the locking
    operations of [sync.Mutex] and [sync.RWMutex] and the accesses to the shared
    state between them. A program that runs alone is an operation of [StateErr];
    a pool of programs interleaves under a scheduler that may pick any goroutine
    that is not blocked. *)

From S2P Require Import Prelude StateErr.

Local Open Scope srv_scope.

(** [Lock] has two steps, as in Go: the writer announces itself, which keeps out
    other writers and new readers, then it waits for the readers to leave. A
    [sync.Mutex] has no readers. *)
Inductive sync (Mu : Type) :=
| Announce (m : Mu)
| Await (m : Mu)
| RAcquire (m : Mu)
| Release (m : Mu)
| RRelease (m : Mu).
Arguments Announce {Mu} m.
Arguments Await {Mu} m.
Arguments RAcquire {Mu} m.
Arguments Release {Mu} m.
Arguments RRelease {Mu} m.

#[export] Instance sync_eq_dec {Mu} `{EqDecision Mu} : EqDecision (sync Mu).
Proof. solve_decision. Defined.

Inductive mode := Exclusive | Shared.

#[export] Instance mode_eq_dec : EqDecision mode.
Proof. solve_decision. Defined.

(** A program: its result, a locking operation, or an access to the state, whose
    continuation sees the state before it. *)
Inductive prog (S E Mu A : Type) :=
| Done (r : result E A)
| Sync (a : sync Mu) (p : prog S E Mu A)
| Atomic (f : S -> S) (k : S -> prog S E Mu A).
Arguments Done {S E Mu A} r.
Arguments Sync {S E Mu A} a p.
Arguments Atomic {S E Mu A} f k.

Section programs.
Context {S E Mu : Type}.

Fixpoint pbind {A B} (p : prog S E Mu A) (k : A -> prog S E Mu B) : prog S E Mu B :=
  match p with
  | Done (Ok a) => k a
  | Done (Err e) => Done (Err e)
  | Sync a p' => Sync a (pbind p' k)
  | Atomic f c => Atomic f (fun s => pbind (c s) k)
  end.

(** The result of [p] as a value. *)
Fixpoint ptry {A} (p : prog S E Mu A) : prog S E Mu (result E A) :=
  match p with
  | Done r => Done (Ok r)
  | Sync a p' => Sync a (ptry p')
  | Atomic f c => Atomic f (fun s => ptry (c s))
  end.

Definition pret {A} (a : A) : prog S E Mu A := Done (Ok a).
Definition pfail {A} (e : E) : prog S E Mu A := Done (Err e).

(** One access to the state. *)
Definition atomically {A} (m : ST S E A) : prog S E Mu A :=
  Atomic (fun s => (m s).2) (fun s => Done (m s).1).

Definition pof_option {A} (o : option A) (e : E) : prog S E Mu A :=
  match o with Some a => pret a | None => pfail e end.

Definition sync_op (a : sync Mu) : prog S E Mu unit := Sync a (pret tt).

(** [m.Lock(); defer m.Unlock()], and its reading counterpart. *)
Definition locked {A} (m : Mu) (p : prog S E Mu A) : prog S E Mu A :=
  Sync (Announce m) (Sync (Await m)
    (pbind (ptry p) (fun r => Sync (Release m) (Done r)))).

Definition rlocked {A} (m : Mu) (p : prog S E Mu A) : prog S E Mu A :=
  Sync (RAcquire m) (pbind (ptry p) (fun r => Sync (RRelease m) (Done r))).

(** [p] when nobody else runs. *)
Fixpoint alone {A} (p : prog S E Mu A) : ST S E A := fun s =>
  match p with
  | Done r => (r, s)
  | Sync _ p' => alone p' s
  | Atomic f k => alone (k s) (f s)
  end.

Lemma alone_bind {A B} (p : prog S E Mu A) (k : A -> prog S E Mu B) s :
  alone (pbind p k) s = bind (alone p) (fun a => alone (k a)) s.
Proof.
  revert s; induction p as [[a|e]|a p IH|f c IH]; intros s; cbn [pbind alone]; [done..| |].
  - apply IH.
  - apply IH.
Qed.

Lemma alone_try {A} (p : prog S E Mu A) s : alone (ptry p) s = try_ (alone p) s.
Proof.
  revert s; induction p as [r|a p IH|f c IH]; intros s; cbn [ptry alone]; [done| |].
  - apply IH.
  - apply IH.
Qed.

Lemma alone_atomically {A} (m : ST S E A) s : alone (atomically m) s = m s.
Proof. cbn. by destruct (m s). Qed.

Lemma alone_of_option {A} (o : option A) e s : alone (pof_option o e) s = of_option o e s.
Proof. by destruct o. Qed.

Lemma alone_locked {A} m (p : prog S E Mu A) s : alone (locked m p) s = alone p s.
Proof.
  unfold locked. cbn [alone]. rewrite alone_bind. unfold bind. rewrite alone_try. unfold try_.
  by destruct (alone p s).
Qed.

Lemma alone_rlocked {A} m (p : prog S E Mu A) s : alone (rlocked m p) s = alone p s.
Proof.
  unfold rlocked. cbn [alone]. rewrite alone_bind. unfold bind. rewrite alone_try. unfold try_.
  by destruct (alone p s).
Qed.

(** Run alone, [p] does what [m] does. *)
Definition implements {A} (p : prog S E Mu A) (m : ST S E A) : Prop := forall s, alone p s = m s.

Lemma implements_bind {A B} (p : prog S E Mu A) (k : A -> prog S E Mu B) m l :
  implements p m -> (forall a, implements (k a) (l a)) -> implements (pbind p k) (bind m l).
Proof.
  intros Hp Hk s. rewrite alone_bind. unfold bind. rewrite Hp.
  destruct (m s) as [[a|e] s']; [apply Hk|done].
Qed.

Lemma implements_run {A B} (p : prog S E Mu A) m (k : A -> prog S E Mu B) s :
  implements p m -> alone (pbind p k) s = bind m (fun a => alone (k a)) s.
Proof. intros Hp. rewrite alone_bind. unfold bind. by rewrite Hp. Qed.

Lemma implements_try {A} (p : prog S E Mu A) m : implements p m -> implements (ptry p) (try_ m).
Proof. intros Hp s. rewrite alone_try. unfold try_. by rewrite Hp. Qed.

Lemma implements_locked {A} mu (p : prog S E Mu A) m : implements p m -> implements (locked mu p) m.
Proof. intros Hp s. by rewrite alone_locked. Qed.

Lemma implements_rlocked {A} mu (p : prog S E Mu A) m : implements p m -> implements (rlocked mu p) m.
Proof. intros Hp s. by rewrite alone_rlocked. Qed.

Lemma implements_atomically {A} (m : ST S E A) : implements (atomically m) m.
Proof. intros s. apply alone_atomically. Qed.

Lemma implements_done {A} (r : result E A) : implements (Done r) (fun s => (r, s)).
Proof. done. Qed.

Lemma implements_ret {A} (a : A) : implements (pret a) (ret a).
Proof. done. Qed.

Lemma implements_fail {A} (e : E) : implements (pfail e : prog S E Mu A) (fail e).
Proof. done. Qed.

Lemma implements_of_option {A} (o : option A) e : implements (pof_option o e) (of_option o e).
Proof. by destruct o. Qed.

Lemma implements_ext {A} (p : prog S E Mu A) m m' :
  implements p m -> (forall s, m s = m' s) -> implements p m'.
Proof. intros Hp Hm s. by rewrite Hp. Qed.

(** The programs that a program can become. *)
Inductive next {A} : prog S E Mu A -> prog S E Mu A -> Prop :=
| next_sync a p : next p (Sync a p)
| next_atomic f k s : next (k s) (Atomic f k).

Lemma next_wf {A} (p : prog S E Mu A) : Acc next p.
Proof. induction p; constructor; intros p' Hn; inversion Hn; subst; auto. Qed.
End programs.

Notation "'do*' x ':=' p 'in' k" := (pbind p (fun x => k))
  (at level 10, x pattern, p at level 100, k at level 200,
   format "'[v' 'do*'  x  ':='  p  'in' '/' k ']'") : srv_scope.
Notation "p ;* k" := (pbind p (fun _ : unit => k))
  (at level 100, right associativity, format "'[v' p ;* '/' k ']'") : srv_scope.

Create HintDb locks.
#[export] Hint Resolve implements_try implements_locked implements_rlocked implements_atomically
  implements_ret implements_fail implements_of_option : locks.

(** ** Pools *)

Record thread (S E Mu A : Type) := mkThread {
  th_held : list (Mu * mode);
  th_prog : prog S E Mu A
}.
Arguments mkThread {S E Mu A} th_held th_prog.
Arguments th_held {S E Mu A} t.
Arguments th_prog {S E Mu A} t.

Section pools.
Context {S E Mu A : Type} {MD : EqDecision Mu}.
Implicit Types (t : thread S E Mu A) (ths : list (thread S E Mu A)).

Definition config : Type := S * list (thread S E Mu A).

(** The locks that are held. *)
Definition holders ths : list (Mu * mode) := flat_map th_held ths.

Definition ready (held : list (Mu * mode)) (a : sync Mu) : bool :=
  match a with
  | Announce m | RAcquire m => negb (existsb (fun x => bool_decide (x = (m, Exclusive))) held)
  | Await m => negb (existsb (fun x => bool_decide (x = (m, Shared))) held)
  | Release _ | RRelease _ => true
  end.

Fixpoint drop_lock (x : Mu * mode) (held : list (Mu * mode)) : option (list (Mu * mode)) :=
  match held with
  | [] => None
  | y :: held' => if decide (x = y) then Some held' else cons y <$> drop_lock x held'
  end.

(** What a goroutine holds after a locking operation; to release a lock that is
    not held is fatal. *)
Definition after (a : sync Mu) (held : list (Mu * mode)) : option (list (Mu * mode)) :=
  match a with
  | Announce m => Some ((m, Exclusive) :: held)
  | RAcquire m => Some ((m, Shared) :: held)
  | Await _ => Some held
  | Release m => drop_lock (m, Exclusive) held
  | RRelease m => drop_lock (m, Shared) held
  end.

(** One step of the [i]-th goroutine; [None] when it has ended or is blocked. *)
Definition step (i : nat) (c : config) : option config :=
  let '(s, ths) := c in
  match ths !! i with
  | None => None
  | Some t =>
    match th_prog t with
    | Done _ => None
    | Atomic f k => Some (f s, <[i := mkThread (th_held t) (k s)]> ths)
    | Sync a p =>
      if ready (holders ths) a then
        match after a (th_held t) with
        | Some held => Some (s, <[i := mkThread held p]> ths)
        | None => None
        end
      else None
    end
  end.

(** A schedule picks a goroutine for each step. *)
Fixpoint run (schedule : list nat) (c : config) : option config :=
  match schedule with
  | [] => Some c
  | i :: schedule' => match step i c with Some c' => run schedule' c' | None => None end
  end.

Inductive reach (c0 : config) : config -> Prop :=
| reach_refl : reach c0 c0
| reach_step c c' i : reach c0 c -> step i c = Some c' -> reach c0 c'.

Definition finished t : bool := match th_prog t with Done _ => true | _ => false end.
Definition all_finished (c : config) : bool := forallb finished c.2.

(** Some goroutine has not ended, and none can take a step. *)
Definition deadlocked (c : config) : Prop :=
  all_finished c = false /\ forall i, step i c = None.

Definition can_step (i : nat) (c : config) : Prop := is_Some (step i c).

(** However the goroutines are scheduled, all of them end. *)
Inductive inevitable (c : config) : Prop :=
| inevitable_done : all_finished c = true -> inevitable c
| inevitable_step :
    (exists i, can_step i c) -> (forall i c', step i c = Some c' -> inevitable c') -> inevitable c.

Definition start (p : prog S E Mu A) : thread S E Mu A := mkThread [] p.

(** ** Properties of all pools *)

Lemma reach_run c0 schedule c c' : reach c0 c -> run schedule c = Some c' -> reach c0 c'.
Proof.
  revert c; induction schedule as [|i schedule IH]; intros c Hc; cbn [run]; [congruence|].
  destruct (step i c) as [c1|] eqn:Hi; [|done]. apply IH. by econstructor.
Qed.

Lemma step_spec i s ths c' :
  step i (s, ths) = Some c' -> exists t, ths !! i = Some t /\
    ((exists f k, th_prog t = Atomic f k /\ c' = (f s, <[i := mkThread (th_held t) (k s)]> ths)) \/
     (exists a p held, th_prog t = Sync a p /\ ready (holders ths) a = true /\
        after a (th_held t) = Some held /\ c' = (s, <[i := mkThread held p]> ths))).
Proof.
  cbn [step]. destruct (ths !! i) as [t|]; [|done]. intros H. exists t. split; [done|].
  destruct (th_prog t) as [r|a p|f k]; [done| |].
  - right. destruct (ready _ a) eqn:Er; [|done]. destruct (after a _) as [held|] eqn:Ea; [|done].
    injection H as <-. by exists a, p, held.
  - left. injection H as <-. by exists f, k.
Qed.

(** Any invariant of the steps holds wherever a pool can get. *)
Lemma reach_invariant (P : config -> Prop) c0 c :
  (forall c1 i c2, P c1 -> step i c1 = Some c2 -> P c2) -> P c0 -> reach c0 c -> P c.
Proof. intros Hs H0. induction 1; [done|by eapply Hs]. Qed.

(** The state alone: every access keeps [P]. *)
Fixpoint keeps_state (P : S -> Prop) (p : prog S E Mu A) : Prop :=
  match p with
  | Done _ => True
  | Sync _ p' => keeps_state P p'
  | Atomic f k => forall s, P s -> P (f s) /\ keeps_state P (k s)
  end.

Lemma reach_keeps (P : S -> Prop) s ths c :
  Forall (fun t => keeps_state P (th_prog t)) ths -> P s -> reach (s, ths) c -> P c.1.
Proof.
  intros Hk Hs Hr.
  set (Q := fun c1 : config => P c1.1 /\ Forall (fun t => keeps_state P (th_prog t)) c1.2).
  enough (Q c) as [? _] by done. apply (reach_invariant Q (s, ths)); [|done|done].
  clear. intros [s ths] i c [Hs Hk] H. unfold Q. cbn [fst snd] in *.
  apply step_spec in H as (t & Ht & H). pose proof (Forall_lookup_1 _ _ _ _ Hk Ht) as Hp. cbv beta in Hp.
  destruct H as [(f & k & Hp0 & ->)|(a & p & held & Hp0 & _ & _ & ->)]; rewrite Hp0 in Hp.
  - destruct (Hp s Hs) as [H1 H2]. split; [done|]. by apply Forall_insert.
  - split; [done|]. by apply Forall_insert.
Qed.

(** ** Every run ends *)

(** One goroutine gets on. *)
Definition pool_next ths' ths : Prop :=
  exists i t held p, ths !! i = Some t /\ next p (th_prog t) /\ ths' = <[i := mkThread held p]> ths.

Lemma pool_next_cons p : Acc next p -> forall ths, Acc pool_next ths ->
  forall held, Acc pool_next (mkThread held p :: ths).
Proof.
  induction 1 as [p Hp IHp]. intros ths Hths. induction Hths as [ths Hths IHths]. intros held.
  constructor. intros ths' ([|i] & t & held' & p' & Ht & Hn & ->).
  - injection Ht as <-. apply IHp; [done|]. by constructor.
  - cbn in Ht. cbn [insert list_insert]. apply IHths. by exists i, t, held', p'.
Qed.

Lemma pool_next_wf ths : Acc pool_next ths.
Proof.
  induction ths as [|[held p] ths IH]; [|apply pool_next_cons; [apply next_wf|done]].
  constructor. intros ths' (i & t & held & p & Ht & _). by rewrite lookup_nil in Ht.
Qed.

Lemma step_next i s ths c' : step i (s, ths) = Some c' -> pool_next c'.2 ths.
Proof.
  intros (t & Ht & H)%step_spec. exists i, t.
  destruct H as [(f & k & Hp0 & ->)|(a & p & held & Hp0 & _ & _ & ->)]; rewrite Hp0.
  - exists (th_held t), (k s). split; [done|]. split; [constructor|done].
  - exists held, p. split; [done|]. split; [constructor|done].
Qed.

(** A pool that is never deadlocked ends whatever the schedule. *)
Lemma progress_inevitable (P : config -> Prop) c :
  (forall c1 i c2, P c1 -> step i c1 = Some c2 -> P c2) ->
  (forall c1, P c1 -> all_finished c1 = false -> exists i, can_step i c1) ->
  P c -> inevitable c.
Proof.
  intros Hs Hp. destruct c as [s ths]. revert s. induction (pool_next_wf ths) as [ths _ IH].
  intros s Hc. destruct (all_finished (s, ths)) eqn:Ef; [by constructor|].
  apply inevitable_step; [by apply Hp|]. intros i [s' ths'] Hi. apply IH.
  - exact (step_next _ _ _ _ Hi).
  - by eapply Hs.
Qed.
End pools.
