(* ===== verification/GoStrings.v ===== *)
(** * Go's strings, utf8, unicode and strconv, as far as the server uses them

    Byte strings, UTF-8 decoding, and the functions of the packages [strings],
    [unicode/utf8], [unicode] and [strconv] called by the server. The case
    mappings of non-ASCII runes are tables of the [unicode] package: they are
    the fields of [UnicodeTables], everything else is spelled out. *)

From S2P Require Import Prelude.

Local Open Scope Z_scope.

(** ** Runes *)

Definition RuneError : Z := 0xFFFD.
Definition RuneSelf : Z := 0x80.

(** [utf8.RuneStart] is false exactly on continuation bytes. *)
Definition is_cont (b : byte) : bool := (0x80 <=? byteZ b) && (byteZ b <? 0xC0).

Definition cont_in (lo hi : Z) (b : byte) : bool := (lo <=? byteZ b) && (byteZ b <=? hi).

Definition cont_bits (b : byte) : Z := Z.land (byteZ b) 0x3F.

(** [utf8.DecodeRuneInString]: the first rune of the string and its width.
    Anything that is not a well-formed sequence (overlong forms, surrogates,
    values above 0x10FFFF, truncated sequences) is [RuneError] of width 1. *)
Definition DecodeRune (s : bytes) : Z * nat :=
  match s with
  | [] => (RuneError, 0%nat)
  | b0 :: s1 =>
    let c := byteZ b0 in
    if c <? 0x80 then (c, 1%nat)
    else if (0xC2 <=? c) && (c <=? 0xDF) then
      match s1 with
      | b1 :: _ => if is_cont b1
                   then (Z.lor (Z.shiftl (Z.land c 0x1F) 6) (cont_bits b1), 2%nat)
                   else (RuneError, 1%nat)
      | _ => (RuneError, 1%nat)
      end
    else if (0xE0 <=? c) && (c <=? 0xEF) then
      let lo := if c =? 0xE0 then 0xA0 else 0x80 in
      let hi := if c =? 0xED then 0x9F else 0xBF in
      match s1 with
      | b1 :: b2 :: _ =>
        if cont_in lo hi b1 && is_cont b2
        then (Z.lor (Z.shiftl (Z.land c 0x0F) 12)
                (Z.lor (Z.shiftl (cont_bits b1) 6) (cont_bits b2)), 3%nat)
        else (RuneError, 1%nat)
      | _ => (RuneError, 1%nat)
      end
    else if (0xF0 <=? c) && (c <=? 0xF4) then
      let lo := if c =? 0xF0 then 0x90 else 0x80 in
      let hi := if c =? 0xF4 then 0x8F else 0xBF in
      match s1 with
      | b1 :: b2 :: b3 :: _ =>
        if cont_in lo hi b1 && is_cont b2 && is_cont b3
        then (Z.lor (Z.shiftl (Z.land c 0x07) 18)
                (Z.lor (Z.shiftl (cont_bits b1) 12)
                   (Z.lor (Z.shiftl (cont_bits b2) 6) (cont_bits b3))), 4%nat)
        else (RuneError, 1%nat)
      | _ => (RuneError, 1%nat)
      end
    else (RuneError, 1%nat)
  end.

(** [utf8.DecodeLastRuneInString] on the reversed string [r]: the last rune and
    its width. The start byte is looked for among the last four bytes. *)
Fixpoint last_rune_start (n : nat) (r : bytes) (acc : bytes) : bytes :=
  match n, r with
  | S n', b :: r' => if is_cont b then last_rune_start n' r' (b :: acc) else b :: acc
  | _, _ => acc
  end.

Definition DecodeLastRune (r : bytes) : Z * nat :=
  match r with
  | [] => (RuneError, 0%nat)
  | b :: r' =>
    if byteZ b <? 0x80 then (byteZ b, 1%nat)
    else
      let tail := last_rune_start 3 r' [b] in
      let '(c, size) := DecodeRune tail in
      if (size =? length tail)%nat then (c, size) else (RuneError, 1%nat)
  end.

(** The runes of a string, as [for _, c := range s] yields them. *)
Fixpoint runes_fuel (fuel : nat) (s : bytes) : list Z :=
  match fuel, s with
  | S fuel', _ :: _ =>
    let '(c, w) := DecodeRune s in c :: runes_fuel fuel' (drop w s)
  | _, _ => []
  end.
Definition runes (s : bytes) : list Z := runes_fuel (length s) s.

(** [utf8.AppendRune]: surrogates and out-of-range values become [RuneError]. *)
Definition EncodeRune (r : Z) : bytes :=
  let r := if (r <? 0) || (0x10FFFF <? r) || ((0xD800 <=? r) && (r <=? 0xDFFF))
           then RuneError else r in
  if r <? 0x80 then [byte_of_Z r]
  else if r <? 0x800 then
    [byte_of_Z (0xC0 + Z.shiftr r 6); byte_of_Z (0x80 + Z.land r 0x3F)]
  else if r <? 0x10000 then
    [byte_of_Z (0xE0 + Z.shiftr r 12); byte_of_Z (0x80 + Z.land (Z.shiftr r 6) 0x3F);
     byte_of_Z (0x80 + Z.land r 0x3F)]
  else
    [byte_of_Z (0xF0 + Z.shiftr r 18); byte_of_Z (0x80 + Z.land (Z.shiftr r 12) 0x3F);
     byte_of_Z (0x80 + Z.land (Z.shiftr r 6) 0x3F); byte_of_Z (0x80 + Z.land r 0x3F)].

(** [unicode.IsSpace]: the White_Space property. *)
Definition IsSpace (r : Z) : bool :=
  (0x09 <=? r) && (r <=? 0x0D) || (r =? 0x20) || (r =? 0x85) || (r =? 0xA0)
  || (r =? 0x1680) || ((0x2000 <=? r) && (r <=? 0x200A)) || (r =? 0x2028)
  || (r =? 0x2029) || (r =? 0x202F) || (r =? 0x205F) || (r =? 0x3000).

(** The case tables of the [unicode] package, used beyond ASCII only. *)
Class UnicodeTables := {
  table_ToLower : Z -> Z;
  table_SimpleFold : Z -> Z
}.

(** Tables that leave every rune alone, to evaluate examples. *)
#[export] Instance ascii_tables : UnicodeTables | 100 :=
  { table_ToLower := fun r => r; table_SimpleFold := fun r => r }.

Definition is_upper (r : Z) : bool := (65 <=? r) && (r <=? 90).

(** ** Package strings *)

Section strings.
Context `{U : UnicodeTables}.

Definition rune_ToLower (r : Z) : Z :=
  if (0 <=? r) && (r <? RuneSelf)
  then (if is_upper r then r + 32 else r)
  else table_ToLower r.

(** [strings.ToLower]: every rune is mapped and encoded again. *)
Definition ToLower (s : bytes) : bytes :=
  flat_map (fun r => EncodeRune (rune_ToLower r)) (runes s).

(** The walk along the fold orbit in [strings.EqualFold]; the orbits of the
    Unicode tables have at most four elements. *)
Fixpoint fold_walk (fuel : nat) (r sr tr : Z) : Z :=
  match fuel with
  | O => r
  | S fuel' => if negb (r =? sr) && (r <? tr)
               then fold_walk fuel' (table_SimpleFold r) sr tr else r
  end.

Definition rune_EqualFold (a b : Z) : bool :=
  let sr := Z.min a b in let tr := Z.max a b in
  if a =? b then true
  else if tr <? RuneSelf then is_upper sr && (tr =? sr + 32)
  else fold_walk 4 (table_SimpleFold sr) sr tr =? tr.

Fixpoint runes_EqualFold (s t : list Z) : bool :=
  match s, t with
  | [], [] => true
  | a :: s', b :: t' => rune_EqualFold a b && runes_EqualFold s' t'
  | _, _ => false
  end.

(** [strings.EqualFold]. *)
Definition EqualFold (s t : bytes) : bool := runes_EqualFold (runes s) (runes t).
End strings.

(** [strings.TrimLeftFunc] and [strings.TrimRightFunc] with [unicode.IsSpace]. *)
Fixpoint trim_left (fuel : nat) (s : bytes) : bytes :=
  match fuel, s with
  | S fuel', _ :: _ =>
    let '(c, w) := DecodeRune s in
    if IsSpace c then trim_left fuel' (drop w s) else s
  | _, _ => s
  end.

Fixpoint trim_right (fuel : nat) (r : bytes) : bytes :=
  match fuel, r with
  | S fuel', _ :: _ =>
    let '(c, w) := DecodeLastRune r in
    if IsSpace c then trim_right fuel' (drop w r) else r
  | _, _ => r
  end.

(** [strings.TrimSpace]. *)
Definition TrimSpace (s : bytes) : bytes :=
  let l := trim_left (length s) s in
  reverse (trim_right (length l) (reverse l)).

Fixpoint has_prefix (p s : bytes) : bool :=
  match p, s with
  | [], _ => true
  | a :: p', b :: s' => byte_eqb a b && has_prefix p' s'
  | _, _ => false
  end.

(** [strings.TrimPrefix]. *)
Definition TrimPrefix (s p : bytes) : bytes :=
  if has_prefix p s then drop (length p) s else s.

(** [strings.Contains]: byte substring. *)
Fixpoint Contains (s sub : bytes) : bool :=
  has_prefix sub s ||
  match s with
  | [] => false
  | _ :: s' => Contains s' sub
  end.

(** [strings.Split] on a one-byte separator: always at least one part. *)
Fixpoint Split (s : bytes) (sep : byte) : list bytes :=
  match s with
  | [] => [[]]
  | b :: s' =>
    if byte_eqb b sep then [] :: Split s' sep
    else match Split s' sep with
         | p :: ps => (b :: p) :: ps
         | [] => [[b]]
         end
  end.

(** [utf8.ValidString]: no rune decodes to an error of width one. *)
Fixpoint valid_fuel (fuel : nat) (s : bytes) : bool :=
  match fuel, s with
  | S fuel', _ :: _ =>
    let '(c, w) := DecodeRune s in
    if (c =? RuneError) && (w =? 1)%nat then false else valid_fuel fuel' (drop w s)
  | _, _ => true
  end.
Definition ValidString (s : bytes) : bool := valid_fuel (length s) s.

(** ** Package strconv *)

Definition is_digit (b : byte) : bool := (48 <=? byteZ b) && (byteZ b <=? 57).

Fixpoint digits_value (acc : Z) (s : bytes) : option Z :=
  match s with
  | [] => Some acc
  | b :: s' => if is_digit b then digits_value (10 * acc + (byteZ b - 48)) s' else None
  end.

(** [strconv.Atoi]: an optional sign and at least one decimal digit, in the
    range of [int]; [None] stands for the two [*NumError]s. *)
Definition Atoi (s : bytes) : option Z :=
  let '(neg, ds) :=
    match s with
    | b :: s' => if byteZ b =? 45 then (true, s')
                 else if byteZ b =? 43 then (false, s') else (false, s)
    | [] => (false, [])
    end in
  match ds with
  | [] => None
  | _ => match digits_value 0 ds with
         | Some v =>
           let v := if neg : bool then - v else v in
           if (- 2 ^ 63 <=? v) && (v <? 2 ^ 63) then Some v else None
         | None => None
         end
  end.

(** [strconv.ParseInt] in base 10 with 32 bits. *)
Definition ParseInt32 (s : bytes) : option Z :=
  match Atoi s with
  | Some v => if (- 2 ^ 31 <=? v) && (v <? 2 ^ 31) then Some v else None
  | None => None
  end.

(** Hexadecimal digits: written in lower case, read in either. *)
Definition hex_lower (z : Z) : byte := if z <? 10 then byte_of_Z (48 + z) else byte_of_Z (87 + z).

Definition hex_value (b : byte) : option Z :=
  let c := byteZ b in
  if (48 <=? c) && (c <=? 57) then Some (c - 48)
  else if (65 <=? c) && (c <=? 70) then Some (c - 55)
  else if (97 <=? c) && (c <=? 102) then Some (c - 87)
  else None.

(** [<] on strings: the order of their bytes. *)
Fixpoint bytes_ltb (s t : bytes) : bool :=
  match s, t with
  | _, [] => false
  | [], _ :: _ => true
  | a :: s', b :: t' =>
    if byteZ a <? byteZ b then true else if byteZ b <? byteZ a then false else bytes_ltb s' t'
  end.

(** ** Lemmas *)

Lemma has_prefix_spec p s : has_prefix p s = true <-> exists t, s = p ++ t.
Proof.
  revert s; induction p as [|a p IH]; intros s; simpl.
  - split; [eauto|done].
  - destruct s as [|b s]; [split; [done|intros [t Ht]; done]|].
    rewrite andb_true_iff, byte_eqb_eq, IH. split.
    + intros [-> [t ->]]. eauto.
    + intros [t Ht]. injection Ht as -> ->. eauto.
Qed.

Lemma has_prefix_refl p : has_prefix p p = true.
Proof. apply has_prefix_spec. exists []. by rewrite app_nil_r. Qed.

Lemma Contains_spec s sub :
  Contains s sub = true <-> exists l r, s = l ++ sub ++ r.
Proof.
  induction s as [|b s IH]; simpl.
  - rewrite orb_false_r, has_prefix_spec. split.
    + intros [t Ht]. exists [], t. done.
    + intros (l & r & Ht). destruct l; [|done]. eauto.
  - rewrite orb_true_iff, has_prefix_spec, IH. split.
    + intros [[t Ht] | (l & r & ->)]; [by exists [], t|by exists (b :: l), r].
    + intros (l & r & Ht). destruct l as [|b' l]; [left; by exists r|right].
      injection Ht as -> ->. eauto.
Qed.

Lemma Contains_nil s : Contains s [] = true.
Proof. apply Contains_spec. by exists [], s. Qed.

Lemma DecodeRune_width s : s <> [] -> (1 <= (DecodeRune s).2 <= 4)%nat.
Proof.
  destruct s as [|b0 s]; [done|intros _]. simpl.
  repeat case_match; simpl; lia.
Qed.

Lemma Atoi_range s v : Atoi s = Some v -> in_s 64 v.
Proof.
  unfold Atoi, in_s. intros H. repeat case_match; simplify_eq.
  all: match goal with E : _ && _ = true |- _ =>
         apply andb_true_iff in E as [?%Z.leb_le ?%Z.ltb_lt] end; simpl in *; lia.
Qed.

(** A string that starts and ends with a visible ASCII character is trimmed. *)
Definition visible (b : byte) : bool := (0x20 <? byteZ b) && (byteZ b <? 0x80).

Lemma visible_not_space b : visible b = true -> byteZ b < 0x80 /\ IsSpace (byteZ b) = false.
Proof.
  unfold visible, IsSpace. intros [?%Z.ltb_lt ?%Z.ltb_lt]%andb_true_iff. split; [done|].
  repeat match goal with
  | |- context [?x <=? ?y] => destruct (Z.leb_spec x y); try lia
  | |- context [?x =? ?y] => destruct (Z.eqb_spec x y); try lia
  end; reflexivity.
Qed.

Lemma trim_left_visible n b s : visible b = true -> trim_left n (b :: s) = b :: s.
Proof.
  intros [Hb Hs]%visible_not_space. destruct n; [done|]. cbn [trim_left DecodeRune].
  rewrite (proj2 (Z.ltb_lt _ _) Hb). by rewrite Hs.
Qed.

Lemma trim_right_visible n b s : visible b = true -> trim_right n (b :: s) = b :: s.
Proof.
  intros [Hb Hs]%visible_not_space. destruct n; [done|]. cbn [trim_right DecodeLastRune].
  rewrite (proj2 (Z.ltb_lt _ _) Hb). by rewrite Hs.
Qed.

(** The start of the last rune is searched in the bytes before it. *)
Lemma last_rune_start_take n r acc :
  exists k, last_rune_start n r acc = reverse (take k r) ++ acc /\ (k <= length r)%nat.
Proof.
  revert r acc; induction n as [|n IH]; intros r acc; [by exists 0%nat; split; [|lia]|].
  destruct r as [|b r]; [by exists 0%nat|]. cbn [last_rune_start]. destruct (is_cont b).
  - destruct (IH r (b :: acc)) as (k & -> & Hk). exists (S k). cbn [take length].
    rewrite reverse_cons, <- app_assoc. split; [done|lia].
  - exists 1%nat. cbn. split; [done|lia].
Qed.

(** A space at the end never begins with a visible byte. *)
Lemma DecodeLastRune_space r b c w :
  visible b = true -> DecodeLastRune (r ++ [b]) = (c, w) -> IsSpace c = true -> (w <= length r)%nat.
Proof.
  intros [Hb Hs]%visible_not_space. destruct r as [|x r]; cbn [app DecodeLastRune].
  { rewrite (proj2 (Z.ltb_lt _ _) Hb). intros [= <- <-]. congruence. }
  destruct (byteZ x <? 0x80); [intros [= <- <-] _; cbn [length]; lia|].
  destruct (last_rune_start_take 3 (r ++ [b]) [x]) as (k & -> & Hk). rewrite length_app in Hk.
  cbn [length] in *. destruct (decide (k <= length r)%nat) as [Hle|Hgt].
  - rewrite take_app_le by done. set (t := reverse (take k r) ++ [x]).
    assert (length t <= S (length r))%nat as Ht
      by (unfold t; rewrite length_app, length_reverse, length_take; cbn [length]; lia).
    destruct (DecodeRune t) as [c' size]. destruct (Nat.eqb_spec size (length t)); intros [= <- <-]; lia.
  - rewrite take_ge by (rewrite length_app; cbn [length]; lia). rewrite reverse_snoc. cbn [app DecodeRune].
    rewrite (proj2 (Z.ltb_lt _ _) Hb). cbn [length].
    rewrite (proj2 (Nat.eqb_neq 1 _)) by (rewrite length_app; cbn [length]; lia).
    intros [= <- <-]. by vm_compute.
Qed.

Lemma trim_right_ends n r b : visible b = true -> exists r', trim_right n (r ++ [b]) = r' ++ [b].
Proof.
  intros Hb. revert r; induction n as [|n IH]; intros r; [by exists r|].
  assert (trim_right (S n) (r ++ [b]) =
          let '(c, w) := DecodeLastRune (r ++ [b]) in
          if IsSpace c then trim_right n (drop w (r ++ [b])) else r ++ [b]) as ->
    by (destruct r; reflexivity).
  destruct (DecodeLastRune (r ++ [b])) as [c w] eqn:E. destruct (IsSpace c) eqn:Es; [|by exists r].
  rewrite drop_app_le by (by apply (DecodeLastRune_space r b c w)). apply IH.
Qed.

Lemma TrimSpace_starts b s : visible b = true -> exists t, TrimSpace (b :: s) = b :: t.
Proof.
  intros Hb. unfold TrimSpace. rewrite trim_left_visible by done. rewrite reverse_cons.
  destruct (trim_right_ends (length (b :: s)) (reverse s) b Hb) as [r ->].
  exists (reverse r). apply reverse_snoc.
Qed.

Lemma TrimSpace_visible a s b :
  visible a = true -> visible b = true -> TrimSpace (a :: s ++ [b]) = a :: s ++ [b].
Proof.
  intros Ha Hb. unfold TrimSpace. rewrite trim_left_visible by done.
  assert (reverse (a :: s ++ [b]) = b :: reverse (a :: s)) as ->.
  { rewrite app_comm_cons. apply reverse_snoc. }
  rewrite trim_right_visible by done. rewrite reverse_cons, reverse_involutive. done.
Qed.
