(* ===== verification/GoUtf8.v ===== *)
(** * Valid UTF-8

    A string is valid exactly when it is the encoding of a list of Unicode
    scalar values. Decoding inverts encoding, and trimming white space keeps a
    string valid. *)

From S2P Require Import Prelude GoStrings.

Local Open Scope Z_scope.

(** Code points that are not surrogates. *)
Definition is_scalar (r : Z) : Prop := 0 <= r <= 0x10FFFF /\ ~ (0xD800 <= r <= 0xDFFF).

#[export] Instance is_scalar_dec r : Decision (is_scalar r).
Proof. unfold is_scalar. apply _. Defined.

Definition encode_runes (rs : list Z) : bytes := flat_map EncodeRune rs.

Definition utf8 (s : bytes) : Prop := exists rs, Forall is_scalar rs /\ s = encode_runes rs.

(** ** Bits of a rune *)

Lemma testbit_small b n i : 0 <= b < 2 ^ n -> n <= i -> Z.testbit b i = false.
Proof.
  intros Hb Hi. destruct (Z.eq_dec b 0) as [->|]; [apply Z.bits_0|].
  apply Z.bits_above_log2; [lia|]. assert (Z.log2 b < n) by (apply Z.log2_lt_pow2; lia). lia.
Qed.

Lemma lor_add a n b : 0 <= n -> 0 <= b < 2 ^ n -> Z.lor (Z.shiftl a n) b = a * 2 ^ n + b.
Proof.
  intros Hn Hb. rewrite <- Z.shiftl_mul_pow2 by done.
  assert (Z.land (Z.shiftl a n) b = 0) as H0.
  { apply Z.bits_inj'; intros i Hi. rewrite Z.bits_0, Z.land_spec.
    destruct (Z.lt_ge_cases i n); [by rewrite Z.shiftl_spec_low|].
    by rewrite (testbit_small b n i), andb_false_r by lia. }
  pose proof (Z.add_lor_land (Z.shiftl a n) b). lia.
Qed.

Lemma land_63 x : Z.land x 0x3F = x mod 64.
Proof. exact (Z.land_ones x 6 ltac:(lia)). Qed.
Lemma land_31 x : Z.land x 0x1F = x mod 32.
Proof. exact (Z.land_ones x 5 ltac:(lia)). Qed.
Lemma land_15 x : Z.land x 0x0F = x mod 16.
Proof. exact (Z.land_ones x 4 ltac:(lia)). Qed.
Lemma land_7 x : Z.land x 0x07 = x mod 8.
Proof. exact (Z.land_ones x 3 ltac:(lia)). Qed.

Lemma cont_bits_mod b : cont_bits b = byteZ b mod 64.
Proof. apply land_63. Qed.

Lemma cont_bits_range b : 0 <= cont_bits b < 2 ^ 6.
Proof. rewrite cont_bits_mod. apply Z.mod_pos_bound. lia. Qed.

Lemma is_cont_iff b : is_cont b = true <-> 0x80 <= byteZ b < 0xC0.
Proof. unfold is_cont. rewrite andb_true_iff, Z.leb_le, Z.ltb_lt. lia. Qed.

Lemma cont_in_iff lo hi b : cont_in lo hi b = true <-> lo <= byteZ b <= hi.
Proof. unfold cont_in. rewrite andb_true_iff, !Z.leb_le. lia. Qed.

(** The runes of two, three and four bytes as numbers. *)
Lemma rune2 c b1 :
  Z.lor (Z.shiftl (Z.land c 0x1F) 6) (cont_bits b1) = (c mod 32) * 64 + byteZ b1 mod 64.
Proof.
  rewrite lor_add by (lia || apply cont_bits_range). by rewrite land_31, cont_bits_mod.
Qed.

Lemma rune3 c b1 b2 :
  Z.lor (Z.shiftl (Z.land c 0x0F) 12) (Z.lor (Z.shiftl (cont_bits b1) 6) (cont_bits b2)) =
  (c mod 16) * 4096 + (byteZ b1 mod 64) * 64 + byteZ b2 mod 64.
Proof.
  pose proof (cont_bits_range b1). pose proof (cont_bits_range b2).
  rewrite (lor_add (cont_bits b1)), lor_add by lia.
  rewrite land_15, !cont_bits_mod. lia.
Qed.

Lemma rune4 c b1 b2 b3 :
  Z.lor (Z.shiftl (Z.land c 0x07) 18)
    (Z.lor (Z.shiftl (cont_bits b1) 12) (Z.lor (Z.shiftl (cont_bits b2) 6) (cont_bits b3))) =
  (c mod 8) * 262144 + (byteZ b1 mod 64) * 4096 + (byteZ b2 mod 64) * 64 + byteZ b3 mod 64.
Proof.
  pose proof (cont_bits_range b1). pose proof (cont_bits_range b2). pose proof (cont_bits_range b3).
  rewrite (lor_add (cont_bits b2)), (lor_add (cont_bits b1)), lor_add by lia.
  rewrite land_7, !cont_bits_mod. lia.
Qed.

(** Comparisons in the goal, decided or split. *)
Ltac cmp :=
  repeat match goal with
  | |- context [?x <? ?y] => destruct (Z.ltb_spec x y); try lia
  | |- context [?x <=? ?y] => destruct (Z.leb_spec x y); try lia
  | |- context [?x =? ?y] => destruct (Z.eqb_spec x y); try lia
  end; cbn [andb orb].

(** ** Encoding *)

(** The encoding of a scalar, by its width. *)
Lemma EncodeRune_scalar r :
  is_scalar r ->
  EncodeRune r =
    if r <? 0x80 then [byte_of_Z r]
    else if r <? 0x800 then [byte_of_Z (0xC0 + r / 64); byte_of_Z (0x80 + r mod 64)]
    else if r <? 0x10000 then
      [byte_of_Z (0xE0 + r / 4096); byte_of_Z (0x80 + (r / 64) mod 64); byte_of_Z (0x80 + r mod 64)]
    else
      [byte_of_Z (0xF0 + r / 262144); byte_of_Z (0x80 + (r / 4096) mod 64);
       byte_of_Z (0x80 + (r / 64) mod 64); byte_of_Z (0x80 + r mod 64)].
Proof.
  intros [Hr Hs]. unfold EncodeRune.
  assert ((r <? 0) || (0x10FFFF <? r) || ((0xD800 <=? r) && (r <=? 0xDFFF)) = false) as ->
    by (cmp; reflexivity).
  rewrite !land_63, !Z.shiftr_div_pow2 by lia. reflexivity.
Qed.

Lemma byteZ_small z : 0 <= z < 256 -> byteZ (byte_of_Z z) = z.
Proof. intros. rewrite byteZ_byte_of_Z. by apply Z.mod_small. Qed.

Lemma byteZ_eqb_ne a b : byteZ a <> byteZ b -> byte_eqb a b = false.
Proof. intros H. apply byte_eqb_neq. by intros ->. Qed.

(** ** Decoding, by the width of the sequence *)

Lemma DecodeRune_1 b s : byteZ b < 0x80 -> DecodeRune (b :: s) = (byteZ b, 1%nat).
Proof. intros H. cbn [DecodeRune]. cbv zeta. by rewrite (proj2 (Z.ltb_lt _ _) H). Qed.

Lemma DecodeRune_2 b0 b1 s :
  0xC2 <= byteZ b0 <= 0xDF -> 0x80 <= byteZ b1 < 0xC0 ->
  DecodeRune (b0 :: b1 :: s) = ((byteZ b0 - 0xC0) * 64 + (byteZ b1 - 0x80), 2%nat).
Proof.
  intros H0 H1. cbn [DecodeRune]. cbv zeta. rewrite rune2, (proj2 (is_cont_iff b1)) by lia.
  cmp. f_equal. Z.to_euclidean_division_equations; lia.
Qed.

Lemma DecodeRune_3 b0 b1 b2 s :
  0xE0 <= byteZ b0 <= 0xEF ->
  (if byteZ b0 =? 0xE0 then 0xA0 else 0x80) <= byteZ b1 <= (if byteZ b0 =? 0xED then 0x9F else 0xBF) ->
  0x80 <= byteZ b2 < 0xC0 ->
  DecodeRune (b0 :: b1 :: b2 :: s) =
    ((byteZ b0 - 0xE0) * 4096 + (byteZ b1 - 0x80) * 64 + (byteZ b2 - 0x80), 3%nat).
Proof.
  intros H0 H1 H2. cbn [DecodeRune]. cbv zeta.
  rewrite rune3, (proj2 (cont_in_iff _ _ b1) H1), (proj2 (is_cont_iff b2)) by lia.
  assert (0x80 <= byteZ b1 <= 0xBF) by (destruct (byteZ b0 =? 0xE0), (byteZ b0 =? 0xED); lia).
  clear H1. cmp; f_equal; Z.to_euclidean_division_equations; lia.
Qed.

Lemma DecodeRune_4 b0 b1 b2 b3 s :
  0xF0 <= byteZ b0 <= 0xF4 ->
  (if byteZ b0 =? 0xF0 then 0x90 else 0x80) <= byteZ b1 <= (if byteZ b0 =? 0xF4 then 0x8F else 0xBF) ->
  0x80 <= byteZ b2 < 0xC0 -> 0x80 <= byteZ b3 < 0xC0 ->
  DecodeRune (b0 :: b1 :: b2 :: b3 :: s) =
    ((byteZ b0 - 0xF0) * 262144 + (byteZ b1 - 0x80) * 4096 + (byteZ b2 - 0x80) * 64 + (byteZ b3 - 0x80),
     4%nat).
Proof.
  intros H0 H1 H2 H3. cbn [DecodeRune]. cbv zeta.
  rewrite rune4, (proj2 (cont_in_iff _ _ b1) H1), (proj2 (is_cont_iff b2)), (proj2 (is_cont_iff b3)) by lia.
  assert (0x80 <= byteZ b1 <= 0xBF) by (destruct (byteZ b0 =? 0xF0), (byteZ b0 =? 0xF4); lia).
  clear H1. cmp; f_equal; Z.to_euclidean_division_equations; lia.
Qed.

(** A rune that is no scalar decodes as an error of width one. *)
Lemma DecodeRune_inv b s c w :
  DecodeRune (b :: s) = (c, w) ->
  (c = RuneError /\ w = 1%nat /\ 0x80 <= byteZ b) \/
  (c = byteZ b /\ w = 1%nat /\ byteZ b < 0x80) \/
  (exists b1 s', s = b1 :: s' /\ w = 2%nat /\ 0xC2 <= byteZ b <= 0xDF /\ 0x80 <= byteZ b1 < 0xC0) \/
  (exists b1 b2 s', s = b1 :: b2 :: s' /\ w = 3%nat /\ 0xE0 <= byteZ b <= 0xEF /\
     (if byteZ b =? 0xE0 then 0xA0 else 0x80) <= byteZ b1 <= (if byteZ b =? 0xED then 0x9F else 0xBF) /\
     0x80 <= byteZ b2 < 0xC0) \/
  (exists b1 b2 b3 s', s = b1 :: b2 :: b3 :: s' /\ w = 4%nat /\ 0xF0 <= byteZ b <= 0xF4 /\
     (if byteZ b =? 0xF0 then 0x90 else 0x80) <= byteZ b1 <= (if byteZ b =? 0xF4 then 0x8F else 0xBF) /\
     0x80 <= byteZ b2 < 0xC0 /\ 0x80 <= byteZ b3 < 0xC0).
Proof.
  cbn [DecodeRune]. cbv zeta.
  destruct (Z.ltb_spec (byteZ b) 0x80); [intros [= <- <-]; auto|].
  destruct (Z.leb_spec 0xC2 (byteZ b)), (Z.leb_spec (byteZ b) 0xDF); cbn [andb];
    [destruct s as [|b1 s]; [intros [= <- <-]; auto|]; destruct (is_cont b1) eqn:E1;
     [|intros [= <- <-]; auto]; apply is_cont_iff in E1; intros [= _ <-]; right; right; left;
     by exists b1, s|..];
  destruct (Z.leb_spec 0xE0 (byteZ b)), (Z.leb_spec (byteZ b) 0xEF); try lia; cbn [andb];
    try (destruct s as [|b1 [|b2 s]]; [intros [= <- <-]; by auto..|];
      destruct (cont_in _ _ b1 && is_cont b2) eqn:E1; [|intros [= <- <-]; by auto];
      apply andb_true_iff in E1 as [E1%cont_in_iff E2%is_cont_iff]; intros [= _ <-];
      right; right; right; left; by exists b1, b2, s);
  destruct (Z.leb_spec 0xF0 (byteZ b)), (Z.leb_spec (byteZ b) 0xF4); try lia; cbn [andb];
    try (intros [= <- <-]; by auto);
  (destruct s as [|b1 [|b2 [|b3 s]]]; [intros [= <- <-]; by auto..|];
   destruct (cont_in _ _ b1 && is_cont b2 && is_cont b3) eqn:E1; [|intros [= <- <-]; by auto];
   rewrite !andb_true_iff in E1; destruct E1 as [[E1%cont_in_iff E2%is_cont_iff] E3%is_cont_iff];
   intros [= _ <-]; right; right; right; right; by exists b1, b2, b3, s).
Qed.

(** Decoding gives an encoded rune back. *)
Lemma DecodeRune_encode r s :
  is_scalar r -> DecodeRune (EncodeRune r ++ s) = (r, length (EncodeRune r)).
Proof.
  intros Hr. rewrite EncodeRune_scalar by done. destruct Hr as [Hr Hs].
  destruct (Z.ltb_spec r 0x80); [|destruct (Z.ltb_spec r 0x800); [|destruct (Z.ltb_spec r 0x10000)]];
    cbn [app length].
  - by rewrite DecodeRune_1; rewrite byteZ_small by lia.
  - rewrite DecodeRune_2; rewrite !byteZ_small by (Z.to_euclidean_division_equations; lia);
      [f_equal|..]; Z.to_euclidean_division_equations; lia.
  - rewrite DecodeRune_3; rewrite !byteZ_small by (Z.to_euclidean_division_equations; lia);
      cmp; [f_equal|..]; Z.to_euclidean_division_equations; lia.
  - rewrite DecodeRune_4; rewrite !byteZ_small by (Z.to_euclidean_division_equations; lia);
      cmp; [f_equal|..]; Z.to_euclidean_division_equations; lia.
Qed.

(** Encoding gives a decoded scalar back. *)
Lemma EncodeRune_decode b s c w :
  DecodeRune (b :: s) = (c, w) ->
  (c = RuneError /\ w = 1%nat /\ 0x80 <= byteZ b) \/
  (is_scalar c /\ exists s', b :: s = EncodeRune c ++ s' /\ w = length (EncodeRune c)).
Proof.
  intros E. pose proof E as E'. apply DecodeRune_inv in E as
    [?|[(-> & -> & H0)|[(b1 & s' & -> & -> & H0 & H1)|[(b1 & b2 & s' & -> & -> & H0 & H1 & H2)|
     (b1 & b2 & b3 & s' & -> & -> & H0 & H1 & H2 & H3)]]]]; [by left|right..];
    pose proof (byteZ_range b).
  - assert (is_scalar (byteZ b)) as Hs by (unfold is_scalar; lia). split; [done|].
    exists s. rewrite EncodeRune_scalar by done. cmp. by rewrite byte_of_Z_byteZ.
  - rewrite DecodeRune_2 in E' by done. injection E' as <-.
    match goal with |- is_scalar ?x /\ _ => set (c := x) end.
    assert (is_scalar c) as Hs by (unfold is_scalar, c; lia). split; [done|]. exists s'.
    rewrite EncodeRune_scalar by done. unfold c in *. cmp. split; [|done]. cbn [app].
    rewrite <- (byte_of_Z_byteZ b) at 1. rewrite <- (byte_of_Z_byteZ b1) at 1.
    repeat f_equal; Z.to_euclidean_division_equations; lia.
  - rewrite DecodeRune_3 in E' by done. injection E' as <-.
    assert (0x80 <= byteZ b1 <= 0xBF) by (destruct (byteZ b =? 0xE0), (byteZ b =? 0xED); lia).
    match goal with |- is_scalar ?x /\ _ => set (c := x) end.
    assert (is_scalar c /\ 0x800 <= c < 0x10000) as [Hs Hc].
    { unfold is_scalar, c. revert H1. cmp; intros; lia. }
    split; [done|]. exists s'. rewrite EncodeRune_scalar by done. cmp. unfold c. split; [|done].
    cbn [app]. rewrite <- (byte_of_Z_byteZ b) at 1. rewrite <- (byte_of_Z_byteZ b1) at 1.
    rewrite <- (byte_of_Z_byteZ b2) at 1.
    repeat f_equal; Z.to_euclidean_division_equations; lia.
  - rewrite DecodeRune_4 in E' by done. injection E' as <-.
    assert (0x80 <= byteZ b1 <= 0xBF) by (destruct (byteZ b =? 0xF0), (byteZ b =? 0xF4); lia).
    match goal with |- is_scalar ?x /\ _ => set (c := x) end.
    assert (is_scalar c /\ 0x10000 <= c) as [Hs Hc].
    { unfold is_scalar, c. revert H1. cmp; intros; lia. }
    split; [done|]. exists s'. rewrite EncodeRune_scalar by done. cmp. unfold c. split; [|done].
    cbn [app]. rewrite <- (byte_of_Z_byteZ b) at 1. rewrite <- (byte_of_Z_byteZ b1) at 1.
    rewrite <- (byte_of_Z_byteZ b2) at 1. rewrite <- (byte_of_Z_byteZ b3) at 1.
    repeat f_equal; Z.to_euclidean_division_equations; lia.
Qed.

Lemma EncodeRune_length r : (1 <= length (EncodeRune r) <= 4)%nat.
Proof. unfold EncodeRune. case_if_all; cbn [length]; lia. Qed.

(** What is encoded is always a scalar. *)
Lemma EncodeRune_any r : exists r', is_scalar r' /\ EncodeRune r = EncodeRune r'.
Proof.
  destruct (decide (is_scalar r)) as [|Hn]; [by exists r|]. exists RuneError.
  split; [unfold is_scalar, RuneError; lia|].
  assert ((r <? 0) || (0x10FFFF <? r) || ((0xD800 <=? r) && (r <=? 0xDFFF)) = true) as E.
  { unfold is_scalar in Hn. cmp; try done; lia. }
  unfold EncodeRune. by rewrite E.
Qed.

(** ** Valid strings *)

Lemma utf8_nil : utf8 [].
Proof. by exists []. Qed.

Lemma utf8_cons r s : is_scalar r -> utf8 s -> utf8 (EncodeRune r ++ s).
Proof. intros Hr (rs & Hrs & ->). exists (r :: rs). by split; [constructor|]. Qed.

Lemma utf8_rune r : utf8 (EncodeRune r).
Proof.
  destruct (EncodeRune_any r) as (r' & Hr & ->). rewrite <- (app_nil_r (EncodeRune r')).
  by apply utf8_cons, utf8_nil.
Qed.

Lemma utf8_app s t : utf8 s -> utf8 t -> utf8 (s ++ t).
Proof.
  intros (rs & Hrs & ->) (ts & Hts & ->). exists (rs ++ ts). split; [by apply Forall_app|].
  unfold encode_runes. by rewrite flat_map_app.
Qed.

Lemma utf8_flat_map {A} (f : A -> Z) l : utf8 (flat_map (fun a => EncodeRune (f a)) l).
Proof. induction l as [|a l IH]; [apply utf8_nil|]. cbn [flat_map]. apply utf8_app; [apply utf8_rune|done]. Qed.

Lemma utf8_byte b : byteZ b < 0x80 -> utf8 [b].
Proof.
  intros Hb. pose proof (byteZ_range b). pose proof (utf8_rune (byteZ b)) as H'.
  rewrite EncodeRune_scalar in H' by (unfold is_scalar; lia).
  rewrite (proj2 (Z.ltb_lt _ _) Hb), byte_of_Z_byteZ in H'. exact H'.
Qed.

(** A valid string is empty or starts with a rune. *)
Lemma utf8_inv b s :
  utf8 (b :: s) ->
  exists r s', is_scalar r /\ utf8 s' /\ b :: s = EncodeRune r ++ s' /\
               DecodeRune (b :: s) = (r, length (EncodeRune r)).
Proof.
  intros (rs & Hrs & E). destruct rs as [|r rs]; [done|]. inversion_clear Hrs.
  cbn [encode_runes flat_map] in E. fold (encode_runes rs) in E.
  exists r, (encode_runes rs). rewrite E. rewrite DecodeRune_encode by done. split; [done|].
  split; [by exists rs|]. done.
Qed.

Lemma valid_fuel_utf8 n s : (length s <= n)%nat -> valid_fuel n s = true <-> utf8 s.
Proof.
  revert s; induction n as [|n IH]; intros [|b s] Hn; cbn [length] in Hn; try lia;
    try (split; [intros; apply utf8_nil|done]).
  cbn [valid_fuel]. destruct (DecodeRune (b :: s)) as [c w] eqn:E.
  pose proof (EncodeRune_decode _ _ _ _ E) as [(-> & -> & Hb)|(Hc & s' & Es & ->)].
  - cbn. split; [done|]. intros (r & s' & Hr & _ & _ & E')%utf8_inv. rewrite E in E'.
    injection E' as <- Hl. vm_compute in Hl. done.
  - pose proof (EncodeRune_length c). rewrite Es, drop_app_length.
    assert (length (b :: s) = (length (EncodeRune c) + length s')%nat) as Hls
      by (by rewrite Es, length_app). cbn [length] in Hls.
    assert ((c =? RuneError) && (length (EncodeRune c) =? 1)%nat = false) as ->.
    { apply andb_false_iff. destruct (Z.eqb_spec c RuneError) as [->|]; [by right|by left]. }
    rewrite IH by lia. split; [by apply utf8_cons|].
    intros H'. rewrite <- Es in H'. apply utf8_inv in H' as (r & s2 & _ & Hs2 & Es2 & E2).
    rewrite E in E2. injection E2 as <- _. rewrite Es in Es2. apply app_inv_head in Es2. by subst.
Qed.

Lemma ValidString_utf8 s : ValidString s = true <-> utf8 s.
Proof. by apply valid_fuel_utf8. Qed.

#[export] Instance utf8_dec s : Decision (utf8 s).
Proof.
  refine (cast_if (decide (ValidString s = true))); by rewrite <- ValidString_utf8.
Defined.

(** A literal of the source. *)
Lemma utf8_ascii s : Forall (fun b => byteZ b < 0x80) s -> utf8 s.
Proof.
  induction 1 as [|b s Hb Hs IH]; [apply utf8_nil|]. apply (utf8_app [b]); [by apply utf8_byte|done].
Qed.

(** ** Trimming *)

(** White space at the front of a list of runes. *)
Fixpoint skip_spaces (rs : list Z) : list Z :=
  match rs with
  | r :: rs' => if IsSpace r then skip_spaces rs' else rs
  | [] => []
  end.

Definition trim_runes (rs : list Z) : list Z :=
  reverse (skip_spaces (reverse (skip_spaces rs))).

Lemma encode_runes_cons r rs : encode_runes (r :: rs) = EncodeRune r ++ encode_runes rs.
Proof. done. Qed.

Lemma encode_runes_snoc rs r : encode_runes (rs ++ [r]) = encode_runes rs ++ EncodeRune r.
Proof. unfold encode_runes. rewrite flat_map_app. cbn [flat_map]. by rewrite app_nil_r. Qed.

Lemma encode_runes_length rs : (length rs <= length (encode_runes rs))%nat.
Proof.
  induction rs as [|r rs IH]; [done|]. rewrite encode_runes_cons, length_app. cbn [length].
  pose proof (EncodeRune_length r). lia.
Qed.

Lemma skip_spaces_Forall (P : Z -> Prop) rs : Forall P rs -> Forall P (skip_spaces rs).
Proof. induction 1; cbn [skip_spaces]; [done|]. destruct (IsSpace _); [done|by constructor]. Qed.

(** Skipping twice is skipping once. *)
Lemma skip_spaces_idem rs : skip_spaces (skip_spaces rs) = skip_spaces rs.
Proof.
  induction rs as [|r rs IH]; [done|]. cbn [skip_spaces]. destruct (IsSpace r) eqn:E; [done|].
  cbn [skip_spaces]. by rewrite E.
Qed.

(** Skipping at the end does not expose white space at the front. *)
Lemma skip_spaces_snoc rs r :
  skip_spaces (rs ++ [r]) = if IsSpace r then match skip_spaces rs with [] => [] | l => l ++ [r] end
                            else skip_spaces rs ++ [r].
Proof.
  induction rs as [|x rs IH]; cbn [app skip_spaces]; [by destruct (IsSpace r)|].
  destruct (IsSpace x); [done|]. by destruct (IsSpace r).
Qed.

Lemma skip_spaces_trim rs : skip_spaces rs = rs -> skip_spaces (reverse (skip_spaces (reverse rs))) =
  reverse (skip_spaces (reverse rs)).
Proof.
  induction rs as [|r rs IH] using rev_ind; [done|]. rewrite reverse_snoc. cbn [skip_spaces].
  rewrite skip_spaces_snoc. destruct (IsSpace r) eqn:E.
  - intros Hs. apply IH. destruct (skip_spaces rs) as [|x l]; [by destruct rs|].
    by apply app_inj_tail in Hs as [-> _].
  - intros Hs. apply app_inj_tail in Hs as [Hs _]. rewrite reverse_cons, reverse_involutive.
    by rewrite skip_spaces_snoc, E, Hs.
Qed.

Lemma trim_runes_idem rs : trim_runes (trim_runes rs) = trim_runes rs.
Proof.
  unfold trim_runes. rewrite (skip_spaces_trim (skip_spaces rs)) by apply skip_spaces_idem.
  by rewrite reverse_involutive, skip_spaces_idem.
Qed.

Lemma trim_runes_Forall (P : Z -> Prop) rs : Forall P rs -> Forall P (trim_runes rs).
Proof. intros H. by apply Forall_reverse, skip_spaces_Forall, Forall_reverse, skip_spaces_Forall. Qed.

Lemma trim_left_runes n rs :
  Forall is_scalar rs -> (length rs <= n)%nat ->
  trim_left n (encode_runes rs) = encode_runes (skip_spaces rs).
Proof.
  intros Hrs. revert n; induction Hrs as [|r rs Hr Hrs IH]; intros n Hn; [by destruct n|].
  cbn [length] in Hn. destruct n as [|n]; [lia|]. rewrite encode_runes_cons.
  pose proof (DecodeRune_encode r (encode_runes rs) Hr) as E. pose proof (EncodeRune_length r) as Hl.
  destruct (EncodeRune r ++ encode_runes rs) as [|b t] eqn:Et.
  { apply app_eq_nil in Et as [Et _]. rewrite Et in Hl. cbn in Hl. lia. }
  cbn [trim_left skip_spaces]. rewrite E. destruct (IsSpace r).
  - rewrite <- Et, drop_app_length. apply IH. lia.
  - by rewrite encode_runes_cons, Et.
Qed.

(** The continuation bytes of a rune. *)
Lemma EncodeRune_shape r :
  is_scalar r -> 0x80 <= r ->
  exists b tl, EncodeRune r = b :: tl /\ is_cont b = false /\ 0x80 <= byteZ b /\
               Forall (fun c => is_cont c = true) tl /\ (1 <= length tl <= 3)%nat.
Proof.
  intros Hr Hb. rewrite EncodeRune_scalar by done. destruct Hr as [Hr _]. cmp;
    do 2 eexists; (split; [reflexivity|]); unfold is_cont;
    rewrite byteZ_small by (Z.to_euclidean_division_equations; lia);
    (split; [apply andb_false_iff; right; apply Z.ltb_ge; Z.to_euclidean_division_equations; lia|]);
    (split; [Z.to_euclidean_division_equations; lia|]);
    (split; [|cbn [length]; lia]); repeat constructor;
    rewrite byteZ_small by (Z.to_euclidean_division_equations; lia); cmp; try done;
    Z.to_euclidean_division_equations; lia.
Qed.

Lemma last_rune_start_conts n tl b r acc :
  Forall (fun c => is_cont c = true) tl -> is_cont b = false -> (length tl < n)%nat ->
  last_rune_start n (reverse tl ++ b :: r) acc = b :: tl ++ acc.
Proof.
  intros Ht Hb. revert n acc. induction tl as [|c tl IH] using rev_ind; intros n acc Hn.
  - destruct n; [lia|]. cbn [reverse rev_append app last_rune_start]. by rewrite Hb.
  - apply Forall_app in Ht as [Ht Hc]. inversion_clear Hc.
    rewrite length_app in Hn. cbn [length] in Hn. destruct n as [|n]; [lia|].
    rewrite reverse_app. cbn [reverse rev_append app last_rune_start].
    rewrite H, IH by (done || lia). by rewrite <- app_assoc.
Qed.

Lemma DecodeLastRune_encode r s :
  is_scalar r -> DecodeLastRune (reverse (s ++ EncodeRune r)) = (r, length (EncodeRune r)).
Proof.
  intros Hr. destruct (Z.lt_ge_cases r 0x80) as [Hs|Hb].
  - destruct Hr as [Hr Hn]. rewrite EncodeRune_scalar by done. rewrite (proj2 (Z.ltb_lt _ _) Hs).
    rewrite reverse_snoc. cbn [DecodeLastRune length]. by rewrite byteZ_small, (proj2 (Z.ltb_lt _ _) Hs) by lia.
  - destruct (EncodeRune_shape r Hr Hb) as (b & tl & E & Hc & Hb8 & Htl & Hl).
    pose proof (DecodeRune_encode r [] Hr) as Hd. rewrite app_nil_r in Hd. rewrite E in *.
    destruct tl as [|x tl _] using rev_ind; [cbn in Hl; lia|]. apply Forall_app in Htl as [Htl Hx].
    inversion_clear Hx. rewrite length_app in Hl. cbn [length] in Hl.
    replace (reverse (s ++ b :: tl ++ [x])) with (x :: reverse tl ++ b :: reverse s)
      by (by rewrite (app_assoc s (b :: tl) [x] : s ++ b :: tl ++ [x] = _), reverse_snoc,
               reverse_app, reverse_cons, <- app_assoc).
    cbn [DecodeLastRune]. apply is_cont_iff in H.
    destruct (Z.ltb_spec (byteZ x) 0x80); [lia|]. rewrite last_rune_start_conts by (done || lia).
    rewrite Hd. by rewrite Nat.eqb_refl.
Qed.

Lemma trim_right_runes n rs :
  Forall is_scalar rs -> (length rs <= n)%nat ->
  trim_right n (reverse (encode_runes rs)) = reverse (encode_runes (reverse (skip_spaces (reverse rs)))).
Proof.
  revert n; induction rs as [|r rs IH] using rev_ind; intros n Hrs Hn; [by destruct n|].
  apply Forall_app in Hrs as [Hrs Hr]. inversion_clear Hr.
  rewrite length_app in Hn. cbn [length] in Hn. destruct n as [|n]; [lia|].
  rewrite reverse_snoc, encode_runes_snoc. cbn [skip_spaces].
  pose proof (DecodeLastRune_encode r (encode_runes rs) H) as E. pose proof (EncodeRune_length r) as Hl.
  destruct (reverse (encode_runes rs ++ EncodeRune r)) as [|b u] eqn:Eu.
  { apply (f_equal length) in Eu. rewrite length_reverse, length_app in Eu. cbn [length] in Eu. lia. }
  cbn [trim_right]. rewrite E. destruct (IsSpace r).
  - rewrite <- Eu, reverse_app, <- length_reverse, drop_app_length. apply IH; [done|lia].
  - by rewrite reverse_cons, reverse_involutive, encode_runes_snoc, Eu.
Qed.

(** [strings.TrimSpace] on the runes of a valid string. *)
Lemma TrimSpace_runes rs :
  Forall is_scalar rs -> TrimSpace (encode_runes rs) = encode_runes (trim_runes rs).
Proof.
  intros Hrs. unfold TrimSpace. rewrite trim_left_runes by (done || apply encode_runes_length).
  rewrite trim_right_runes by (by apply skip_spaces_Forall || apply encode_runes_length).
  by rewrite reverse_involutive.
Qed.

Lemma TrimSpace_utf8 s : utf8 s -> utf8 (TrimSpace s).
Proof.
  intros (rs & Hrs & ->). rewrite TrimSpace_runes by done. exists (trim_runes rs).
  split; [by apply trim_runes_Forall|done].
Qed.

Lemma TrimSpace_idem s : utf8 s -> TrimSpace (TrimSpace s) = TrimSpace s.
Proof.
  intros (rs & Hrs & ->). rewrite TrimSpace_runes by done.
  rewrite TrimSpace_runes by by apply trim_runes_Forall. by rewrite trim_runes_idem.
Qed.

#[export] Hint Resolve utf8_nil utf8_app utf8_rune TrimSpace_utf8 : go.

(** ** Runes of a valid string *)

Lemma runes_encode rs : Forall is_scalar rs -> runes (encode_runes rs) = rs.
Proof.
  intros Hrs. unfold runes. assert (length (encode_runes rs) <= length (encode_runes rs))%nat as Hn by done.
  revert Hn. generalize (length (encode_runes rs)) at 2 3 as n.
  induction Hrs as [|r rs Hr _ IH]; intros n Hn; [by destruct n|].
  rewrite encode_runes_cons, length_app in *. pose proof (EncodeRune_length r).
  destruct n as [|n]; [lia|]. pose proof (DecodeRune_encode r (encode_runes rs) Hr) as Hd.
  destruct (EncodeRune r ++ encode_runes rs) as [|b s] eqn:E.
  { destruct (EncodeRune r); [cbn in *; lia|done]. }
  cbn [runes_fuel]. rewrite Hd. f_equal. rewrite <- E, drop_app_length. apply IH. lia.
Qed.
