(* ===== verification/GoSort.v ===== *)
(** * Go's package sort

    [sort.SliceStable]: insertion of each element after every element that is
    not greater, which for a strict weak order is the one stable sorted
    arrangement, whatever the algorithm. *)

From S2P Require Import Prelude.

Section sort.
Context {A : Type} (less : A -> A -> bool).

Fixpoint insert_stable (x : A) (l : list A) : list A :=
  match l with
  | [] => [x]
  | y :: l' => if less x y then x :: l else y :: insert_stable x l'
  end.

Definition SliceStable (l : list A) : list A :=
  foldl (fun sorted x => insert_stable x sorted) [] l.

Lemma insert_stable_perm x l : insert_stable x l ≡ₚ x :: l.
Proof.
  induction l as [|y l IH]; [done|]. cbn [insert_stable].
  destruct (less x y); [done|]. rewrite IH. apply Permutation_swap.
Qed.

Lemma SliceStable_perm l : SliceStable l ≡ₚ l.
Proof.
  unfold SliceStable. rewrite <- (app_nil_r l) at 2. generalize (@nil A) as acc.
  induction l as [|x l IH]; intros acc; [done|]. cbn [foldl].
  rewrite IH, insert_stable_perm. cbn [app]. by rewrite Permutation_middle.
Qed.
End sort.

(** Sorting by a flag is a stable partition. *)
Lemma SliceStable_partition {A} (flag : A -> bool) l :
  SliceStable (fun a b => flag a && negb (flag b)) l =
  List.filter flag l ++ List.filter (fun x => negb (flag x)) l.
Proof.
  unfold SliceStable. set (less := fun a b => flag a && negb (flag b)).
  assert (forall hs ls, Forall (fun x => flag x = true) hs -> Forall (fun x => flag x = false) ls ->
    foldl (fun sorted x => insert_stable less x sorted) (hs ++ ls) l =
    (hs ++ List.filter flag l) ++ ls ++ List.filter (fun x => negb (flag x)) l) as H.
  { induction l as [|x l IH]; intros hs ls Hh Hl; cbn [foldl List.filter].
    { by rewrite !app_nil_r. }
    destruct (flag x) eqn:Hx; cbn [negb].
    - assert (insert_stable less x (hs ++ ls) = (hs ++ [x]) ++ ls) as ->.
      { rewrite <- app_assoc. induction Hh as [|y hs Hy _ IHh]; cbn [app insert_stable].
        - destruct Hl as [|y ls Hy Hl]; [done|]. cbn [insert_stable]. unfold less.
          by rewrite Hx, Hy.
        - unfold less at 1. rewrite Hx, Hy. cbn [andb negb]. by rewrite IHh. }
      rewrite IH; [by rewrite <- (app_assoc hs [x])| |done].
      apply Forall_app. split; [done|]. by constructor.
    - assert (forall k, insert_stable less x k = k ++ [x]) as Hins.
      { induction k as [|y k IHk]; [done|]. cbn [insert_stable]. unfold less at 1.
        rewrite Hx. cbn [andb]. by rewrite IHk. }
      rewrite Hins, <- app_assoc, IH; [by rewrite <- (app_assoc ls [x])|done|].
      apply Forall_app. split; [done|]. by constructor. }
  apply (H [] []); constructor.
Qed.

(** ** sort.Slice *)

(** [sort.Slice] is not stable: equal elements may come out in any order, and in
    another one the next time. A [SliceSort] chooses one for a run of the code; the
    law holds for every strict weak order. A theorem about several requests takes
    one for each. *)
Class SliceSort := {
  Slice : forall {A}, (A -> A -> bool) -> list A -> list A
}.

(** No element is less than an earlier one. *)
Definition slice_sorted {A} (less : A -> A -> bool) (l : list A) : Prop :=
  StronglySorted (fun a b => less b a = false) l.

Class strict_weak_order {A} (less : A -> A -> bool) : Prop := {
  swo_irrefl a : less a a = false;
  swo_trans a b c : less a b = true -> less b c = true -> less a c = true;
  swo_incomp a b c : less a b = false -> less b c = false -> less a c = false
}.

Class SliceSortLaws `{SliceSort} : Prop := {
  Slice_perm {A} (less : A -> A -> bool) l : Slice less l ≡ₚ l;
  Slice_sorted {A} (less : A -> A -> bool) l :
    strict_weak_order less -> slice_sorted less (Slice less l)
}.

(** The choice used to evaluate examples. *)
#[export] Instance slice_stable : SliceSort | 100 := { Slice := fun A => SliceStable }.

Lemma insert_stable_sorted {A} (less : A -> A -> bool) x l :
  strict_weak_order less -> slice_sorted less l -> slice_sorted less (insert_stable less x l).
Proof.
  intros Hw Hl. induction Hl as [|y l Hl IH Hy]; cbn [insert_stable].
  { constructor; constructor. }
  destruct (less x y) eqn:E.
  - assert (less y x = false) as Hyx.
    { destruct (less y x) eqn:E2; [|done].
      pose proof (swo_trans _ _ _ E E2) as Ht. by rewrite swo_irrefl in Ht. }
    constructor; [by constructor|]. constructor; [done|].
    eapply Forall_impl; [exact Hy|]. intros z Hz. exact (swo_incomp _ _ _ Hz Hyx).
  - constructor; [done|]. rewrite insert_stable_perm. constructor; done.
Qed.

#[export] Instance slice_stable_laws : @SliceSortLaws slice_stable.
Proof.
  constructor; [intros; apply SliceStable_perm|].
  intros A less l Hw. cbn [Slice slice_stable]. unfold SliceStable.
  assert (forall acc, slice_sorted less acc ->
    slice_sorted less (foldl (fun sorted x => insert_stable less x sorted) acc l)) as H.
  { induction l as [|x l IH]; intros acc Ha; [done|]. cbn [foldl].
    by apply IH, insert_stable_sorted. }
  apply H. constructor.
Qed.
