(* ===== verification/GoNet.v ===== *)
(** * Go's package net, as far as the server uses it

    IP addresses as byte slices of length 4 or 16 (nil is the empty slice),
    their parsing and printing, host and port strings, and UDP addresses. *)

From S2P Require Import Prelude GoStrings.

Local Open Scope Z_scope.

(** ** Decimal and hexadecimal numbers *)

Definition digit (z : Z) : byte := byte_of_Z (48 + z).

Fixpoint digits_fuel (fuel : nat) (z : Z) (acc : bytes) : bytes :=
  match fuel with
  | O => acc
  | S fuel' =>
    if z <? 10 then digit z :: acc
    else digits_fuel fuel' (z / 10) (digit (z mod 10) :: acc)
  end.

(** [strconv.Itoa]; twenty digits are enough for 64 bits. *)
Definition Itoa (z : Z) : bytes :=
  if z <? 0 then x2d :: digits_fuel 20 (- z) [] else digits_fuel 20 z [].

(** [appendHex]: a 16-bit group without leading zeros. *)
Definition hex_group (z : Z) : bytes :=
  (if 0x1000 <=? z then [hex_lower (z / 0x1000)] else []) ++
  (if 0x100 <=? z then [hex_lower (z / 0x100 mod 16)] else []) ++
  (if 0x10 <=? z then [hex_lower (z / 0x10 mod 16)] else []) ++
  [hex_lower (z mod 16)].

(** ** IP addresses *)

Definition v4InV6Prefix : bytes := replicate 10 x00 ++ [xff; xff].

Definition To4 (ip : bytes) : option bytes :=
  if (length ip =? 4)%nat then Some ip
  else if (length ip =? 16)%nat && bytes_eqb (take 12 ip) v4InV6Prefix
  then Some (drop 12 ip) else None.

(** [net.IPv4]: the 16-byte form. *)
Definition IPv4 (a b c d : byte) : bytes := v4InV6Prefix ++ [a; b; c; d].

Definition IP_Equal (ip x : bytes) : bool :=
  if (length ip =? length x)%nat then bytes_eqb ip x
  else if (length ip =? 4)%nat && (length x =? 16)%nat
  then bytes_eqb (take 12 x) v4InV6Prefix && bytes_eqb ip (drop 12 x)
  else if (length ip =? 16)%nat && (length x =? 4)%nat
  then bytes_eqb (take 12 ip) v4InV6Prefix && bytes_eqb (drop 12 ip) x
  else false.

Definition IsLoopback (ip : bytes) : bool :=
  match To4 ip with
  | Some (a :: _) => byteZ a =? 127
  | _ => IP_Equal ip (replicate 15 x00 ++ [x01])
  end.

Definition IsPrivate (ip : bytes) : bool :=
  match To4 ip with
  | Some (a :: b :: _) =>
    (byteZ a =? 10) || (byteZ a =? 172) && (Z.land (byteZ b) 0xf0 =? 16)
    || (byteZ a =? 192) && (byteZ b =? 168)
  | _ =>
    match ip with
    | a :: _ => (length ip =? 16)%nat && (Z.land (byteZ a) 0xfe =? 0xfc)
    | [] => false
    end
  end.

(** ** Parsing *)

(** [parseIPv4Fields]: [prev_dot] tells that the position is the start of the
    string or follows a dot, [fields] are the finished octets. *)
Fixpoint parseIPv4Fields (s : bytes) (val digLen : Z) (prev_dot : bool) (fields : bytes)
    : option bytes :=
  match s with
  | [] => if (length fields <? 3)%nat then None else Some (fields ++ [byte_of_Z val])
  | c :: s' =>
    if is_digit c then
      if (digLen =? 1) && (val =? 0) then None
      else
        let val := val * 10 + (byteZ c - 48) in
        if 255 <? val then None else parseIPv4Fields s' val (digLen + 1) false fields
    else if byte_eqb c x2e then
      if prev_dot || bytes_eqb s' [] then None
      else if (length fields =? 3)%nat then None
      else parseIPv4Fields s' 0 0 true (fields ++ [byte_of_Z val])
    else None
  end.

(** The hex number at the start of [s]: its value, its number of digits and the
    rest; [None] for more than four digits. *)
Fixpoint hex_prefix (s : bytes) (off : nat) (acc : Z) : option (Z * nat * bytes) :=
  match s with
  | [] => Some (acc, off, [])
  | c :: s' =>
    match hex_value c with
    | None => Some (acc, off, s)
    | Some d =>
      if (3 <? off)%nat then None else hex_prefix s' (S off) (16 * acc + d)
    end
  end.

(** The group loop of [parseIPv6]; [ip] are the bytes parsed so far. The result
    carries the rest of the string. Each round consumes input and adds two or
    four bytes, so nine rounds are enough. *)
Fixpoint parseIPv6Loop (fuel : nat) (s ip : bytes) (ellipsis : option nat)
    : option (bytes * bytes * option nat) :=
  match fuel with
  | O => None
  | S fuel' =>
    if (16 <=? length ip)%nat then Some (s, ip, ellipsis) else
    match hex_prefix s 0 0 with
    | None => None
    | Some (_, O, _) => None
    | Some (acc, _, rest) =>
      match rest with
      | x2e :: _ =>
        if (match ellipsis with None => true | Some _ => false end)
           && negb (length ip =? 12)%nat then None
        else if (16 <? length ip + 4)%nat then None
        else match parseIPv4Fields s 0 0 true [] with
             | None => None
             | Some v4 => Some ([], ip ++ v4, ellipsis)
             end
      | _ =>
        let ip := ip ++ [byte_of_Z (acc / 256); byte_of_Z acc] in
        match rest with
        | [] => Some ([], ip, ellipsis)
        | x3a :: [] => None
        | x3a :: x3a :: rest' =>
          match ellipsis with
          | Some _ => None
          | None =>
            match rest' with
            | [] => Some ([], ip, Some (length ip))
            | _ => parseIPv6Loop fuel' rest' ip (Some (length ip))
            end
          end
        | x3a :: rest' => parseIPv6Loop fuel' rest' ip ellipsis
        | _ => None
        end
      end
    end
  end.

(** [parseIPv6] on a string without zone. *)
Definition parseIPv6 (s : bytes) : option bytes :=
  let '(s, ellipsis, all_zero) :=
    match s with
    | x3a :: x3a :: s' => (s', Some 0%nat, bytes_eqb s' [])
    | _ => (s, None, false)
    end in
  if all_zero : bool then Some (replicate 16 x00) else
  match parseIPv6Loop 9 s [] ellipsis with
  | None => None
  | Some (rest, ip, ellipsis) =>
    if negb (bytes_eqb rest []) then None
    else if (length ip <? 16)%nat then
      match ellipsis with
      | None => None
      | Some e => Some (take e ip ++ replicate (16 - length ip) x00 ++ drop e ip)
      end
    else match ellipsis with Some _ => None | None => Some ip end
  end.

(** [net.ParseIP]: the first of '.', ':' and '%' decides the kind of address;
    a zone is refused. [None] is the nil IP. *)
Fixpoint ParseIP_kind (s : bytes) : option byte :=
  match s with
  | [] => None
  | c :: s' =>
    if byte_eqb c x2e || byte_eqb c x3a || byte_eqb c x25 then Some c else ParseIP_kind s'
  end.

Definition ParseIP (s : bytes) : option bytes :=
  match ParseIP_kind s with
  | Some x2e => match parseIPv4Fields s 0 0 true [] with
                | Some v4 => Some (v4InV6Prefix ++ v4)
                | None => None
                end
  | Some x3a => if existsb (byte_eqb x25) s then None else parseIPv6 s
  | _ => None
  end.

(** ** Printing *)

Definition dotted_quad (v4 : bytes) : bytes :=
  match v4 with
  | [a; b; c; d] =>
    Itoa (byteZ a) ++ x2e :: Itoa (byteZ b) ++ x2e :: Itoa (byteZ c) ++ x2e :: Itoa (byteZ d)
  | _ => []
  end.

(** The eight groups of a 16-byte address. *)
Fixpoint groups (ip : bytes) : list Z :=
  match ip with
  | a :: b :: ip' => (256 * byteZ a + byteZ b) :: groups ip'
  | _ => []
  end.

Fixpoint zero_run (gs : list Z) : nat :=
  match gs with
  | g :: gs' => if g =? 0 then S (zero_run gs') else O
  | [] => O
  end.

(** The first longest run of at least two zero groups: start and end. *)
Fixpoint longest_run (gs : list Z) (i : nat) (best : nat * nat) : nat * nat :=
  match gs with
  | [] => best
  | _ :: gs' =>
    let l := zero_run gs in
    let best := if (2 <=? l)%nat && (best.2 - best.1 <? l)%nat then (i, (i + l)%nat) else best in
    longest_run gs' (S i) best
  end.

(** The printing loop; [skip] groups belong to the elided run. *)
Fixpoint print_groups (gs : list Z) (i : nat) (run : nat * nat) : bytes :=
  match gs with
  | [] => []
  | g :: gs' =>
    if (i =? run.1)%nat && (run.1 <? run.2)%nat then x3a :: x3a :: print_groups gs' (S i) run
    else if (run.1 <? i)%nat && (i <? run.2)%nat then print_groups gs' (S i) run
    else (if (0 <? i)%nat && negb ((i =? run.2)%nat && (run.1 <? run.2)%nat) then [x3a] else [])
         ++ hex_group g ++ print_groups gs' (S i) run
  end.

(** [net.IP.String]; lengths other than 0, 4 and 16 do not occur. *)
Definition IP_String (ip : bytes) : bytes :=
  match To4 ip with
  | Some v4 => dotted_quad v4
  | None =>
    if (length ip =? 16)%nat
    then print_groups (groups ip) 0 (longest_run (groups ip) 0 (0, 0)%nat)
    else lit "<nil>"
  end.

(** ** Host and port *)

Definition contains_byte (s : bytes) (b : byte) : bool := existsb (byte_eqb b) s.

Definition JoinHostPort (host port : bytes) : bytes :=
  if contains_byte host x3a then x5b :: host ++ x5d :: x3a :: port
  else host ++ x3a :: port.

(** [s] up to and from behind the last byte [b]. *)
Fixpoint split_last (s : bytes) (b : byte) : option (bytes * bytes) :=
  match s with
  | [] => None
  | c :: s' =>
    match split_last s' b with
    | Some (l, r) => Some (c :: l, r)
    | None => if byte_eqb c b then Some ([], s') else None
    end
  end.

(** [s] up to and from behind the first byte [b]. *)
Fixpoint split_first (s : bytes) (b : byte) : option (bytes * bytes) :=
  match s with
  | [] => None
  | c :: s' =>
    if byte_eqb c b then Some ([], s')
    else match split_first s' b with
         | Some (l, r) => Some (c :: l, r)
         | None => None
         end
  end.

(** [net.SplitHostPort]; [None] is an address error. *)
Definition SplitHostPort (hostport : bytes) : option (bytes * bytes) :=
  match split_last hostport x3a with
  | None => None
  | Some (before, port) =>
    match hostport with
    | x5b :: tail =>
      match split_first tail x5d with
      | None => None
      | Some (host, after) =>
        match after with
        | x3a :: rest =>
          if negb (length rest =? length port)%nat then None
          else if contains_byte tail x5b then None
          else if contains_byte after x5d then None
          else Some (host, port)
        | _ => None
        end
      end
    | _ =>
      if contains_byte before x3a then None
      else if contains_byte hostport x5b then None
      else if contains_byte hostport x5d then None
      else Some (before, port)
    end
  end.

(** ** UDP and TCP addresses *)

(** [net.UDPAddr] and [net.TCPAddr]; zones do not occur. *)
Record NetAddr := mkAddr { addr_IP : bytes; addr_Port : Z }.

#[export] Instance NetAddr_eq_dec : EqDecision NetAddr.
Proof. solve_decision. Defined.

Definition NetAddr_String (a : NetAddr) : bytes :=
  JoinHostPort (match addr_IP a with [] => [] | _ => IP_String (addr_IP a) end)
               (Itoa (addr_Port a)).

(** ** Lemmas *)

(** Reading one printed octet, before a dot or at the end. *)
Lemma parse_octet_dot (a : byte) fields s :
  s <> [] -> (length fields < 3)%nat ->
  parseIPv4Fields (Itoa (byteZ a) ++ x2e :: s) 0 0 true fields =
  parseIPv4Fields s 0 0 true (fields ++ [a]).
Proof.
  intros Hs Hf. apply bytes_eqb_neq in Hs.
  assert ((length fields =? 3)%nat = false) as Hl by (apply Nat.eqb_neq; lia).
  destruct a; lazy -[parseIPv4Fields bytes_eqb app length Nat.eqb];
    cbn -[bytes_eqb]; rewrite Hs, Hl; reflexivity.
Qed.

Lemma parse_octet_end (a : byte) fields :
  length fields = 3%nat ->
  parseIPv4Fields (Itoa (byteZ a)) 0 0 true fields = Some (fields ++ [a]).
Proof.
  intros Hf. destruct a; lazy -[parseIPv4Fields app length Nat.ltb]; cbn; rewrite Hf; reflexivity.
Qed.

Lemma Itoa_octet_ne (a : byte) : Itoa (byteZ a) <> [].
Proof. by destruct a. Qed.

Lemma parse_dotted_quad a b c d :
  parseIPv4Fields (dotted_quad [a; b; c; d]) 0 0 true [] = Some [a; b; c; d].
Proof.
  unfold dotted_quad.
  rewrite parse_octet_dot; [|destruct b; discriminate|simpl; lia].
  rewrite parse_octet_dot; [|destruct c; discriminate|simpl; lia].
  rewrite parse_octet_dot; [|apply Itoa_octet_ne|simpl; lia].
  by rewrite parse_octet_end.
Qed.

Lemma ParseIP_kind_octet (a : byte) s : ParseIP_kind (Itoa (byteZ a) ++ x2e :: s) = Some x2e.
Proof. by destruct a. Qed.

(** Printing an IPv4 address and parsing it again. *)
Lemma ParseIP_dotted a b c d :
  ParseIP (dotted_quad [a; b; c; d]) = Some (IPv4 a b c d).
Proof.
  unfold ParseIP. unfold dotted_quad at 1. rewrite ParseIP_kind_octet.
  by rewrite parse_dotted_quad.
Qed.

Lemma To4_IPv4 a b c d : To4 (IPv4 a b c d) = Some [a; b; c; d].
Proof. reflexivity. Qed.

Lemma contains_byte_app s t b : contains_byte (s ++ t) b = contains_byte s b || contains_byte t b.
Proof. apply existsb_app. Qed.

Lemma split_last_app s t b :
  contains_byte t b = false -> split_last (s ++ b :: t) b = Some (s, t).
Proof.
  intros Ht. induction s as [|c s IH]; cbn [app split_last].
  - assert (split_last t b = None) as ->; [|by rewrite byte_eqb_refl].
    induction t as [|c t IH]; [done|]. cbn in Ht. apply orb_false_iff in Ht as [Hc Ht].
    cbn [split_last]. rewrite IH by done. destruct (byte_eqb c b) eqn:E; [|done].
    apply byte_eqb_eq in E as ->. by rewrite byte_eqb_refl in Hc.
  - by rewrite IH.
Qed.

Lemma split_first_app s t b :
  contains_byte s b = false -> split_first (s ++ b :: t) b = Some (s, t).
Proof.
  intros Hs. induction s as [|c s IH]; cbn [app split_first].
  - by rewrite byte_eqb_refl.
  - cbn in Hs. apply orb_false_iff in Hs as [Hc Hs]. rewrite IH by done.
    destruct (byte_eqb c b) eqn:E; [|done]. apply byte_eqb_eq in E as ->.
    by rewrite byte_eqb_refl in Hc.
Qed.

(** No colon in a port, no bracket anywhere: what comes out is what went in. *)
Lemma SplitHostPort_Join host port :
  contains_byte port x3a = false ->
  contains_byte (host ++ port) x5b = false -> contains_byte (host ++ port) x5d = false ->
  SplitHostPort (JoinHostPort host port) = Some (host, port).
Proof.
  intros Hp. rewrite !contains_byte_app. intros [Hh1 Hp1]%orb_false_iff [Hh2 Hp2]%orb_false_iff.
  unfold JoinHostPort. destruct (contains_byte host x3a) eqn:Hc.
  - assert (x5b :: host ++ x5d :: x3a :: port = (x5b :: host ++ [x5d]) ++ x3a :: port) as E.
    { cbn [app]. by rewrite <- app_assoc. }
    unfold SplitHostPort at 1. rewrite E at 1. rewrite split_last_app by done.
    cbv beta iota. rewrite split_first_app by done. cbv beta iota. rewrite Nat.eqb_refl.
    rewrite contains_byte_app, Hh1. cbn [negb orb].
    cbn -[byte_eqb contains_byte]. unfold contains_byte in *. cbn [existsb].
    eval_eqb. by rewrite Hp1, Hp2.
  - unfold SplitHostPort. rewrite split_last_app by done. cbv beta iota.
    rewrite !contains_byte_app, Hc, Hh1, Hh2.
    unfold contains_byte in *. cbn [existsb]. eval_eqb. rewrite Hp1, Hp2.
    destruct host as [|c host]; [done|]. cbn [app].
    destruct (decide (c = x5b)) as [->|Hne]; [done|]. by destruct c.
Qed.

(** ** Printing and reading numbers *)

Lemma digit_value z : 0 <= z < 10 -> is_digit (digit z) = true /\ byteZ (digit z) - 48 = z.
Proof.
  intros Hz. unfold is_digit, digit. rewrite byteZ_byte_of_Z, Z.mod_small by lia.
  split; [|lia]. apply andb_true_iff. split; apply Z.leb_le; lia.
Qed.

Lemma digits_fuel_value fuel z acc :
  0 <= z < 10 ^ Z.of_nat fuel ->
  digits_value 0 (digits_fuel fuel z acc) = digits_value z acc.
Proof.
  revert z acc; induction fuel as [|fuel IH]; intros z acc Hz.
  { simpl in *. by replace z with 0 by lia. }
  rewrite Nat2Z.inj_succ, Z.pow_succ_r in Hz by lia. cbn [digits_fuel].
  destruct (Z.ltb_spec z 10).
  - cbn [digits_value]. destruct (digit_value z) as [-> Hd]; [lia|]. f_equal. lia.
  - rewrite IH by (split; [apply Z.div_pos|apply Z.div_lt_upper_bound]; lia).
    cbn [digits_value]. pose proof (Z.mod_pos_bound z 10 ltac:(lia)).
    destruct (digit_value (z mod 10)) as [-> Hd]; [lia|]. f_equal.
    pose proof (Z.div_mod z 10 ltac:(lia)). lia.
Qed.

Lemma digits_fuel_digits fuel z acc :
  0 <= z -> Forall (fun b => is_digit b = true) acc ->
  Forall (fun b => is_digit b = true) (digits_fuel fuel z acc).
Proof.
  revert z acc; induction fuel as [|fuel IH]; intros z acc Hz Ha; [done|]. cbn [digits_fuel].
  destruct (Z.ltb_spec z 10); [constructor; [apply digit_value; lia|done]|].
  apply IH; [apply Z.div_pos; lia|]. constructor; [|done]. apply digit_value.
  apply Z.mod_pos_bound. lia.
Qed.

Lemma Itoa_digits z : 0 <= z -> Forall (fun b => is_digit b = true) (Itoa z).
Proof.
  intros Hz. unfold Itoa. destruct (Z.ltb_spec z 0); [lia|]. by apply digits_fuel_digits.
Qed.

Lemma digits_fuel_ne fuel z acc : digits_fuel (S fuel) z acc <> [].
Proof.
  revert z acc; induction fuel as [|fuel IH]; intros z acc; cbn [digits_fuel].
  - by destruct (z <? 10).
  - destruct (z <? 10); [done|apply IH].
Qed.

Lemma Atoi_Itoa z : 0 <= z < 2 ^ 63 -> Atoi (Itoa z) = Some z.
Proof.
  intros Hz. pose proof (Itoa_digits z ltac:(lia)) as Hd.
  assert (Itoa z = digits_fuel 20 z []) as E.
  { unfold Itoa. destruct (Z.ltb_spec z 0); [lia|done]. }
  pose proof (digits_fuel_value 20 z [] ltac:(simpl; lia)) as Hv. rewrite <- E in Hv.
  assert (Itoa z <> []) as Hne by (rewrite E; apply digits_fuel_ne).
  unfold Atoi. destruct (Itoa z) as [|b s]; [done|].
  apply Forall_cons in Hd as [Hb _]. unfold is_digit in Hb.
  apply andb_true_iff in Hb as [Hb1%Z.leb_le Hb2%Z.leb_le].
  destruct (Z.eqb_spec (byteZ b) 45); [lia|]. destruct (Z.eqb_spec (byteZ b) 43); [lia|].
  cbv beta iota. rewrite Hv. cbn [digits_value].
  rewrite (proj2 (Z.leb_le (- 2 ^ 63) z)) by lia. by rewrite (proj2 (Z.ltb_lt z (2 ^ 63))) by lia.
Qed.

(** Digits and dots are not separators. *)
Lemma digits_no_byte s b : is_digit b = false -> Forall (fun c => is_digit c = true) s ->
  contains_byte s b = false.
Proof.
  intros Hb. induction 1 as [|c s Hc _ IH]; [done|]. cbn. fold (contains_byte s b).
  rewrite IH, orb_false_r. apply byte_eqb_neq. congruence.
Qed.

Lemma dotted_quad_no_byte v4 b : is_digit b = false -> b <> x2e ->
  contains_byte (dotted_quad v4) b = false.
Proof.
  intros Hb Hd. unfold dotted_quad. repeat case_match; try done.
  assert (forall c : byte, contains_byte (Itoa (byteZ c)) b = false) as Hi.
  { intros c. apply digits_no_byte; [done|]. apply Itoa_digits. apply byteZ_range. }
  assert (forall t, contains_byte (x2e :: t) b = contains_byte t b) as Hdot.
  { intros t. cbn. by rewrite (proj2 (byte_eqb_neq b x2e) Hd). }
  repeat (rewrite contains_byte_app, Hi; cbn [orb]; rewrite Hdot). apply Hi.
Qed.
