(* ===== verification/GoTime.v ===== *)
(** * Times and durations (the package time)

    A time is the number of nanoseconds since 1970-01-01 00:00 UTC. Its text is
    the layout RFC3339Nano, which the trace file and the JSON of the management
    interface use; a duration prints as [time.Duration.String] does. *)

From S2P Require Import Prelude GoStrings GoUtf8 GoNet.

Local Open Scope Z_scope.

Definition Second : Z := 1000000000.

(** ** Dates *)

Definition isLeap (y : Z) : bool := (y mod 4 =? 0) && (negb (y mod 100 =? 0) || (y mod 400 =? 0)).

(** Days before each month of a common year. *)
Definition daysBefore : list Z := [0; 31; 59; 90; 120; 151; 181; 212; 243; 273; 304; 334].

(** The month (from 1) and its day, for a day of a common year. *)
Fixpoint month_of (month : Z) (starts : list Z) (day : Z) : Z * Z :=
  match starts with
  | start :: (next :: _) as starts' =>
    if day <? next then (month, day - start + 1) else month_of (month + 1) starts' day
  | [start] => (month, day - start + 1)
  | [] => (month, day)
  end.

Definition month_day (leap : bool) (yday : Z) : Z * Z :=
  if leap && (yday =? 59) then (2, 29)
  else month_of 1 daysBefore (if leap && (59 <? yday) then yday - 1 else yday).

(** Days from 0001-01-01 to 1970-01-01. *)
Definition unixDays : Z := 719162.

(** [absDate]: cycles of 400, 100 and 4 years; the last year of a cycle is a day
    longer. The argument counts days from 1970-01-01. *)
Definition civil (days : Z) : Z * Z * Z :=
  let d := days + unixDays in
  let n400 := d / 146097 in
  let d := d - 146097 * n400 in
  let n100 := Z.min (d / 36524) 3 in
  let d := d - 36524 * n100 in
  let n4 := d / 1461 in
  let d := d - 1461 * n4 in
  let n1 := Z.min (d / 365) 3 in
  let yday := d - 365 * n1 in
  let year := 400 * n400 + 100 * n100 + 4 * n4 + n1 + 1 in
  let '(month, day) := month_day (isLeap year) yday in
  (year, month, day).

(** The days from 1970-01-01 to a date: every earlier year has 365 days, and one
    more if it was a leap year. *)
Definition days_of (year month day : Z) : Z :=
  let y := year - 1 in
  365 * y + y / 4 - y / 100 + y / 400
  + nth (Z.to_nat (month - 1)) daysBefore 0 + (if isLeap year && (2 <? month) then 1 else 0)
  + day - 1 - unixDays.

(** ** Text *)

(** [appendInt]: at least [w] digits, padded with zeros. *)
Fixpoint padded (w : nat) (n : Z) : bytes :=
  match w with
  | O => []
  | S w' => padded w' (n / 10) ++ [digit (n mod 10)]
  end.

Definition year_text (y : Z) : bytes :=
  if y <? 0 then x2d :: (if y <? -9999 then Itoa (- y) else padded 4 (- y))
  else if 9999 <? y then Itoa y else padded 4 y.

Fixpoint trim_zeros (s : bytes) : bytes :=
  match s with
  | [] => []
  | b :: s' => match trim_zeros s' with
               | [] => if byte_eqb b x30 then [] else [b]
               | t => b :: t
               end
  end.

(** The fraction of a second without trailing zeros. *)
Definition frac_text (ns : Z) : bytes := if ns =? 0 then [] else x2e :: trim_zeros (padded 9 ns).

Definition zone_text (offset : Z) : bytes :=
  if offset =? 0 then lit "Z"
  else
    let zone := Z.abs offset / 60 in
    (if offset <? 0 then x2d else x2b) :: padded 2 (zone / 60) ++ x3a :: padded 2 (zone mod 60).

(** [t.Format(time.RFC3339Nano)] where the clock is [offset] seconds ahead of
    UTC. *)
Definition RFC3339Nano (offset t : Z) : bytes :=
  let secs := t / Second + offset in
  let '(year, month, day) := civil (secs / 86400) in
  let sec := secs mod 86400 in
  year_text year ++ x2d :: padded 2 month ++ x2d :: padded 2 day ++ x54 ::
  padded 2 (sec / 3600) ++ x3a :: padded 2 (sec / 60 mod 60) ++ x3a :: padded 2 (sec mod 60) ++
  frac_text (t mod Second) ++ zone_text offset.

(** The year of a time as that clock shows it. *)
Definition year_of (offset t : Z) : Z := (civil ((t / Second + offset) / 86400)).1.1.

(** ** Durations *)

(** [fmtFrac]: the value without its last [prec] digits, which follow a point
    unless they are zero. *)
Definition fmtFrac (prec : nat) (v : Z) : bytes :=
  let ds := trim_zeros (padded prec v) in
  digits_fuel 20 (v / 10 ^ Z.of_nat prec) [] ++ (if bytes_eqb ds [] then [] else x2e :: ds).

(** [time.Duration.String] *)
Definition Duration_String (d : Z) : bytes :=
  let u := Z.abs d in
  let text :=
    if u =? 0 then lit "0s"
    else if u <? Second then
      if u <? 1000 then Itoa u ++ lit "ns"
      else if u <? 1000000 then fmtFrac 3 u ++ lit "µs"
      else fmtFrac 6 u ++ lit "ms"
    else
      let m := u / (60 * Second) in
      let secs := fmtFrac 9 (u mod (60 * Second)) ++ lit "s" in
      if m =? 0 then secs
      else
        let h := m / 60 in
        let mins := Itoa (m mod 60) ++ lit "m" ++ secs in
        if h =? 0 then mins else Itoa h ++ lit "h" ++ mins in
  if d <? 0 then x2d :: text else text.

(** ** Reading *)

(** A number of [w] digits, and one given byte. *)
Definition read_digits (w : nat) (s : bytes) : option (Z * bytes) :=
  if (w <=? length s)%nat then n ← digits_value 0 (take w s); Some (n, drop w s) else None.

Definition read_byte (b : byte) (s : bytes) : option bytes :=
  match s with c :: s' => if byte_eqb c b then Some s' else None | [] => None end.

Fixpoint span (p : byte -> bool) (s : bytes) : bytes * bytes :=
  match s with
  | b :: s' => if p b then let '(t, r) := span p s' in (b :: t, r) else ([], s)
  | [] => ([], [])
  end.

Definition read_frac (s : bytes) : option (Z * bytes) :=
  match read_byte x2e s with
  | None => Some (0, s)
  | Some s =>
    let '(ds, r) := span is_digit s in
    n ← digits_value 0 ds; Some (n * 10 ^ (9 - len ds), r)
  end.

Definition read_zone (s : bytes) : option (Z * bytes) :=
  match s with
  | [] => None
  | b :: s =>
    if byte_eqb b x5a then Some (0, s)
    else
      h ← read_digits 2 s;
      s ← read_byte x3a h.2;
      m ← read_digits 2 s;
      let zone := 60 * (60 * h.1 + m.1) in
      if byte_eqb b x2b then Some (zone, m.2)
      else if byte_eqb b x2d then Some (- zone, m.2) else None
  end.

(** A reader of the layout, for the theorems: the time that a text names. *)
Definition parse_RFC3339 (s : bytes) : option Z :=
  year ← read_digits 4 s;
  s ← read_byte x2d year.2;
  month ← read_digits 2 s;
  s ← read_byte x2d month.2;
  day ← read_digits 2 s;
  s ← read_byte x54 day.2;
  hour ← read_digits 2 s;
  s ← read_byte x3a hour.2;
  minute ← read_digits 2 s;
  s ← read_byte x3a minute.2;
  sec ← read_digits 2 s;
  ns ← read_frac sec.2;
  zone ← read_zone ns.2;
  if bytes_eqb zone.2 [] then
    Some ((86400 * days_of year.1 month.1 day.1 + 3600 * hour.1 + 60 * minute.1 + sec.1 - zone.1)
          * Second + ns.1)
  else None.

(** ** Facts: dates *)

Lemma month_day_table :
  Forall (fun '(leap, yday) =>
    let '(m, d) := month_day leap yday in
    1 <= m <= 12 /\ 1 <= d <= 31 /\
    nth (Z.to_nat (m - 1)) daysBefore 0 + (if leap && (2 <? m) then 1 else 0) + d - 1 = yday)
  (list_prod [true; false] (map Z.of_nat (seq 0 365)) ++ [(true, 365)]).
Proof.
  apply Forall_forall. intros [leap yday] Hin.
  set (ok := fun x : bool * Z => let '(leap, yday) := x in let '(m, d) := month_day leap yday in
    (1 <=? m) && (m <=? 12) && (1 <=? d) && (d <=? 31) &&
    (nth (Z.to_nat (m - 1)) daysBefore 0 + (if leap && (2 <? m) then 1 else 0) + d - 1 =? yday)).
  assert (ok (leap, yday) = true) as H.
  { assert (forallb ok (list_prod [true; false] (map Z.of_nat (seq 0 365)) ++ [(true, 365)]) = true) as Hall
      by (vm_compute; reflexivity).
    rewrite forallb_forall in Hall. apply Hall. by apply list_elem_of_In. }
  unfold ok in H. destruct (month_day leap yday) as [m d].
  repeat (apply andb_true_iff in H as [H ?]).
  repeat match goal with H : (_ <=? _) = true |- _ => apply Z.leb_le in H end.
  match goal with H : (_ =? _) = true |- _ => apply Z.eqb_eq in H end. lia.
Qed.

Lemma month_day_spec leap yday :
  0 <= yday < (if leap : bool then 366 else 365) ->
  let '(m, d) := month_day leap yday in
  1 <= m <= 12 /\ 1 <= d <= 31 /\
  nth (Z.to_nat (m - 1)) daysBefore 0 + (if leap && (2 <? m) then 1 else 0) + d - 1 = yday.
Proof.
  intros Hy. pose proof month_day_table as H. rewrite Forall_forall in H.
  apply (H (leap, yday)). apply elem_of_app.
  destruct (Z.eq_dec yday 365) as [->|Hne].
  - right. destruct leap; [|lia]. by apply list_elem_of_singleton.
  - left. apply list_elem_of_In, in_prod; [destruct leap; cbn; auto|].
    apply in_map_iff. exists (Z.to_nat yday). rewrite in_seq. destruct leap; lia.
Qed.

(** The days of a date give the date's days back. *)
Lemma days_of_civil days :
  let '(y, m, d) := civil days in days_of y m d = days /\ 1 <= m <= 12 /\ 1 <= d <= 31.
Proof.
  unfold civil. cbv zeta. set (D := days + unixDays).
  set (n400 := D / 146097). set (d1 := D - 146097 * n400).
  set (n100 := Z.min (d1 / 36524) 3). set (d2 := d1 - 36524 * n100).
  set (n4 := d2 / 1461). set (d3 := d2 - 1461 * n4).
  set (n1 := Z.min (d3 / 365) 3). set (yday := d3 - 365 * n1).
  assert (0 <= d1 < 146097) by (subst d1 n400; pose proof (Z.div_mod D 146097 ltac:(lia));
    pose proof (Z.mod_pos_bound D 146097 ltac:(lia)); lia).
  assert (0 <= n100 <= 3 /\ 0 <= d2 < (if n100 =? 3 then 36525 else 36524)) as [? ?].
  { subst n100 d2. pose proof (Z.div_mod d1 36524 ltac:(lia)). pose proof (Z.mod_pos_bound d1 36524 ltac:(lia)).
    destruct (Z.eqb_spec (Z.min (d1 / 36524) 3) 3); lia. }
  assert (0 <= n4 <= 24 /\ 0 <= d3 < (if (n4 =? 24) && negb (n100 =? 3) then 1460 else 1461)) as [? ?].
  { subst n4 d3. pose proof (Z.div_mod d2 1461 ltac:(lia)); pose proof (Z.mod_pos_bound d2 1461 ltac:(lia)).
    destruct (Z.eqb_spec n100 3); destruct (Z.eqb_spec (d2 / 1461) 24); cbn [andb negb]; lia. }
  assert (0 <= n1 <= 3 /\ 0 <= yday < 366 /\ (yday = 365 -> n1 = 3 /\ (n4 = 24 -> n100 = 3))) as (? & ? & ?).
  { subst n1 yday. pose proof (Z.div_mod d3 365 ltac:(lia)); pose proof (Z.mod_pos_bound d3 365 ltac:(lia)).
    destruct (Z.eqb_spec n100 3); destruct (Z.eqb_spec n4 24); cbn [andb negb] in *; lia. }
  assert (days = 146097 * n400 + 36524 * n100 + 1461 * n4 + 365 * n1 + yday - unixDays) as Hdays
    by (subst yday d3 d2 d1 D; lia).
  clearbody yday n1 d3 n4 d2 n100 d1 n400 D.
  set (year := 400 * n400 + 100 * n100 + 4 * n4 + n1 + 1).
  assert (isLeap year = (n1 =? 3) && (negb (n4 =? 24) || (n100 =? 3))) as Hleap.
  { unfold isLeap. apply eq_true_iff_eq.
    rewrite !andb_true_iff, !orb_true_iff, !negb_true_iff, !Z.eqb_eq, !Z.eqb_neq. subst year. Z.div_mod_to_equations. lia. }
  pose proof (month_day_spec (isLeap year) yday) as Hmd.
  destruct (month_day (isLeap year) yday) as [m d].
  destruct Hmd as (Hm & Hd & E).
  { rewrite Hleap. destruct (Z.eqb_spec n1 3), (Z.eqb_spec n4 24), (Z.eqb_spec n100 3); cbn; lia. }
  split; [|done]. unfold days_of. subst year.
  replace (400 * n400 + 100 * n100 + 4 * n4 + n1 + 1 - 1) with (400 * n400 + 100 * n100 + 4 * n4 + n1) by lia.
  Z.div_mod_to_equations. lia.
Qed.

(** ** Facts: digits *)

Lemma padded_length w n : length (padded w n) = w.
Proof. revert n; induction w as [|w IH]; intros n; [done|]. cbn [padded]. rewrite length_app, IH. cbn. lia. Qed.

Lemma padded_digits w n : Forall (fun b => is_digit b = true) (padded w n).
Proof.
  revert n; induction w as [|w IH]; intros n; cbn [padded]; [done|]. apply Forall_app. split; [done|].
  constructor; [|done]. apply digit_value, Z.mod_pos_bound. lia.
Qed.

Lemma digits_value_app acc s t :
  digits_value acc (s ++ t) = a ← digits_value acc s; digits_value a t.
Proof.
  revert acc; induction s as [|b s IH]; intros acc; [done|]. cbn [app digits_value].
  destruct (is_digit b); [apply IH|done].
Qed.

Lemma padded_value w n acc :
  0 <= n < 10 ^ Z.of_nat w -> digits_value acc (padded w n) = Some (acc * 10 ^ Z.of_nat w + n).
Proof.
  revert n; induction w as [|w IH]; intros n Hn.
  { cbn in *. f_equal. lia. }
  rewrite Nat2Z.inj_succ, Z.pow_succ_r in * by lia. cbn [padded].
  pose proof (Z.div_mod n 10 ltac:(lia)) as Hdm. pose proof (Z.mod_pos_bound n 10 ltac:(lia)) as Hm.
  rewrite digits_value_app, IH by (split; [apply Z.div_pos; lia|apply Z.div_lt_upper_bound; lia]).
  cbn [mbind option_bind digits_value]. destruct (digit_value (n mod 10) Hm) as [-> ->]. f_equal. lia.
Qed.

Lemma read_padded w n s : 0 <= n < 10 ^ Z.of_nat w -> read_digits w (padded w n ++ s) = Some (n, s).
Proof.
  intros Hn. unfold read_digits. rewrite length_app, padded_length.
  rewrite (proj2 (Nat.leb_le w _)) by lia.
  rewrite take_app_length', drop_app_length' by (by rewrite padded_length).
  by rewrite padded_value.
Qed.

Lemma read_byte_same b s : read_byte b (b :: s) = Some s.
Proof. cbn. by rewrite byte_eqb_refl. Qed.

Lemma trim_zeros_spec s : exists k, s = trim_zeros s ++ replicate k x30.
Proof.
  induction s as [|b s [k IH]]; [by exists 0%nat|]. cbn [trim_zeros].
  destruct (trim_zeros s) as [|c t] eqn:E; cbn [app] in *; [|exists k; cbn; by rewrite IH at 1].
  destruct (byte_eqb b x30) eqn:Eb; [|exists k; by rewrite IH].
  apply byte_eqb_eq in Eb as ->. exists (S k). cbn. by rewrite IH.
Qed.

Lemma trim_zeros_digits s :
  Forall (fun b => is_digit b = true) s -> Forall (fun b => is_digit b = true) (trim_zeros s).
Proof. destruct (trim_zeros_spec s) as [k E]. rewrite E at 1. by intros [? _]%Forall_app. Qed.

Lemma zeros_value k acc : digits_value acc (replicate k x30) = Some (acc * 10 ^ Z.of_nat k).
Proof.
  revert acc; induction k as [|k IH]; intros acc; [cbn; f_equal; lia|].
  cbn [replicate digits_value]. change (is_digit x30) with true. cbv beta iota.
  rewrite IH, Nat2Z.inj_succ, Z.pow_succ_r by lia. f_equal. change (byteZ x30) with 48. lia.
Qed.

Lemma span_app p s t :
  Forall (fun b => p b = true) s -> match t with b :: _ => p b = false | [] => True end ->
  span p (s ++ t) = (s, t).
Proof.
  intros Hs Ht. induction Hs as [|b s Hb _ IH]; cbn [app span].
  - destruct t as [|b t]; [done|]. cbn. by rewrite Ht.
  - by rewrite Hb, IH.
Qed.

(** A text that neither goes on a number nor starts a fraction. *)
Definition after_frac (s : bytes) : Prop :=
  match s with b :: _ => is_digit b = false /\ b <> x2e | [] => True end.

Lemma read_frac_text ns s :
  0 <= ns < Second -> after_frac s -> read_frac (frac_text ns ++ s) = Some (ns, s).
Proof.
  intros Hn Hs. unfold read_frac, frac_text. destruct (Z.eqb_spec ns 0) as [->|Hne].
  { cbn [app]. destruct s as [|b s]; [done|]. destruct Hs as [_ Hb]. cbn. by rewrite (proj2 (byte_eqb_neq _ _) Hb). }
  cbn [app]. rewrite read_byte_same. pose proof (padded_digits 9 ns) as Hd.
  rewrite span_app; [|by apply trim_zeros_digits|by destruct s; [|destruct Hs]].
  destruct (trim_zeros_spec (padded 9 ns)) as [k Ek].
  pose proof (padded_value 9 ns 0 Hn) as Hv. rewrite Ek, digits_value_app in Hv.
  destruct (digits_value 0 (trim_zeros (padded 9 ns))) as [v|]; [|done].
  cbn [mbind option_bind] in *. rewrite zeros_value in Hv. injection Hv as Hv.
  do 2 f_equal. transitivity (v * 10 ^ Z.of_nat k); [|lia]. do 2 f_equal.
  pose proof (padded_length 9 ns) as Hl. rewrite Ek, length_app, length_replicate in Hl. unfold len. lia.
Qed.

Lemma read_zone_text offset :
  Z.abs offset < 86400 -> offset mod 60 = 0 -> read_zone (zone_text offset) = Some (offset, []).
Proof.
  intros Ho Hm. unfold zone_text. destruct (Z.eqb_spec offset 0) as [->|Hne]; [done|].
  set (zone := Z.abs offset / 60).
  assert (0 <= zone < 1440 /\ 60 * zone = Z.abs offset) as [Hz Ez].
  { subst zone. Z.div_mod_to_equations. lia. }
  assert (0 <= zone / 60 < 24 /\ 0 <= zone mod 60 < 60 /\ 60 * (zone / 60) + zone mod 60 = zone) as (Hh & Hmn & E).
  { Z.div_mod_to_equations. lia. }
  unfold read_zone. destruct (Z.ltb_spec offset 0).
  - rewrite (proj2 (byte_eqb_neq x2d x5a)) by done. rewrite read_padded by (cbn; lia). cbn [mbind option_bind snd].
    rewrite read_byte_same. cbn [mbind option_bind fst]. rewrite <- (app_nil_r (padded 2 (zone mod 60))).
    rewrite read_padded by (cbn; lia). cbn [mbind option_bind fst snd].
    change (byte_eqb x2d x2b) with false. change (byte_eqb x2d x2d) with true. cbv beta iota.
    do 2 f_equal. lia.
  - rewrite (proj2 (byte_eqb_neq x2b x5a)) by done. rewrite read_padded by (cbn; lia). cbn [mbind option_bind snd].
    rewrite read_byte_same. cbn [mbind option_bind fst]. rewrite <- (app_nil_r (padded 2 (zone mod 60))).
    rewrite read_padded by (cbn; lia). cbn [mbind option_bind fst snd].
    change (byte_eqb x2b x2b) with true. cbv beta iota. do 2 f_equal. lia.
Qed.

Ltac read_fields :=
  repeat first
    [ rewrite read_padded by (cbn; lia)
    | rewrite read_byte_same
    | progress cbn [mbind option_bind fst snd] ].

Lemma padded_one w n s b : padded w n ++ b :: s = padded w n ++ (b :: s).
Proof. done. Qed.

(** The fields of a clock. *)
Lemma clock_fields sec :
  0 <= sec < 86400 ->
  0 <= sec / 3600 < 100 /\ 0 <= sec / 60 mod 60 < 100 /\ 0 <= sec mod 60 < 100 /\
  3600 * (sec / 3600) + 60 * (sec / 60 mod 60) + sec mod 60 = sec.
Proof.
  intros Hs. pose proof (Z.div_mod sec 60 ltac:(lia)). pose proof (Z.mod_pos_bound sec 60 ltac:(lia)).
  pose proof (Z.div_mod (sec / 60) 60 ltac:(lia)). pose proof (Z.mod_pos_bound (sec / 60) 60 ltac:(lia)).
  rewrite Z.div_div in * by lia. change (60 * 60) with 3600 in *. lia.
Qed.

(** The text names the time, to the nanosecond. *)
Lemma parse_RFC3339_text offset t :
  0 <= year_of offset t <= 9999 -> Z.abs offset < 86400 -> offset mod 60 = 0 ->
  parse_RFC3339 (RFC3339Nano offset t) = Some t.
Proof.
  unfold year_of, RFC3339Nano. set (secs := t / Second + offset). intros Hy Ho Hm.
  pose proof (days_of_civil (secs / 86400)) as Hd. destruct (civil (secs / 86400)) as [[y m] d].
  cbn [fst snd] in Hy. destruct Hd as (Hd & Hmo & Hda).
  pose proof (Z.mod_pos_bound secs 86400 ltac:(lia)) as Hs. pose proof (Z.div_mod secs 86400 ltac:(lia)) as Es.
  set (sec := secs mod 86400) in *. destruct (clock_fields sec Hs) as (H1 & H2 & H3 & H4).
  pose proof (Z.mod_pos_bound t Second eq_refl) as Hns. pose proof (Z.div_mod t Second ltac:(done)) as Et.
  unfold year_text. rewrite (proj2 (Z.ltb_ge y 0)), (proj2 (Z.ltb_ge 9999 y)) by lia.
  unfold parse_RFC3339. read_fields.
  rewrite read_frac_text; [|done|].
  2: { unfold zone_text. destruct (offset =? 0); [done|]. by destruct (offset <? 0). }
  cbn [mbind option_bind fst snd]. rewrite read_zone_text by done. cbn [mbind option_bind fst snd].
  rewrite (proj2 (bytes_eqb_eq [] [])) by done. f_equal. rewrite Hd.
  replace (86400 * (secs / 86400) + _ + _ + _ - offset) with (t / Second) by (subst secs; lia).
  lia.
Qed.

Definition ascii (s : bytes) : Prop := Forall (fun b => byteZ b < 128) s.

Lemma digits_ascii s : Forall (fun b => is_digit b = true) s -> ascii s.
Proof.
  intros Hs. eapply Forall_impl; [exact Hs|]. intros b. unfold is_digit. cbv beta.
  rewrite andb_true_iff, !Z.leb_le. lia.
Qed.

Lemma ascii_app s t : ascii s -> ascii t -> ascii (s ++ t).
Proof. intros. by apply Forall_app. Qed.

Lemma ascii_cons b s : byteZ b < 128 -> ascii s -> ascii (b :: s).
Proof. by constructor. Qed.

Lemma ascii_padded w n : ascii (padded w n).
Proof. apply digits_ascii, padded_digits. Qed.

Lemma ascii_frac ns : ascii (frac_text ns).
Proof.
  unfold frac_text. destruct (ns =? 0); [constructor|]. apply ascii_cons; [done|].
  apply digits_ascii, trim_zeros_digits, padded_digits.
Qed.

Ltac ascii :=
  repeat match goal with
  | |- ascii (_ ++ _) => apply ascii_app
  | |- ascii (_ :: _) => apply ascii_cons; [reflexivity|]
  | |- ascii (padded _ _) => apply ascii_padded
  | |- ascii (frac_text _) => apply ascii_frac
  | |- ascii (lit _) => by repeat constructor
  | |- ascii [] => constructor
  end.

Lemma ascii_zone offset : ascii (zone_text offset).
Proof. unfold zone_text. destruct (offset =? 0); [ascii|]. destruct (offset <? 0); ascii. Qed.

Lemma RFC3339_ascii offset t : 0 <= year_of offset t <= 9999 -> ascii (RFC3339Nano offset t).
Proof.
  unfold year_of, RFC3339Nano. intros Hy. destruct (civil _) as [[y m] d]. cbn [fst] in Hy.
  unfold year_text. rewrite (proj2 (Z.ltb_ge y 0)), (proj2 (Z.ltb_ge 9999 y)) by lia.
  ascii. apply ascii_zone.
Qed.

Lemma ascii_Itoa z : 0 <= z -> ascii (Itoa z).
Proof. intros. by apply digits_ascii, Itoa_digits. Qed.

Lemma ascii_fmtFrac prec v : 0 <= v -> ascii (fmtFrac prec v).
Proof.
  intros Hv. unfold fmtFrac. apply ascii_app.
  - apply digits_ascii, digits_fuel_digits; [apply Z.div_pos; lia|constructor].
  - case_match; [constructor|]. apply ascii_cons; [done|]. apply digits_ascii, trim_zeros_digits, padded_digits.
Qed.

Lemma Duration_utf8 d : utf8 (Duration_String d).
Proof.
  unfold Duration_String. set (u := Z.abs d). assert (0 <= u) as Hu by lia.
  assert (forall n t, 0 <= n -> utf8 t -> utf8 (Itoa n ++ t)) as Hi
    by (intros; apply utf8_app; [by apply utf8_ascii, ascii_Itoa|done]).
  assert (forall prec v t, 0 <= v -> utf8 t -> utf8 (fmtFrac prec v ++ t)) as Hf
    by (intros; apply utf8_app; [by apply utf8_ascii, ascii_fmtFrac|done]).
  assert (forall s, bool_decide (utf8 s) = true -> utf8 s) as Hc by (intros; by eapply bool_decide_eq_true).
  pose proof (Z.mod_pos_bound u (60 * Second) eq_refl). pose proof (Z.div_pos u (60 * Second) Hu eq_refl).
  set (m := u / (60 * Second)) in *. pose proof (Z.mod_pos_bound m 60 eq_refl). pose proof (Z.div_pos m 60).
  assert (utf8 (lit "m") /\ utf8 (lit "h") /\ utf8 (lit "s") /\ utf8 (lit "ms") /\ utf8 (lit "µs") /\ utf8 (lit "ns") /\
    utf8 (lit "0s")) as (? & ? & ? & ? & ? & ? & ?) by (split_and!; apply Hc; vm_compute; reflexivity).
  assert (forall t, utf8 t -> utf8 (if d <? 0 then x2d :: t else t)) as Hd.
  { intros t Ht. destruct (d <? 0); [|done]. apply (utf8_app [x2d]); [by apply utf8_byte|done]. }
  apply Hd. repeat case_match; auto; try (by apply Hf); try (by apply Hi);
    repeat first [apply Hi; [lia|] | apply Hf; [lia|] | apply utf8_app; [done|]]; done.
Qed.

(** ** Examples *)

Example rfc3339_utc : RFC3339Nano 0 1709210096500000000 = lit "2024-02-29T12:34:56.5Z".
Proof. reflexivity. Qed.

Example rfc3339_east : RFC3339Nano 28800 1704067199999999999 = lit "2024-01-01T07:59:59.999999999+08:00".
Proof. reflexivity. Qed.

Example duration_text : Duration_String 3723045000000 = lit "1h2m3.045s" /\ Duration_String 1500 = lit "1.5µs".
Proof. split; reflexivity. Qed.
