(* ===== verification/Json.v ===== *)
(** * JSON texts (the package encoding/json)

    The server keeps its catalog, its configuration, its packet traces and the
    bodies of administrative requests as JSON. A value is a tree; a number is
    kept as the literal of its text, an object as its members in order, repeated
    names included. [encode] is the text [json.Marshal] and
    [json.MarshalIndent(v, "", two spaces)] give, [parse_value] what the scanner
    and the decoder read. *)

From S2P Require Import Prelude GoStrings.

Local Open Scope Z_scope.

Unset Elimination Schemes.

Inductive json :=
| JNull
| JBool (b : bool)
| JNumber (literal : bytes)
| JString (s : bytes)
| JArray (elems : list json)
| JObject (members : list (bytes * json)).

Set Elimination Schemes.

(** Induction under the lists. *)
Definition json_ind (P : json -> Prop)
    (Hnull : P JNull) (Hbool : forall b, P (JBool b)) (Hnum : forall t, P (JNumber t))
    (Hstr : forall s, P (JString s))
    (Harr : forall l, Forall P l -> P (JArray l))
    (Hobj : forall ms, Forall (fun m => P m.2) ms -> P (JObject ms)) : forall j, P j :=
  fix go j :=
    match j with
    | JNull => Hnull
    | JBool b => Hbool b
    | JNumber t => Hnum t
    | JString s => Hstr s
    | JArray l =>
      Harr l ((fix each l : Forall P l :=
                 match l with
                 | [] => List.Forall_nil P
                 | x :: l' => List.Forall_cons P x l' (go x) (each l')
                 end) l)
    | JObject ms =>
      Hobj ms ((fix each ms : Forall (fun m => P m.2) ms :=
                  match ms with
                  | [] => List.Forall_nil _
                  | m :: ms' => List.Forall_cons _ m ms' (go m.2) (each ms')
                  end) ms)
    end.

(** A JSON text in an example, with single quotes for the double ones. *)
Definition json_text (s : bytes) : bytes := map (fun b => if byte_eqb b x27 then x22 else b) s.

(** ** Writing *)

(** [htmlSafeSet] *)
Definition html_safe (b : byte) : bool :=
  (0x20 <=? byteZ b) && (byteZ b <? 0x80) &&
  negb (existsb (byte_eqb b) [x22; x5c; x3c; x3e; x26]).

Definition escape_byte (b : byte) : bytes :=
  if html_safe b then [b]
  else if byte_eqb b x5c || byte_eqb b x22 then [x5c; b]
  else if byte_eqb b x08 then [x5c; x62]
  else if byte_eqb b x0c then [x5c; x66]
  else if byte_eqb b x0a then [x5c; x6e]
  else if byte_eqb b x0d then [x5c; x72]
  else if byte_eqb b x09 then [x5c; x74]
  else lit "\u00" ++ [hex_lower (Z.shiftr (byteZ b) 4); hex_lower (Z.land (byteZ b) 15)].

Fixpoint escape_fuel (fuel : nat) (s : bytes) : bytes :=
  match fuel, s with
  | S fuel', b :: s' =>
    if byteZ b <? RuneSelf then escape_byte b ++ escape_fuel fuel' s'
    else
      let '(c, w) := DecodeRune s in
      (if (c =? RuneError) && (w =? 1)%nat then lit "\ufffd"
       else if (c =? 0x2028) || (c =? 0x2029) then lit "\u202" ++ [hex_lower (Z.land c 15)]
       else take w s) ++ escape_fuel fuel' (drop w s)
  | _, _ => []
  end.

Definition quote (s : bytes) : bytes := x22 :: escape_fuel (length s) s ++ [x22].

Fixpoint commas (parts : list bytes) : bytes :=
  match parts with
  | [] => []
  | [p] => p
  | p :: parts' => p ++ x2c :: commas parts'
  end.

(** A line break and two spaces per level, in the indented form. *)
Definition line_break (indent : bool) (level : nat) : bytes :=
  if indent then x0a :: replicate (2 * level) x20 else [].

Definition colon (indent : bool) : bytes := if indent then [x3a; x20] else [x3a].

Fixpoint encode (indent : bool) (j : json) (level : nat) : bytes :=
  match j with
  | JNull => lit "null"
  | JBool b => if b then lit "true" else lit "false"
  | JNumber t => t
  | JString s => quote s
  | JArray [] => lit "[]"
  | JArray elems =>
    x5b :: commas (map (fun x => line_break indent (S level) ++ encode indent x (S level)) elems) ++
    line_break indent level ++ [x5d]
  | JObject [] => lit "{}"
  | JObject members =>
    x7b :: commas (map (fun '(k, x) => line_break indent (S level) ++ quote k ++ colon indent ++
                                       encode indent x (S level)) members) ++
    line_break indent level ++ [x7d]
  end.

Definition Marshal (j : json) : bytes := encode false j 0.
Definition MarshalIndent (j : json) : bytes := encode true j 0.

(** ** Reading: strings *)

Fixpoint hex4 (n : nat) (acc : Z) (s : bytes) : option (Z * bytes) :=
  match n, s with
  | O, _ => Some (acc, s)
  | S n', b :: s' => match hex_value b with Some v => hex4 n' (16 * acc + v) s' | None => None end
  | _, [] => None
  end.

(** [getu4]: an escape with four hexadecimal digits at the front. *)
Definition getu4 (s : bytes) : option (Z * bytes) :=
  match s with
  | a :: b :: s' => if byte_eqb a x5c && byte_eqb b x75 then hex4 4 0 s' else None
  | _ => None
  end.

Definition is_surrogate (r : Z) : bool := (0xD800 <=? r) && (r <? 0xE000).

(** [utf16.DecodeRune]; [None] is the replacement character. *)
Definition utf16_pair (r1 r2 : Z) : option Z :=
  if (0xD800 <=? r1) && (r1 <? 0xDC00) && (0xDC00 <=? r2) && (r2 <? 0xE000)
  then Some ((r1 - 0xD800) * 1024 + (r2 - 0xDC00) + 0x10000) else None.

Definition simple_escape (b : byte) : option byte :=
  if byte_eqb b x22 || byte_eqb b x5c || byte_eqb b x2f then Some b
  else if byte_eqb b x62 then Some x08
  else if byte_eqb b x66 then Some x0c
  else if byte_eqb b x6e then Some x0a
  else if byte_eqb b x72 then Some x0d
  else if byte_eqb b x74 then Some x09
  else None.

(** One step inside a string that has not ended: what it adds, and the rest. *)
Definition unquote_step (s : bytes) : option (bytes * bytes) :=
  match s with
  | [] => None
  | b :: s' =>
    if byte_eqb b x5c then
      match getu4 s with
      | Some (r, s1) =>
        if is_surrogate r then
          match getu4 s1 with
          | Some (r1, s2) =>
            match utf16_pair r r1 with
            | Some c => Some (EncodeRune c, s2)
            | None => Some (EncodeRune RuneError, s1)
            end
          | None => Some (EncodeRune RuneError, s1)
          end
        else Some (EncodeRune r, s1)
      | None =>
        match s' with
        | e :: s2 => match simple_escape e with Some c => Some ([c], s2) | None => None end
        | [] => None
        end
      end
    else if byteZ b <? 0x20 then None
    else if byteZ b <? RuneSelf then Some ([b], s')
    else let '(c, w) := DecodeRune s in Some (EncodeRune c, drop w s)
  end.

(** The string up to its closing quote, and what follows. *)
Fixpoint unquote (fuel : nat) (s : bytes) : option (bytes * bytes) :=
  match fuel with
  | O => None
  | S fuel' =>
    if match s with b :: _ => byte_eqb b x22 | [] => false end then Some ([], tail s)
    else p ← unquote_step s; r ← unquote fuel' p.2; Some (p.1 ++ r.1, r.2)
  end.

Definition scan_string (s : bytes) : option (bytes * bytes) := unquote (S (length s)) s.

(** ** Reading: numbers *)

Fixpoint span_digits (s : bytes) : bytes * bytes :=
  match s with
  | b :: s' => if is_digit b then let '(ds, r) := span_digits s' in (b :: ds, r) else ([], s)
  | [] => ([], [])
  end.

(** At least one digit. *)
Definition digits1 (s : bytes) : option (bytes * bytes) :=
  let '(ds, r) := span_digits s in if bytes_eqb ds [] then None else Some (ds, r).

Definition scan_sign (s : bytes) : bytes * bytes :=
  match s with b :: s' => if byte_eqb b x2d then ([b], s') else ([], s) | [] => ([], []) end.

(** No further digit follows a leading zero. *)
Definition scan_int (s : bytes) : option (bytes * bytes) :=
  match s with
  | b :: s' => if byte_eqb b x30 then Some ([b], s') else digits1 s
  | [] => None
  end.

Definition scan_frac (s : bytes) : option (bytes * bytes) :=
  match s with
  | b :: s' => if byte_eqb b x2e then p ← digits1 s'; Some (b :: p.1, p.2) else Some ([], s)
  | [] => Some ([], [])
  end.

Definition scan_exp (s : bytes) : option (bytes * bytes) :=
  match s with
  | b :: s' =>
    if byte_eqb b x65 || byte_eqb b x45 then
      let '(sign, s1) :=
        match s' with
        | c :: s2 => if byte_eqb c x2b || byte_eqb c x2d then ([c], s2) else ([], s')
        | [] => ([], [])
        end in
      p ← digits1 s1; Some (b :: sign ++ p.1, p.2)
    else Some ([], s)
  | [] => Some ([], [])
  end.

Definition scan_number (s : bytes) : option (bytes * bytes) :=
  let '(sign, s1) := scan_sign s in
  p ← scan_int s1;
  q ← scan_frac p.2;
  r ← scan_exp q.2;
  Some (sign ++ p.1 ++ q.1 ++ r.1, r.2).

(** ** Reading: values *)

Definition maxNestingDepth : Z := 10000.

Definition is_space (b : byte) : bool := existsb (byte_eqb b) [x20; x09; x0d; x0a].

Fixpoint skip_ws (s : bytes) : bytes :=
  match s with
  | b :: s' => if is_space b then skip_ws s' else s
  | [] => []
  end.

(** The literals [null], [true], [false]. *)
Definition scan_word (s : bytes) : option (json * bytes) :=
  if has_prefix (lit "null") s then Some (JNull, drop 4 s)
  else if has_prefix (lit "true") s then Some (JBool true, drop 4 s)
  else if has_prefix (lit "false") s then Some (JBool false, drop 5 s)
  else None.

Definition starts_with (b : byte) (s : bytes) : bool :=
  match s with c :: _ => byte_eqb c b | [] => false end.

(** A value at the front of [s], inside [depth] arrays and objects; a list of
    elements up to the closing bracket; a list of members up to the closing
    brace. No white space at the front of [s]. *)
Fixpoint parse_value (fuel : nat) (depth : Z) (s : bytes) {struct fuel} : option (json * bytes) :=
  match fuel with
  | O => None
  | S fuel' =>
    if starts_with x22 s then p ← scan_string (tail s); Some (JString p.1, p.2)
    else if starts_with x5b s then
      if maxNestingDepth <? depth + 1 then None else
      let s1 := skip_ws (tail s) in
      if starts_with x5d s1 then Some (JArray [], tail s1)
      else p ← parse_elems fuel' (depth + 1) s1; Some (JArray p.1, p.2)
    else if starts_with x7b s then
      if maxNestingDepth <? depth + 1 then None else
      let s1 := skip_ws (tail s) in
      if starts_with x7d s1 then Some (JObject [], tail s1)
      else p ← parse_members fuel' (depth + 1) s1; Some (JObject p.1, p.2)
    else match scan_word s with
         | Some p => Some p
         | None => p ← scan_number s; Some (JNumber p.1, p.2)
         end
  end
with parse_elems (fuel : nat) (depth : Z) (s : bytes) {struct fuel} : option (list json * bytes) :=
  match fuel with
  | O => None
  | S fuel' =>
    p ← parse_value fuel' depth s;
    let s1 := skip_ws p.2 in
    if starts_with x2c s1 then
      q ← parse_elems fuel' depth (skip_ws (tail s1)); Some (p.1 :: q.1, q.2)
    else if starts_with x5d s1 then Some ([p.1], tail s1)
    else None
  end
with parse_members (fuel : nat) (depth : Z) (s : bytes) {struct fuel}
    : option (list (bytes * json) * bytes) :=
  match fuel with
  | O => None
  | S fuel' =>
    if negb (starts_with x22 s) then None else
    k ← scan_string (tail s);
    let s1 := skip_ws k.2 in
    if negb (starts_with x3a s1) then None else
    p ← parse_value fuel' depth (skip_ws (tail s1));
    let s2 := skip_ws p.2 in
    if starts_with x2c s2 then
      q ← parse_members fuel' depth (skip_ws (tail s2)); Some ((k.1, p.1) :: q.1, q.2)
    else if starts_with x7d s2 then Some ([(k.1, p.1)], tail s2)
    else None
  end.

(** The value a [json.Decoder] reads first, and what it leaves unread. *)
Definition parse_first (s : bytes) : option (json * bytes) :=
  parse_value (2 * length s + 2) 0 (skip_ws s).

(** The value [json.Unmarshal] reads: nothing but white space may follow. *)
Definition parse_document (s : bytes) : option json :=
  p ← parse_first s; if bytes_eqb (skip_ws p.2) [] then Some p.1 else None.
