(* ===== verification/JsonFacts.v ===== *)
(** * Properties of JSON texts

    Reading stops and consumes its input; what is read is well formed; what is
    written, compact or indented, is read back. *)

From S2P Require Import Prelude GoStrings GoUtf8 Json.

Local Open Scope Z_scope.

(** ** Bytes and white space *)

Lemma starts_with_inv b s : starts_with b s = true -> s = b :: tail s.
Proof. destruct s as [|c s]; [done|]. cbn. by intros ->%byte_eqb_eq. Qed.

Lemma skip_ws_length s : (length (skip_ws s) <= length s)%nat.
Proof. induction s as [|b s IH]; [done|]. cbn [skip_ws]. destruct (is_space b); cbn [length]; lia. Qed.

Lemma skip_ws_id b s : is_space b = false -> skip_ws (b :: s) = b :: s.
Proof. intros H. cbn [skip_ws]. by rewrite H. Qed.

Lemma skip_ws_spaces w s : Forall (fun b => is_space b = true) w -> skip_ws (w ++ s) = skip_ws s.
Proof. induction 1 as [|b w Hb _ IH]; [done|]. cbn [app skip_ws]. by rewrite Hb. Qed.

Lemma line_break_space indent level : Forall (fun b => is_space b = true) (line_break indent level).
Proof.
  destruct indent; [|constructor]. constructor; [done|]. apply Forall_replicate. done.
Qed.

(** A result of a scanner is shorter than its input. *)
Lemma tail_length {A} (s : list A) n : (length s <= S n)%nat -> (length (tail s) <= n)%nat.
Proof. destruct s; cbn; lia. Qed.

(** ** Strings *)

Lemma hex4_rest n acc s r t : hex4 n acc s = Some (r, t) -> length s = (n + length t)%nat.
Proof.
  revert acc s; induction n as [|n IH]; intros acc s; cbn [hex4].
  - intros [= _ <-]. by destruct s.
  - destruct s as [|b s]; [done|]. destruct (hex_value b); [|done]. intros H%IH. cbn. lia.
Qed.

Lemma getu4_rest s r t : getu4 s = Some (r, t) -> length s = (6 + length t)%nat.
Proof.
  destruct s as [|a [|b s]]; [done..|]. cbn [getu4]. destruct (_ && _); [|done].
  intros H%hex4_rest. cbn. lia.
Qed.

(** A step consumes something and adds valid text. *)
Lemma unquote_step_spec s t r : unquote_step s = Some (t, r) -> utf8 t /\ (length r < length s)%nat.
Proof.
  destruct s as [|b s]; [done|]. cbn [unquote_step]. destruct (byte_eqb b x5c) eqn:Eb.
  - destruct (getu4 (b :: s)) as [[u s1]|] eqn:Eu.
    + apply getu4_rest in Eu. destruct (is_surrogate u).
      * destruct (getu4 s1) as [[u1 s2]|] eqn:E1.
        -- apply getu4_rest in E1. destruct (utf16_pair u u1); intros [= <- <-]; auto with go lia.
        -- intros [= <- <-]. auto with go lia.
      * intros [= <- <-]. auto with go lia.
    + destruct s as [|e s]; [done|]. destruct (simple_escape e) as [c|] eqn:Ee; [|done].
      intros [= <- <-]. split; [|cbn; lia]. apply utf8_byte. revert Ee. unfold simple_escape.
      repeat match goal with |- context [byte_eqb e ?x] => destruct (byte_eqb e x) eqn:? end;
        cbn [orb]; intros [= <-]; try done; by match goal with H : byte_eqb e _ = true |- _ =>
          apply byte_eqb_eq in H as -> end.
  - destruct (Z.ltb_spec (byteZ b) 0x20); [done|]. unfold RuneSelf.
    destruct (Z.ltb_spec (byteZ b) 0x80).
    + intros [= <- <-]. split; [by apply utf8_byte|cbn; lia].
    + destruct (DecodeRune (b :: s)) as [c w] eqn:E. intros [= <- <-]. split; [apply utf8_rune|].
      pose proof (DecodeRune_width (b :: s) ltac:(done)). rewrite E in *. cbn [snd] in *.
      rewrite length_drop. cbn [length]. lia.
Qed.

Lemma unquote_spec n s t r : unquote n s = Some (t, r) -> utf8 t /\ (length r < length s)%nat.
Proof.
  revert s t; induction n as [|n IH]; intros s t; [done|]. cbn [unquote].
  destruct s as [|b s]; [done|]. destruct (byte_eqb b x22).
  { intros [= <- <-]. split; [apply utf8_nil|cbn; lia]. }
  destruct (unquote_step (b :: s)) as [[t1 s1]|] eqn:E1; [|done]. cbn.
  destruct (unquote n s1) as [[t2 s2]|] eqn:E2; [|done]. cbn. intros [= <- <-].
  apply unquote_step_spec in E1 as [? ?]. apply IH in E2 as [? ?]. split; [by apply utf8_app|].
  cbn in *. lia.
Qed.

(** Fuel beyond the length changes nothing. *)
Lemma unquote_fuel n m s : (length s < n)%nat -> (length s < m)%nat -> unquote n s = unquote m s.
Proof.
  revert m s; induction n as [|n IH]; intros m s Hn Hm; [lia|]. destruct m as [|m]; [lia|].
  cbn [unquote]. destruct s as [|b s]; [done|]. destruct (byte_eqb b x22); [done|].
  destruct (unquote_step (b :: s)) as [[t s1]|] eqn:E; [|done]. cbn.
  apply unquote_step_spec in E as [_ E]. by rewrite (IH m) by (cbn in *; lia).
Qed.

Lemma scan_string_spec s t r : scan_string s = Some (t, r) -> utf8 t /\ (length r < length s)%nat.
Proof. apply unquote_spec. Qed.

(** ** Numbers *)

Definition all_digits (ds : bytes) : Prop := ds <> [] /\ Forall (fun b => is_digit b = true) ds.

(** The text does not go on with a digit. *)
Definition no_digit (s : bytes) : Prop :=
  match s with b :: _ => is_digit b = false | [] => True end.

(** A number may end before [s]. *)
Definition num_end (s : bytes) : Prop :=
  match s with
  | b :: _ => is_digit b = false /\ existsb (byte_eqb b) [x2e; x65; x45] = false
  | [] => True
  end.

Lemma num_end_no_digit s : num_end s -> no_digit s.
Proof. destruct s; [done|]. by intros [? _]. Qed.

Lemma span_digits_spec s :
  let '(ds, r) := span_digits s in
  s = ds ++ r /\ Forall (fun b => is_digit b = true) ds /\ no_digit r.
Proof.
  induction s as [|b s IH]; cbn [span_digits]; [by repeat split|].
  destruct (is_digit b) eqn:Eb; [|by repeat split].
  destruct (span_digits s) as [ds r]. destruct IH as (-> & Hd & Hr). by repeat constructor.
Qed.

Lemma span_digits_app ds r :
  Forall (fun b => is_digit b = true) ds -> no_digit r -> span_digits (ds ++ r) = (ds, r).
Proof.
  intros Hd Hr. induction Hd as [|b ds Hb _ IH]; cbn [app span_digits].
  - destruct r as [|b r]; [done|]. cbn [span_digits]. cbn in Hr. by rewrite Hr.
  - by rewrite Hb, IH.
Qed.

Lemma digits1_spec s ds r : digits1 s = Some (ds, r) -> s = ds ++ r /\ all_digits ds.
Proof.
  unfold digits1. pose proof (span_digits_spec s) as H. destruct (span_digits s) as [ds' r'].
  destruct (bytes_eqb ds' []) eqn:E; [done|]. apply bytes_eqb_neq in E.
  intros [= <- <-]. by destruct H as (-> & ? & _).
Qed.

Lemma digits1_app ds r : all_digits ds -> no_digit r -> digits1 (ds ++ r) = Some (ds, r).
Proof.
  intros [Hne Hd] Hr. unfold digits1. rewrite span_digits_app by done.
  by rewrite (proj2 (bytes_eqb_neq _ _) Hne).
Qed.

(** The grammar of numbers. *)
Definition sign_part (t : bytes) : Prop := t = [] \/ t = [x2d].
Definition int_part (t : bytes) : Prop := t = [x30] \/ all_digits t /\ starts_with x30 t = false.
Definition frac_part (t : bytes) : Prop := t = [] \/ exists ds, t = x2e :: ds /\ all_digits ds.
Definition exp_part (t : bytes) : Prop :=
  t = [] \/ exists e sign ds, t = e :: sign ++ ds /\ (e = x65 \/ e = x45) /\
              (sign = [] \/ sign = [x2b] \/ sign = [x2d]) /\ all_digits ds.

Definition number_literal (t : bytes) : Prop :=
  exists s i f e, t = s ++ i ++ f ++ e /\ sign_part s /\ int_part i /\ frac_part f /\ exp_part e.

Lemma scan_sign_spec s : let '(t, r) := scan_sign s in s = t ++ r /\ sign_part t.
Proof.
  destruct s as [|b s]; cbn [scan_sign]; [by repeat constructor|].
  destruct (byte_eqb b x2d) eqn:E; [|by repeat constructor].
  apply byte_eqb_eq in E as ->. split; [done|by right].
Qed.

Lemma scan_int_spec s t r : scan_int s = Some (t, r) -> s = t ++ r /\ int_part t.
Proof.
  destruct s as [|b s]; [done|]. cbn [scan_int]. destruct (byte_eqb b x30) eqn:E.
  - apply byte_eqb_eq in E as ->. intros [= <- <-]. split; [done|by left].
  - intros [Es Hd]%digits1_spec. split; [done|]. right. split; [done|].
    destruct t as [|c t]; [by destruct Hd|]. injection Es as <- _. exact E.
Qed.

Lemma scan_frac_spec s t r : scan_frac s = Some (t, r) -> s = t ++ r /\ frac_part t.
Proof.
  destruct s as [|b s]; cbn [scan_frac]; [intros [= <- <-]; split; [done|by left]|].
  destruct (byte_eqb b x2e) eqn:E; [|intros [= <- <-]; split; [done|by left]].
  apply byte_eqb_eq in E as ->. destruct (digits1 s) as [[ds r']|] eqn:Ed; [|done].
  cbn. intros [= <- <-]. apply digits1_spec in Ed as [-> Hd]. split; [done|]. right. by exists ds.
Qed.

Lemma scan_exp_spec s t r : scan_exp s = Some (t, r) -> s = t ++ r /\ exp_part t.
Proof.
  destruct s as [|b s]; cbn [scan_exp]; [intros [= <- <-]; split; [done|by left]|].
  destruct (byte_eqb b x65 || byte_eqb b x45) eqn:E; [|intros [= <- <-]; split; [done|by left]].
  apply orb_true_iff in E. rewrite !byte_eqb_eq in E.
  set (p := match s with c :: s2 => if byte_eqb c x2b || byte_eqb c x2d then ([c], s2) else ([], s)
            | [] => ([], []) end).
  assert (s = p.1 ++ p.2 /\ (p.1 = [] \/ p.1 = [x2b] \/ p.1 = [x2d])) as [Hs Hp].
  { subst p. destruct s as [|c s2]; [by split; [|left]|].
    destruct (byte_eqb c x2b || byte_eqb c x2d) eqn:Ec; [|by split; [|left]].
    apply orb_true_iff in Ec. rewrite !byte_eqb_eq in Ec. split; [done|].
    destruct Ec as [-> | ->]; auto. }
  destruct p as [sign s1]. cbn [fst snd] in *. subst s.
  destruct (digits1 s1) as [[ds r']|] eqn:Ed; [|done]. cbn. intros [= <- <-].
  apply digits1_spec in Ed as [-> Hd]. split; [cbn; by rewrite <- app_assoc|].
  right. by exists b, sign, ds.
Qed.

Lemma scan_number_spec s t r : scan_number s = Some (t, r) -> s = t ++ r /\ number_literal t.
Proof.
  unfold scan_number. pose proof (scan_sign_spec s) as Hs. destruct (scan_sign s) as [sign s1].
  destruct Hs as [-> Hs]. destruct (scan_int s1) as [[i s2]|] eqn:Ei; [|done]. cbn.
  destruct (scan_frac s2) as [[f s3]|] eqn:Ef; [|done]. cbn.
  destruct (scan_exp s3) as [[e s4]|] eqn:Ee; [|done]. cbn. intros [= <- <-].
  apply scan_int_spec in Ei as [-> Hi]. apply scan_frac_spec in Ef as [-> Hf].
  apply scan_exp_spec in Ee as [-> He]. split; [by rewrite <- !app_assoc|]. by exists sign, i, f, e.
Qed.

Lemma digit_head ds r : all_digits ds -> exists b s, ds ++ r = b :: s /\ is_digit b = true.
Proof. intros [Hne Hd]. destruct Hd as [|b ds Hb _]; [done|]. by exists b, (ds ++ r). Qed.

(** A digit is none of the other characters of a number. *)
Lemma digit_not b c : is_digit b = true -> is_digit c = false -> byte_eqb b c = false.
Proof. intros Hb Hc. apply byte_eqb_neq. intros ->. congruence. Qed.

Lemma scan_exp_app e r : exp_part e -> num_end r -> scan_exp (e ++ r) = Some (e, r).
Proof.
  intros [->|(b & sign & ds & -> & Hb & Hsign & Hd)] Hr; cbn [app].
  - destruct r as [|b r]; [done|]. cbn [scan_exp]. cbn in Hr. destruct Hr as [_ Hr].
    apply orb_false_iff in Hr as [_ Hr]. rewrite orb_false_r in Hr. by rewrite Hr.
  - cbn [scan_exp]. rewrite (proj2 (orb_true_iff _ _)) by (rewrite !byte_eqb_eq; tauto).
    rewrite <- app_assoc. destruct (digit_head ds r Hd) as (c & s & E & Hc).
    destruct Hsign as [->|[->| ->]]; cbn [app].
    + rewrite E, !(digit_not c) by done. cbn [orb]. rewrite <- E.
      by rewrite digits1_app by (done || by apply num_end_no_digit).
    + eval_eqb. by rewrite digits1_app by (done || by apply num_end_no_digit).
    + eval_eqb. by rewrite digits1_app by (done || by apply num_end_no_digit).
Qed.

Lemma exp_no_digit e r : exp_part e -> num_end r -> no_digit (e ++ r).
Proof.
  intros [->|(b & sign & ds & -> & Hb & _)] Hr; [by apply num_end_no_digit|].
  by destruct Hb as [-> | ->].
Qed.

Lemma scan_frac_app f e r :
  frac_part f -> exp_part e -> num_end r -> scan_frac (f ++ e ++ r) = Some (f, e ++ r).
Proof.
  intros [->|(ds & -> & Hd)] He Hr; cbn [app].
  - destruct (e ++ r) as [|b s] eqn:E; [done|]. cbn [scan_frac].
    assert (byte_eqb b x2e = false) as ->; [|done]. apply byte_eqb_neq. intros ->.
    destruct He as [->|(c & sign & ds & -> & Hc & _)].
    + cbn in E. subst r. by destruct Hr.
    + injection E as -> _. by destruct Hc.
  - cbn [scan_frac]. rewrite byte_eqb_refl, digits1_app by (done || by apply exp_no_digit). done.
Qed.

Lemma frac_no_digit f e r : frac_part f -> exp_part e -> num_end r -> no_digit (f ++ e ++ r).
Proof. intros [->|(ds & -> & _)] He Hr; [by apply (exp_no_digit e)|done]. Qed.

Lemma scan_int_app i f e r :
  int_part i -> frac_part f -> exp_part e -> num_end r ->
  scan_int (i ++ f ++ e ++ r) = Some (i, f ++ e ++ r).
Proof.
  intros [->|[Hd Hz]] Hf He Hr; [done|].
  destruct i as [|b i]; [by destruct Hd|]. cbn in Hz. cbn [app scan_int]. rewrite Hz.
  apply (digits1_app (b :: i)); [done|]. by apply frac_no_digit.
Qed.

(** A number followed by something else is read in full. *)
Lemma scan_number_app t r : number_literal t -> num_end r -> scan_number (t ++ r) = Some (t, r).
Proof.
  intros (s & i & f & e & -> & Hs & Hi & Hf & He) Hr. unfold scan_number.
  assert (scan_sign ((s ++ i ++ f ++ e) ++ r) = (s, i ++ f ++ e ++ r)) as ->.
  { rewrite <- !app_assoc. destruct Hs as [->| ->]; [|done]. cbn [app].
    destruct Hi as [->|[[Hne Hd] _]]; [done|]. destruct Hd as [|b i Hb _]; [done|]. cbn [app scan_sign].
    by rewrite (digit_not b x2d) by done. }
  rewrite scan_int_app by done. cbn. rewrite scan_frac_app by done. cbn.
  rewrite scan_exp_app by done. done.
Qed.

Lemma number_head t : number_literal t -> exists b s, t = b :: s /\ (b = x2d \/ is_digit b = true).
Proof.
  intros (s & i & f & e & -> & Hs & Hi & _ & _). destruct Hs as [->| ->]; [|cbn; eauto].
  cbn [app]. destruct Hi as [->|[[Hne Hd] _]]; [cbn; eauto|].
  destruct Hd as [|b i Hb _]; [done|]. cbn [app]. eauto.
Qed.

(** ** Values *)

(** A well-formed value: texts are valid UTF-8, literals are numbers. *)
Inductive json_with (T : bytes -> Prop) : json -> Prop :=
| ok_null : json_with T JNull
| ok_bool b : json_with T (JBool b)
| ok_number t : number_literal t -> json_with T (JNumber t)
| ok_string s : T s -> json_with T (JString s)
| ok_array l : Forall (json_with T) l -> json_with T (JArray l)
| ok_object ms : Forall (fun m => T m.1 /\ json_with T m.2) ms -> json_with T (JObject ms).

(** What is read has texts in UTF-8. *)
Abbreviation json_ok := (json_with utf8).

(** How deep arrays and objects are nested. *)
Fixpoint nesting (j : json) : Z :=
  match j with
  | JArray l => 1 + foldr Z.max 0 (map nesting l)
  | JObject ms => 1 + foldr Z.max 0 (map (fun m => nesting m.2) ms)
  | _ => 0
  end.

Lemma max_bound {A} (f : A -> Z) l b :
  0 <= b -> foldr Z.max 0 (map f l) <= b <-> Forall (fun x => f x <= b) l.
Proof.
  intros Hb. induction l as [|x l IH]; cbn [map foldr]; [by split|].
  rewrite Forall_cons, <- IH. lia.
Qed.

Lemma max_nonneg {A} (f : A -> Z) l : 0 <= foldr Z.max 0 (map f l).
Proof. induction l; cbn [map foldr]; lia. Qed.

Lemma nesting_nonneg j : 0 <= nesting j.
Proof.
  destruct j as [| | | |l|ms]; cbn [nesting]; try lia;
    [pose proof (max_nonneg nesting l)|pose proof (max_nonneg (fun m => nesting m.2) ms)]; lia.
Qed.

(** A value that may stand inside [d] arrays and objects. *)
Definition fits_with (T : bytes -> Prop) (d : Z) (j : json) : Prop :=
  json_with T j /\ d + nesting j <= maxNestingDepth.
Abbreviation fits := (fits_with utf8).

Lemma scan_word_spec s j r :
  scan_word s = Some (j, r) -> json_ok j /\ nesting j = 0 /\ (length r < length s)%nat.
Proof.
  unfold scan_word.
  assert (forall p k, has_prefix p s = true -> p <> [] -> k = length p -> (length (drop k s) < length s)%nat)
    as Hdrop.
  { intros p k (t & ->)%has_prefix_spec Hp ->. rewrite drop_app_length, length_app.
    destruct p; [done|]. cbn. lia. }
  repeat (match goal with |- context [has_prefix ?p s] => destruct (has_prefix p s) eqn:? end;
    [intros [= <- <-]; split; [constructor|]; split; [done|]; by eapply Hdrop|]). done.
Qed.

Lemma fits_array {T} d l :
  Forall (fits_with T (d + 1)) l -> d + 1 <= maxNestingDepth -> fits_with T d (JArray l).
Proof.
  intros H Hd. split; [constructor; eapply Forall_impl; [exact H|by intros ? []]|].
  cbn [nesting]. assert (foldr Z.max 0 (map nesting l) <= maxNestingDepth - (d + 1)); [|lia].
  apply max_bound; [lia|]. eapply Forall_impl; [exact H|]. intros j [_ Hj]. cbn. lia.
Qed.

Lemma fits_object {T} d ms :
  Forall (fun m => T m.1 /\ fits_with T (d + 1) m.2) ms -> d + 1 <= maxNestingDepth ->
  fits_with T d (JObject ms).
Proof.
  intros H Hd. split; [constructor; eapply Forall_impl; [exact H|by intros ? (? & ? & _)]|].
  cbn [nesting].
  assert (foldr Z.max 0 (map (fun m => nesting m.2) ms) <= maxNestingDepth - (d + 1)); [|lia].
  apply max_bound; [lia|]. eapply Forall_impl; [exact H|]. intros m (_ & _ & Hj). cbn. lia.
Qed.

Lemma starts_with_length b s : starts_with b s = true -> length s = S (length (tail s)).
Proof. intros H%starts_with_inv. by rewrite H at 1. Qed.

(** A scanner is applied first; the rest of the parser takes its result. *)
Ltac scan E :=
  match goal with
  | |- (mbind _ ?m) = _ -> _ =>
    let p := fresh "p" in destruct m as [p|] eqn:E; [cbn [mbind option_bind]|done]; destruct p; cbn [fst snd]
  end.

(** What is read is well formed and within the depth, and input is consumed. *)
Lemma parse_spec n :
  (forall d s j r, d <= maxNestingDepth -> parse_value n d s = Some (j, r) ->
     fits d j /\ (length r < length s)%nat) /\
  (forall d s l r, d <= maxNestingDepth -> parse_elems n d s = Some (l, r) ->
     Forall (fits d) l /\ (length r < length s)%nat) /\
  (forall d s ms r, d <= maxNestingDepth -> parse_members n d s = Some (ms, r) ->
     Forall (fun m => utf8 m.1 /\ fits d m.2) ms /\ (length r < length s)%nat).
Proof.
  induction n as [|n (IHv & IHe & IHm)]; [done|]. split; [|split]; intros d s j r Hd.
  - cbn [parse_value]. destruct (starts_with x22 s) eqn:E1; [|destruct (starts_with x5b s) eqn:E2;
      [|destruct (starts_with x7b s) eqn:E3]].
    + apply starts_with_length in E1. scan E. intros [= <- <-]. apply scan_string_spec in E as [Hu Hl].
      split; [|lia]. split; [by constructor|cbn; lia].
    + apply starts_with_length in E2. destruct (Z.ltb_spec maxNestingDepth (d + 1)); [done|].
      pose proof (skip_ws_length (tail s)). cbv zeta.
      destruct (starts_with x5d (skip_ws (tail s))) eqn:E4.
      * apply starts_with_length in E4. intros [= <- <-]. split; [|lia].
        by apply (fits_array d []).
      * scan E. intros [= <- <-]. apply IHe in E as [Hf Hl]; [|lia]. split; [|lia]. by apply fits_array.
    + apply starts_with_length in E3. destruct (Z.ltb_spec maxNestingDepth (d + 1)); [done|].
      pose proof (skip_ws_length (tail s)). cbv zeta.
      destruct (starts_with x7d (skip_ws (tail s))) eqn:E4.
      * apply starts_with_length in E4. intros [= <- <-]. split; [|lia].
        by apply (fits_object d []).
      * scan E. intros [= <- <-]. apply IHm in E as [Hf Hl]; [|lia]. split; [|lia]. by apply fits_object.
    + destruct (scan_word s) as [[j' r']|] eqn:E.
      * intros [= <- <-]. apply scan_word_spec in E as (Hj & Hn & Hl). split; [|done].
        split; [done|lia].
      * scan E'. intros [= <- <-]. apply scan_number_spec in E' as [-> Hn].
        destruct (number_head _ Hn) as (b & u & -> & _). split; [|rewrite length_app; cbn; lia].
        split; [by constructor|cbn; lia].
  - cbn [parse_elems]. scan E. apply IHv in E as [Hf Hl]; [|done]. cbv zeta.
    match goal with |- context [starts_with x2c (skip_ws ?u)] => pose proof (skip_ws_length u) end.
    destruct (starts_with x2c _) eqn:E2.
    + apply starts_with_length in E2. scan E3. intros [= <- <-]. apply IHe in E3 as [Hf' Hl']; [|done].
      match type of Hl' with context [skip_ws ?u] => pose proof (skip_ws_length u) end.
      split; [by constructor|lia].
    + destruct (starts_with x5d _) eqn:E3; [|done]. apply starts_with_length in E3.
      intros [= <- <-]. split; [by repeat constructor; apply Hf|lia].
  - cbn [parse_members]. destruct (starts_with x22 s) eqn:E1; [|done]. cbn [negb].
    apply starts_with_length in E1. scan E. apply scan_string_spec in E as [Hu Hl]. cbv zeta.
    match goal with |- context [starts_with x3a (skip_ws ?u)] => pose proof (skip_ws_length u) end.
    destruct (starts_with x3a _) eqn:E2; [|done]. cbn [negb]. apply starts_with_length in E2.
    scan E3. apply IHv in E3 as [Hf Hl']; [|done].
    match type of Hl' with context [skip_ws ?u] => pose proof (skip_ws_length u) end.
    match goal with |- context [starts_with x2c (skip_ws ?u)] => pose proof (skip_ws_length u) end.
    destruct (starts_with x2c _) eqn:E4.
    + apply starts_with_length in E4. scan E5. intros [= <- <-]. apply IHm in E5 as [Hf' Hl2]; [|done].
      match type of Hl2 with context [skip_ws ?u] => pose proof (skip_ws_length u) end.
      split; [by constructor|lia].
    + destruct (starts_with x7d _) eqn:E5; [|done]. apply starts_with_length in E5.
      intros [= <- <-]. split; [by repeat constructor; try apply Hf|lia].
Qed.

(** Fuel of twice the length is enough: more changes nothing. *)
Lemma parse_fuel n :
  (forall m d s, d <= maxNestingDepth -> (2 * length s + 1 <= n)%nat -> (2 * length s + 1 <= m)%nat ->
     parse_value n d s = parse_value m d s) /\
  (forall m d s, d <= maxNestingDepth -> (2 * length s + 2 <= n)%nat -> (2 * length s + 2 <= m)%nat ->
     parse_elems n d s = parse_elems m d s) /\
  (forall m d s, d <= maxNestingDepth -> (2 * length s + 2 <= n)%nat -> (2 * length s + 2 <= m)%nat ->
     parse_members n d s = parse_members m d s).
Proof.
  induction n as [|n (IHv & IHe & IHm)]; [repeat split; lia|].
  split; [|split]; intros [|m] d s Hd Hn Hm; try lia.
  - cbn [parse_value]. destruct (starts_with x22 s); [done|].
    pose proof (skip_ws_length (tail s)).
    destruct (starts_with x5b s) eqn:E2; [|destruct (starts_with x7b s) eqn:E3; [|done]];
      (destruct (Z.ltb_spec maxNestingDepth (d + 1)); [done|]); cbv zeta.
    + apply starts_with_length in E2. destruct (starts_with x5d _); [done|].
      by rewrite (IHe m) by lia.
    + apply starts_with_length in E3. destruct (starts_with x7d _); [done|].
      by rewrite (IHm m) by lia.
  - cbn [parse_elems]. rewrite (IHv m) by lia. destruct (parse_value m d s) as [[j r]|] eqn:E; [|done].
    cbn. apply (proj1 (parse_spec m)) in E as [_ El]; [|done]. pose proof (skip_ws_length r).
    destruct (starts_with x2c _) eqn:E2; [|done]. apply starts_with_length in E2.
    pose proof (skip_ws_length (tail (skip_ws r))). by rewrite (IHe m) by lia.
  - cbn [parse_members]. destruct (starts_with x22 s) eqn:E1; [|done]. cbn [negb].
    apply starts_with_length in E1. destruct (scan_string (tail s)) as [[k r]|] eqn:E; [|done].
    cbn [mbind option_bind fst snd]. cbv zeta. apply scan_string_spec in E as [_ El].
    pose proof (skip_ws_length r). destruct (starts_with x3a _) eqn:E2; [|done]. cbn [negb].
    apply starts_with_length in E2. pose proof (skip_ws_length (tail (skip_ws r))).
    rewrite (IHv m) by lia. destruct (parse_value m d _) as [[j r2]|] eqn:E3; [|done].
    cbn [mbind option_bind fst snd]. apply (proj1 (parse_spec m)) in E3 as [_ E3l]; [|done].
    pose proof (skip_ws_length r2). destruct (starts_with x2c _) eqn:E4; [|done].
    apply starts_with_length in E4. pose proof (skip_ws_length (tail (skip_ws r2))).
    by rewrite (IHm m) by lia.
Qed.

Lemma parse_first_spec s j r :
  parse_first s = Some (j, r) -> fits 0 j /\ (length r < length s)%nat.
Proof.
  intros E. apply (proj1 (parse_spec _)) in E as [Hf Hl]; [|done].
  pose proof (skip_ws_length s). split; [done|lia].
Qed.

(** Reading is insensitive to the fuel it is given beyond the bound. *)
Lemma parse_first_fuel s n :
  (2 * length s + 1 <= n)%nat -> parse_first s = parse_value n 0 (skip_ws s).
Proof. intros Hn. pose proof (skip_ws_length s). by apply parse_fuel; [|lia|lia]. Qed.

(** A value starts with a byte that is not white space. *)
Lemma parse_value_starts fuel d s p :
  parse_value fuel d s = Some p -> exists b s', s = b :: s' /\ visible b = true.
Proof.
  destruct fuel as [|fuel]; [done|]. destruct s as [|b s]; [done|]. intros H. exists b, s. split; [done|].
  destruct (visible b) eqn:Hv; [done|]. exfalso. revert H. cbn [parse_value starts_with].
  assert (forall c, visible c = true -> byte_eqb b c = false /\ byte_eqb c b = false) as Hne.
  { intros c Hc. split; apply byte_eqb_neq; congruence. }
  rewrite (proj1 (Hne x22 eq_refl)), (proj1 (Hne x5b eq_refl)), (proj1 (Hne x7b eq_refl)). unfold scan_word.
  assert (forall c t, visible c = true -> has_prefix (c :: t) (b :: s) = false) as Hp.
  { intros c t Hc. cbn [has_prefix]. by rewrite (proj2 (Hne _ Hc)). }
  change (lit "null") with (x6e :: lit "ull"). change (lit "true") with (x74 :: lit "rue").
  change (lit "false") with (x66 :: lit "alse"). rewrite !Hp by done.
  unfold scan_number, scan_sign. rewrite (proj1 (Hne x2d eq_refl)). unfold scan_int, digits1.
  rewrite (proj1 (Hne x30 eq_refl)). cbn [span_digits].
  destruct (is_digit b) eqn:Hd; [|done]. unfold is_digit in Hd. unfold visible in Hv. lia.
Qed.

Lemma trim_left_skip s : trim_left (length s) s = trim_left (length (skip_ws s)) (skip_ws s).
Proof.
  induction s as [|b s IH]; [done|]. cbn [skip_ws]. destruct (is_space b) eqn:Hb; [|done].
  rewrite <- IH. cbn [length trim_left].
  assert (DecodeRune (b :: s) = (byteZ b, 1%nat) /\ IsSpace (byteZ b) = true) as [-> ->]; [|done].
  unfold is_space in Hb. apply existsb_exists in Hb as (c & Hc & ->%byte_eqb_eq).
  repeat (destruct Hc as [<-|Hc]; [by split|]). done.
Qed.

(** The text of a value is not blank. *)
Lemma parse_document_visible s j : parse_document s = Some j -> TrimSpace s <> [].
Proof.
  unfold parse_document. destruct (parse_first s) as [p|] eqn:E; [|done]. intros _.
  apply parse_value_starts in E as (b & s' & E & Hb). unfold TrimSpace.
  rewrite trim_left_skip, E. destruct (TrimSpace_starts b s' Hb) as [t Ht]. unfold TrimSpace in Ht.
  cbv zeta in *. by rewrite Ht.
Qed.

Lemma parse_document_ok s j : parse_document s = Some j -> fits 0 j.
Proof.
  unfold parse_document. destruct (parse_first s) as [[j' r]|] eqn:E; [|done]. cbn.
  destruct (bytes_eqb _ []); [|done]. intros [= ->]. by apply parse_first_spec in E as [? _].
Qed.

(** ** Written strings are read back *)

Definition escape_rune (r : Z) : bytes :=
  if r <? RuneSelf then escape_byte (byte_of_Z r)
  else if (r =? 0x2028) || (r =? 0x2029) then lit "\u202" ++ [hex_lower (Z.land r 15)]
  else EncodeRune r.

Lemma EncodeRune_ascii r : 0 <= r < 0x80 -> EncodeRune r = [byte_of_Z r].
Proof.
  intros Hr. rewrite EncodeRune_scalar by (unfold is_scalar; lia).
  by rewrite (proj2 (Z.ltb_lt _ _) (proj2 Hr)).
Qed.

(** The first byte of a longer rune is not ASCII. *)
Lemma EncodeRune_high r :
  is_scalar r -> 0x80 <= r -> exists b t, EncodeRune r = b :: t /\ 0x80 <= byteZ b.
Proof.
  intros Hr Hb. destruct (EncodeRune_shape r Hr Hb) as (b & tl & E & _ & H & _). by exists b, tl.
Qed.

(** What the writer makes of a text: one escape per rune, and one for each byte
    that starts no rune. *)
Definition escape_piece (p : Z + unit) : bytes :=
  match p with inl r => escape_rune r | inr _ => lit "\ufffd" end.

Definition piece_rune (p : Z + unit) : Z := match p with inl r => r | inr _ => RuneError end.

Definition piece_ok (p : Z + unit) : Prop := match p with inl r => is_scalar r | inr _ => True end.

Lemma escape_ascii b : byteZ b < 0x80 -> escape_byte b = escape_rune (byteZ b).
Proof.
  intros Hb. unfold escape_rune, RuneSelf. by rewrite (proj2 (Z.ltb_lt _ _) Hb), byte_of_Z_byteZ.
Qed.

Lemma escape_pieces n s :
  (length s <= n)%nat -> exists ps, Forall piece_ok ps /\
    escape_fuel n s = flat_map escape_piece ps /\ runes_fuel n s = map piece_rune ps.
Proof.
  revert s; induction n as [|n IH]; intros s Hn.
  { exists []. by destruct s. }
  destruct s as [|b s]; [by exists []|]. cbn [escape_fuel runes_fuel]. unfold RuneSelf.
  destruct (DecodeRune (b :: s)) as [c w] eqn:E.
  assert (1 <= w)%nat as Hw by (pose proof (DecodeRune_width (b :: s) ltac:(done)); rewrite E in *; cbn in *; lia).
  destruct (IH (drop w (b :: s))) as (ps & Hps & He & Hr); [rewrite length_drop; cbn in *; lia|].
  destruct (Z.ltb_spec (byteZ b) 0x80) as [Hs|Hb].
  - apply DecodeRune_inv in E as [(_ & _ & ?)|[(-> & -> & _)|E]]; [lia| |].
    2: { destruct E as [(?&?&_&_&?&_)|[(?&?&?&_&_&?&_)|(?&?&?&?&_&_&?&_)]]; lia. }
    pose proof (byteZ_range b). exists (inl (byteZ b) :: ps). cbn [drop] in *. rewrite drop_0 in *.
    split; [constructor; [unfold piece_ok, is_scalar; lia|done]|]. cbn [flat_map map escape_piece piece_rune].
    by rewrite He, Hr, escape_ascii.
  - pose proof E as E'. apply EncodeRune_decode in E' as [(-> & -> & _)|(Hc & s' & Es & ->)].
    + exists (inr tt :: ps). rewrite He, Hr. by repeat constructor.
    + exists (inl c :: ps). split; [by constructor|]. cbn [flat_map map piece_rune]. rewrite <- He, Hr.
      split; [|done]. cbn [escape_piece]. unfold escape_rune, RuneSelf.
      destruct (Z.ltb_spec c 0x80) as [Hlt|_].
      { rewrite EncodeRune_ascii in Es by (unfold is_scalar in Hc; lia). injection Es as -> _.
        rewrite byteZ_small in Hb; unfold is_scalar in Hc; lia. }
      assert ((c =? RuneError) && (length (EncodeRune c) =? 1)%nat = false) as ->.
      { apply andb_false_iff. destruct (Z.eqb_spec c RuneError) as [->|]; [by right|by left]. }
      f_equal. rewrite Es, take_app_length. done.
Qed.

(** Every ASCII character, escaped or not, is read back in one step. *)
Lemma ascii_steps :
  Forall (fun r => forall tl, unquote_step (escape_byte (byte_of_Z r) ++ tl) = Some ([byte_of_Z r], tl) /\
                              starts_with x22 (escape_byte (byte_of_Z r) ++ tl) = false)
    (map Z.of_nat (seq 0 128)).
Proof. repeat constructor. Qed.

Lemma escape_rune_step r tl :
  is_scalar r ->
  unquote_step (escape_rune r ++ tl) = Some (EncodeRune r, tl) /\
  starts_with x22 (escape_rune r ++ tl) = false.
Proof.
  intros Hr. unfold escape_rune, RuneSelf. destruct (Z.ltb_spec r 0x80) as [Hs|Hb].
  - assert (r ∈ map Z.of_nat (seq 0 128)) as Hin.
    { apply list_elem_of_In, in_map_iff. exists (Z.to_nat r). destruct Hr. rewrite in_seq. lia. }
    rewrite EncodeRune_ascii by (destruct Hr; lia).
    exact (proj1 (List.Forall_forall _ _) ascii_steps r (proj1 (list_elem_of_In _ _) Hin) tl).
  - destruct (Z.eqb_spec r 0x2028) as [->|]; [done|]. destruct (Z.eqb_spec r 0x2029) as [->|]; [done|].
    cbn [orb]. destruct (EncodeRune_high r Hr Hb) as (b & t & E & Hb8).
    pose proof (DecodeRune_encode r tl Hr) as Hd. rewrite E in *. cbn [app unquote_step starts_with].
    assert (forall c, byteZ c < 0x80 -> byte_eqb b c = false) as Hne
      by (intros c Hc; apply byte_eqb_neq; intros ->; lia).
    rewrite !Hne by done. split; [|done]. unfold RuneSelf.
    rewrite (proj2 (Z.ltb_ge (byteZ b) 0x20)), (proj2 (Z.ltb_ge (byteZ b) 0x80)) by lia.
    cbn [app] in Hd. rewrite Hd. change (b :: t ++ tl) with ((b :: t) ++ tl).
    by rewrite drop_app_length, E.
Qed.

Lemma escape_piece_step p tl :
  piece_ok p ->
  unquote_step (escape_piece p ++ tl) = Some (EncodeRune (piece_rune p), tl) /\
  starts_with x22 (escape_piece p ++ tl) = false.
Proof. destruct p as [r|[]]; [apply escape_rune_step|done]. Qed.

Lemma unquote_pieces n ps rest :
  Forall piece_ok ps -> (length ps < n)%nat ->
  unquote n (flat_map escape_piece ps ++ x22 :: rest) = Some (encode_runes (map piece_rune ps), rest).
Proof.
  intros Hps. revert n; induction Hps as [|p ps Hp _ IH]; intros n Hn; (destruct n as [|n]; [lia|]).
  { done. }
  cbn [flat_map unquote]. rewrite <- app_assoc.
  destruct (escape_piece_step p (flat_map escape_piece ps ++ x22 :: rest) Hp) as [Hstep Hhead].
  unfold starts_with in Hhead. rewrite Hhead, Hstep. cbn [mbind option_bind fst snd].
  rewrite IH by (cbn [length] in Hn; lia). done.
Qed.

Lemma escape_length ps : (length ps <= length (flat_map escape_piece ps))%nat.
Proof.
  induction ps as [|p ps IH]; [done|]. cbn [flat_map length]. rewrite length_app.
  assert (1 <= length (escape_piece p))%nat; [|lia].
  destruct p as [r|[]]; [|cbn; lia]. cbn [escape_piece]. unfold escape_rune, escape_byte.
  pose proof (EncodeRune_length r). case_if_all; cbn; lia.
Qed.

(** A text with every byte that starts no rune replaced. *)
Definition coerce (s : bytes) : bytes := encode_runes (runes s).

Lemma coerce_utf8 s : utf8 s -> coerce s = s.
Proof. intros (rs & Hrs & ->). unfold coerce. by rewrite runes_encode. Qed.

(** A quoted string is read back, and reading stops behind it. *)
Lemma scan_string_quote s rest :
  starts_with x22 (quote s) = true /\ scan_string (tail (quote s ++ rest)) = Some (coerce s, rest).
Proof.
  split; [done|]. unfold quote, scan_string, coerce, runes. cbn [app tail].
  destruct (escape_pieces (length s) s ltac:(done)) as (ps & Hps & -> & ->).
  rewrite <- app_assoc. cbn [app]. apply unquote_pieces; [done|].
  rewrite length_app. pose proof (escape_length ps). lia.
Qed.

(** A value with its texts replaced in this way. *)
Fixpoint coerced (j : json) : json :=
  match j with
  | JString s => JString (coerce s)
  | JArray l => JArray (map coerced l)
  | JObject ms => JObject (map (fun m => (coerce m.1, coerced m.2)) ms)
  | _ => j
  end.

Lemma coerced_ok j : json_ok j -> coerced j = j.
Proof.
  induction j as [|b|t|s|l IH|ms IH] using json_ind; intros Hj; inversion_clear Hj; cbn [coerced]; try done.
  - by rewrite coerce_utf8.
  - f_equal. induction IH as [|x l Hx _ IHl]; [done|]. inversion_clear H. cbn [map]. by rewrite Hx, IHl.
  - f_equal. induction IH as [|[k x] ms Hx _ IHms]; [done|]. inversion_clear H. destruct H0. cbn [map fst snd] in *.
    by rewrite coerce_utf8, Hx, IHms.
Qed.

(** ** Written values are read back *)

(** A text that starts with neither white space nor a closing bracket. *)
Definition value_head (s : bytes) : Prop :=
  match s with
  | b :: _ => is_space b = false /\ byte_eqb b x5d = false /\ byte_eqb b x7d = false
  | [] => False
  end.

Lemma encode_head {T} indent j level rest : json_with T j -> value_head (encode indent j level ++ rest).
Proof.
  destruct 1 as [|[|]|t Ht| |[|]|[|]]; try by repeat split.
  destruct (number_head t Ht) as (b & s & -> & Hb). cbn [encode app value_head].
  destruct Hb as [->|Hb]; [by repeat split|]. unfold is_space. cbn [existsb].
  rewrite !(digit_not b) by done. done.
Qed.

Lemma skip_ws_head s : value_head s -> skip_ws s = s.
Proof. destruct s as [|b s]; [done|]. intros (H & _). by apply skip_ws_id. Qed.

Lemma head_not_close s : value_head s -> starts_with x5d s = false /\ starts_with x7d s = false.
Proof. destruct s; [done|]. by intros (_ & ? & ?). Qed.

Lemma skip_ws_break indent level s : skip_ws (line_break indent level ++ s) = skip_ws s.
Proof. apply skip_ws_spaces, line_break_space. Qed.

Lemma num_end_break indent level b s :
  num_end (b :: s) -> num_end (line_break indent level ++ b :: s).
Proof. destruct indent; [by split|done]. Qed.

(** The parts after the first one. *)
Definition more {A} (f : A -> bytes) (l : list A) : bytes :=
  match l with [] => [] | _ => x2c :: commas (map f l) end.

Lemma commas_cons {A} (f : A -> bytes) x l : commas (map f (x :: l)) = f x ++ more f l.
Proof. destruct l; cbn [map commas more]; [by rewrite app_nil_r|done]. Qed.

Lemma num_end_more {A} (f : A -> bytes) l indent level b s :
  num_end (b :: s) -> num_end (more f l ++ line_break indent level ++ b :: s).
Proof. intros H. destruct l; [by apply num_end_break|done]. Qed.

(** A value is read back wherever it stands. *)
Definition reads_back (indent : bool) (j : json) : Prop :=
  forall T level d n rest, fits_with T d j -> num_end rest -> d <= maxNestingDepth ->
    (2 * length (encode indent j level ++ rest) + 1 <= n)%nat ->
    parse_value n d (encode indent j level ++ rest) = Some (coerced j, rest).

Lemma elems_read_back {T} indent level level' d l rest n :
  let f x := line_break indent level ++ encode indent x level in
  let text := commas (map f l) ++ line_break indent level' ++ x5d :: rest in
  Forall (reads_back indent) l -> Forall (fits_with T d) l -> l <> [] -> d <= maxNestingDepth ->
  (2 * length text + 2 <= n)%nat ->
  parse_elems n d (skip_ws text) = Some (map coerced l, rest).
Proof.
  cbv zeta. intros Hb. revert n; induction Hb as [|x l Hx _ IH]; intros n Hf Hne Hd Hn; [done|].
  inversion_clear Hf. rewrite commas_cons in *. rewrite <- !app_assoc in *. rewrite !length_app in Hn.
  rewrite skip_ws_break, skip_ws_head by (apply (encode_head (T := T)); by destruct H). destruct n as [|n]; [lia|].
  cbn [parse_elems]. rewrite (Hx T) by (done || (apply num_end_more; by split) || (rewrite !length_app; lia)).
  cbn [mbind option_bind fst snd]. cbv zeta. destruct l as [|y l]; cbn [more app].
  - rewrite skip_ws_break, skip_ws_id by done. done.
  - rewrite skip_ws_id by done. cbn [starts_with tail]. rewrite byte_eqb_refl.
    rewrite IH; [done|done|done|done|]. cbn [more app length] in Hn. rewrite ?length_app in *. cbn [length] in *. lia.
Qed.

Lemma members_read_back {T} indent level level' d ms rest n :
  let f := fun '(k, x) => line_break indent level ++ quote k ++ colon indent ++ encode indent x level in
  let text := commas (map f ms) ++ line_break indent level' ++ x7d :: rest in
  Forall (fun m => reads_back indent m.2) ms -> Forall (fun m => T m.1 /\ fits_with T d m.2) ms ->
  ms <> [] -> d <= maxNestingDepth -> (2 * length text + 2 <= n)%nat ->
  parse_members n d (skip_ws text) = Some (map (fun m => (coerce m.1, coerced m.2)) ms, rest).
Proof.
  cbv zeta. intros Hb. revert n; induction Hb as [|[k x] ms Hx _ IH]; intros n Hf Hne Hd Hn; [done|].
  inversion_clear Hf. destruct H as [Hk Hfx]. cbn [fst snd] in *.
  rewrite commas_cons in *. rewrite <- !app_assoc in *. rewrite !length_app in Hn.
  destruct n as [|n]; [lia|]. rewrite skip_ws_break.
  set (R := encode indent x level ++ _). destruct (scan_string_quote k (colon indent ++ R)) as [_ Hs].
  assert (skip_ws (quote k ++ colon indent ++ R) = quote k ++ colon indent ++ R) as -> by done.
  cbn [parse_members]. change (starts_with x22 (quote k ++ colon indent ++ R)) with true.
  cbn [negb]. rewrite Hs. cbn [mbind option_bind fst snd]. cbv zeta.
  assert (skip_ws (colon indent ++ R) = colon indent ++ R) as -> by by destruct indent.
  assert (starts_with x3a (colon indent ++ R) = true) as -> by by destruct indent. cbn [negb].
  assert (skip_ws (tail (colon indent ++ R)) = R) as ->.
  { assert (skip_ws R = R) by (apply skip_ws_head, (encode_head (T := T)); by destruct Hfx).
    destruct indent; [by change (skip_ws (tail (colon true ++ R))) with (skip_ws R)|done]. }
  subst R. rewrite (Hx T) by (done || (apply num_end_more; by split) || (rewrite !length_app; lia)).
  cbn [mbind option_bind fst snd]. cbv zeta. destruct ms as [|y ms]; cbn [more app].
  - rewrite skip_ws_break, skip_ws_id by done. done.
  - rewrite skip_ws_id by done. cbn [starts_with tail]. rewrite byte_eqb_refl.
    rewrite IH; [done|done|done|done|]. cbn [more app length] in Hn. rewrite ?length_app in *. cbn [length] in *. lia.
Qed.

Lemma fits_elems {T} d l :
  fits_with T d (JArray l) -> Forall (fits_with T (d + 1)) l /\ d + 1 <= maxNestingDepth.
Proof.
  intros [Hok Hn]. inversion_clear Hok. cbn [nesting] in Hn. pose proof (max_nonneg nesting l).
  split; [|lia].
  assert (Forall (fun j => nesting j <= maxNestingDepth - (d + 1)) l) as H' by (apply max_bound; lia).
  apply Forall_and; split; [done|]. eapply Forall_impl; [exact H'|]. cbn. lia.
Qed.

Lemma fits_members {T} d ms :
  fits_with T d (JObject ms) -> Forall (fun m => T m.1 /\ fits_with T (d + 1) m.2) ms /\ d + 1 <= maxNestingDepth.
Proof.
  intros [Hok Hn]. inversion_clear Hok. cbn [nesting] in Hn.
  pose proof (max_nonneg (fun m => nesting m.2) ms). split; [|lia].
  assert (Forall (fun m => nesting m.2 <= maxNestingDepth - (d + 1)) ms) as H' by
    (apply (max_bound (fun m : bytes * json => nesting m.2)); lia).
  apply Forall_and; split; [eapply Forall_impl; [exact H|by intros ? []]|].
  apply Forall_and; split; [eapply Forall_impl; [exact H|by intros ? []]|].
  eapply Forall_impl; [exact H'|]. cbn. lia.
Qed.

(** A number is none of the other values. *)
Lemma number_first t rest :
  number_literal t ->
  starts_with x22 (t ++ rest) = false /\ starts_with x5b (t ++ rest) = false /\
  starts_with x7b (t ++ rest) = false /\ scan_word (t ++ rest) = None.
Proof.
  intros (b & u & -> & Hb)%number_head. cbn [app starts_with]. destruct Hb as [->|Hb]; [done|].
  assert (forall c, is_digit c = false -> byte_eqb b c = false /\ byte_eqb c b = false) as Hne.
  { intros c Hc. split; [by apply digit_not|]. apply byte_eqb_neq. intros ->. congruence. }
  do 3 (split; [by apply Hne|]). unfold scan_word.
  change (lit "null") with [x6e; x75; x6c; x6c]. change (lit "true") with [x74; x72; x75; x65].
  change (lit "false") with [x66; x61; x6c; x73; x65]. cbn [has_prefix].
  by rewrite (proj2 (Hne x6e eq_refl)), (proj2 (Hne x74 eq_refl)), (proj2 (Hne x66 eq_refl)).
Qed.

Lemma parse_array n d s :
  d + 1 <= maxNestingDepth ->
  parse_value (S n) d (x5b :: s) =
    let s1 := skip_ws s in
    if starts_with x5d s1 then Some (JArray [], tail s1)
    else p ← parse_elems n (d + 1) s1; Some (JArray p.1, p.2).
Proof. intros Hd. cbn [parse_value]. rewrite (proj2 (Z.ltb_ge maxNestingDepth (d + 1)) Hd). done. Qed.

Lemma parse_object n d s :
  d + 1 <= maxNestingDepth ->
  parse_value (S n) d (x7b :: s) =
    let s1 := skip_ws s in
    if starts_with x7d s1 then Some (JObject [], tail s1)
    else p ← parse_members n (d + 1) s1; Some (JObject p.1, p.2).
Proof. intros Hd. cbn [parse_value]. rewrite (proj2 (Z.ltb_ge maxNestingDepth (d + 1)) Hd). done. Qed.

(** The white space in front of a list does not hide its end. *)
Lemma commas_open {A} (f : A -> bytes) indent level (g : A -> bytes) x l s :
  (forall y, f y = line_break indent level ++ g y) -> value_head (g x ++ more f l ++ s) ->
  starts_with x5d (skip_ws (commas (map f (x :: l)) ++ s)) = false /\
  starts_with x7d (skip_ws (commas (map f (x :: l)) ++ s)) = false.
Proof.
  intros Hf Hg. rewrite commas_cons, Hf, <- !app_assoc, skip_ws_break.
  rewrite skip_ws_head by done. by apply head_not_close.
Qed.

Lemma parse_encode indent j : reads_back indent j.
Proof.
  induction j as [|b|t|s|l IH|ms IH] using json_ind; intros T level d n rest Hf Hr Hd Hn;
    (destruct n as [|n]; [lia|]).
  - done.
  - by destruct b.
  - destruct Hf as [Hok _]. inversion_clear Hok. cbn [encode parse_value].
    destruct (number_first t rest H) as (-> & -> & -> & ->). by rewrite (scan_number_app t rest).
  - destruct Hf as [Hok _]. inversion_clear Hok. cbn [encode parse_value].
    destruct (scan_string_quote s rest) as [_ E].
    change (starts_with x22 (quote s ++ rest)) with true. cbv iota. by rewrite E.
  - apply fits_elems in Hf as [Hf Hd']. destruct l as [|x l].
    { change (encode indent (JArray []) level ++ rest) with (x5b :: x5d :: rest). by rewrite parse_array. }
    cbn [encode app] in *. rewrite <- !app_assoc in *. cbn [app length] in Hn. rewrite parse_array by done.
    cbv zeta. cbn [app]. destruct (commas_open (fun x => line_break indent (S level) ++ encode indent x (S level))
      indent (S level) (fun x => encode indent x (S level)) x l (line_break indent level ++ x5d :: rest))
      as [-> _]; [done|by apply (encode_head (T := T)); inversion Hf as [|?? []]|].
    by rewrite (elems_read_back indent (S level) level (d + 1) (x :: l)) by (done || lia).
  - apply fits_members in Hf as [Hf Hd']. destruct ms as [|[k x] ms].
    { change (encode indent (JObject []) level ++ rest) with (x7b :: x7d :: rest). by rewrite parse_object. }
    cbn [encode app] in *. rewrite <- !app_assoc in *. cbn [app length] in Hn. rewrite parse_object by done.
    cbv zeta. cbn [app].
    destruct (commas_open (fun '(k, x) => line_break indent (S level) ++ quote k ++ colon indent ++
                                          encode indent x (S level))
      indent (S level) (fun '(k, x) => quote k ++ colon indent ++ encode indent x (S level)) (k, x) ms
      (line_break indent level ++ x7d :: rest)) as [_ ->]; [by intros []|done|].
    by rewrite (members_read_back indent (S level) level (d + 1) ((k, x) :: ms)) by (done || lia).
Qed.

(** ** Documents *)

Lemma value_head_skip {T} indent j : json_with T j -> skip_ws (encode indent j 0) = encode indent j 0.
Proof. intros Hj. rewrite <- (app_nil_r (encode _ _ _)). by eapply skip_ws_head, encode_head. Qed.

(** What is written is read back, even with other text behind it that a number
    could not go on with. *)
Lemma parse_first_coerced {T} indent j rest :
  fits_with T 0 j -> num_end rest -> parse_first (encode indent j 0 ++ rest) = Some (coerced j, rest).
Proof.
  intros Hj Hr. unfold parse_first. rewrite skip_ws_head by (eapply encode_head, Hj).
  apply (parse_encode indent j T); [done|done|done|lia].
Qed.

Lemma parse_first_encode indent j rest :
  fits 0 j -> num_end rest -> parse_first (encode indent j 0 ++ rest) = Some (j, rest).
Proof. intros Hj Hr. rewrite (parse_first_coerced (T := utf8)) by done. by rewrite coerced_ok by apply Hj. Qed.

Lemma space_num_end w : Forall (fun b => is_space b = true) w -> num_end w.
Proof.
  intros Hw. destruct Hw as [|b w Hb]; [done|]. cbn. revert Hb. unfold is_space. cbn [existsb].
  intros Hb. rewrite !orb_true_iff, !byte_eqb_eq in Hb.
  by destruct Hb as [-> |[-> |[-> |[-> |]]]].
Qed.

(** Whatever texts a value holds, it is written as a JSON document. *)
Lemma parse_document_coerced {T} indent j w :
  fits_with T 0 j -> Forall (fun b => is_space b = true) w ->
  parse_document (encode indent j 0 ++ w) = Some (coerced j).
Proof.
  intros Hj Hw. unfold parse_document. rewrite (parse_first_coerced (T := T)) by (done || by apply space_num_end).
  cbn. by rewrite <- (app_nil_r w), skip_ws_spaces.
Qed.

Lemma parse_document_encode indent j w :
  fits 0 j -> Forall (fun b => is_space b = true) w ->
  parse_document (encode indent j 0 ++ w) = Some j.
Proof. intros Hj Hw. rewrite (parse_document_coerced (T := utf8)) by done. by rewrite coerced_ok by apply Hj. Qed.
