(* ===== verification/JsonDecode.v ===== *)
(** * Values and Go types (the package encoding/json, with reflection)

    How [encoding/json] stores a JSON value in a variable of a Go type: a decoder
    takes the old contents and gives the new, [None] when the kinds do not match.
    A value [null] leaves everything but a slice as it is. *)

From S2P Require Import Prelude GoStrings GoUtf8 GoNet Json JsonFacts.

Local Open Scope Z_scope.

Definition decoder (A : Type) : Type := A -> json -> option A.

Definition decode_string : decoder bytes := fun old j =>
  match j with JString s => Some s | JNull => Some old | _ => None end.

Definition decode_bool : decoder bool := fun old j =>
  match j with JBool b => Some b | JNull => Some old | _ => None end.

(** A signed integer of [w] bits: [strconv.ParseInt] on the literal, which
    accepts neither a fraction nor an exponent, and [OverflowInt]. *)
Definition decode_int (w : Z) : decoder Z := fun old j =>
  match j with
  | JNumber t =>
    match Atoi t with
    | Some v => if (- 2 ^ (w - 1) <=? v) && (v <? 2 ^ (w - 1)) then Some v else None
    | None => None
    end
  | JNull => Some old
  | _ => None
  end.

(** An unsigned one: [strconv.ParseUint] knows no sign. *)
Definition decode_uint (w : Z) : decoder Z := fun old j =>
  match j with
  | JNumber t =>
    match digits_value 0 t with
    | Some v => if v <? 2 ^ w then Some v else None
    | None => None
    end
  | JNull => Some old
  | _ => None
  end.

(** A slice: its elements, and those behind its end in the same array, which
    come back when it grows. *)
Record slice (A : Type) := mkSlice { sl_elems : list A; sl_spare : list A }.
Arguments mkSlice {A} _ _.
Arguments sl_elems {A} _.
Arguments sl_spare {A} _.

Section slices.
Context {A : Type} (dec : decoder A) (zero : A).

(** Elements are decoded over what the array holds, or over a zero value. *)
Fixpoint decode_elems (old : list A) (js : list json) : option (list A * list A) :=
  match js with
  | [] => Some ([], old)
  | j :: js' =>
    a ← dec (default zero (head old)) j;
    r ← decode_elems (tail old) js';
    Some (a :: r.1, r.2)
  end.

Definition decode_slice : decoder (slice A) := fun old j =>
  match j with
  | JNull | JArray [] => Some (mkSlice [] [])
  | JArray js => r ← decode_elems (sl_elems old ++ sl_spare old) js; Some (mkSlice r.1 r.2)
  | _ => None
  end.
End slices.

(** ** Structures *)

Section structs.
Context {U : UnicodeTables}.

(** [foldRune]: the smallest rune that folds to the same; four steps go round
    every orbit. *)
Fixpoint foldRune (fuel : nat) (r : Z) : Z :=
  let r2 := table_SimpleFold r in
  match fuel with
  | S fuel' => if r2 <=? r then r2 else foldRune fuel' r2
  | O => r2
  end.

Definition foldName (s : bytes) : bytes :=
  flat_map (fun r => EncodeRune (if r <? RuneSelf
                                 then (if (97 <=? r) && (r <=? 122) then r - 32 else r)
                                 else foldRune 4 r)) (runes s).

(** The field a member is for: an exact match of its name wins over one that
    ignores case. *)
Definition field_of (names : list bytes) (key : bytes) : option bytes :=
  if existsb (bytes_eqb key) names then Some key
  else List.find (fun name => bytes_eqb (foldName name) (foldName key)) names.

(** The contents of one field after all members, in order. A member that names
    no field is skipped. *)
Definition decode_field {A} (names : list bytes) (members : list (bytes * json))
    (name : bytes) (dec : decoder A) (old : A) : option A :=
  foldl (fun acc '(key, v) =>
           a ← acc;
           if bool_decide (field_of names key = Some name) then dec a v else Some a)
        (Some old) members.

(** A structure: its fields from the members of an object. *)
Definition decode_struct {A} (fields : A -> list (bytes * json) -> option A) : decoder A := fun old j =>
  match j with
  | JObject members => fields old members
  | JNull => Some old
  | _ => None
  end.
End structs.

(** ** Writing *)

Definition encode_int (z : Z) : json := JNumber (Itoa z).

(** ** Facts: integers *)

(** No leading zero. *)
Lemma digits_fuel_head fuel z acc :
  0 < z < 10 ^ Z.of_nat fuel -> starts_with x30 (digits_fuel fuel z acc) = false.
Proof.
  revert z acc; induction fuel as [|fuel IH]; intros z acc Hz; [simpl in Hz; lia|].
  rewrite Nat2Z.inj_succ, Z.pow_succ_r in Hz by lia. cbn [digits_fuel].
  destruct (Z.ltb_spec z 10).
  - cbn [starts_with]. apply byteZ_eqb_ne. unfold digit. rewrite byteZ_small by lia. cbn. lia.
  - apply IH. split; [apply Z.div_str_pos; lia|apply Z.div_lt_upper_bound; lia].
Qed.

Lemma digits_int_part n : 0 <= n < 2 ^ 64 -> int_part (digits_fuel 20 n []).
Proof.
  intros Hn. destruct (Z.eq_dec n 0) as [->|Hn0]; [by left|]. right. split; [split|].
  - apply (digits_fuel_ne 19 n []).
  - by apply digits_fuel_digits; [lia|constructor].
  - apply digits_fuel_head. simpl. lia.
Qed.

Lemma Itoa_number z : in_s 64 z -> number_literal (Itoa z).
Proof.
  unfold in_s. intros Hz.
  exists (if z <? 0 then [x2d] else []), (digits_fuel 20 (Z.abs z) []), [], [].
  rewrite !app_nil_r. split; [|split; [by destruct (z <? 0); [right|left]|
    split; [apply digits_int_part; lia|by split; left]]].
  unfold Itoa. destruct (Z.ltb_spec z 0); cbn [app];
    [by rewrite Z.abs_neq by lia|by rewrite Z.abs_eq by lia].
Qed.

(** [strconv.Atoi] inverts [strconv.Itoa] on the negative numbers, too. *)
Lemma Atoi_Itoa_signed z : in_s 64 z -> Atoi (Itoa z) = Some z.
Proof.
  unfold in_s. intros Hz. destruct (Z.lt_ge_cases z 0) as [Hn|Hp]; [|apply Atoi_Itoa; lia].
  unfold Itoa. rewrite (proj2 (Z.ltb_lt _ _) Hn).
  pose proof (digits_fuel_value 20 (- z) [] ltac:(simpl; lia)) as Hv.
  pose proof (digits_fuel_ne 19 (- z) []) as Hne. unfold Atoi.
  change (byteZ x2d =? 45) with true. cbv beta iota.
  destruct (digits_fuel 20 (- z) []) as [|b s]; [done|]. rewrite Hv. cbn [digits_value].
  rewrite Z.opp_involutive.
  rewrite (proj2 (Z.leb_le (- 2 ^ 63) z)) by lia. by rewrite (proj2 (Z.ltb_lt z (2 ^ 63))) by lia.
Qed.

Lemma in_s_64 w z : w <= 64 -> 0 < w -> in_s w z -> in_s 64 z.
Proof.
  unfold in_s. intros Hw Hp Hz.
  assert (2 ^ (w - 1) <= 2 ^ (64 - 1)) by (apply Z.pow_le_mono_r; lia). lia.
Qed.

Lemma decode_encode_int w old z :
  0 < w <= 64 -> in_s w z -> decode_int w old (encode_int z) = Some z.
Proof.
  intros Hw Hz. unfold decode_int, encode_int.
  rewrite Atoi_Itoa_signed by (by apply (in_s_64 w); [lia|lia|]). unfold in_s in Hz.
  by rewrite (proj2 (Z.leb_le _ _)), (proj2 (Z.ltb_lt _ _)) by lia.
Qed.

Lemma decode_encode_uint w old z :
  0 <= w <= 63 -> in_u w z -> decode_uint w old (encode_int z) = Some z.
Proof.
  unfold in_u. intros Hw Hz. unfold decode_uint, encode_int.
  assert (2 ^ w <= 2 ^ 63) by (apply Z.pow_le_mono_r; lia).
  unfold Itoa. rewrite (proj2 (Z.ltb_ge z 0)) by lia.
  rewrite (digits_fuel_value 20 z []) by (simpl; lia). cbn [digits_value].
  by rewrite (proj2 (Z.ltb_lt _ _)) by lia.
Qed.

Lemma encode_int_fits {T} d z : d <= maxNestingDepth -> in_s 64 z -> fits_with T d (encode_int z).
Proof. intros Hd Hz. split; [constructor; by apply Itoa_number|cbn; lia]. Qed.

Lemma encode_string_fits {T : bytes -> Prop} d s : d <= maxNestingDepth -> T s -> fits_with T d (JString s).
Proof. intros Hd Hs. split; [by constructor|cbn; lia]. Qed.

(** ** Facts: fields *)

Section fields.
Context {U : UnicodeTables} {A : Type} (names : list bytes) (dec : decoder A).

Lemma decode_field_none members name :
  foldl (fun acc '(key, v) =>
           a ← acc;
           if bool_decide (field_of names key = Some name) then dec a v else Some a)
        None members = None.
Proof. induction members as [|[k v] ms IH]; [done|exact IH]. Qed.

Lemma decode_field_cons members name old k v :
  decode_field names ((k, v) :: members) name dec old =
    a ← (if bool_decide (field_of names k = Some name) then dec old v else Some old);
    decode_field names members name dec a.
Proof.
  unfold decode_field. cbn [foldl mbind option_bind].
  destruct (if bool_decide _ then _ else _); [done|apply decode_field_none].
Qed.

(** A member that names another field, or none, does not matter. *)
Lemma decode_field_drop ms ms' name old k v :
  field_of names k <> Some name ->
  decode_field names (ms ++ (k, v) :: ms') name dec old = decode_field names (ms ++ ms') name dec old.
Proof.
  intros Hk. revert old; induction ms as [|[k' v'] ms IH]; intros old; cbn [app].
  - by rewrite decode_field_cons, bool_decide_eq_false_2.
  - rewrite !decode_field_cons. case_bool_decide; [|apply IH].
    destruct (dec old v') as [a|]; [|done]. apply IH.
Qed.

(** A name of the structure stands for itself. *)
Lemma field_of_exact k : k ∈ names -> field_of names k = Some k.
Proof.
  intros Hk. unfold field_of. replace (existsb (bytes_eqb k) names) with true; [done|].
  symmetry. apply existsb_exists. exists k. split; [by apply list_elem_of_In|].
  by apply bytes_eqb_eq.
Qed.

(** Members that name other fields do not matter. *)
Lemma decode_field_absent members name old :
  Forall (fun m => field_of names m.1 <> Some name) members ->
  decode_field names members name dec old = Some old.
Proof.
  induction 1 as [|[k v] ms Hk _ IH]; [done|]. rewrite decode_field_cons.
  by rewrite bool_decide_eq_false_2.
Qed.

(** Among exact names without repetition a field gets the value beside its name. *)
Lemma decode_field_at members name old v :
  Forall (fun m => m.1 ∈ names) members -> NoDup (map fst members) -> (name, v) ∈ members ->
  decode_field names members name dec old = dec old v.
Proof.
  induction 1 as [|[k u] ms Hk Hms IH]; cbn [map fst]; [by intros _ ?%not_elem_of_nil|].
  intros [Hnk Hnd]%NoDup_cons Hin. rewrite decode_field_cons. cbn [fst] in Hk.
  rewrite field_of_exact by done. apply elem_of_cons in Hin as [[= -> ->]|Hin].
  - rewrite bool_decide_eq_true_2 by done. destruct (dec old u) as [a|]; [|done]. cbn.
    apply decode_field_absent. apply Forall_forall. intros m Hm.
    rewrite field_of_exact by (by eapply Forall_forall in Hms). intros [= E].
    apply Hnk. rewrite <- E. apply list_elem_of_fmap. by exists m.
  - rewrite bool_decide_eq_false_2; [by apply IH|]. intros [= ->]. apply Hnk.
    apply list_elem_of_fmap. by exists (name, v).
Qed.

Lemma decode_field_missing members name old :
  Forall (fun m => m.1 ∈ names) members -> name ∉ map fst members ->
  decode_field names members name dec old = Some old.
Proof.
  intros Hms Hn. apply decode_field_absent. eapply Forall_forall. intros m Hm.
  rewrite field_of_exact by (by eapply Forall_forall in Hms). intros [= E].
  apply Hn. rewrite <- E. apply list_elem_of_fmap. by exists m.
Qed.

(** The order of such members does not matter. *)
Lemma decode_field_perm members members' name old :
  Forall (fun m => m.1 ∈ names) members -> NoDup (map fst members) -> members ≡ₚ members' ->
  decode_field names members' name dec old = decode_field names members name dec old.
Proof.
  intros Hm Hnd Hp.
  assert (Forall (fun m => m.1 ∈ names) members') as Hm' by by rewrite <- Hp.
  assert (map fst members ≡ₚ map fst members') as Hk by by apply Permutation_map.
  assert (NoDup (map fst members')) as Hnd' by by rewrite <- Hk.
  destruct (decide (name ∈ map fst members)) as [Hin|Hin].
  - pose proof Hin as ([k v] & E & Hv)%list_elem_of_fmap. cbn in E. subst k.
    rewrite (decode_field_at members name old v), (decode_field_at members' name old v);
      [done|done|done|by rewrite <- Hp|done..].
  - rewrite !decode_field_missing; [done|done|done|done|by rewrite <- Hk].
Qed.
End fields.

(** ** Facts: what a decoder keeps *)

(** A property of the contents that decoding a well-formed value preserves. *)
Definition keeps {A} (P : A -> Prop) (dec : decoder A) : Prop :=
  forall a j a', json_ok j -> P a -> dec a j = Some a' -> P a'.

Lemma keeps_string : keeps utf8 decode_string.
Proof. intros a j a' Hj Ha. destruct Hj; intros [= <-]; done. Qed.

Lemma keeps_bool : keeps (fun _ => True) decode_bool.
Proof. done. Qed.

Lemma keeps_int w : keeps (in_s w) (decode_int w).
Proof.
  intros a j a' Hj Ha. destruct Hj; cbn [decode_int]; try done; [by intros [= <-]|].
  destruct (Atoi t) as [v|]; [|done].
  destruct ((- 2 ^ (w - 1) <=? v) && (v <? 2 ^ (w - 1))) eqn:E; [|done].
  apply andb_true_iff in E as [?%Z.leb_le ?%Z.ltb_lt]. by intros [= <-].
Qed.

Lemma digits_value_nonneg acc s v : 0 <= acc -> digits_value acc s = Some v -> 0 <= v.
Proof.
  revert acc; induction s as [|b s IH]; intros acc Ha; cbn [digits_value]; [by intros [= <-]|].
  destruct (is_digit b) eqn:E; [|done]. apply andb_true_iff in E as [?%Z.leb_le _]. apply IH. lia.
Qed.

Lemma keeps_uint w : keeps (in_u w) (decode_uint w).
Proof.
  intros a j a' Hj Ha. destruct Hj; cbn [decode_uint]; try done; [by intros [= <-]|].
  destruct (digits_value 0 t) as [v|] eqn:E; [|done].
  destruct (Z.ltb_spec v (2 ^ w)); [|done]. intros [= <-]. split; [|done].
  by apply (digits_value_nonneg 0 t).
Qed.

Section keeps.
Context {A : Type} (P : A -> Prop) (dec : decoder A) (Hdec : keeps P dec).

Lemma keeps_field `{UnicodeTables} names members name a a' :
  Forall (fun m => utf8 m.1 /\ json_ok m.2) members -> P a ->
  decode_field names members name dec a = Some a' -> P a'.
Proof.
  intros Hms. revert a; induction Hms as [|[k v] ms [_ Hv] _ IH]; intros a Ha; [by intros [= <-]|].
  rewrite decode_field_cons. case_bool_decide; [|by apply IH].
  destruct (dec a v) as [b|] eqn:E; [|done]. cbn. by apply IH, (Hdec a v).
Qed.

Lemma keeps_elems zero old js r :
  P zero -> Forall P old -> Forall json_ok js -> decode_elems dec zero old js = Some r ->
  Forall P r.1 /\ Forall P r.2.
Proof.
  intros Hz Ho Hjs. revert old r Ho; induction Hjs as [|j js Hj _ IH]; intros old r Ho; cbn [decode_elems].
  { by intros [= <-]. }
  destruct (dec (default zero (head old)) j) as [a|] eqn:E; [|done]. cbn.
  apply Hdec in E; [|done|by destruct Ho].
  destruct (decode_elems dec zero (tail old) js) as [[l sp]|] eqn:E2; [|done]. cbn. intros [= <-].
  apply IH in E2 as [? ?]; [|by destruct Ho]. by repeat constructor.
Qed.

Lemma keeps_slice zero :
  P zero -> keeps (fun s => Forall P (sl_elems s) /\ Forall P (sl_spare s)) (decode_slice dec zero).
Proof.
  intros Hz s j s' Hj [He Hs]. destruct Hj as [| | | |js Hjs|]; cbn [decode_slice]; try done;
    [by intros [= <-]; split; constructor|].
  destruct js as [|j js]; [by intros [= <-]; split; constructor|].
  destruct (decode_elems dec zero (sl_elems s ++ sl_spare s) (j :: js)) as [r|] eqn:E; [|done].
  cbn. intros [= <-]. by apply keeps_elems in E; [|done|apply Forall_app|].
Qed.

(** Into a fresh slice, encoded elements come back. *)
Lemma decode_elems_fresh zero (enc : A -> json) l :
  Forall (fun a => dec zero (enc a) = Some a) l ->
  decode_elems dec zero [] (map enc l) = Some (l, []).
Proof.
  induction 1 as [|a l Ha _ IH]; [done|]. cbn [map decode_elems head default tail]. rewrite Ha.
  cbn. by rewrite IH.
Qed.

Lemma decode_slice_fresh zero (enc : A -> json) l :
  Forall (fun a => dec zero (enc a) = Some a) l ->
  decode_slice dec zero (mkSlice [] []) (JArray (map enc l)) = Some (mkSlice l []).
Proof.
  intros Hl. destruct l as [|a l]; [done|]. cbn [map decode_slice sl_elems sl_spare app].
  change (enc a :: map enc l) with (map enc (a :: l)). by rewrite decode_elems_fresh.
Qed.
End keeps.

#[export] Hint Resolve keeps_string keeps_int keeps_uint : go.

(** ** Automation for structures *)

(** Decide membership, distinctness and validity of constant names. *)
Ltac names := apply (bool_decide_unpack _); vm_compute; exact I.

(** The members of an encoded structure are well formed. *)
Ltac members_fit :=
  repeat match goal with
  | |- Forall _ [] => apply List.Forall_nil
  | |- Forall _ (_ :: _) => apply Forall_cons; split; [split; cbn [fst snd]; [names|]|]
  | |- Forall _ (_ ++ _) => apply Forall_app; split
  | |- Forall _ (if ?b then _ else _) => destruct b
  | |- fits_with _ _ (encode_int _) => apply encode_int_fits; [lia|done]
  | |- fits_with _ _ (JString _) => apply encode_string_fits; [lia|done]
  end.

(** Read a field of an encoded structure, by its name and its value, or find
    that it is not there. *)
Ltac exact_names :=
  repeat (apply Forall_cons; split; [cbn [fst]; names|]); apply List.Forall_nil.

Ltac at_field name v :=
  rewrite (decode_field_at _ _ _ name _ v);
  [|exact_names|names|repeat (apply elem_of_cons; first [left; reflexivity|right])].

Ltac no_field name :=
  rewrite (decode_field_missing _ _ _ name); [cbn [mbind option_bind]|exact_names|names].

(** Follow the fields a structure was read into; each keeps what its decoder
    keeps. *)
Ltac peel :=
  repeat match goal with
  | |- mbind _ ?m = Some _ -> _ =>
    let E := fresh "E" in destruct m eqn:E; [cbn [mbind option_bind]|discriminate]
  end; intros [= <-].

Ltac field_kept :=
  match goal with
  | E : decode_field _ _ _ _ _ = Some ?v |- _ =>
    match goal with |- context [v] =>
      eapply keeps_field; [|eassumption| |exact E]; [|by eauto with go]; auto with go
    end
  end.

(** ** Values one after the other *)

(** What a [json.Decoder] reads until its input ends. *)
Fixpoint parse_stream (fuel : nat) (s : bytes) : option (list json) :=
  match fuel with
  | O => None
  | S fuel' =>
    if bytes_eqb (skip_ws s) [] then Some []
    else p ← parse_first s; js ← parse_stream fuel' p.2; Some (p.1 :: js)
  end.

Definition read_stream (s : bytes) : option (list json) := parse_stream (S (length s)) s.

(** Each value on a line of its own. *)
Definition lines_of (js : list json) : bytes := flat_map (fun j => Marshal j ++ [x0a]) js.

Lemma parse_first_space w s :
  Forall (fun b => is_space b = true) w -> parse_first (w ++ s) = parse_first s.
Proof.
  intros Hw. rewrite (parse_first_fuel s (2 * length (w ++ s) + 2)) by (rewrite length_app; lia).
  unfold parse_first. by rewrite skip_ws_spaces.
Qed.

Lemma parse_stream_lines js w fuel :
  Forall (fits 0) js -> Forall (fun b => is_space b = true) w -> (length js < fuel)%nat ->
  parse_stream fuel (w ++ lines_of js) = Some js.
Proof.
  intros Hjs. revert w fuel; induction Hjs as [|j js Hj _ IH]; intros w fuel Hw Hf;
    (destruct fuel as [|fuel]; [cbn in Hf; lia|]); cbn [parse_stream].
  { by rewrite skip_ws_spaces. }
  rewrite skip_ws_spaces, parse_first_space by done. cbn [lines_of flat_map]. rewrite <- app_assoc.
  pose proof (encode_head false j 0 ([x0a] ++ lines_of js) (proj1 Hj)) as Hh.
  fold (lines_of js). unfold Marshal at 1 2. rewrite skip_ws_head by done.
  destruct (bytes_eqb _ []) eqn:E; [apply bytes_eqb_eq in E; by rewrite E in Hh|].
  rewrite parse_first_encode by done. cbn [mbind option_bind fst snd].
  rewrite IH; [done|by repeat constructor|cbn in Hf; lia].
Qed.

Lemma lines_of_length js : Forall (fits 0) js -> (length js <= length (lines_of js))%nat.
Proof.
  induction 1 as [|j js Hj _ IH]; [done|]. cbn [lines_of flat_map length]. rewrite !length_app.
  cbn [length]. unfold lines_of in IH. lia.
Qed.

Lemma read_lines js : Forall (fits 0) js -> read_stream (lines_of js) = Some js.
Proof.
  intros Hjs. unfold read_stream. pose proof (lines_of_length js Hjs).
  apply (parse_stream_lines js []); [done|constructor|lia].
Qed.
