(* ===== verification/GoPath.v ===== *)
(** * Go's packages path and path/filepath, as far as the server uses them

    [Clean] and [Dir] on slash-separated paths, and the canonical form that
    [http.ServeMux] gives to the path of a request. *)

From S2P Require Import Prelude GoStrings.

Definition slash : byte := x2f.

(** One element of a path on the stack of those before it, last first. *)
Definition clean_element (rooted : bool) (stack : list bytes) (e : bytes) : list bytes :=
  if bytes_eqb e [] || bytes_eqb e (lit ".") then stack
  else if bytes_eqb e (lit "..") then
    match stack with
    | top :: stack' => if bytes_eqb top (lit "..") then e :: stack else stack'
    | [] => if rooted then [] else [e]
    end
  else e :: stack.

Fixpoint join_slash (es : list bytes) : bytes :=
  match es with
  | [] => []
  | [e] => e
  | e :: es' => e ++ slash :: join_slash es'
  end.

Definition is_rooted (p : bytes) : bool :=
  match p with b :: _ => byte_eqb b slash | [] => false end.

(** [path.Clean]. *)
Definition path_Clean (p : bytes) : bytes :=
  let rooted := is_rooted p in
  let es := reverse (foldl (clean_element rooted) [] (Split p slash)) in
  if rooted then slash :: join_slash es
  else match es with [] => lit "." | _ => join_slash es end.

(** What precedes the last slash, with the slash. *)
Fixpoint dir_part (r : bytes) : bytes :=
  match r with
  | [] => []
  | b :: r' => if byte_eqb b slash then r else dir_part r'
  end.

(** [filepath.Dir]. *)
Definition path_Dir (p : bytes) : bytes := path_Clean (reverse (dir_part (reverse p))).

Definition ends_with_slash (p : bytes) : bool := is_rooted (reverse p).

(** [cleanPath] of net/http. *)
Definition cleanPath (p : bytes) : bytes :=
  match p with
  | [] => [slash]
  | _ =>
    let p := if is_rooted p then p else slash :: p in
    let np := path_Clean p in
    if ends_with_slash p && negb (bytes_eqb np [slash]) then np ++ [slash] else np
  end.

Example clean_examples :
  map path_Clean [lit "a/c"; lit "a//c"; lit "a/c/."; lit "a/c/b/.."; lit "/../a/c"; lit "../a"; lit ""]
  = [lit "a/c"; lit "a/c"; lit "a/c"; lit "a/c"; lit "/a/c"; lit "../a"; lit "."].
Proof. reflexivity. Qed.

Example dir_examples :
  map path_Dir [lit "catalog.json"; lit "data/catalog.json"; lit "/catalog.json"]
  = [lit "."; lit "data"; lit "/"].
Proof. reflexivity. Qed.

Example clean_path_examples :
  map cleanPath [lit ""; lit "/api//files/"; lit "/files/../api/stats"; lit "/"]
  = [lit "/"; lit "/api/files/"; lit "/api/stats"; lit "/"].
Proof. reflexivity. Qed.
