(* ===== verification/Ed2kLib.v ===== *)
(** * The goed2k client library, as the server uses it

    The server imports [github.com/monkeyWie/goed2k/protocol] and
    [.../protocol/server]. Their code is not part of this repository, so they
    enter the model as the fields of the class [Ed2kLib]; what the server relies
    on is stated by the law classes below. Every definition that calls the
    library takes the class as a parameter, and every theorem that needs a law
    names its class. [Ed2kRef] gives one concrete instance. *)

From S2P Require Import Prelude GoStrings.

Class Ed2kLib := {
  (** [protocol.Hash], a comparable 16-byte value. *)
  Hash : Type;
  Hash_zero : Hash;
  Hash_IsZero : Hash -> bool;
  Hash_Equal : Hash -> Hash -> bool;
  Hash_String : Hash -> bytes;
  Hash_Bytes : Hash -> bytes;
  HashFromString : bytes -> option Hash;

  (** [protocol.Endpoint]. *)
  Endpoint : Type;
  NewEndpoint : Z -> Z -> Endpoint;
  EndpointFromString : bytes -> Z -> option Endpoint;
  Endpoint_IP : Endpoint -> Z;
  Endpoint_Port : Endpoint -> Z;
  Endpoint_String : Endpoint -> bytes;

  (** Tags and tag lists. *)
  Tag : Type;
  NewStringTag : byte -> bytes -> Tag;
  NewUInt32Tag : byte -> Z -> Tag;
  Tag_ID : Tag -> byte;
  Tag_String : Tag -> bytes;
  Tag_UInt64 : Tag -> Z;
  (** [SharedFileEntry.StringTag] and [UIntTag] search the entry's tag list. *)
  StringTag : list Tag -> byte -> option bytes;
  UIntTag : list Tag -> byte -> option Z;

  (** Tag identifiers. *)
  FTFilename : byte;
  FTFileSize : byte;
  FTFileSizeHi : byte;
  FTFileType : byte;
  FTFileFormat : byte;
  FTSources : byte;
  FTCompleteSources : byte;
  FTMediaCodec : byte;
  FTMediaLength : byte;
  FTMediaBitrate : byte;

  (** Readers over a [*bytes.Reader]: the value and the unread rest. *)
  ReadUInt16 : bytes -> option (Z * bytes);
  ReadUInt32 : bytes -> option (Z * bytes);
  ReadUInt64 : bytes -> option (Z * bytes);
  ReadBytes : bytes -> Z -> option (bytes * bytes);
  ReadHash : bytes -> option (Hash * bytes)
}.

(** [serverproto.SharedFileEntry], with the fields the server reads and sets. *)
Record SharedFileEntry `{Ed2kLib} := mkEntry {
  entry_Hash : Hash;
  entry_ClientID : Z;
  entry_Port : Z;
  entry_Tags : list Tag
}.

(** A reader of a fixed-width little-endian integer. *)
Definition read_le (n : nat) (r : bytes) : option (Z * bytes) :=
  if (n <=? length r)%nat then Some (le_decode (take n r), drop n r) else None.

(** The integer readers are little-endian; [ReadBytes] takes exactly [n] bytes. *)
Class Ed2kReaderLaws `{Ed2kLib} : Prop := {
  ReadUInt16_spec r : ReadUInt16 r = read_le 2 r;
  ReadUInt32_spec r : ReadUInt32 r = read_le 4 r;
  ReadUInt64_spec r : ReadUInt64 r = read_le 8 r;
  ReadBytes_spec r n :
    (0 <= n)%Z ->
    ReadBytes r n =
      if (n <=? len r)%Z then Some (take (Z.to_nat n) r, drop (Z.to_nat n) r) else None
}.

(** Two hashes are the same exactly when they print the same. *)
Class Ed2kHashLaws `{Ed2kLib} : Prop := {
  Hash_Equal_String h k : Hash_Equal h k = true <-> Hash_String h = Hash_String k
}.

(** The search tag identifiers are pairwise different (the source switches on
    them, and Go refuses duplicate constant cases). *)
Class Ed2kTagIDLaws `{Ed2kLib} : Prop := {
  string_tags_NoDup : NoDup [FTFileType; FTFileFormat; FTMediaCodec];
  numeric_tags_NoDup :
    NoDup [FTFileSize; FTSources; FTCompleteSources; FTMediaBitrate; FTMediaLength];
  codec_length_ne : FTMediaCodec <> FTMediaLength;
  type_length_ne : FTFileType <> FTMediaLength;
  format_length_ne : FTFileFormat <> FTMediaLength
}.

Class Ed2kEndpointLaws `{Ed2kLib} : Prop := {
  NewEndpoint_IP ip port : Endpoint_IP (NewEndpoint ip port) = ip;
  NewEndpoint_Port ip port : Endpoint_Port (NewEndpoint ip port) = port
}.

(** A tag lookup returns the first tag of that identifier and kind, and the tag
    identifiers of a file entry are pairwise different. *)
Class Ed2kTagLaws `{Ed2kLib} : Prop := {
  StringTag_nil id : StringTag [] id = None;
  StringTag_string id s ts id' :
    StringTag (NewStringTag id s :: ts) id' = if byte_eqb id id' then Some s else StringTag ts id';
  StringTag_int id n ts id' : StringTag (NewUInt32Tag id n :: ts) id' = StringTag ts id';
  UIntTag_nil id : UIntTag [] id = None;
  UIntTag_string id s ts id' : UIntTag (NewStringTag id s :: ts) id' = UIntTag ts id';
  UIntTag_int id n ts id' :
    UIntTag (NewUInt32Tag id n :: ts) id' = if byte_eqb id id' then Some n else UIntTag ts id';
  file_tags_NoDup :
    NoDup [FTFilename; FTFileSize; FTFileSizeHi; FTFileType; FTFileFormat; FTSources;
           FTCompleteSources; FTMediaCodec; FTMediaLength; FTMediaBitrate]
}.

(** ** Consequences of the reader laws *)

Lemma read_le_length n r v r' :
  read_le n r = Some (v, r') -> length r = (n + length r')%nat.
Proof.
  unfold read_le. case_match eqn:E; [|done]. apply Nat.leb_le in E.
  intros. simplify_eq. rewrite length_drop. lia.
Qed.

Lemma read_le_encode n v rest :
  (0 <= v < 256 ^ Z.of_nat n)%Z ->
  read_le n (le_encode n v ++ rest) = Some (v, rest).
Proof.
  intros Hv. unfold read_le. rewrite length_app, le_encode_length.
  case_match eqn:E; [|apply Nat.leb_gt in E; lia].
  rewrite take_app_length', drop_app_length' by by rewrite le_encode_length.
  by rewrite le_decode_encode_small.
Qed.

Section readers.
Context `{L : Ed2kLib} {R : Ed2kReaderLaws}.

Lemma ReadUInt16_length r v r' :
  ReadUInt16 r = Some (v, r') -> length r = (2 + length r')%nat.
Proof. rewrite ReadUInt16_spec. apply read_le_length. Qed.
Lemma ReadUInt32_length r v r' :
  ReadUInt32 r = Some (v, r') -> length r = (4 + length r')%nat.
Proof. rewrite ReadUInt32_spec. apply read_le_length. Qed.
Lemma ReadUInt64_length r v r' :
  ReadUInt64 r = Some (v, r') -> length r = (8 + length r')%nat.
Proof. rewrite ReadUInt64_spec. apply read_le_length. Qed.

Lemma read_le_range n r v r' :
  read_le n r = Some (v, r') -> (0 <= v < 256 ^ Z.of_nat n)%Z.
Proof.
  unfold read_le. case_match eqn:E; [|done]. apply Nat.leb_le in E.
  intros. simplify_eq. pose proof (le_decode_range (take n r)) as Hr.
  unfold len in Hr. rewrite length_take_le in Hr by lia. done.
Qed.

Lemma ReadUInt16_range r v r' : ReadUInt16 r = Some (v, r') -> in_u 16 v.
Proof. rewrite ReadUInt16_spec. apply read_le_range. Qed.
Lemma ReadUInt32_range r v r' : ReadUInt32 r = Some (v, r') -> in_u 32 v.
Proof. rewrite ReadUInt32_spec. apply read_le_range. Qed.
Lemma ReadUInt64_range r v r' : ReadUInt64 r = Some (v, r') -> in_u 64 v.
Proof. rewrite ReadUInt64_spec. apply read_le_range. Qed.

Lemma ReadBytes_length r n v r' :
  (0 <= n)%Z -> ReadBytes r n = Some (v, r') -> len r = (n + len r')%Z.
Proof.
  intros Hn. rewrite ReadBytes_spec by done. case_match eqn:E; [|done].
  apply Z.leb_le in E. intros. simplify_eq. unfold len in *.
  rewrite length_drop. lia.
Qed.

Lemma ReadBytes_app v rest :
  ReadBytes (v ++ rest) (len v) = Some (v, rest).
Proof.
  rewrite ReadBytes_spec by apply len_nonneg. rewrite len_app.
  case_match eqn:E; [|apply Z.leb_gt in E; pose proof (len_nonneg rest); lia].
  unfold len. rewrite Nat2Z.id.
  by rewrite take_app_length, drop_app_length.
Qed.
End readers.
