(* ===== verification/Ed2kRef.v ===== *)
(** * A concrete instance of the client-library interface

    One implementation of [Ed2kLib] that satisfies every law class: hashes are
    byte lists printed as upper-case hexadecimal, endpoints are pairs, tags are
    small records with the eMule tag numbers. The examples of the development
    evaluate in it; no theorem depends on it. *)

From stdpp Require Import pretty.
From S2P Require Import Prelude GoStrings Ed2kLib.

Local Open Scope Z_scope.

Definition hex_digit (z : Z) : byte :=
  if z <? 10 then byte_of_Z (48 + z) else byte_of_Z (55 + z).

Fixpoint hex_string (h : bytes) : bytes :=
  match h with
  | [] => []
  | b :: h' => hex_digit (byteZ b / 16) :: hex_digit (byteZ b mod 16) :: hex_string h'
  end.

Fixpoint hex_parse (s : bytes) : option bytes :=
  match s with
  | [] => Some []
  | a :: b :: s' =>
    match hex_value a, hex_value b, hex_parse s' with
    | Some x, Some y, Some t => Some (byte_of_Z (16 * x + y) :: t)
    | _, _, _ => None
    end
  | _ => None
  end.

Definition ref_zero : bytes := replicate 16 x00.

Definition ref_HashFromString (s : bytes) : option bytes :=
  if (length s =? 32)%nat then hex_parse s else None.

Fixpoint dotted (s : list bytes) : option (list Z) :=
  match s with
  | [] => Some []
  | p :: s' =>
    match Atoi p, dotted s' with
    | Some v, Some t => if (0 <=? v) && (v <? 256) then Some (v :: t) else None
    | _, _ => None
    end
  end.

Definition ref_EndpointFromString (host : bytes) (port : Z) : option (Z * Z) :=
  match dotted (Split host x2e) with
  | Some [a; b; c; d] => Some (to_int32 (a + 256 * (b + 256 * (c + 256 * d))), port)
  | _ => None
  end.

Definition decimal (z : Z) : bytes := lit (pretty z).

Definition ref_Endpoint_String (e : Z * Z) : bytes :=
  let ip := to_uint32 e.1 in
  decimal (ip mod 256) ++ lit "." ++ decimal (ip / 256 mod 256) ++ lit "." ++
  decimal (ip / 65536 mod 256) ++ lit "." ++ decimal (ip / 16777216) ++
  lit ":" ++ decimal e.2.

Record ref_tag := mkRefTag { rt_id : byte; rt_value : bytes + Z }.

Definition ref_StringTag (tags : list ref_tag) (id : byte) : option bytes :=
  head (omap (fun t => match rt_value t with
                       | inl s => if byte_eqb (rt_id t) id then Some s else None
                       | inr _ => None
                       end) tags).

Definition ref_UIntTag (tags : list ref_tag) (id : byte) : option Z :=
  head (omap (fun t => match rt_value t with
                       | inr n => if byte_eqb (rt_id t) id then Some n else None
                       | inl _ => None
                       end) tags).

#[export] Instance ed2k_ref : Ed2kLib | 100 := {
  Hash := bytes;
  Hash_zero := ref_zero;
  Hash_IsZero := fun h => bytes_eqb h ref_zero;
  Hash_Equal := bytes_eqb;
  Hash_String := hex_string;
  Hash_Bytes := fun h => h;
  HashFromString := ref_HashFromString;
  Endpoint := Z * Z;
  NewEndpoint := pair;
  EndpointFromString := ref_EndpointFromString;
  Endpoint_IP := fst;
  Endpoint_Port := snd;
  Endpoint_String := ref_Endpoint_String;
  Tag := ref_tag;
  NewStringTag := fun id s => mkRefTag id (inl s);
  NewUInt32Tag := fun id n => mkRefTag id (inr n);
  Tag_ID := rt_id;
  Tag_String := fun t => match rt_value t with inl s => s | inr _ => [] end;
  Tag_UInt64 := fun t => match rt_value t with inl _ => 0 | inr n => n end;
  StringTag := ref_StringTag;
  UIntTag := ref_UIntTag;
  FTFilename := x01;
  FTFileSize := x02;
  FTFileSizeHi := x3a;
  FTFileType := x03;
  FTFileFormat := x04;
  FTSources := x15;
  FTCompleteSources := x30;
  FTMediaCodec := xd5;
  FTMediaLength := xd3;
  FTMediaBitrate := xd4;
  ReadUInt16 := read_le 2;
  ReadUInt32 := read_le 4;
  ReadUInt64 := read_le 8;
  ReadBytes := fun r n =>
    if (0 <=? n) && (n <=? len r)
    then Some (take (Z.to_nat n) r, drop (Z.to_nat n) r) else None;
  ReadHash := fun r => if (16 <=? length r)%nat then Some (take 16 r, drop 16 r) else None
}.

(** ** The instance satisfies the laws *)

Lemma hex_digit_value z : 0 <= z < 16 -> hex_value (hex_digit z) = Some z.
Proof.
  intros Hz. assert (In z (map Z.of_nat (seq 0 16))) as Hin.
  { apply in_map_iff. exists (Z.to_nat z). split; [lia|]. apply in_seq. lia. }
  simpl in Hin. repeat (destruct Hin as [<-|Hin]; [reflexivity|]). done.
Qed.

Lemma hex_parse_string h : hex_parse (hex_string h) = Some h.
Proof.
  induction h as [|b h IH]; [done|].
  change (hex_string (b :: h)) with
    (hex_digit (byteZ b / 16) :: hex_digit (byteZ b mod 16) :: hex_string h).
  pose proof (byteZ_range b). cbn [hex_parse].
  rewrite !hex_digit_value, IH.
  - rewrite <- Z_div_mod_eq_full. by rewrite byte_of_Z_byteZ.
  - apply Z.mod_pos_bound. lia.
  - split; [apply Z.div_pos; lia|apply Z.div_lt_upper_bound; lia].
Qed.

#[export] Instance ed2k_ref_readers : @Ed2kReaderLaws ed2k_ref.
Proof.
  constructor; try done. intros r n Hn. simpl.
  destruct (Z.leb_spec 0 n); [done|lia].
Qed.

#[export] Instance ed2k_ref_hash : @Ed2kHashLaws ed2k_ref.
Proof.
  constructor. simpl. intros h k. rewrite bytes_eqb_eq. split; [by intros ->|].
  intros Hhk. apply (f_equal hex_parse) in Hhk. rewrite !hex_parse_string in Hhk.
  congruence.
Qed.

#[export] Instance ed2k_ref_tags : @Ed2kTagIDLaws ed2k_ref.
Proof.
  constructor; simpl; try done; apply (bool_decide_unpack _); vm_compute; done.
Qed.

#[export] Instance ed2k_ref_endpoints : @Ed2kEndpointLaws ed2k_ref.
Proof. constructor; done. Qed.

#[export] Instance ed2k_ref_tag_lookup : @Ed2kTagLaws ed2k_ref.
Proof.
  constructor; try done.
  - intros id s ts id'. simpl. unfold ref_StringTag. simpl. by destruct (byte_eqb id id').
  - intros id n ts id'. simpl. unfold ref_UIntTag. simpl. by destruct (byte_eqb id id').
  - apply (bool_decide_unpack _). vm_compute. done.
Qed.
