(* ===== verification/Ed2kWire.v ===== *)
(** * The client library's wire formats, as the server uses them

    The readers, writers and packet types of the library that the handlers
    call. As in [Ed2kLib] they are fields of a class, with the behaviour the
    server relies on in law classes and a concrete instance at the end. A write
    to a [bytes.Buffer] never fails, so a writer is the list of bytes it
    appends. *)

From S2P Require Import Prelude GoStrings Ed2kLib Ed2kRef.

Local Open Scope Z_scope.

Class Ed2kWire `{Ed2kLib} := {
  ReadInt32 : bytes -> option (Z * bytes);
  WriteInt32 : Z -> bytes;
  WriteUInt32 : Z -> bytes;
  WriteUInt16 : Z -> bytes;
  WriteHash : Hash -> bytes;

  (** [SharedFileEntry.Get], [Put] and [BytesCount]. *)
  Entry_Get : bytes -> option (SharedFileEntry * bytes);
  Entry_Put : SharedFileEntry -> option bytes;
  Entry_BytesCount : SharedFileEntry -> Z;

  (** [SimpleTag.Get]: the unread rest. *)
  SimpleTag_Get : bytes -> option bytes;

  (** The zero endpoint, [Endpoint.Defined], and [EndpointFromInet] of an IP
      address and a port. *)
  Endpoint_zero : Endpoint;
  Endpoint_Defined : Endpoint -> bool;
  EndpointFromInet : bytes -> Z -> Endpoint;

  (** The request bodies: [LoginRequest] (hash, endpoint, properties),
      [GetFileSources] (hash), [CallbackRequest] (client ID). *)
  LoginRequest_Get : bytes -> option (Hash * Endpoint * list Tag);
  GetFileSources_Get : bytes -> option Hash;
  CallbackRequest_Get : bytes -> option Z;

  (** [FoundFileSources.Put]. *)
  FoundFileSources_Put : Hash -> list Endpoint -> option bytes;

  (** Frame headers: protocol, opcode and body size; [ResetWithKey] and [Put]. *)
  EdonkeyHeader : byte;
  PackedProt : byte;
  EMuleProt : byte;
  PacketHeader_Get : bytes -> option (byte * byte * Z);
  PacketHeader_Put : byte -> byte -> Z -> bytes
}.

(** [protocol.PacketHeaderSize]: protocol byte, 32-bit length, opcode. The
    server's own code indexes the frame with these offsets. *)
Definition PacketHeaderSize : Z := 6.

Class Ed2kWireLaws `{Ed2kWire} : Prop := {
  ReadInt32_spec r :
    ReadInt32 r = match read_le 4 r with Some (v, r') => Some (to_int32 v, r') | None => None end;
  WriteInt32_spec z : WriteInt32 z = le_encode 4 (to_uint32 z);
  WriteUInt32_spec z : WriteUInt32 z = le_encode 4 z;
  WriteUInt16_spec z : WriteUInt16 z = le_encode 2 z;
  WriteHash_spec h : WriteHash h = Hash_Bytes h;
  ReadHash_app h rest :
    length (Hash_Bytes h) = 16%nat -> ReadHash (Hash_Bytes h ++ rest) = Some (h, rest);
  ReadHash_rest r h r' : ReadHash r = Some (h, r') -> length r = (16 + length r')%nat
}.

(** An entry reads back what it writes, and announces its size. *)
Class Ed2kEntryLaws `{Ed2kWire} : Prop := {
  Entry_Get_Put e raw rest : Entry_Put e = Some raw -> Entry_Get (raw ++ rest) = Some (e, rest);
  Entry_Put_length e raw : Entry_Put e = Some raw -> len raw = Entry_BytesCount e
}.

(** ** A concrete instance *)

(** Tags with a one-byte name: a type byte, the name, and a string with a
    16-bit length or a 32-bit integer. *)
Definition ref_tag_encode (t : ref_tag) : option bytes :=
  match rt_value t with
  | inl s => if len s <? 65536
             then Some ([x02; x01; x00; rt_id t] ++ le_encode 2 (len s) ++ s) else None
  | inr n => if (0 <=? n) && (n <? 2 ^ 32)
             then Some ([x03; x01; x00; rt_id t] ++ le_encode 4 n) else None
  end.

Definition ref_tag_decode (r : bytes) : option (ref_tag * bytes) :=
  match r with
  | x02 :: x01 :: x00 :: id :: r =>
    match read_le 2 r with
    | Some (n, r) =>
      if n <=? len r
      then Some (mkRefTag id (inl (take (Z.to_nat n) r)), drop (Z.to_nat n) r) else None
    | None => None
    end
  | x03 :: x01 :: x00 :: id :: r =>
    match read_le 4 r with
    | Some (n, r) => Some (mkRefTag id (inr n), r)
    | None => None
    end
  | _ => None
  end.

Fixpoint ref_tags_encode (ts : list ref_tag) : option bytes :=
  match ts with
  | [] => Some []
  | t :: ts' => match ref_tag_encode t, ref_tags_encode ts' with
                | Some a, Some b => Some (a ++ b)
                | _, _ => None
                end
  end.

Fixpoint ref_tags_decode (n : nat) (r : bytes) : option (list ref_tag * bytes) :=
  match n with
  | O => Some ([], r)
  | S n' => match ref_tag_decode r with
            | Some (t, r) => match ref_tags_decode n' r with
                             | Some (ts, r) => Some (t :: ts, r)
                             | None => None
                             end
            | None => None
            end
  end.

Definition ref_Entry_Put (e : @SharedFileEntry ed2k_ref) : option bytes :=
  if (length (entry_Hash e) =? 16)%nat && (- 2 ^ 31 <=? entry_ClientID e)
     && (entry_ClientID e <? 2 ^ 31) && (0 <=? entry_Port e) && (entry_Port e <? 65536)
     && (len (entry_Tags e) <? 2 ^ 32)
  then match ref_tags_encode (entry_Tags e) with
       | Some ts => Some (entry_Hash e ++ le_encode 4 (to_uint32 (entry_ClientID e)) ++
                          le_encode 2 (entry_Port e) ++ le_encode 4 (len (entry_Tags e)) ++ ts)
       | None => None
       end
  else None.

Definition ref_Entry_Get (r : bytes) : option (@SharedFileEntry ed2k_ref * bytes) :=
  match ReadHash r with None => None | Some (h, r) =>
  match read_le 4 r with None => None | Some (id, r) =>
  match read_le 2 r with None => None | Some (port, r) =>
  match read_le 4 r with None => None | Some (n, r) =>
  match ref_tags_decode (Z.to_nat n) r with None => None | Some (ts, r) =>
  Some (mkEntry ed2k_ref h (to_int32 id) port ts, r)
  end end end end end.

Definition ref_Entry_BytesCount (e : @SharedFileEntry ed2k_ref) : Z :=
  match ref_Entry_Put e with Some raw => len raw | None => 0 end.

Definition ref_Login_Get (r : bytes) : option (bytes * (Z * Z) * list ref_tag) :=
  match ref_Entry_Get r with
  | Some (e, _) => Some (entry_Hash e, (entry_ClientID e, entry_Port e), entry_Tags e)
  | None => None
  end.

Fixpoint ref_endpoints (l : list (Z * Z)) : bytes :=
  match l with
  | [] => []
  | (ip, port) :: l' => le_encode 4 (to_uint32 ip) ++ le_encode 2 port ++ ref_endpoints l'
  end.

#[export] Instance ed2k_wire_ref : @Ed2kWire ed2k_ref | 100 := {
  ReadInt32 := fun r => match read_le 4 r with
                        | Some (v, r') => Some (to_int32 v, r')
                        | None => None
                        end;
  WriteInt32 := fun z => le_encode 4 (to_uint32 z);
  WriteUInt32 := le_encode 4;
  WriteUInt16 := le_encode 2;
  WriteHash := fun h => h;
  Entry_Get := ref_Entry_Get;
  Entry_Put := ref_Entry_Put;
  Entry_BytesCount := ref_Entry_BytesCount;
  SimpleTag_Get := fun r => option_map snd (ref_tag_decode r);
  Endpoint_zero := (0, 0);
  Endpoint_Defined := fun e => negb (e.1 =? 0);
  EndpointFromInet := fun ip port =>
    (match ip with [a; b; c; d] => to_int32 (le_decode ip) | _ => 0 end, port);
  LoginRequest_Get := ref_Login_Get;
  GetFileSources_Get := fun r => option_map fst (@ReadHash ed2k_ref r);
  CallbackRequest_Get := fun r => option_map (fun p => to_int32 p.1) (read_le 4 r);
  FoundFileSources_Put := fun h l =>
    if len l <? 256 then Some (h ++ [byte_of_Z (len l)] ++ ref_endpoints l) else None;
  EdonkeyHeader := xe3;
  PackedProt := xd4;
  EMuleProt := xc5;
  PacketHeader_Get := fun r =>
    match r with
    | p :: r => match read_le 4 r with
                | Some (size, op :: _) => Some (p, op, to_int32 size - 1)
                | _ => None
                end
    | [] => None
    end;
  PacketHeader_Put := fun p op size => p :: le_encode 4 (to_uint32 size) ++ [op]
}.

#[export] Instance ed2k_wire_ref_laws : @Ed2kWireLaws _ ed2k_wire_ref.
Proof.
  constructor; try done.
  - intros h rest Hh. simpl in *. rewrite length_app, Hh.
    by rewrite take_app_length', drop_app_length'.
  - intros r h r'. cbn [ReadHash ed2k_ref].
    destruct (16 <=? length r)%nat eqn:E; [|done]. apply Nat.leb_le in E.
    intros. simplify_eq. rewrite length_drop. lia.
Qed.

Lemma ref_tag_roundtrip t raw rest :
  ref_tag_encode t = Some raw -> ref_tag_decode (raw ++ rest) = Some (t, rest).
Proof.
  destruct t as [id [s|n]]; cbn [ref_tag_encode rt_value rt_id].
  - destruct (Z.ltb_spec (len s) 65536); [|done]. intros Hraw. apply (inj Some) in Hraw as <-.
    cbn [app ref_tag_decode]. rewrite <- app_assoc, read_le_encode.
    + rewrite len_app. pose proof (len_nonneg rest).
      destruct (Z.leb_spec (len s) (len s + len rest)); [|lia].
      unfold len. rewrite Nat2Z.id. by rewrite take_app_length, drop_app_length.
    + pose proof (len_nonneg s). simpl. lia.
  - destruct ((0 <=? n) && (n <? 2 ^ 32)) eqn:E; [|done].
    intros Hraw. apply (inj Some) in Hraw as <-.
    apply andb_true_iff in E as [?%Z.leb_le ?%Z.ltb_lt].
    cbn [app ref_tag_decode]. rewrite read_le_encode; [done|simpl; lia].
Qed.

Lemma ref_tags_roundtrip ts raw rest :
  ref_tags_encode ts = Some raw -> ref_tags_decode (length ts) (raw ++ rest) = Some (ts, rest).
Proof.
  revert raw; induction ts as [|t ts IH]; intros raw; cbn [ref_tags_encode length ref_tags_decode].
  - by intros [= <-].
  - destruct (ref_tag_encode t) as [a|] eqn:Ea; [|done].
    destruct (ref_tags_encode ts) as [b|] eqn:Eb; [|done]. intros [= <-].
    rewrite <- app_assoc, (ref_tag_roundtrip t) by done. by rewrite (IH b).
Qed.

#[export] Instance ed2k_entry_ref_laws : @Ed2kEntryLaws _ ed2k_wire_ref.
Proof.
  constructor.
  - intros [h id port ts] raw rest. cbn [Entry_Put Entry_Get ed2k_wire_ref].
    unfold ref_Entry_Put. cbn [entry_Hash entry_ClientID entry_Port entry_Tags].
    destruct (_ && _) eqn:E; [|done]. destruct (ref_tags_encode ts) as [tb|] eqn:Et; [|done].
    intros Hraw. apply (inj Some) in Hraw as <-. rewrite !andb_true_iff in E.
    destruct E as [[[[[Hh%Nat.eqb_eq Hi1%Z.leb_le] Hi2%Z.ltb_lt] Hp1%Z.leb_le]
      Hp2%Z.ltb_lt] Ht%Z.ltb_lt].
    unfold ref_Entry_Get. rewrite <- !app_assoc. rewrite (ReadHash_app (h : @Hash ed2k_ref)) by done.
    cbv beta iota. rewrite read_le_encode by apply (wrap_u_range 32 id ltac:(lia)).
    cbv beta iota. rewrite read_le_encode by (simpl; lia).
    cbv beta iota. rewrite read_le_encode by (split; [apply len_nonneg|exact Ht]).
    cbv beta iota.
    unfold len at 1. rewrite Nat2Z.id. rewrite (ref_tags_roundtrip ts) by done.
    unfold to_int32, to_uint32. rewrite wrap_s_wrap_u by lia.
    rewrite wrap_s_id; [done|lia|]. unfold in_s. simpl. lia.
  - intros e raw He. cbn [Entry_BytesCount ed2k_wire_ref] in *.
    unfold ref_Entry_BytesCount. cbn [Entry_Put ed2k_wire_ref] in He. by rewrite He.
Qed.
