(* ===== verification/FileRecord.v ===== *)
(** * File records (ed2ksrv/catalog.go)

    The shared-file record, its normalisation, and its encoding as a search
    result entry. *)

From S2P Require Import Prelude GoStrings Ed2kLib.

Local Open Scope Z_scope.

(** [SourceEntry]: a peer endpoint returned by OP_GETSOURCES. *)
Record SourceEntry := mkSource {
  se_Host : bytes;
  se_Port : Z;
  se_ObfuscationOptions : Z;
  se_UserHash : bytes
}.

#[export] Instance SourceEntry_eq_dec : EqDecision SourceEntry.
Proof. solve_decision. Defined.

#[export] Instance SourceEntry_countable : Countable SourceEntry.
Proof.
  apply (inj_countable' (fun e => (se_Host e, se_Port e, se_ObfuscationOptions e, se_UserHash e))
           (fun t => let '(h, p, o, u) := t in mkSource h p o u)). by intros [].
Defined.

(** [FileRecord]: a searchable file and the peers that can serve it. *)
Record FileRecord `{Ed2kLib} := mkFile {
  fr_Hash : Hash;
  fr_Name : bytes;
  fr_Size : Z;
  fr_FileType : bytes;
  fr_Extension : bytes;
  fr_MediaCodec : bytes;
  fr_MediaLength : Z;
  fr_MediaBitrate : Z;
  fr_Sources : Z;
  fr_CompleteSources : Z;
  fr_Endpoints : list SourceEntry
}.

(** The errors of [normalizeFileRecord], in the order of its checks. *)
Inductive recordErr :=
| ErrHashRequired
| ErrNameRequired
| ErrSizeNotPositive
| ErrEndpointInvalid (idx : nat).

Section records.
Context `{L : Ed2kLib}.

(** The index of the first endpoint that does not parse. *)
Fixpoint first_bad_endpoint (idx : nat) (es : list SourceEntry) : option nat :=
  match es with
  | [] => None
  | e :: es' => match EndpointFromString (se_Host e) (se_Port e) with
                | Some _ => first_bad_endpoint (S idx) es'
                | None => Some idx
                end
  end.

Definition normalizeFileRecord (record : FileRecord) : result recordErr FileRecord :=
  if Hash_IsZero (fr_Hash record) then Err ErrHashRequired else
  let name := TrimSpace (fr_Name record) in
  if bytes_eqb name [] then Err ErrNameRequired else
  if fr_Size record <=? 0 then Err ErrSizeNotPositive else
  match first_bad_endpoint 0 (fr_Endpoints record) with
  | Some idx => Err (ErrEndpointInvalid idx)
  | None =>
    let sources := if fr_Sources record <=? 0 then len (fr_Endpoints record)
                   else fr_Sources record in
    let complete := if fr_CompleteSources record <=? 0 then sources
                    else fr_CompleteSources record in
    let trim s := if bytes_eqb s [] then s else TrimSpace s in
    Ok (mkFile _ (fr_Hash record) name (fr_Size record)
          (trim (fr_FileType record)) (trim (fr_Extension record))
          (trim (fr_MediaCodec record)) (fr_MediaLength record)
          (fr_MediaBitrate record) sources complete (fr_Endpoints record))
  end.

(** [makeSharedFileEntry]: the tags of a search result. The low and the high
    word of the size travel in separate 32-bit tags. *)
Definition makeSharedFileEntry (record : FileRecord) : SharedFileEntry :=
  let tags :=
    [NewStringTag FTFilename (fr_Name record);
     NewUInt32Tag FTFileSize (to_uint32 (fr_Size record));
     NewUInt32Tag FTSources (to_uint32 (fr_Sources record));
     NewUInt32Tag FTCompleteSources (to_uint32 (fr_CompleteSources record))]
    ++ (if 0xffffffff <? fr_Size record
        then [NewUInt32Tag FTFileSizeHi
                (to_uint32 (Z.shiftr (to_uint64 (fr_Size record)) 32))] else [])
    ++ (if bytes_eqb (fr_FileType record) [] then []
        else [NewStringTag FTFileType (fr_FileType record)])
    ++ (if bytes_eqb (fr_Extension record) [] then []
        else [NewStringTag FTFileFormat (fr_Extension record)])
    ++ (if bytes_eqb (fr_MediaCodec record) [] then []
        else [NewStringTag FTMediaCodec (fr_MediaCodec record)])
    ++ (if 0 <? fr_MediaLength record
        then [NewUInt32Tag FTMediaLength (to_uint32 (fr_MediaLength record))] else [])
    ++ (if 0 <? fr_MediaBitrate record
        then [NewUInt32Tag FTMediaBitrate (to_uint32 (fr_MediaBitrate record))] else [])
  in
  let '(id, port) :=
    match fr_Endpoints record with
    | e :: _ => match EndpointFromString (se_Host e) (se_Port e) with
                | Some ep => (Endpoint_IP ep, to_uint16 (Endpoint_Port ep))
                | None => (0, 0)
                end
    | [] => (0, 0)
    end in
  mkEntry _ (fr_Hash record) id port tags.
End records.
