(* ===== verification/CatalogJson.v ===== *)
(** * Catalog records as JSON (ed2ksrv/catalog.go, storage.go, db_store.go)

    The JSON form of [SourceEntry], [FileRecord] and [catalogDisk]: the field
    names of the source's tags, what is omitted, and what reading stores. How a
    hash is written is up to the client library. *)

From S2P Require Import Prelude GoStrings GoUtf8 GoNet Json JsonFacts JsonDecode Ed2kLib Ed2kRef.
From S2P Require Import FileRecord.

Local Open Scope Z_scope.

(** [protocol.Hash] as JSON. *)
Class HashJson `{Ed2kLib} := {
  Hash_MarshalJSON : Hash -> option json;
  Hash_UnmarshalJSON : decoder Hash
}.

(** A hash is written as a string that reads as the same hash. *)
Class HashJsonLaws `{HashJson} : Prop := {
  hash_json h : exists t, Hash_MarshalJSON h = Some (JString t) /\ utf8 t /\
                  forall old, Hash_UnmarshalJSON old (JString t) = Some h
}.

Definition SourceEntry_names : list bytes :=
  [lit "host"; lit "port"; lit "obfuscation_options"; lit "user_hash"].

Definition FileRecord_names : list bytes :=
  [lit "hash"; lit "name"; lit "size"; lit "file_type"; lit "extension"; lit "media_codec";
   lit "media_length"; lit "media_bitrate"; lit "sources"; lit "complete_sources"; lit "endpoints"].

Definition catalogDisk_names : list bytes := [lit "files"].

Definition zero_source : SourceEntry := mkSource [] 0 0 [].

(** A [FileRecord] variable while it is read: its value, and what the array of
    its endpoints holds behind the slice. *)
Record fileSlot `{Ed2kLib} := mkSlot {
  slot_file : FileRecord;
  slot_spare : list SourceEntry
}.

(** ** Reading *)

Section reading.
Context {L : Ed2kLib} {HJ : HashJson} {U : UnicodeTables}.

Definition decode_SourceEntry : decoder SourceEntry := decode_struct (fun old ms =>
  let field {A} := decode_field (A := A) SourceEntry_names ms in
  host ← field (lit "host") decode_string (se_Host old);
  port ← field (lit "port") (decode_int 64) (se_Port old);
  options ← field (lit "obfuscation_options") (decode_uint 8) (se_ObfuscationOptions old);
  user_hash ← field (lit "user_hash") decode_string (se_UserHash old);
  Some (mkSource host port options user_hash)).

Definition zero_file : FileRecord := mkFile _ Hash_zero [] 0 [] [] [] 0 0 0 0 [].
Definition zero_slot : fileSlot := mkSlot _ zero_file [].

Definition decode_FileRecord : decoder fileSlot := decode_struct (fun slot ms =>
  let old := slot_file slot in
  let field {A} := decode_field (A := A) FileRecord_names ms in
  hash ← field (lit "hash") Hash_UnmarshalJSON (fr_Hash old);
  name ← field (lit "name") decode_string (fr_Name old);
  sz ← field (lit "size") (decode_int 64) (fr_Size old);
  file_type ← field (lit "file_type") decode_string (fr_FileType old);
  extension ← field (lit "extension") decode_string (fr_Extension old);
  codec ← field (lit "media_codec") decode_string (fr_MediaCodec old);
  media_length ← field (lit "media_length") (decode_int 64) (fr_MediaLength old);
  bitrate ← field (lit "media_bitrate") (decode_int 64) (fr_MediaBitrate old);
  sources ← field (lit "sources") (decode_int 64) (fr_Sources old);
  complete ← field (lit "complete_sources") (decode_int 64) (fr_CompleteSources old);
  endpoints ← field (lit "endpoints") (decode_slice decode_SourceEntry zero_source)
                    (mkSlice (fr_Endpoints old) (slot_spare slot));
  Some (mkSlot _ (mkFile _ hash name sz file_type extension codec media_length bitrate sources complete
                    (sl_elems endpoints)) (sl_spare endpoints))).

Definition decode_catalogDisk : decoder (slice fileSlot) := decode_struct (fun old ms =>
  decode_field catalogDisk_names ms (lit "files") (decode_slice decode_FileRecord zero_slot) old).

(** [json.Unmarshal(data, &disk)] in [jsonCatalogStore.Load]. *)
Definition unmarshalDisk (data : bytes) : option (list FileRecord) :=
  j ← parse_document data;
  files ← decode_catalogDisk (mkSlice [] []) j;
  Some (map slot_file (sl_elems files)).

(** [json.Unmarshal([]byte(endpointsJSON), &record.Endpoints)] *)
Definition unmarshalEndpoints (data : bytes) : option (list SourceEntry) :=
  j ← parse_document data;
  endpoints ← decode_slice decode_SourceEntry zero_source (mkSlice [] []) j;
  Some (sl_elems endpoints).

(** [json.NewDecoder(r.Body).Decode(&record)] in [handleAdminFiles]: what follows
    the first value of the body is not read. *)
Definition decodeFileRecord (body : bytes) : option FileRecord :=
  p ← parse_first body;
  slot ← decode_FileRecord zero_slot p.1;
  Some (slot_file slot).

(** The request body of [handleAdminBatchDeleteFiles]. *)
Definition decodeHashes (body : bytes) : option (list bytes) :=
  p ← parse_first body;
  hashes ← decode_struct (fun old ms =>
    decode_field [lit "hashes"] ms (lit "hashes") (decode_slice decode_string []) old)
    (mkSlice [] []) p.1;
  Some (sl_elems hashes).
End reading.

(** ** Writing *)

Definition encode_SourceEntry (e : SourceEntry) : json :=
  JObject
    ([(lit "host", JString (se_Host e)); (lit "port", encode_int (se_Port e))]
     ++ (if se_ObfuscationOptions e =? 0 then []
         else [(lit "obfuscation_options", encode_int (se_ObfuscationOptions e))])
     ++ (if bytes_eqb (se_UserHash e) [] then [] else [(lit "user_hash", JString (se_UserHash e))])).

(** [cloneFiles] leaves a nil slice where there are no endpoints. *)
Definition encode_endpoints (es : list SourceEntry) : json :=
  match es with
  | [] => JNull
  | _ => JArray (map encode_SourceEntry es)
  end.

(** [json.Marshal(file.Endpoints)] *)
Definition marshalEndpoints (es : list SourceEntry) : option bytes :=
  Some (Marshal (encode_endpoints es)).

Section writing.
Context {L : Ed2kLib} {HJ : HashJson}.

Definition encode_FileRecord (file : FileRecord) : option json :=
  hash ← Hash_MarshalJSON (fr_Hash file);
  Some (JObject
    [(lit "hash", hash); (lit "name", JString (fr_Name file)); (lit "size", encode_int (fr_Size file));
     (lit "file_type", JString (fr_FileType file)); (lit "extension", JString (fr_Extension file));
     (lit "media_codec", JString (fr_MediaCodec file));
     (lit "media_length", encode_int (fr_MediaLength file));
     (lit "media_bitrate", encode_int (fr_MediaBitrate file));
     (lit "sources", encode_int (fr_Sources file));
     (lit "complete_sources", encode_int (fr_CompleteSources file));
     (lit "endpoints", encode_endpoints (fr_Endpoints file))]).

Definition encode_catalogDisk (files : list FileRecord) : option json :=
  fs ← mapM encode_FileRecord files; Some (JObject [(lit "files", JArray fs)]).

(** [json.MarshalIndent(catalogDisk{...}, "", two spaces)] *)
Definition marshalDisk (files : list FileRecord) : option bytes :=
  j ← encode_catalogDisk files; Some (MarshalIndent j).
End writing.
