(* ===== verification/CatalogJsonFacts.v ===== *)
(** * Properties of the JSON form of catalog records

    What is read can be written, and what is written is read back. *)

From S2P Require Import Prelude GoStrings GoUtf8 GoNet Json JsonFacts JsonDecode Ed2kLib Ed2kRef.
From S2P Require Import FileRecord CatalogJson.

Local Open Scope Z_scope.

(** Records as a program can hold them and JSON can express them: machine
    integers, and texts in UTF-8. *)
Record source_ok (e : SourceEntry) : Prop := {
  so_host : utf8 (se_Host e);
  so_port : in_s 64 (se_Port e);
  so_options : in_u 8 (se_ObfuscationOptions e);
  so_user : utf8 (se_UserHash e)
}.

Record storable `{Ed2kLib} (f : FileRecord) : Prop := {
  st_name : utf8 (fr_Name f);
  st_size : in_s 64 (fr_Size f);
  st_type : utf8 (fr_FileType f);
  st_ext : utf8 (fr_Extension f);
  st_codec : utf8 (fr_MediaCodec f);
  st_length : in_s 64 (fr_MediaLength f);
  st_bitrate : in_s 64 (fr_MediaBitrate f);
  st_sources : in_s 64 (fr_Sources f);
  st_complete : in_s 64 (fr_CompleteSources f);
  st_endpoints : Forall source_ok (fr_Endpoints f)
}.

Lemma byte_in_s z : in_u 8 z -> in_s 64 z.
Proof. unfold in_u, in_s. lia. Qed.

(** Two values that differ in the order of the members of their objects only,
    which JSON leaves open. *)
Inductive same_value : json -> json -> Prop :=
| same_refl j : same_value j j
| same_array l l' : Forall2 same_value l l' -> same_value (JArray l) (JArray l')
| same_object ms ms1 ms' :
    ms ≡ₚ ms1 -> Forall2 (fun m m' => m.1 = m'.1 /\ same_value m.2 m'.2) ms1 ms' ->
    same_value (JObject ms) (JObject ms').

(** Texts and numbers. *)
Definition scalar (j : json) : Prop :=
  match j with JArray _ | JObject _ => False | _ => True end.

Lemma same_scalar j j' : scalar j -> same_value j j' -> j' = j.
Proof. intros Hj H. by destruct H. Qed.

Lemma same_members ms j :
  Forall (fun m => scalar m.2) ms -> same_value (JObject ms) j ->
  exists ms', j = JObject ms' /\ ms ≡ₚ ms'.
Proof.
  intros Hs H. inversion H as [|?|? ms1 ms' Hp Hm]; subst; [by exists ms|].
  exists ms'. split; [done|]. rewrite Hp in Hs. rewrite Hp. clear H Hp.
  induction Hm as [|[k v] [k' v'] ms1 ms' [Hk Hv] _ IH]; [done|].
  apply Forall_cons in Hs as [Hv' Hs]. cbn [fst snd] in *. subst k'.
  rewrite (same_scalar _ _ Hv' Hv). constructor. by apply IH.
Qed.

Section facts.
Context {L : Ed2kLib} {HJ : HashJson} {U : UnicodeTables}.

(** ** Endpoints *)

Lemma encode_SourceEntry_fits d e :
  source_ok e -> d + 1 <= maxNestingDepth -> fits d (encode_SourceEntry e).
Proof.
  intros [Hh Hp Ho%byte_in_s Hu] Hd. apply fits_object; [|done]. members_fit.
Qed.

Lemma decode_encode_SourceEntry e :
  source_ok e -> decode_SourceEntry zero_source (encode_SourceEntry e) = Some e.
Proof.
  intros [Hh Hp Ho Hu]. destruct e as [h p o u]. cbn [se_Host se_Port se_ObfuscationOptions se_UserHash] in *.
  unfold decode_SourceEntry, encode_SourceEntry, decode_struct. cbv beta iota zeta.
  cbn [se_Host se_Port se_ObfuscationOptions se_UserHash zero_source].
  destruct (Z.eqb_spec o 0) as [->|]; (destruct (bytes_eqb u []) eqn:Eu; [apply bytes_eqb_eq in Eu as ->|]);
    cbn [app];
    (at_field (lit "host") (JString h); cbn [decode_string mbind option_bind];
     at_field (lit "port") (encode_int p); rewrite decode_encode_int by done; cbn [mbind option_bind];
     (no_field (lit "obfuscation_options") ||
      (at_field (lit "obfuscation_options") (encode_int o); rewrite decode_encode_uint by done;
       cbn [mbind option_bind]));
     (no_field (lit "user_hash") ||
      (at_field (lit "user_hash") (JString u); cbn [decode_string mbind option_bind]))); done.
Qed.

(** The members of an encoded endpoint, and that their order does not matter. *)
Lemma encode_SourceEntry_members e : exists ms,
  encode_SourceEntry e = JObject ms /\ Forall (fun m => scalar m.2) ms /\
  Forall (fun m => m.1 ∈ SourceEntry_names) ms /\ NoDup (map fst ms).
Proof.
  unfold encode_SourceEntry. eexists. split; [reflexivity|].
  destruct (se_ObfuscationOptions e =? 0), (bytes_eqb (se_UserHash e) []); cbn [app];
    (split; [by repeat constructor|]);
    (split; [repeat (apply Forall_cons; split; [names|]); constructor|cbn [map fst]; names]).
Qed.

Lemma decode_reordered_SourceEntry e j :
  source_ok e -> same_value (encode_SourceEntry e) j -> decode_SourceEntry zero_source j = Some e.
Proof.
  intros He Hj. rewrite <- (decode_encode_SourceEntry e He).
  destruct (encode_SourceEntry_members e) as (ms & E & Hs & Hn & Hd). rewrite E in *.
  apply same_members in Hj as (ms' & -> & Hp); [|done].
  unfold decode_SourceEntry, decode_struct. cbv zeta.
  assert (forall A (dec : decoder A) name old,
    decode_field SourceEntry_names ms' name dec old = decode_field SourceEntry_names ms name dec old) as Hf
    by (intros; by apply decode_field_perm).
  rewrite !Hf. reflexivity.
Qed.

Lemma encode_endpoints_fits d es :
  Forall source_ok es -> d + 2 <= maxNestingDepth -> fits d (encode_endpoints es).
Proof.
  intros Hes Hd. destruct es as [|e es]; [split; [constructor|cbn; lia]|].
  unfold encode_endpoints. apply fits_array; [|lia].
  apply Forall_map. eapply Forall_impl; [exact Hes|]. intros x Hx.
  apply encode_SourceEntry_fits; [done|lia].
Qed.

(** Into a fresh slice. *)
Lemma decode_encode_endpoints es :
  Forall source_ok es ->
  decode_slice decode_SourceEntry zero_source (mkSlice [] []) (encode_endpoints es) = Some (mkSlice es []).
Proof.
  intros Hes. destruct es as [|e es]; [done|]. unfold encode_endpoints.
  apply decode_slice_fresh. eapply Forall_impl; [exact Hes|]. exact decode_encode_SourceEntry.
Qed.

Lemma keeps_SourceEntry : keeps source_ok decode_SourceEntry.
Proof.
  intros e j e' Hj [Hh Hp Ho Hu]. destruct Hj as [| | | | |ms Hms]; cbn [decode_SourceEntry decode_struct];
    try done; [by intros [= <-]; constructor|]. unfold decode_SourceEntry, decode_struct. cbv beta iota zeta.
  peel. constructor; cbn [se_Host se_Port se_ObfuscationOptions se_UserHash]; field_kept.
Qed.

Lemma zero_source_ok : source_ok zero_source.
Proof. constructor; cbn; try apply utf8_nil; by vm_compute. Qed.

(** [marshalEndpoints] and [unmarshalEndpoints], as the SQL store uses them. *)
Lemma endpoints_roundtrip es :
  Forall source_ok es -> exists data,
    marshalEndpoints es = Some data /\ unmarshalEndpoints data = Some es /\ TrimSpace data <> [].
Proof.
  intros Hes. eexists. split; [reflexivity|].
  assert (fits 0 (encode_endpoints es)) as Hf by (apply encode_endpoints_fits; [done|by vm_compute]).
  split.
  - unfold unmarshalEndpoints. pose proof (parse_document_encode false _ [] Hf ltac:(constructor)) as E.
    rewrite app_nil_r in E. unfold Marshal. rewrite E. cbn [mbind option_bind].
    by rewrite decode_encode_endpoints.
  - destruct es as [|e es]; [by vm_compute|]. unfold Marshal. cbn [encode_endpoints map encode].
    rewrite app_assoc, (TrimSpace_visible x5b _ x5d) by done. done.
Qed.

(** A database may write the text of the endpoints anew: with other white space,
    other escapes, and the members of an object in another order. *)
Lemma unmarshal_reordered es data j text j' :
  Forall source_ok es -> marshalEndpoints es = Some data -> parse_document data = Some j ->
  parse_document text = Some j' -> same_value j j' -> unmarshalEndpoints text = Some es.
Proof.
  intros Hes [= <-] Ej Ej' Hsame. unfold unmarshalEndpoints. rewrite Ej'. cbn [mbind option_bind].
  assert (fits 0 (encode_endpoints es)) as Hf by (apply encode_endpoints_fits; [done|by vm_compute]).
  pose proof (parse_document_encode false _ [] Hf ltac:(constructor)) as E.
  rewrite app_nil_r in E. unfold Marshal in Ej. rewrite E in Ej. injection Ej as <-.
  destruct es as [|e es]; [by rewrite (same_scalar JNull j' I Hsame)|].
  assert (exists js, j' = JArray js /\ Forall2 same_value (map encode_SourceEntry (e :: es)) js) as (js & -> & Hjs).
  { inversion Hsame as [|? l Hl|]; subst; eexists; (split; [reflexivity|]); [|exact Hl].
    apply Forall_Forall2_diag, Forall_true. constructor. }
  clear Hsame Hf E Ej'.
  assert (decode_elems decode_SourceEntry zero_source [] js = Some (e :: es, [])) as Hd.
  { revert js Hjs. induction Hes as [|x xs Hx Hxs IH]; cbn [map]; intros js Hjs.
    - by apply Forall2_nil_inv_l in Hjs as ->.
    - apply Forall2_cons_inv_l in Hjs as (j & js' & Hj & Hjs' & ->). cbn [decode_elems head default tail].
      rewrite (decode_reordered_SourceEntry x j) by done. cbn [mbind option_bind]. by rewrite (IH js'). }
  apply Forall2_cons_inv_l in Hjs as (j & js' & _ & _ & ->). cbn [decode_slice sl_elems sl_spare app].
  by rewrite Hd.
Qed.

(** ** File records *)

(** The properties of a variable that is read into. *)
Definition slot_ok (slot : fileSlot) : Prop :=
  storable (slot_file slot) /\ Forall source_ok (slot_spare slot).

Lemma zero_slot_ok : slot_ok zero_slot.
Proof. split; [|constructor]. constructor; cbn; try apply utf8_nil; by vm_compute. Qed.

Lemma keeps_FileRecord : keeps slot_ok decode_FileRecord.
Proof.
  intros slot j slot' Hj [[Hn Hs Ht He Hc Hl Hb Hso Hco Hes] Hsp].
  destruct Hj as [| | | | |ms Hms]; cbn [decode_FileRecord decode_struct]; try done;
    [by intros [= <-]; split; [constructor|]|]. unfold decode_FileRecord, decode_struct. cbv beta iota zeta.
  pose proof (keeps_slice source_ok decode_SourceEntry keeps_SourceEntry zero_source zero_source_ok) as Hk.
  peel. unfold slot_ok. cbn [slot_file slot_spare].
  match goal with E : decode_field _ _ (lit "endpoints") _ _ = Some _ |- _ =>
    apply (keeps_field _ _ Hk) in E as [He' Hsp']; [|exact Hms|by split]
  end.
  split; [|exact Hsp'].
  constructor; cbn [fr_Name fr_Size fr_FileType fr_Extension fr_MediaCodec fr_MediaLength fr_MediaBitrate
    fr_Sources fr_CompleteSources fr_Endpoints]; try exact He'; field_kept.
Qed.

Context {HL : HashJsonLaws}.

Lemma encode_FileRecord_some f : is_Some (encode_FileRecord f).
Proof. unfold encode_FileRecord. destruct (hash_json (fr_Hash f)) as (t & -> & _). by eexists. Qed.

Lemma encode_FileRecord_fits f j :
  storable f -> encode_FileRecord f = Some j -> fits 2 j.
Proof.
  intros [Hn Hs Ht He Hc Hl Hb Hso Hco Hes]. unfold encode_FileRecord.
  destruct (hash_json (fr_Hash f)) as (t & -> & Hu & _). cbn [mbind option_bind]. intros [= <-].
  apply fits_object; [|by vm_compute].
  assert (2 + 1 <= maxNestingDepth) by by vm_compute.
  members_fit. apply encode_endpoints_fits; [done|by vm_compute].
Qed.

Lemma decode_encode_FileRecord f j :
  storable f -> encode_FileRecord f = Some j -> decode_FileRecord zero_slot j = Some (mkSlot _ f []).
Proof.
  intros [Hn Hs Ht He Hc Hl Hb Hso Hco Hes]. unfold encode_FileRecord.
  destruct (hash_json (fr_Hash f)) as (t & -> & _ & Hh). cbn [mbind option_bind]. intros [= <-].
  destruct f as [h n sz ft ex co ml mb so cs es].
  cbn [fr_Hash fr_Name fr_Size fr_FileType fr_Extension fr_MediaCodec fr_MediaLength fr_MediaBitrate
       fr_Sources fr_CompleteSources fr_Endpoints] in *.
  unfold decode_FileRecord, decode_struct. cbv beta iota zeta.
  cbn [zero_slot zero_file slot_file slot_spare fr_Hash fr_Name fr_Size fr_FileType fr_Extension
       fr_MediaCodec fr_MediaLength fr_MediaBitrate fr_Sources fr_CompleteSources fr_Endpoints].
  at_field (lit "hash") (JString t). rewrite Hh. cbn [mbind option_bind].
  at_field (lit "name") (JString n). cbn [decode_string mbind option_bind].
  at_field (lit "size") (encode_int sz). rewrite decode_encode_int by done. cbn [mbind option_bind].
  at_field (lit "file_type") (JString ft). cbn [decode_string mbind option_bind].
  at_field (lit "extension") (JString ex). cbn [decode_string mbind option_bind].
  at_field (lit "media_codec") (JString co). cbn [decode_string mbind option_bind].
  at_field (lit "media_length") (encode_int ml). rewrite decode_encode_int by done. cbn [mbind option_bind].
  at_field (lit "media_bitrate") (encode_int mb). rewrite decode_encode_int by done. cbn [mbind option_bind].
  at_field (lit "sources") (encode_int so). rewrite decode_encode_int by done. cbn [mbind option_bind].
  at_field (lit "complete_sources") (encode_int cs). rewrite decode_encode_int by done.
  cbn [mbind option_bind].
  at_field (lit "endpoints") (encode_endpoints es). by rewrite decode_encode_endpoints.
Qed.

(** ** The catalog file *)

Definition fresh_slot (f : FileRecord) : fileSlot := mkSlot _ f [].

Lemma encode_all files :
  Forall storable files -> exists fs, mapM encode_FileRecord files = Some fs /\
    Forall (fits 2) fs /\
    decode_elems decode_FileRecord zero_slot [] fs = Some (map fresh_slot files, []).
Proof.
  induction 1 as [|f files Hf _ (fs & E & Hfs & Hd)]; [by exists []|].
  destruct (encode_FileRecord_some f) as [j Ej]. exists (j :: fs). cbn [mapM]. rewrite Ej. cbn.
  fold (mapM encode_FileRecord files). rewrite E. cbn. split; [done|]. split.
  - constructor; [by eapply encode_FileRecord_fits|done].
  - by rewrite (decode_encode_FileRecord f j Hf Ej), Hd.
Qed.

Lemma marshalDisk_some files : is_Some (marshalDisk files).
Proof.
  unfold marshalDisk, encode_catalogDisk.
  assert (is_Some (mapM encode_FileRecord files)) as [fs ->]; [|by eexists].
  apply mapM_is_Some. apply Forall_forall. intros f _. apply encode_FileRecord_some.
Qed.

(** What is saved is what is loaded. *)
Lemma disk_roundtrip files data :
  Forall storable files -> marshalDisk files = Some data -> unmarshalDisk (data ++ [x0a]) = Some files.
Proof.
  intros Hfiles. unfold marshalDisk, encode_catalogDisk.
  destruct (encode_all files Hfiles) as (fs & -> & Hfs & Hd). cbn [mbind option_bind]. intros [= <-].
  unfold unmarshalDisk, MarshalIndent. rewrite parse_document_encode.
  - cbn [mbind option_bind]. unfold decode_catalogDisk, decode_struct. cbv beta iota zeta.
    at_field (lit "files") (JArray fs). destruct fs as [|j fs].
    + by destruct files.
    + cbn [decode_slice sl_elems sl_spare app]. rewrite Hd. cbn. f_equal.
      rewrite map_map. apply map_id.
  - apply fits_object; [|by vm_compute]. constructor; [|done]. split; [names|].
    apply fits_array; [done|by vm_compute].
  - by repeat constructor.
Qed.

(** Whatever is loaded can be saved. *)
Lemma unmarshalDisk_storable data files : unmarshalDisk data = Some files -> Forall storable files.
Proof.
  unfold unmarshalDisk. destruct (parse_document data) as [j|] eqn:Ej; [|done].
  apply parse_document_ok in Ej as [Hj _]. cbn [mbind option_bind].
  destruct (decode_catalogDisk _ j) as [s|] eqn:Es; [|done]. cbn [mbind option_bind]. intros [= <-].
  pose proof (keeps_slice slot_ok decode_FileRecord keeps_FileRecord zero_slot zero_slot_ok) as Hk.
  assert (Forall slot_ok (sl_elems s)) as Hs.
  { destruct Hj as [| | | | |ms Hms]; cbn [decode_catalogDisk decode_struct] in Es; try done;
      [by injection Es as <-; constructor|].
    apply (keeps_field _ _ Hk) in Es; [by destruct Es|exact Hms|by split; constructor]. }
  apply Forall_map. eapply Forall_impl; [exact Hs|]. by intros slot [? _].
Qed.

Lemma decodeFileRecord_storable body f : decodeFileRecord body = Some f -> storable f.
Proof.
  unfold decodeFileRecord. destruct (parse_first body) as [[j r]|] eqn:Ej; [|done].
  apply parse_first_spec in Ej as [[Hj _] _]. cbn [mbind option_bind fst].
  destruct (decode_FileRecord zero_slot j) as [slot|] eqn:Es; [|done]. cbn. intros [= <-].
  by apply keeps_FileRecord in Es as [? _]; [|done|apply zero_slot_ok].
Qed.

Lemma unmarshalEndpoints_ok data es : unmarshalEndpoints data = Some es -> Forall source_ok es.
Proof.
  unfold unmarshalEndpoints. destruct (parse_document data) as [j|] eqn:Ej; [|done].
  apply parse_document_ok in Ej as [Hj _]. cbn [mbind option_bind].
  destruct (decode_slice _ _ _ j) as [s|] eqn:Es; [|done]. cbn [mbind option_bind]. intros [= <-].
  pose proof (keeps_slice source_ok decode_SourceEntry keeps_SourceEntry zero_source zero_source_ok) as Hk.
  apply Hk in Es as [? _]; [done|done|by split; constructor].
Qed.
End facts.

(** ** Hashes in hexadecimal *)

(** The reference client library writes a hash as its hexadecimal digits. *)
#[export] Instance ref_hash_json : @HashJson ed2k_ref | 100 := {
  Hash_MarshalJSON := fun h => Some (JString (hex_string h));
  Hash_UnmarshalJSON := fun old j =>
    match j with
    | JString t => hex_parse t
    | JNull => Some old
    | _ => None
    end
}.

Lemma hex_digit_ascii z : 0 <= z < 16 -> byteZ (hex_digit z) < 0x80.
Proof.
  intros Hz. unfold hex_digit. destruct (Z.ltb_spec z 10); rewrite byteZ_small by lia; lia.
Qed.

Lemma hex_string_utf8 h : utf8 (hex_string h).
Proof.
  apply utf8_ascii. induction h as [|b h IH]; [constructor|]. pose proof (byteZ_range b).
  cbn [hex_string].
  constructor; [|constructor; [|exact IH]]; apply hex_digit_ascii;
    [split; [apply Z.div_pos; lia|apply Z.div_lt_upper_bound; lia]|apply Z.mod_pos_bound; lia].
Qed.

#[export] Instance ref_hash_json_laws : @HashJsonLaws ed2k_ref ref_hash_json.
Proof.
  constructor. intros h. exists (hex_string h). split; [done|]. split; [apply hex_string_utf8|].
  intros old. apply hex_parse_string.
Qed.

(** The fields of a record, to compare results of evaluation. *)
Definition file_tuple (f : @FileRecord ed2k_ref) :=
  (fr_Hash f : bytes, fr_Name f, fr_Size f, fr_FileType f, fr_Extension f, fr_MediaCodec f,
   (fr_MediaLength f, fr_MediaBitrate f, fr_Sources f, fr_CompleteSources f, fr_Endpoints f)).

Lemma file_tuple_inj f g : file_tuple f = file_tuple g -> f = g.
Proof. destruct f, g. by intros [= -> -> -> -> -> -> -> -> -> -> ->]. Qed.

Lemma decodes_to body f :
  option_map file_tuple (decodeFileRecord body) = Some (file_tuple f) -> decodeFileRecord body = Some f.
Proof.
  destruct (decodeFileRecord body) as [g|]; cbn [option_map]; [|done]. intros H.
  assert (file_tuple g = file_tuple f) as E by congruence. by rewrite (file_tuple_inj _ _ E).
Qed.
