(* ===== verification/Search.v ===== *)
(** * Search requests (ed2ksrv/protocol.go)

    The decoder of ED2K search requests (recursive prefix form first, then the
    legacy linear form), the expression tree, its evaluation on a file record
    and the flat summary the catalog index works from. *)

From S2P Require Import Prelude GoStrings Ed2kLib FileRecord.

Local Open Scope Z_scope.

(** ** Wire constants *)

Definition searchTypeBool : byte := x00.
Definition searchTypeString : byte := x01.
Definition searchTypeStrTag : byte := x02.
Definition searchTypeUint32 : byte := x03.
Definition searchTypeUint64 : byte := x08.

Definition searchOpEqual : byte := x00.
Definition searchOpGreater : byte := x01.
Definition searchOpLess : byte := x02.
Definition searchOpGreaterEqual : byte := x03.
Definition searchOpLessEqual : byte := x04.
Definition searchOpNotEqual : byte := x05.

Definition searchBoolAnd : byte := x00.
Definition searchBoolOr : byte := x01.
Definition searchBoolAndNot : byte := x02.
Definition searchBoolXor : byte := x03.
Definition searchBoolNotAnd : byte := x04.

Definition defaultMaxSearchDepth : Z := 64.

(** ** Data *)

(** [searchExpr] and its six implementations. *)
Inductive searchExpr :=
| searchCompoundExpr (operator : byte) (left right : searchExpr)
| searchKeywordExpr (value : bytes)
| searchStringTagExpr (tagID : byte) (value : bytes)
| searchNumericExpr (tagID operator : byte) (value : Z)
| searchMatchAllExpr
| searchMatchNoneExpr.

(** [SearchQuery]; [sq_Root = None] is a nil [Root]. *)
Record SearchQuery := mkQuery {
  sq_Root : option searchExpr;
  sq_summarized : bool;
  sq_Keywords : list bytes;
  sq_MinSize : Z;
  sq_MaxSize : Z;
  sq_MinSources : Z;
  sq_MinCompleteSources : Z;
  sq_FileType : bytes;
  sq_Extension : bytes;
  sq_MediaCodec : bytes;
  sq_MinMediaLength : Z;
  sq_MaxMediaLength : Z;
  sq_MinMediaBitrate : Z;
  sq_MaxMediaBitrate : Z
}.

Definition query_of_root (root : searchExpr) : SearchQuery :=
  mkQuery (Some root) false [] 0 0 0 0 [] [] [] 0 0 0 0.

(** [searchTagRef]: a one-byte identifier or a name. *)
Record searchTagRef := mkTagRef { tr_id : byte; tr_name : bytes; tr_hasID : bool }.

Inductive searchErr :=
| ErrEOF
| ErrRead
| ErrDepth (maxDepth : Z)
| ErrTrailing (n : Z)
| ErrBoolOperator (op : byte)
| ErrNumericOperator (op : byte)
| ErrTermType (t : byte)
| ErrLegacyMarker (b : byte)
| ErrLegacyBoolOperator (op : byte)
| ErrLegacyTermType (t : byte)
| ErrEmptyTag
| ErrTagCount (n : Z)
| ErrMediaLength (value : bytes)
| ErrStringTag (tag : searchTagRef)
| ErrNumericTag (tag : searchTagRef)
| ErrBoth (prefixErr legacyErr : searchErr)
| ErrFuel.

(** [bytes.Reader.ReadByte]. *)
Definition ReadByte (r : bytes) : result searchErr (byte * bytes) :=
  match r with b :: r' => Ok (b, r') | [] => Err ErrEOF end.

(** The two numeric comparisons of the source ([compareInt64], [compareInt])
    are the same function of two words. *)
Definition compareInt64 (left : Z) (operator : byte) (right : Z) : bool :=
  if byte_eqb operator searchOpEqual then left =? right
  else if byte_eqb operator searchOpGreater then right <? left
  else if byte_eqb operator searchOpLess then left <? right
  else if byte_eqb operator searchOpGreaterEqual then right <=? left
  else if byte_eqb operator searchOpLessEqual then left <=? right
  else if byte_eqb operator searchOpNotEqual then negb (left =? right)
  else false.

Definition compareInt (left : Z) (operator : byte) (right : Z) : bool :=
  if byte_eqb operator searchOpEqual then left =? right
  else if byte_eqb operator searchOpGreater then right <? left
  else if byte_eqb operator searchOpLess then left <? right
  else if byte_eqb operator searchOpGreaterEqual then right <=? left
  else if byte_eqb operator searchOpLessEqual then left <=? right
  else if byte_eqb operator searchOpNotEqual then negb (left =? right)
  else false.

(** [applyRangeInt64Summary] and [applyRangeIntSummary]: the updated minimum
    and maximum. *)
Definition applyRangeInt64Summary (minValue maxValue : Z) (operator : byte) (value : Z)
    : Z * Z :=
  if byte_eqb operator searchOpEqual then (value, value)
  else if byte_eqb operator searchOpGreater || byte_eqb operator searchOpGreaterEqual then
    (if (minValue =? 0) || (minValue <? value) then value else minValue, maxValue)
  else if byte_eqb operator searchOpLess || byte_eqb operator searchOpLessEqual then
    (minValue, if (maxValue =? 0) || (value <? maxValue) then value else maxValue)
  else (minValue, maxValue).

Definition applyRangeIntSummary (minValue maxValue : Z) (operator : byte) (value : Z)
    : Z * Z :=
  if byte_eqb operator searchOpEqual then (value, value)
  else if byte_eqb operator searchOpGreater || byte_eqb operator searchOpGreaterEqual then
    (if (minValue =? 0) || (minValue <? value) then value else minValue, maxValue)
  else if byte_eqb operator searchOpLess || byte_eqb operator searchOpLessEqual then
    (minValue, if (maxValue =? 0) || (value <? maxValue) then value else maxValue)
  else (minValue, maxValue).

Definition applyMinIntSummary (minValue : Z) (operator : byte) (value : Z) : Z :=
  if byte_eqb operator searchOpEqual || byte_eqb operator searchOpGreater
     || byte_eqb operator searchOpGreaterEqual
  then (if minValue <? value then value else minValue) else minValue.

(** [parseMediaLength]: seconds, or two or three colon-separated components;
    the running total is an [int]. *)
Fixpoint media_total (total : Z) (parts : list bytes) : option Z :=
  match parts with
  | [] => Some total
  | part :: parts' =>
    match Atoi part with
    | Some number => if number <? 0 then None
                     else media_total (to_int (to_int (total * 60) + number)) parts'
    | None => None
    end
  end.

Definition parseMediaLength (value : bytes) : option Z :=
  let value := TrimSpace value in
  if bytes_eqb value [] then None
  else if negb (Contains value (lit ":")) then
    match Atoi value with
    | Some seconds => if seconds <? 0 then None else Some seconds
    | None => None
    end
  else
    let parts := Split value x3a in
    if (len parts <? 2) || (3 <? len parts) then None
    else media_total 0 parts.

Section search.
Context `{L : Ed2kLib} `{U : UnicodeTables}.

(** *** Tag references *)

Definition matchesID (t : searchTagRef) (id : byte) : bool :=
  tr_hasID t && byte_eqb (tr_id t) id.

Definition matchesName (t : searchTagRef) (name : bytes) : bool :=
  negb (tr_hasID t) && EqualFold (tr_name t) name.

(** *** Readers *)

Definition readSearchString (reader : bytes) : result searchErr (bytes * bytes) :=
  (let! (size, r) := or_err (ReadUInt16 reader) ErrRead in
   let! (raw, r) := or_err (ReadBytes r size) ErrRead in
   Ok (TrimSpace raw, r))%go.

Definition readSearchTagRef (reader : bytes) : result searchErr (searchTagRef * bytes) :=
  (let! (value, r) := readSearchString reader in
   match value with
   | [id] => Ok (mkTagRef id [] true, r)
   | [] => Err ErrEmptyTag
   | _ => Ok (mkTagRef x00 value false, r)
   end)%go.

Definition readLegacySearchTagID (reader : bytes) : result searchErr (byte * bytes) :=
  (let! (tagCount, r) := or_err (ReadUInt16 reader) ErrRead in
   if negb (tagCount =? 1) then Err (ErrTagCount tagCount) else ReadByte r)%go.

(** *** Leaves *)

Definition makeKeywordExpr (value : bytes) : result searchErr searchExpr :=
  let value := TrimSpace value in
  if bytes_eqb value [] then Ok searchMatchAllExpr else Ok (searchKeywordExpr value).

Definition makeStringTagExpr (value : bytes) (tag : searchTagRef)
    : result searchErr searchExpr :=
  let value := TrimSpace value in
  if bytes_eqb value [] then Ok searchMatchAllExpr
  else if matchesID tag FTFileType then Ok (searchStringTagExpr FTFileType value)
  else if matchesID tag FTFileFormat then Ok (searchStringTagExpr FTFileFormat value)
  else if matchesID tag FTMediaCodec || matchesName tag (lit "codec")
  then Ok (searchStringTagExpr FTMediaCodec value)
  else if matchesID tag FTMediaLength || matchesName tag (lit "length") then
    match parseMediaLength value with
    | Some seconds =>
      Ok (searchNumericExpr FTMediaLength searchOpEqual (to_uint64 seconds))
    | None => Err (ErrMediaLength value)
    end
  else Err (ErrStringTag tag).

Definition makeNumericTagExpr (value : Z) (operator : byte) (tag : searchTagRef)
    : result searchErr searchExpr :=
  if matchesID tag FTFileSize then Ok (searchNumericExpr FTFileSize operator value)
  else if matchesID tag FTSources then Ok (searchNumericExpr FTSources operator value)
  else if matchesID tag FTCompleteSources
  then Ok (searchNumericExpr FTCompleteSources operator value)
  else if matchesID tag FTMediaBitrate || matchesName tag (lit "bitrate")
  then Ok (searchNumericExpr FTMediaBitrate operator value)
  else if matchesID tag FTMediaLength || matchesName tag (lit "length")
  then Ok (searchNumericExpr FTMediaLength operator value)
  else Err (ErrNumericTag tag).

(** *** Recursive prefix form *)

Definition parseRecursiveNumericExpr (reader : bytes) (value : Z)
    : result searchErr (searchExpr * bytes) :=
  (let! (operator, r) := ReadByte reader in
   if byteZ searchOpNotEqual <? byteZ operator then Err (ErrNumericOperator operator) else
   let! (tag, r) := readSearchTagRef r in
   let! e := makeNumericTagExpr value operator tag in
   Ok (e, r))%go.

Fixpoint parseRecursiveSearchExpr (fuel : nat) (reader : bytes) (depth maxDepth : Z)
    : result searchErr (searchExpr * bytes) :=
  match fuel with
  | O => Err ErrFuel
  | S fuel' =>
   (if maxDepth <? depth then Err (ErrDepth maxDepth) else
    let! (termType, r) := ReadByte reader in
    if byte_eqb termType searchTypeBool then
      let! (operator, r) := ReadByte r in
      if byteZ searchBoolNotAnd <? byteZ operator then Err (ErrBoolOperator operator) else
      let! (lhs, r) := parseRecursiveSearchExpr fuel' r (depth + 1) maxDepth in
      let! (rhs, r) := parseRecursiveSearchExpr fuel' r (depth + 1) maxDepth in
      Ok (searchCompoundExpr operator lhs rhs, r)
    else if byte_eqb termType searchTypeString then
      let! (value, r) := readSearchString r in
      let! e := makeKeywordExpr value in
      Ok (e, r)
    else if byte_eqb termType searchTypeStrTag then
      let! (value, r) := readSearchString r in
      let! (tag, r) := readSearchTagRef r in
      let! e := makeStringTagExpr value tag in
      Ok (e, r)
    else if byte_eqb termType searchTypeUint32 then
      let! (value, r) := or_err (ReadUInt32 r) ErrRead in
      parseRecursiveNumericExpr r value
    else if byte_eqb termType searchTypeUint64 then
      let! (value, r) := or_err (ReadUInt64 r) ErrRead in
      parseRecursiveNumericExpr r value
    else Err (ErrTermType termType))%go
  end.

(** *** Legacy linear form *)

Definition parseLegacyNumericExpr (reader : bytes) (value : Z)
    : result searchErr (searchExpr * bytes) :=
  (let! (operator, r) := ReadByte reader in
   if byteZ searchOpNotEqual <? byteZ operator then Err (ErrNumericOperator operator) else
   let! (tagID, r) := readLegacySearchTagID r in
   let! e := makeNumericTagExpr value operator (mkTagRef tagID [] true) in
   Ok (e, r))%go.

Definition parseLegacySearchTerm (reader : bytes)
    : result searchErr (searchExpr * bytes) :=
  (let! (termType, r) := ReadByte reader in
   if byte_eqb termType searchTypeString then
     let! (value, r) := readSearchString r in
     let! e := makeKeywordExpr value in
     Ok (e, r)
   else if byte_eqb termType searchTypeStrTag then
     let! (value, r) := readSearchString r in
     let! (tagID, r) := readLegacySearchTagID r in
     let! e := makeStringTagExpr value (mkTagRef tagID [] true) in
     Ok (e, r)
   else if byte_eqb termType searchTypeUint32 then
     let! (value, r) := or_err (ReadUInt32 r) ErrRead in
     parseLegacyNumericExpr r value
   else if byte_eqb termType searchTypeUint64 then
     let! (value, r) := or_err (ReadUInt64 r) ErrRead in
     parseLegacyNumericExpr r value
   else Err (ErrLegacyTermType termType))%go.

(** The loop of [parseLegacySearchRequest]: terms are folded to the left. *)
Fixpoint parseLegacyLoop (fuel : nat) (root : searchExpr) (reader : bytes)
    : result searchErr searchExpr :=
  match reader with
  | [] => Ok root
  | _ =>
    match fuel with
    | O => Err ErrFuel
    | S fuel' =>
     (let! (marker, r) := ReadByte reader in
      if negb (byte_eqb marker searchTypeBool) then Err (ErrLegacyMarker marker) else
      let! (operator, r) := ReadByte r in
      if byteZ searchBoolNotAnd <? byteZ operator
      then Err (ErrLegacyBoolOperator operator) else
      let! (next, r) := parseLegacySearchTerm r in
      parseLegacyLoop fuel' (searchCompoundExpr operator root next) r)%go
    end
  end.
End search.

Section search_query.
Context `{L : Ed2kLib} `{U : UnicodeTables}.

(** *** Summary of a query

    [collectSummary] mutates the query it is given; here it returns the
    updated query and the answer. *)

Definition set_Keywords (q : SearchQuery) (ks : list bytes) : SearchQuery :=
  mkQuery (sq_Root q) (sq_summarized q) ks (sq_MinSize q) (sq_MaxSize q)
    (sq_MinSources q) (sq_MinCompleteSources q) (sq_FileType q) (sq_Extension q)
    (sq_MediaCodec q) (sq_MinMediaLength q) (sq_MaxMediaLength q)
    (sq_MinMediaBitrate q) (sq_MaxMediaBitrate q).
Definition set_Size (q : SearchQuery) (r : Z * Z) : SearchQuery :=
  mkQuery (sq_Root q) (sq_summarized q) (sq_Keywords q) r.1 r.2
    (sq_MinSources q) (sq_MinCompleteSources q) (sq_FileType q) (sq_Extension q)
    (sq_MediaCodec q) (sq_MinMediaLength q) (sq_MaxMediaLength q)
    (sq_MinMediaBitrate q) (sq_MaxMediaBitrate q).
Definition set_MinSources (q : SearchQuery) (n : Z) : SearchQuery :=
  mkQuery (sq_Root q) (sq_summarized q) (sq_Keywords q) (sq_MinSize q) (sq_MaxSize q)
    n (sq_MinCompleteSources q) (sq_FileType q) (sq_Extension q)
    (sq_MediaCodec q) (sq_MinMediaLength q) (sq_MaxMediaLength q)
    (sq_MinMediaBitrate q) (sq_MaxMediaBitrate q).
Definition set_MinCompleteSources (q : SearchQuery) (n : Z) : SearchQuery :=
  mkQuery (sq_Root q) (sq_summarized q) (sq_Keywords q) (sq_MinSize q) (sq_MaxSize q)
    (sq_MinSources q) n (sq_FileType q) (sq_Extension q)
    (sq_MediaCodec q) (sq_MinMediaLength q) (sq_MaxMediaLength q)
    (sq_MinMediaBitrate q) (sq_MaxMediaBitrate q).
Definition set_Strings (q : SearchQuery) (ft ext codec : bytes) : SearchQuery :=
  mkQuery (sq_Root q) (sq_summarized q) (sq_Keywords q) (sq_MinSize q) (sq_MaxSize q)
    (sq_MinSources q) (sq_MinCompleteSources q) ft ext codec
    (sq_MinMediaLength q) (sq_MaxMediaLength q)
    (sq_MinMediaBitrate q) (sq_MaxMediaBitrate q).
Definition set_MediaLength (q : SearchQuery) (r : Z * Z) : SearchQuery :=
  mkQuery (sq_Root q) (sq_summarized q) (sq_Keywords q) (sq_MinSize q) (sq_MaxSize q)
    (sq_MinSources q) (sq_MinCompleteSources q) (sq_FileType q) (sq_Extension q)
    (sq_MediaCodec q) r.1 r.2 (sq_MinMediaBitrate q) (sq_MaxMediaBitrate q).
Definition set_MediaBitrate (q : SearchQuery) (r : Z * Z) : SearchQuery :=
  mkQuery (sq_Root q) (sq_summarized q) (sq_Keywords q) (sq_MinSize q) (sq_MaxSize q)
    (sq_MinSources q) (sq_MinCompleteSources q) (sq_FileType q) (sq_Extension q)
    (sq_MediaCodec q) (sq_MinMediaLength q) (sq_MaxMediaLength q) r.1 r.2.
Definition set_summarized (q : SearchQuery) (b : bool) : SearchQuery :=
  mkQuery (sq_Root q) b (sq_Keywords q) (sq_MinSize q) (sq_MaxSize q)
    (sq_MinSources q) (sq_MinCompleteSources q) (sq_FileType q) (sq_Extension q)
    (sq_MediaCodec q) (sq_MinMediaLength q) (sq_MaxMediaLength q)
    (sq_MinMediaBitrate q) (sq_MaxMediaBitrate q).

Definition collectStringTag (tagID : byte) (value : bytes) (q : SearchQuery)
    : SearchQuery * bool :=
  if byte_eqb tagID FTFileType
  then (set_Strings q value (sq_Extension q) (sq_MediaCodec q), true)
  else if byte_eqb tagID FTFileFormat
  then (set_Strings q (sq_FileType q) (TrimPrefix value (lit ".")) (sq_MediaCodec q), true)
  else if byte_eqb tagID FTMediaCodec
  then (set_Strings q (sq_FileType q) (sq_Extension q) value, true)
  else (q, false).

Definition collectNumeric (tagID operator : byte) (value : Z) (q : SearchQuery)
    : SearchQuery * bool :=
  if byte_eqb tagID FTFileSize
  then (set_Size q (applyRangeInt64Summary (sq_MinSize q) (sq_MaxSize q) operator
                      (to_int64 value)), true)
  else if byte_eqb tagID FTSources
  then (set_MinSources q (applyMinIntSummary (sq_MinSources q) operator (to_int value)), true)
  else if byte_eqb tagID FTCompleteSources
  then (set_MinCompleteSources q
          (applyMinIntSummary (sq_MinCompleteSources q) operator (to_int value)), true)
  else if byte_eqb tagID FTMediaLength
  then (set_MediaLength q (applyRangeIntSummary (sq_MinMediaLength q) (sq_MaxMediaLength q)
                             operator (to_int value)), true)
  else if byte_eqb tagID FTMediaBitrate
  then (set_MediaBitrate q (applyRangeIntSummary (sq_MinMediaBitrate q)
                              (sq_MaxMediaBitrate q) operator (to_int value)), true)
  else (q, false).

Fixpoint collectSummary (e : searchExpr) (q : SearchQuery) : SearchQuery * bool :=
  match e with
  | searchCompoundExpr operator lhs rhs =>
    if negb (byte_eqb operator searchBoolAnd) then (q, false) else
    let '(q, leftOK) := collectSummary lhs q in
    let '(q, rightOK) := collectSummary rhs q in
    (q, leftOK && rightOK)
  | searchKeywordExpr value => (set_Keywords q (sq_Keywords q ++ [value]), true)
  | searchStringTagExpr tagID value => collectStringTag tagID value q
  | searchNumericExpr tagID operator value => collectNumeric tagID operator value q
  | searchMatchAllExpr => (q, true)
  | searchMatchNoneExpr => (q, false)
  end.

Definition makeSearchQuery (root : searchExpr) : SearchQuery :=
  let '(q, ok) := collectSummary root (query_of_root root) in set_summarized q ok.

(** *** Requests *)

(** One level of recursion per level of the tree, and one for the check that
    refuses the level below [maxDepth]. *)
Definition parse_fuel (maxDepth : Z) : nat := Z.to_nat (maxDepth + 2).

Definition parseRecursiveSearchRequest (body : bytes) (maxDepth : Z)
    : result searchErr SearchQuery :=
  (let! (root, r) := parseRecursiveSearchExpr (parse_fuel maxDepth) body 0 maxDepth in
   if negb (len r =? 0) then Err (ErrTrailing (len r))
   else Ok (makeSearchQuery root))%go.

Definition parseLegacySearchRequest (body : bytes) : result searchErr SearchQuery :=
  (let! (root, r) := parseLegacySearchTerm body in
   let! root := parseLegacyLoop (length r) root r in
   Ok (makeSearchQuery root))%go.

Definition ParseSearchRequestLimited (body : bytes) (maxDepth : Z)
    : result searchErr SearchQuery :=
  if len body =? 0 then Ok (query_of_root searchMatchAllExpr) else
  let maxDepth := if maxDepth <=? 0 then defaultMaxSearchDepth else maxDepth in
  match parseRecursiveSearchRequest body maxDepth with
  | Ok prefixQuery => Ok prefixQuery
  | Err prefixErr =>
    match parseLegacySearchRequest body with
    | Ok legacyQuery => Ok legacyQuery
    | Err legacyErr => Err (ErrBoth prefixErr legacyErr)
    end
  end.

Definition ParseSearchRequest (body : bytes) : result searchErr SearchQuery :=
  ParseSearchRequestLimited body defaultMaxSearchDepth.

(** *** Evaluation *)

Definition is_lower_hex (c : Z) : bool :=
  ((48 <=? c) && (c <=? 57)) || ((97 <=? c) && (c <=? 102)).

Definition keywordMatchesRecord (record : FileRecord) (keyword : bytes) : bool :=
  let normalized := ToLower (TrimSpace keyword) in
  if bytes_eqb normalized [] then true
  else if Contains (ToLower (fr_Name record)) normalized then true
  else
    let hashToken := TrimPrefix normalized (lit "ed2k::") in
    if negb (len hashToken =? 32) then false
    else if negb (forallb is_lower_hex (runes hashToken)) then false
    else EqualFold (Hash_String (fr_Hash record)) hashToken.

Definition matchStringTag (tagID : byte) (value : bytes) (record : FileRecord) : bool :=
  if byte_eqb tagID FTFileType then EqualFold (fr_FileType record) value
  else if byte_eqb tagID FTFileFormat
  then EqualFold (fr_Extension record) (TrimPrefix value (lit "."))
  else if byte_eqb tagID FTMediaCodec then EqualFold (fr_MediaCodec record) value
  else false.

Definition matchNumeric (tagID operator : byte) (value : Z) (record : FileRecord) : bool :=
  if byte_eqb tagID FTFileSize
  then compareInt64 (fr_Size record) operator (to_int64 value)
  else if byte_eqb tagID FTSources
  then compareInt (fr_Sources record) operator (to_int value)
  else if byte_eqb tagID FTCompleteSources
  then compareInt (fr_CompleteSources record) operator (to_int value)
  else if byte_eqb tagID FTMediaLength
  then compareInt (fr_MediaLength record) operator (to_int value)
  else if byte_eqb tagID FTMediaBitrate
  then compareInt (fr_MediaBitrate record) operator (to_int value)
  else false.

Definition boolOperator (operator : byte) (left right : bool) : bool :=
  if byte_eqb operator searchBoolAnd then left && right
  else if byte_eqb operator searchBoolOr then left || right
  else if byte_eqb operator searchBoolAndNot then left && negb right
  else if byte_eqb operator searchBoolXor then negb (Bool.eqb left right)
  else if byte_eqb operator searchBoolNotAnd then negb left && right
  else false.

Fixpoint matchExpr (e : searchExpr) (record : FileRecord) : bool :=
  match e with
  | searchCompoundExpr operator lhs rhs =>
    boolOperator operator (matchExpr lhs record) (matchExpr rhs record)
  | searchKeywordExpr value => keywordMatchesRecord record value
  | searchStringTagExpr tagID value => matchStringTag tagID value record
  | searchNumericExpr tagID operator value => matchNumeric tagID operator value record
  | searchMatchAllExpr => true
  | searchMatchNoneExpr => false
  end.

Definition matchesLegacySearch (record : FileRecord) (q : SearchQuery) : bool :=
  if negb (bytes_eqb (sq_FileType q) [])
     && negb (EqualFold (fr_FileType record) (sq_FileType q)) then false
  else if negb (bytes_eqb (sq_Extension q) [])
     && negb (EqualFold (fr_Extension record) (TrimPrefix (sq_Extension q) (lit ".")))
  then false
  else if negb (bytes_eqb (sq_MediaCodec q) [])
     && negb (EqualFold (fr_MediaCodec record) (sq_MediaCodec q)) then false
  else if (0 <? sq_MinSize q) && (fr_Size record <? sq_MinSize q) then false
  else if (0 <? sq_MaxSize q) && (sq_MaxSize q <? fr_Size record) then false
  else if (0 <? sq_MinSources q) && (fr_Sources record <? sq_MinSources q) then false
  else if (0 <? sq_MinCompleteSources q)
     && (fr_CompleteSources record <? sq_MinCompleteSources q) then false
  else if (0 <? sq_MinMediaLength q) && (fr_MediaLength record <? sq_MinMediaLength q)
  then false
  else if (0 <? sq_MaxMediaLength q) && (sq_MaxMediaLength q <? fr_MediaLength record)
  then false
  else if (0 <? sq_MinMediaBitrate q) && (fr_MediaBitrate record <? sq_MinMediaBitrate q)
  then false
  else if (0 <? sq_MaxMediaBitrate q) && (sq_MaxMediaBitrate q <? fr_MediaBitrate record)
  then false
  else forallb (keywordMatchesRecord record) (sq_Keywords q).

(** [SearchQuery.match]. *)
Definition matchQuery (q : SearchQuery) (record : FileRecord) : bool :=
  match sq_Root q with
  | Some root => matchExpr root record
  | None => matchesLegacySearch record q
  end.
End search_query.
