(* ===== verification/SearchFacts.v ===== *)
(** * Properties of search requests

    The decoder: it terminates, what it accepts is well-formed and bounded, and
    it inverts an encoder of both request forms. The summary of a query is
    sound, and the numeric comparisons are exact below 2^63. *)

From S2P Require Import Prelude GoStrings Ed2kLib Ed2kRef FileRecord Search.

Local Open Scope Z_scope.

(** ** Measures and well-formedness *)

Fixpoint nodes (e : searchExpr) : nat :=
  match e with
  | searchCompoundExpr _ l r => S (nodes l + nodes r)
  | _ => 1
  end.

Fixpoint height (e : searchExpr) : nat :=
  match e with
  | searchCompoundExpr _ l r => S (Nat.max (height l) (height r))
  | _ => 0
  end.

(** The trees the decoder can produce. *)
Fixpoint wf_expr `{Ed2kLib} (e : searchExpr) : Prop :=
  match e with
  | searchCompoundExpr op l r =>
      byteZ op <= byteZ searchBoolNotAnd /\ wf_expr l /\ wf_expr r
  | searchKeywordExpr v => v <> []
  | searchStringTagExpr t v =>
      t ∈ [FTFileType; FTFileFormat; FTMediaCodec] /\ v <> []
  | searchNumericExpr t op v =>
      t ∈ [FTFileSize; FTSources; FTCompleteSources; FTMediaBitrate; FTMediaLength] /\
      byteZ op <= byteZ searchOpNotEqual /\ in_u 64 v
  | searchMatchAllExpr => True
  | searchMatchNoneExpr => False
  end.

(** ** An encoder for requests *)

Definition encode_string (s : bytes) : bytes := le_encode 2 (len s) ++ s.

Definition encode_number (v : Z) : bytes :=
  if v <? 2 ^ 32 then searchTypeUint32 :: le_encode 4 v
  else searchTypeUint64 :: le_encode 8 v.

(** A single term; the recursive and the legacy form agree on it. *)
Definition encode_term (e : searchExpr) : bytes :=
  match e with
  | searchKeywordExpr v => searchTypeString :: encode_string v
  | searchStringTagExpr t v =>
      searchTypeStrTag :: encode_string v ++ encode_string [t]
  | searchNumericExpr t op v => encode_number v ++ op :: encode_string [t]
  | searchMatchAllExpr => searchTypeString :: encode_string []
  | _ => []
  end.

Fixpoint encode_expr (e : searchExpr) : bytes :=
  match e with
  | searchCompoundExpr op l r => searchTypeBool :: op :: encode_expr l ++ encode_expr r
  | _ => encode_term e
  end.

(** The legacy form: a first term and operator-term pairs. *)
Definition encode_legacy (t : searchExpr) (ts : list (byte * searchExpr)) : bytes :=
  encode_term t ++ flat_map (fun '(op, u) => searchTypeBool :: op :: encode_term u) ts.

Definition legacy_tree (t : searchExpr) (ts : list (byte * searchExpr)) : searchExpr :=
  foldl (fun root '(op, u) => searchCompoundExpr op root u) t ts.

(** What a request can carry: strings survive trimming and fit their length
    field, and so do one-byte tags. *)
Definition sendable (s : bytes) : Prop := TrimSpace s = s /\ len s < 65536.

Definition is_term (e : searchExpr) : Prop :=
  match e with
  | searchCompoundExpr _ _ _ | searchMatchNoneExpr => False
  | _ => True
  end.

Fixpoint encodable `{Ed2kLib} (e : searchExpr) : Prop :=
  match e with
  | searchCompoundExpr op l r =>
      byteZ op <= byteZ searchBoolNotAnd /\ encodable l /\ encodable r
  | searchKeywordExpr v => v <> [] /\ sendable v
  | searchStringTagExpr t v =>
      t ∈ [FTFileType; FTFileFormat; FTMediaCodec] /\ v <> [] /\ sendable v /\ sendable [t]
  | searchNumericExpr t op v =>
      t ∈ [FTFileSize; FTSources; FTCompleteSources; FTMediaBitrate; FTMediaLength] /\
      byteZ op <= byteZ searchOpNotEqual /\ in_u 64 v /\ sendable [t]
  | searchMatchAllExpr => True
  | searchMatchNoneExpr => False
  end.

(** ** Readers *)

Section readers.
Context `{L : Ed2kLib} {RL : Ed2kReaderLaws} `{U : UnicodeTables}.

Lemma readSearchString_length r v r' :
  readSearchString r = Ok (v, r') -> (2 + length r' <= length r)%nat.
Proof.
  unfold readSearchString. intros H. inv_ok.
  pose proof (ReadUInt16_range _ _ _ E) as Hr. unfold in_u in Hr.
  apply ReadUInt16_length in E. apply ReadBytes_length in E0; [|lia].
  unfold len in *. lia.
Qed.

Lemma readSearchTagRef_length r t r' :
  readSearchTagRef r = Ok (t, r') -> (2 + length r' <= length r)%nat.
Proof.
  unfold readSearchTagRef. intros H. inv_ok.
  apply readSearchString_length in E.
  repeat case_match; simplify_eq; lia.
Qed.

Lemma readLegacySearchTagID_length r t r' :
  readLegacySearchTagID r = Ok (t, r') -> (3 + length r' <= length r)%nat.
Proof.
  unfold readLegacySearchTagID, ReadByte. intros H. inv_ok.
  apply ReadUInt16_length in E.
  repeat case_match; simplify_eq/=; lia.
Qed.

Lemma encode_string_read v rest :
  sendable v -> readSearchString (encode_string v ++ rest) = Ok (v, rest).
Proof.
  intros [Htrim Hlen]. unfold readSearchString, encode_string.
  pose proof (len_nonneg v).
  rewrite ReadUInt16_spec, <- app_assoc, read_le_encode by (simpl; lia).
  simpl. rewrite ReadBytes_app. simpl. by rewrite Htrim.
Qed.

Lemma encode_tag_read t rest :
  sendable [t] -> readSearchTagRef (encode_string [t] ++ rest) = Ok (mkTagRef t [] true, rest).
Proof.
  intros Ht. unfold readSearchTagRef. by rewrite encode_string_read by done.
Qed.

Lemma encode_legacy_tag_read t rest :
  readLegacySearchTagID (encode_string [t] ++ rest) = Ok (t, rest).
Proof.
  unfold readLegacySearchTagID, encode_string.
  change (len [t]) with 1.
  by rewrite ReadUInt16_spec, <- app_assoc, read_le_encode by (simpl; lia).
Qed.
End readers.

(** ** Leaves *)

Section leaves.
Context `{L : Ed2kLib} `{U : UnicodeTables}.

(** A leaf of the tree, well-formed. *)
Definition wf_leaf (e : searchExpr) : Prop :=
  wf_expr e /\ nodes e = 1%nat /\ height e = 0%nat.

Lemma makeKeywordExpr_wf v e : makeKeywordExpr v = Ok e -> wf_leaf e.
Proof.
  unfold makeKeywordExpr. case_match eqn:E; intros; simplify_eq.
  - done.
  - apply bytes_eqb_neq in E. done.
Qed.

Lemma makeStringTagExpr_wf v t e : makeStringTagExpr v t = Ok e -> wf_leaf e.
Proof.
  unfold makeStringTagExpr. case_match eqn:E; intros H; [by simplify_eq|].
  apply bytes_eqb_neq in E.
  repeat case_match; simplify_eq; (split; [|done]); simpl;
    rewrite ?elem_of_cons; try tauto.
  repeat split; [tauto|done|apply wrap_u_range; lia..].
Qed.

Lemma makeNumericTagExpr_wf v op t e :
  in_u 64 v -> byteZ op <= byteZ searchOpNotEqual ->
  makeNumericTagExpr v op t = Ok e -> wf_leaf e.
Proof.
  unfold makeNumericTagExpr. intros Hv Hop H.
  repeat case_match; simplify_eq; (split; [|done]); simpl;
    rewrite !elem_of_cons; tauto.
Qed.

Lemma makeKeywordExpr_id v :
  v <> [] -> TrimSpace v = v -> makeKeywordExpr v = Ok (searchKeywordExpr v).
Proof.
  intros Hv Ht. unfold makeKeywordExpr. rewrite Ht.
  by apply bytes_eqb_neq in Hv as ->.
Qed.

Context {TL : Ed2kTagIDLaws}.

Lemma matchesID_self t : matchesID (mkTagRef t [] true) t = true.
Proof. unfold matchesID. simpl. apply byte_eqb_refl. Qed.

Lemma matchesID_ne t u : t <> u -> matchesID (mkTagRef t [] true) u = false.
Proof. unfold matchesID. simpl. apply byte_eqb_neq. Qed.

Lemma makeStringTagExpr_id t v :
  t ∈ [FTFileType; FTFileFormat; FTMediaCodec] -> v <> [] -> TrimSpace v = v ->
  makeStringTagExpr v (mkTagRef t [] true) = Ok (searchStringTagExpr t v).
Proof.
  intros Ht Hv Htrim. unfold makeStringTagExpr. rewrite Htrim.
  apply bytes_eqb_neq in Hv as ->.
  pose proof string_tags_NoDup as Hnd. rewrite !list.NoDup_cons, !elem_of_cons in Hnd.
  rewrite !elem_of_cons, elem_of_nil in Ht.
  destruct Ht as [->|[->|[->|[]]]]; rewrite ?matchesID_self; [done|..];
    repeat (rewrite matchesID_ne by (clear -Hnd; intuition congruence)); rewrite ?matchesID_self; done.
Qed.

Lemma makeNumericTagExpr_id t op v :
  t ∈ [FTFileSize; FTSources; FTCompleteSources; FTMediaBitrate; FTMediaLength] ->
  makeNumericTagExpr v op (mkTagRef t [] true) = Ok (searchNumericExpr t op v).
Proof.
  intros Ht. unfold makeNumericTagExpr.
  pose proof numeric_tags_NoDup as Hnd. rewrite !list.NoDup_cons, !elem_of_cons in Hnd.
  rewrite !elem_of_cons, elem_of_nil in Ht.
  destruct Ht as [->|[->|[->|[->|[->|[]]]]]]; rewrite ?matchesID_self; [done|..];
    repeat (rewrite matchesID_ne by (clear -Hnd; intuition congruence)); unfold matchesName; simpl;
    rewrite ?matchesID_self; done.
Qed.
End leaves.

(** ** The recursive form *)

Section recursive.
Context `{L : Ed2kLib} {RL : Ed2kReaderLaws} `{U : UnicodeTables}.

Lemma parseRecursiveNumericExpr_sound r v e r' :
  in_u 64 v -> parseRecursiveNumericExpr r v = Ok (e, r') ->
  wf_leaf e /\ (3 + length r' <= length r)%nat.
Proof.
  unfold parseRecursiveNumericExpr, ReadByte. intros Hv H. inv_ok.
  repeat case_match; inv_ok.
  match goal with E : readSearchTagRef _ = _ |- _ =>
    apply readSearchTagRef_length in E end.
  split; [|simpl; lia]. eapply makeNumericTagExpr_wf; [done| |done].
  by apply Z.ltb_ge.
Qed.

(** What is accepted is well-formed, no deeper than the limit, and every node
    took two bytes of the input. *)
Definition accepted (depth maxDepth : Z) (e : searchExpr) (r r' : bytes) : Prop :=
  wf_expr e /\ depth + Z.of_nat (height e) <= maxDepth /\
  (2 * nodes e + length r' <= length r)%nat.

Lemma leaf_accepted depth maxDepth e r r' :
  depth <= maxDepth -> wf_leaf e -> (2 + length r' <= length r)%nat ->
  accepted depth maxDepth e r r'.
Proof. intros Hd (Hwf & Hn & Hh) Hl. split_and!; [done|lia|lia]. Qed.

Lemma parseRecursiveSearchExpr_sound fuel r depth maxDepth e r' :
  parseRecursiveSearchExpr fuel r depth maxDepth = Ok (e, r') ->
  accepted depth maxDepth e r r'.
Proof.
  revert r depth e r'; induction fuel as [|fuel IH]; intros r depth e r' H; [done|].
  cbn [parseRecursiveSearchExpr] in H.
  destruct (Z.ltb_spec maxDepth depth) as [|Hd]; [done|].
  destruct r as [|t r]; [done|]. cbn [ReadByte rbind] in H.
  destruct (byte_eqb t searchTypeBool).
  { destruct r as [|op r]; [done|]. cbn [ReadByte rbind] in H.
    destruct (Z.ltb_spec (byteZ searchBoolNotAnd) (byteZ op)) as [|Hop]; [done|].
    inv_ok. apply IH in E as (? & ? & ?), E0 as (? & ? & ?).
    split_and!; [done|simpl; lia|simpl; lia]. }
  repeat case_match; inv_ok; apply leaf_accepted; try done;
    try (eapply makeKeywordExpr_wf; done); try (eapply makeStringTagExpr_wf; done);
    try (apply readSearchString_length in E; simpl; lia).
  - apply readSearchString_length in E. apply readSearchTagRef_length in E0.
    simpl. lia.
  - apply parseRecursiveNumericExpr_sound in H as [Hw _]; [done|].
    apply ReadUInt32_range in E. unfold in_u in *. lia.
  - pose proof (ReadUInt32_range _ _ _ E) as Hr. unfold in_u in Hr.
    apply parseRecursiveNumericExpr_sound in H as [_ Hl]; [|unfold in_u; lia].
    apply ReadUInt32_length in E. simpl. lia.
  - apply parseRecursiveNumericExpr_sound in H as [Hw _]; [done|].
    by apply ReadUInt64_range in E.
  - apply parseRecursiveNumericExpr_sound in H as [_ Hl];
      [|by apply ReadUInt64_range in E].
    apply ReadUInt64_length in E. simpl. lia.
Qed.
End recursive.

(** ** Termination *)

Section termination.
Context `{L : Ed2kLib} {RL : Ed2kReaderLaws} `{U : UnicodeTables}.

(** The readers and the leaf constructors never report exhausted fuel. *)
Ltac no_fuel :=
  repeat (unfold rbind, or_err, ReadByte; case_match; simplify_eq/=; try done).

Lemma rbind_no_fuel {A B} (m : result searchErr A) (k : A -> result searchErr B) :
  m <> Err ErrFuel -> (forall a, m = Ok a -> k a <> Err ErrFuel) ->
  rbind m k <> Err ErrFuel.
Proof. destruct m; simpl; [auto|congruence]. Qed.

Lemma readSearchString_no_fuel r : readSearchString r <> Err ErrFuel.
Proof. unfold readSearchString. no_fuel. Qed.
Lemma readSearchTagRef_no_fuel r : readSearchTagRef r <> Err ErrFuel.
Proof.
  unfold readSearchTagRef. apply rbind_no_fuel; [apply readSearchString_no_fuel|].
  intros [v r'] _. no_fuel.
Qed.
Lemma readLegacySearchTagID_no_fuel r : readLegacySearchTagID r <> Err ErrFuel.
Proof. unfold readLegacySearchTagID. no_fuel. Qed.
Lemma makeKeywordExpr_no_fuel v : makeKeywordExpr v <> Err ErrFuel.
Proof. unfold makeKeywordExpr. no_fuel. Qed.
Lemma makeStringTagExpr_no_fuel v t : makeStringTagExpr v t <> Err ErrFuel.
Proof. unfold makeStringTagExpr. no_fuel. Qed.
Lemma makeNumericTagExpr_no_fuel v op t : makeNumericTagExpr v op t <> Err ErrFuel.
Proof. unfold makeNumericTagExpr. no_fuel. Qed.

Lemma or_err_no_fuel {A} (o : option A) : or_err o ErrRead <> Err ErrFuel.
Proof. by destruct o. Qed.

Lemma ReadByte_no_fuel r : ReadByte r <> Err ErrFuel.
Proof. by destruct r. Qed.

(** Walk down a chain of binds. *)
Ltac walk :=
  repeat first
    [ done
    | apply readSearchString_no_fuel | apply readSearchTagRef_no_fuel
    | apply readLegacySearchTagID_no_fuel | apply makeKeywordExpr_no_fuel
    | apply makeStringTagExpr_no_fuel | apply makeNumericTagExpr_no_fuel
    | apply or_err_no_fuel | apply ReadByte_no_fuel
    | apply rbind_no_fuel; [|intros [? ?] ?|..]
    | apply rbind_no_fuel; [|intros ? ?|..]
    | case_match ].

Lemma parseRecursiveNumericExpr_no_fuel r v :
  parseRecursiveNumericExpr r v <> Err ErrFuel.
Proof. unfold parseRecursiveNumericExpr. walk. Qed.

Lemma parseLegacyNumericExpr_no_fuel r v : parseLegacyNumericExpr r v <> Err ErrFuel.
Proof. unfold parseLegacyNumericExpr. walk. Qed.

Lemma parseLegacySearchTerm_no_fuel r : parseLegacySearchTerm r <> Err ErrFuel.
Proof.
  unfold parseLegacySearchTerm. walk; apply parseLegacyNumericExpr_no_fuel.
Qed.

Lemma parseRecursiveSearchExpr_no_fuel fuel r depth maxDepth :
  (Z.to_nat (maxDepth + 1 - depth) < fuel)%nat ->
  parseRecursiveSearchExpr fuel r depth maxDepth <> Err ErrFuel.
Proof.
  revert r depth; induction fuel as [|fuel IH]; intros r depth Hf; [lia|].
  cbn [parseRecursiveSearchExpr].
  destruct (Z.ltb_spec maxDepth depth) as [|Hd]; [done|].
  walk; try apply parseRecursiveNumericExpr_no_fuel; apply IH; lia.
Qed.

(** More fuel than needed changes nothing. *)
Lemma parseRecursiveSearchExpr_fuel fuel fuel' r depth maxDepth :
  (Z.to_nat (maxDepth + 1 - depth) < fuel)%nat ->
  (Z.to_nat (maxDepth + 1 - depth) < fuel')%nat ->
  parseRecursiveSearchExpr fuel r depth maxDepth =
  parseRecursiveSearchExpr fuel' r depth maxDepth.
Proof.
  revert fuel' r depth; induction fuel as [|fuel IH];
    intros [|fuel'] r depth Hf Hf'; [lia..|].
  cbn [parseRecursiveSearchExpr].
  destruct (Z.ltb_spec maxDepth depth) as [|Hd]; [done|].
  destruct r as [|t r]; [done|]. cbn [ReadByte rbind].
  destruct (byte_eqb t searchTypeBool); [|done].
  destruct r as [|op r]; [done|]. cbn [ReadByte rbind].
  case_match; [done|].
  rewrite (IH fuel' r (depth + 1)) by lia.
  destruct (parseRecursiveSearchExpr fuel' r (depth + 1) maxDepth) as [[lhs r']|]; [|done].
  simpl. by rewrite (IH fuel' r' (depth + 1)) by lia.
Qed.

Lemma parseLegacyNumericExpr_length r v e r' :
  parseLegacyNumericExpr r v = Ok (e, r') -> (4 + length r' <= length r)%nat.
Proof.
  unfold parseLegacyNumericExpr, ReadByte. intros H. inv_ok.
  repeat case_match; inv_ok.
  match goal with E : readLegacySearchTagID _ = _ |- _ =>
    apply readLegacySearchTagID_length in E end. simpl. lia.
Qed.

Lemma parseLegacySearchTerm_length r e r' :
  parseLegacySearchTerm r = Ok (e, r') -> (3 + length r' <= length r)%nat.
Proof.
  unfold parseLegacySearchTerm. destruct r as [|t r]; [done|].
  cbn [ReadByte rbind length]. intros H.
  repeat case_match; inv_ok; simpl;
    repeat match goal with
    | E : readSearchString _ = _ |- _ => apply readSearchString_length in E
    | E : readLegacySearchTagID _ = _ |- _ => apply readLegacySearchTagID_length in E
    | E : ReadUInt32 _ = _ |- _ => apply ReadUInt32_length in E
    | E : ReadUInt64 _ = _ |- _ => apply ReadUInt64_length in E
    | E : parseLegacyNumericExpr _ _ = _ |- _ => apply parseLegacyNumericExpr_length in E
    end; lia.
Qed.

Lemma parseLegacyLoop_no_fuel fuel root r :
  (length r <= fuel)%nat -> parseLegacyLoop fuel root r <> Err ErrFuel.
Proof.
  revert root r; induction fuel as [|fuel IH]; intros root [|b r] Hf;
    [done|simpl in Hf; lia|done|].
  cbn [parseLegacyLoop ReadByte rbind]. case_match; [done|].
  destruct r as [|op r]; [done|]. cbn [ReadByte rbind]. case_match; [done|].
  apply rbind_no_fuel; [apply parseLegacySearchTerm_no_fuel|].
  intros [next r'] E. apply parseLegacySearchTerm_length in E.
  apply IH. simpl in *. lia.
Qed.

Lemma parseRecursiveSearchRequest_no_fuel body maxDepth :
  0 <= maxDepth -> parseRecursiveSearchRequest body maxDepth <> Err ErrFuel.
Proof.
  intros Hm. unfold parseRecursiveSearchRequest.
  apply rbind_no_fuel; [|intros [root r] _; by case_match].
  apply parseRecursiveSearchExpr_no_fuel. unfold parse_fuel. lia.
Qed.

Lemma parseLegacySearchRequest_no_fuel body :
  parseLegacySearchRequest body <> Err ErrFuel.
Proof.
  unfold parseLegacySearchRequest.
  apply rbind_no_fuel; [apply parseLegacySearchTerm_no_fuel|]. intros [root r] _.
  apply rbind_no_fuel; [by apply parseLegacyLoop_no_fuel|done].
Qed.
End termination.

(** ** Round trips *)

Section roundtrip.
Context `{L : Ed2kLib} {RL : Ed2kReaderLaws} {TL : Ed2kTagIDLaws} `{U : UnicodeTables}.

Lemma numeric_tail_parse t op v rest :
  encodable (searchNumericExpr t op v) ->
  parseRecursiveNumericExpr (op :: encode_string [t] ++ rest) v =
    Ok (searchNumericExpr t op v, rest) /\
  parseLegacyNumericExpr (op :: encode_string [t] ++ rest) v =
    Ok (searchNumericExpr t op v, rest).
Proof.
  intros (Ht & Hop & Hv & Hs).
  unfold parseRecursiveNumericExpr, parseLegacyNumericExpr. cbn [ReadByte rbind].
  rewrite encode_tag_read, encode_legacy_tag_read by done. cbn [rbind].
  rewrite makeNumericTagExpr_id by done.
  destruct (Z.ltb_spec (byteZ searchOpNotEqual) (byteZ op)); [lia|done].
Qed.

Lemma string_tag_parse t v rest :
  encodable (searchStringTagExpr t v) ->
  readSearchString (encode_string v ++ encode_string [t] ++ rest) =
    Ok (v, encode_string [t] ++ rest) /\
  makeStringTagExpr v (mkTagRef t [] true) = Ok (searchStringTagExpr t v).
Proof.
  intros (Ht & Hv & Hs & Hst). split; [by apply encode_string_read|].
  apply makeStringTagExpr_id; [done..|apply Hs].
Qed.

Lemma encode_number_read v rest :
  in_u 64 v ->
  (encode_number v ++ rest = searchTypeUint32 :: le_encode 4 v ++ rest /\
   ReadUInt32 (le_encode 4 v ++ rest) = Some (v, rest)) \/
  (encode_number v ++ rest = searchTypeUint64 :: le_encode 8 v ++ rest /\
   ReadUInt64 (le_encode 8 v ++ rest) = Some (v, rest)).
Proof.
  unfold in_u, encode_number. intros Hv. destruct (Z.ltb_spec v (2 ^ 32)) as [Hlt|].
  - left. split; [done|]. rewrite ReadUInt32_spec. apply read_le_encode. simpl. lia.
  - right. split; [done|]. rewrite ReadUInt64_spec. apply read_le_encode. simpl. lia.
Qed.

Lemma encode_term_parse fuel depth maxDepth e rest :
  depth <= maxDepth -> is_term e -> encodable e ->
  parseRecursiveSearchExpr (S fuel) (encode_term e ++ rest) depth maxDepth = Ok (e, rest).
Proof.
  intros Hd Ht He. cbn [parseRecursiveSearchExpr].
  destruct (Z.ltb_spec maxDepth depth) as [|_]; [lia|].
  destruct e as [|v|t v|t op v| |]; try done; cbn [encode_term].
  - destruct He as [Hv Hs]. cbn [app]. cbn [ReadByte rbind].
    eval_eqb. rewrite encode_string_read by done. cbn [rbind].
    by rewrite makeKeywordExpr_id by (done || apply Hs).
  - cbn [app]. rewrite <- app_assoc. cbn [ReadByte rbind].
    eval_eqb.
    destruct (string_tag_parse t v rest He) as [-> Hm]. cbn [rbind].
    destruct He as (_ & _ & _ & Hst). rewrite encode_tag_read by done. cbn [rbind].
    by rewrite Hm.
  - rewrite <- app_assoc. cbn [app].
    destruct (encode_number_read v (op :: encode_string [t] ++ rest)) as [[-> Hr]|[-> Hr]];
      [apply He|..]; cbn [ReadByte rbind]; simpl byte_eqb; cbv iota beta;
      rewrite Hr; cbn [or_err rbind]; by apply numeric_tail_parse.
  - cbn [app]. cbn [ReadByte rbind]. eval_eqb.
    change (x00 :: x00 :: rest) with (encode_string [] ++ rest).
    by rewrite encode_string_read by done.
Qed.

Lemma encode_term_parse_legacy e rest :
  is_term e -> encodable e -> parseLegacySearchTerm (encode_term e ++ rest) = Ok (e, rest).
Proof.
  intros Ht He. unfold parseLegacySearchTerm.
  destruct e as [|v|t v|t op v| |]; try done; cbn [encode_term].
  - destruct He as [Hv Hs]. cbn [app]. cbn [ReadByte rbind].
    eval_eqb. rewrite encode_string_read by done. cbn [rbind].
    by rewrite makeKeywordExpr_id by (done || apply Hs).
  - cbn [app]. rewrite <- app_assoc. cbn [ReadByte rbind].
    eval_eqb.
    destruct (string_tag_parse t v rest He) as [-> Hm]. cbn [rbind].
    rewrite encode_legacy_tag_read. cbn [rbind]. by rewrite Hm.
  - rewrite <- app_assoc. cbn [app].
    destruct (encode_number_read v (op :: encode_string [t] ++ rest)) as [[-> Hr]|[-> Hr]];
      [apply He|..]; cbn [ReadByte rbind]; simpl byte_eqb; cbv iota beta;
      rewrite Hr; cbn [or_err rbind]; by apply numeric_tail_parse.
  - cbn [app]. cbn [ReadByte rbind]. eval_eqb.
    change (x00 :: x00 :: rest) with (encode_string [] ++ rest).
    by rewrite encode_string_read by done.
Qed.

Lemma encode_expr_parse fuel depth maxDepth e rest :
  encodable e -> depth + Z.of_nat (height e) <= maxDepth ->
  (height e < fuel)%nat ->
  parseRecursiveSearchExpr fuel (encode_expr e ++ rest) depth maxDepth = Ok (e, rest).
Proof.
  revert fuel depth rest.
  induction e as [op l IHl r IHr|v|t v|t op v| |]; intros [|fuel] depth rest He Hd Hf;
    try lia; try (apply encode_term_parse; simpl in *; [lia|done|done]).
  destruct He as (Hop & Hl & Hr). cbn [encode_expr parseRecursiveSearchExpr].
  simpl in Hd, Hf. destruct (Z.ltb_spec maxDepth depth) as [|_]; [lia|].
  cbn [app]. cbn [ReadByte rbind]. eval_eqb.
  destruct (Z.ltb_spec (byteZ searchBoolNotAnd) (byteZ op)) as [|_]; [lia|].
  rewrite <- app_assoc, IHl by (done || lia). cbn [rbind].
  by rewrite IHr by (done || lia).
Qed.

Lemma parseLegacyLoop_encode fuel root ts :
  Forall (fun '(op, u) => byteZ op <= byteZ searchBoolNotAnd /\ is_term u /\ encodable u) ts ->
  (length (flat_map (fun '(op, u) => searchTypeBool :: op :: encode_term u) ts) <= fuel)%nat ->
  parseLegacyLoop fuel root
    (flat_map (fun '(op, u) => searchTypeBool :: op :: encode_term u) ts) =
  Ok (legacy_tree root ts).
Proof.
  revert fuel root; induction ts as [|[op u] ts IH]; intros fuel root Hts Hf.
  { by destruct fuel. }
  apply Forall_cons in Hts as [(Hop & Hu & He) Hts]. cbn [flat_map].
  destruct fuel as [|fuel]; [simpl in Hf; lia|].
  cbn [app]. cbn [parseLegacyLoop ReadByte rbind]. eval_eqb.
  destruct (Z.ltb_spec (byteZ searchBoolNotAnd) (byteZ op)) as [|_]; [lia|].
  rewrite encode_term_parse_legacy by done. cbn [rbind].
  rewrite IH; [done..|]. simpl in Hf. rewrite length_app in Hf. lia.
Qed.
Lemma parse_encode_legacy t ts maxDepth :
  is_term t -> encodable t ->
  Forall (fun '(op, u) => byteZ op <= byteZ searchBoolNotAnd /\ is_term u /\ encodable u) ts ->
  0 < maxDepth ->
  ParseSearchRequestLimited (encode_legacy t ts) maxDepth =
    Ok (makeSearchQuery (legacy_tree t ts)).
Proof.
  intros Ht He Hts Hm. unfold ParseSearchRequestLimited, encode_legacy.
  set (rest := flat_map _ ts).
  assert ((len (encode_term t ++ rest) =? 0) = false) as ->.
  { rewrite len_app. pose proof (len_nonneg rest). unfold len in *. apply Z.eqb_neq.
    destruct t as [| | |? ? v| |]; try done; simpl; try lia.
    unfold encode_number. case_match; simpl; lia. }
  destruct (Z.leb_spec maxDepth 0) as [|_]; [lia|].
  assert (parseLegacySearchRequest (encode_term t ++ rest) =
            Ok (makeSearchQuery (legacy_tree t ts))) as ->.
  { unfold parseLegacySearchRequest. rewrite encode_term_parse_legacy by done.
    cbn [rbind]. subst rest. by rewrite parseLegacyLoop_encode. }
  unfold parseRecursiveSearchRequest, parse_fuel.
  replace (Z.to_nat (maxDepth + 2)) with (S (Z.to_nat (maxDepth + 1))) by lia.
  rewrite encode_term_parse by (done || lia). cbn [rbind].
  destruct ts as [|[op u] ts]; [done|]. subst rest. cbn [flat_map app].
  rewrite !len_cons.
  match goal with |- context [negb (?x =? 0)] => destruct (Z.eqb_spec x 0) as [Hz|_] end;
    [|done].
  match type of Hz with context [len ?l] => pose proof (len_nonneg l) end. lia.
Qed.

Lemma legacy_tree_height op u t n :
  height u = 0%nat -> height (legacy_tree t (replicate n (op, u))) = (n + height t)%nat.
Proof.
  intros Hu. revert t; induction n as [|n IH]; intros t; [done|].
  change (legacy_tree t (replicate (S n) (op, u))) with
    (legacy_tree (searchCompoundExpr op t u) (replicate n (op, u))).
  rewrite IH. cbn [height]. rewrite Hu. lia.
Qed.
End roundtrip.

(** ** The legacy form is well-formed too *)

Section legacy.
Context `{L : Ed2kLib} {RL : Ed2kReaderLaws} `{U : UnicodeTables}.

Lemma parseLegacyNumericExpr_wf r v e r' :
  in_u 64 v -> parseLegacyNumericExpr r v = Ok (e, r') -> wf_leaf e.
Proof.
  unfold parseLegacyNumericExpr, ReadByte. intros Hv H. inv_ok.
  case_match eqn:Hop; inv_ok. eapply makeNumericTagExpr_wf; [done| |done].
  by apply Z.ltb_ge.
Qed.

Lemma parseLegacySearchTerm_wf r e r' :
  parseLegacySearchTerm r = Ok (e, r') -> wf_leaf e.
Proof.
  unfold parseLegacySearchTerm. destruct r as [|t r]; [done|].
  cbn [ReadByte rbind]. intros H. repeat case_match; inv_ok.
  - by eapply makeKeywordExpr_wf.
  - by eapply makeStringTagExpr_wf.
  - eapply parseLegacyNumericExpr_wf; [|done].
    apply ReadUInt32_range in E. unfold in_u in *. lia.
  - eapply parseLegacyNumericExpr_wf; [|done]. by apply ReadUInt64_range in E.
Qed.

Lemma parseLegacyLoop_sound fuel root r e :
  parseLegacyLoop fuel root r = Ok e -> wf_expr root ->
  wf_expr e /\ (2 * nodes e <= 2 * nodes root + length r)%nat.
Proof.
  revert root r; induction fuel as [|fuel IH]; intros root [|b r] H Hroot;
    try done; try (injection H as <-; split; [done|simpl; lia]).
  cbn [parseLegacyLoop ReadByte rbind] in H. case_match; [done|].
  destruct r as [|op r]; [done|]. cbn [ReadByte rbind] in H.
  destruct (Z.ltb_spec (byteZ searchBoolNotAnd) (byteZ op)) as [|Hop]; [done|].
  inv_ok. pose proof (parseLegacySearchTerm_length _ _ _ E).
  apply parseLegacySearchTerm_wf in E as (Hwf & Hn & _).
  apply IH in H as [Hw Hl]; [|done]. split; [done|]. simpl in *. lia.
Qed.

Lemma parseLegacySearchRequest_sound body q :
  parseLegacySearchRequest body = Ok q ->
  exists root, q = makeSearchQuery root /\ wf_expr root /\
    (2 * nodes root <= length body)%nat.
Proof.
  unfold parseLegacySearchRequest. intros H. inv_ok.
  pose proof (parseLegacySearchTerm_length _ _ _ E).
  apply parseLegacySearchTerm_wf in E as (Hwf & Hn & _).
  apply parseLegacyLoop_sound in E0 as [Hw Hl]; [|done].
  eexists. split_and!; [done..|]. lia.
Qed.

Lemma parseRecursiveSearchRequest_sound body maxDepth q :
  parseRecursiveSearchRequest body maxDepth = Ok q ->
  exists root, q = makeSearchQuery root /\ wf_expr root /\
    Z.of_nat (height root) <= maxDepth /\ (2 * nodes root <= length body)%nat.
Proof.
  unfold parseRecursiveSearchRequest. intros H. inv_ok. case_match; inv_ok.
  apply parseRecursiveSearchExpr_sound in E as (Hw & Hh & Hn).
  eexists. split_and!; [done..|lia|lia].
Qed.
End legacy.

(** ** Summaries *)

Section summary.
Context `{L : Ed2kLib} `{U : UnicodeTables}.

Definition str_ok (field v : bytes) : Prop := v = [] \/ EqualFold field v = true.
Definition lo_ok (x m : Z) : Prop := ~ (0 < m /\ x < m).
Definition hi_ok (x m : Z) : Prop := ~ (0 < m /\ m < x).

Lemma str_test field v :
  negb (bytes_eqb v []) && negb (EqualFold field v) = false <-> str_ok field v.
Proof.
  unfold str_ok. rewrite <- bytes_eqb_eq.
  destruct (bytes_eqb v []), (EqualFold field v); simpl; intuition congruence.
Qed.

Lemma lo_test x m : (0 <? m) && (x <? m) = false <-> lo_ok x m.
Proof. unfold lo_ok. destruct (Z.ltb_spec 0 m), (Z.ltb_spec x m); simpl; lia. Qed.
Lemma hi_test x m : (0 <? m) && (m <? x) = false <-> hi_ok x m.
Proof. unfold hi_ok. destruct (Z.ltb_spec 0 m), (Z.ltb_spec m x); simpl; lia. Qed.

(** The constraints of the flat form, one per field. *)
Record flat_match (r : FileRecord) (q : SearchQuery) : Prop := {
  fm_type : str_ok (fr_FileType r) (sq_FileType q);
  fm_ext : sq_Extension q = [] \/
    EqualFold (fr_Extension r) (TrimPrefix (sq_Extension q) (lit ".")) = true;
  fm_codec : str_ok (fr_MediaCodec r) (sq_MediaCodec q);
  fm_min_size : lo_ok (fr_Size r) (sq_MinSize q);
  fm_max_size : hi_ok (fr_Size r) (sq_MaxSize q);
  fm_sources : lo_ok (fr_Sources r) (sq_MinSources q);
  fm_complete : lo_ok (fr_CompleteSources r) (sq_MinCompleteSources q);
  fm_min_length : lo_ok (fr_MediaLength r) (sq_MinMediaLength q);
  fm_max_length : hi_ok (fr_MediaLength r) (sq_MaxMediaLength q);
  fm_min_bitrate : lo_ok (fr_MediaBitrate r) (sq_MinMediaBitrate q);
  fm_max_bitrate : hi_ok (fr_MediaBitrate r) (sq_MaxMediaBitrate q);
  fm_keywords : Forall (fun k => keywordMatchesRecord r k = true) (sq_Keywords q)
}.

Lemma matchesLegacySearch_flat r q : flat_match r q -> matchesLegacySearch r q = true.
Proof.
  intros [Ht He Hc H1 H2 H3 H4 H5 H6 H7 H8 Hk]. unfold matchesLegacySearch.
  apply str_test in Ht as ->. apply str_test in Hc as ->.
  apply lo_test in H1 as ->, H3 as ->, H4 as ->, H5 as ->, H7 as ->.
  apply hi_test in H2 as ->, H6 as ->, H8 as ->.
  assert (negb (bytes_eqb (sq_Extension q) []) &&
    negb (EqualFold (fr_Extension r) (TrimPrefix (sq_Extension q) (lit "."))) = false) as ->.
  { destruct He as [->| ->]; [done|apply andb_false_r]. }
  apply forallb_forall. intros k Hin. rewrite Forall_forall in Hk. apply Hk.
  by apply list_elem_of_In.
Qed.

Lemma flat_match_empty root r : flat_match r (query_of_root root).
Proof. constructor; simpl; unfold lo_ok, hi_ok; first [lia|by left|by constructor]. Qed.

Lemma range64_sound x op v mn mx :
  compareInt64 x op v = true -> lo_ok x mn -> hi_ok x mx ->
  lo_ok x (applyRangeInt64Summary mn mx op v).1 /\
  hi_ok x (applyRangeInt64Summary mn mx op v).2.
Proof.
  unfold compareInt64, applyRangeInt64Summary, lo_ok, hi_ok. intros H Hlo Hhi.
  switch op; cbn [orb] in *; repeat case_match; simpl; lia.
Qed.

Lemma range_sound x op v mn mx :
  compareInt x op v = true -> lo_ok x mn -> hi_ok x mx ->
  lo_ok x (applyRangeIntSummary mn mx op v).1 /\
  hi_ok x (applyRangeIntSummary mn mx op v).2.
Proof. apply range64_sound. Qed.

Lemma min_sound x op v mn :
  compareInt x op v = true -> lo_ok x mn -> lo_ok x (applyMinIntSummary mn op v).
Proof.
  unfold compareInt, applyMinIntSummary, lo_ok. intros H Hlo.
  switch op; cbn [orb] in *; repeat case_match; lia.
Qed.

(** Extensions that a second [TrimPrefix] leaves alone. *)
Fixpoint plain_extensions (e : searchExpr) : Prop :=
  match e with
  | searchCompoundExpr _ l r => plain_extensions l /\ plain_extensions r
  | searchStringTagExpr _ v => has_prefix (lit "..") v = false
  | _ => True
  end.

Lemma TrimPrefix_dot_twice v :
  has_prefix (lit "..") v = false ->
  TrimPrefix (TrimPrefix v (lit ".")) (lit ".") = TrimPrefix v (lit ".").
Proof.
  change (lit "..") with [x2e; x2e]. change (lit ".") with [x2e].
  unfold TrimPrefix. destruct v as [|a v]; [done|]. cbn [has_prefix].
  destruct (byte_eqb x2e a) eqn:Ea; cbn [andb]; [|intros _; cbn [has_prefix]; by rewrite ?Ea].
  destruct v as [|b v]; [done|]. cbn [has_prefix length skipn]. intros H. by rewrite H.
Qed.

Lemma collectStringTag_sound t v q q' r :
  has_prefix (lit "..") v = false ->
  collectStringTag t v q = (q', true) -> matchStringTag t v r = true ->
  flat_match r q -> flat_match r q'.
Proof.
  unfold collectStringTag, matchStringTag. intros Hv Hc Hm [].
  repeat case_match; simplify_eq; constructor; simpl; unfold str_ok; auto.
  right. by rewrite TrimPrefix_dot_twice.
Qed.

Lemma collectNumeric_sound t op v q q' r :
  collectNumeric t op v q = (q', true) -> matchNumeric t op v r = true ->
  flat_match r q -> flat_match r q'.
Proof.
  unfold collectNumeric, matchNumeric. intros Hc Hm [].
  repeat case_match; simplify_eq; constructor; simpl; auto;
    first [by apply range64_sound | by apply range_sound | by apply min_sound].
Qed.

Lemma collectSummary_sound e q q' r :
  plain_extensions e -> collectSummary e q = (q', true) -> matchExpr e r = true ->
  flat_match r q -> flat_match r q'.
Proof.
  revert q q'; induction e as [op l IHl rr IHr|v|t v|t op v| |];
    intros q q' Hp Hc Hm Hq; cbn [collectSummary matchExpr plain_extensions] in *.
  - destruct (byte_eqb op searchBoolAnd) eqn:Hop; [|done]. cbn [negb] in Hc.
    destruct (collectSummary l q) as [q1 ok1] eqn:E1.
    destruct (collectSummary rr q1) as [q2 ok2] eqn:E2. simplify_eq.
    apply andb_true_iff in H0 as [-> ->].
    unfold boolOperator in Hm. rewrite Hop in Hm. apply andb_true_iff in Hm as [Hml Hmr].
    destruct Hp as [Hpl Hpr]. eauto.
  - simplify_eq. destruct Hq. constructor; simpl; auto.
    apply Forall_app. split; [done|]. by constructor.
  - by eapply collectStringTag_sound.
  - by eapply collectNumeric_sound.
  - by simplify_eq.
  - done.
Qed.
Lemma collectSummary_root e q q' ok :
  collectSummary e q = (q', ok) -> sq_Root q' = sq_Root q.
Proof.
  revert q q' ok; induction e as [op l IHl r IHr|v|t v|t op v| |]; intros q q' ok;
    cbn [collectSummary]; unfold collectStringTag, collectNumeric; intros H.
  - case_match; [by simplify_eq|].
    destruct (collectSummary l q) as [q1 ok1] eqn:E1.
    destruct (collectSummary r q1) as [q2 ok2] eqn:E2. simplify_eq.
    rewrite (IHr _ _ _ E2). by apply IHl in E1.
  - by simplify_eq.
  - repeat case_match; by simplify_eq.
  - repeat case_match; by simplify_eq.
  - by simplify_eq.
  - by simplify_eq.
Qed.
End summary.

(** ** The properties *)

Section properties.
Context `{L : Ed2kLib} `{U : UnicodeTables}.

(** Decoding a search request terminates. The recursion needs no more
    than [parse_fuel maxDepth] steps of fuel whatever the body is (any larger
    amount gives the same answer), and when the request is refused the two
    recorded causes are real decoding errors, never exhausted fuel. *)
Theorem ParseSearchRequest_terminates {RL : Ed2kReaderLaws}
    (body : bytes) (maxDepth : Z) (fuel : nat) :
  0 < maxDepth -> (parse_fuel maxDepth <= fuel)%nat ->
  parseRecursiveSearchExpr fuel body 0 maxDepth =
    parseRecursiveSearchExpr (parse_fuel maxDepth) body 0 maxDepth /\
  parseRecursiveSearchExpr fuel body 0 maxDepth <> Err ErrFuel /\
  forall e, ParseSearchRequestLimited body maxDepth = Err e ->
    exists prefixErr legacyErr,
      e = ErrBoth prefixErr legacyErr /\ prefixErr <> ErrFuel /\ legacyErr <> ErrFuel.
Proof.
  unfold parse_fuel. intros Hm Hf. split_and!.
  - apply parseRecursiveSearchExpr_fuel; lia.
  - apply parseRecursiveSearchExpr_no_fuel. lia.
  - unfold ParseSearchRequestLimited. intros e He. case_match; [done|].
    destruct (Z.leb_spec maxDepth 0) as [|_]; [lia|].
    pose proof (parseRecursiveSearchRequest_no_fuel body maxDepth ltac:(lia)).
    pose proof (parseLegacySearchRequest_no_fuel body).
    repeat case_match; simplify_eq. eexists _, _. split_and!; [done|congruence..].
Qed.

(** Whatever request is accepted, its tree is well-formed (known boolean
    and numeric operators, supported tags, non-empty strings, 64-bit values),
    costs two bytes of the body per node, and is no higher than the limit
    unless the legacy form was used. *)
Theorem ParseSearchRequest_sound {RL : Ed2kReaderLaws}
    (body : bytes) (maxDepth : Z) (q : SearchQuery) :
  0 < maxDepth -> body <> [] -> ParseSearchRequestLimited body maxDepth = Ok q ->
  exists root, q = makeSearchQuery root /\ wf_expr root /\
    (2 * nodes root <= length body)%nat /\
    (Z.of_nat (height root) <= maxDepth \/ parseLegacySearchRequest body = Ok q).
Proof.
  intros Hm Hb. unfold ParseSearchRequestLimited, len.
  destruct body as [|b body]; [done|]. change (Z.of_nat (length (b :: body)) =? 0) with false.
  destruct (Z.leb_spec maxDepth 0) as [|_]; [lia|].
  destruct (parseRecursiveSearchRequest (b :: body) maxDepth) as [q'|] eqn:E.
  - intros Hq. simplify_eq. apply parseRecursiveSearchRequest_sound in E as (root & ?).
    exists root. naive_solver.
  - destruct (parseLegacySearchRequest (b :: body)) as [q'|] eqn:E'; intros Hq; simplify_eq.
    pose proof (parseLegacySearchRequest_sound _ _ E') as (root & ?).
    exists root. naive_solver.
Qed.

(** C1: every well-formed tree that fits the depth limit survives the trip:
    its recursive-prefix encoding is decoded back to exactly that tree, with
    its summary. *)
Theorem ParseSearchRequest_roundtrip {RL : Ed2kReaderLaws} {TL : Ed2kTagIDLaws}
    (e : searchExpr) (maxDepth : Z) :
  encodable e -> 0 < maxDepth -> Z.of_nat (height e) <= maxDepth ->
  ParseSearchRequestLimited (encode_expr e) maxDepth = Ok (makeSearchQuery e).
Proof.
  intros He Hm Hh. unfold ParseSearchRequestLimited, parseRecursiveSearchRequest.
  assert ((len (encode_expr e) =? 0) = false) as ->.
  { destruct e as [| | |? ? v| |]; try done. simpl. unfold encode_number. by case_match. }
  destruct (Z.leb_spec maxDepth 0) as [|_]; [lia|].
  rewrite <- (app_nil_r (encode_expr e)), encode_expr_parse by
    (done || lia || (unfold parse_fuel; lia)). done.
Qed.

(** The legacy linear form (a term, then operator-term pairs) is decoded
    to the left-associated tree of its terms. *)
Theorem ParseSearchRequest_legacy_roundtrip {RL : Ed2kReaderLaws} {TL : Ed2kTagIDLaws}
    (t : searchExpr) (ts : list (byte * searchExpr)) (maxDepth : Z) :
  is_term t -> encodable t ->
  Forall (fun '(op, u) => byteZ op <= byteZ searchBoolNotAnd /\ is_term u /\ encodable u) ts ->
  0 < maxDepth ->
  ParseSearchRequestLimited (encode_legacy t ts) maxDepth =
    Ok (makeSearchQuery (legacy_tree t ts)).
Proof.
  apply parse_encode_legacy.
Qed.

(** The depth limit does not bound the legacy form: for every limit and
    every [n] there is a body of [5 n + 3] bytes that is accepted with a tree
    of height [n]. *)
Theorem legacy_depth_unbounded {RL : Ed2kReaderLaws} {TL : Ed2kTagIDLaws}
    (maxDepth : Z) (n : nat) :
  0 < maxDepth ->
  exists body root, length body = (5 * n + 3)%nat /\
    ParseSearchRequestLimited body maxDepth = Ok (makeSearchQuery root) /\
    height root = n.
Proof.
  intros Hm. set (ts := replicate n (searchBoolAnd, searchMatchAllExpr)).
  exists (encode_legacy searchMatchAllExpr ts), (legacy_tree searchMatchAllExpr ts).
  split_and!.
  - unfold encode_legacy, ts. rewrite length_app. clear ts.
    induction n as [|n IH]; [done|]. cbn [replicate flat_map].
    rewrite length_app. simpl in *. lia.
  - apply parse_encode_legacy; [done..| |done]. apply Forall_replicate.
    split_and!; [vm_compute; done|done|done].
  - subst ts. rewrite legacy_tree_height by done. simpl. lia.
Qed.

(** The flat summary of a query is sound: when the whole tree is a
    conjunction ([summarized]), every record the tree accepts satisfies the
    flat filter built from it (keywords, size, source and media bounds). The
    side condition excludes extensions that start with two dots, which the
    flat filter would strip twice. *)
Theorem summary_sound (root : searchExpr) (record : FileRecord) :
  plain_extensions root ->
  sq_summarized (makeSearchQuery root) = true ->
  matchQuery (makeSearchQuery root) record = true ->
  matchesLegacySearch record (makeSearchQuery root) = true.
Proof.
  unfold makeSearchQuery, matchQuery. intros Hp.
  destruct (collectSummary root (query_of_root root)) as [q ok] eqn:E.
  simpl. intros -> Hm.
  assert (sq_Root q = Some root) as Hroot.
  { change (Some root) with (sq_Root (query_of_root root)).
    by apply (collectSummary_root _ _ _ _ E). }
  rewrite Hroot in Hm.
  pose proof (collectSummary_sound _ _ _ record Hp E Hm (flat_match_empty _ _)) as [].
  by apply matchesLegacySearch_flat.
Qed.

(** A numeric size filter compares like the mathematical numbers as long
    as the requested value fits a signed 64-bit integer; from 2^63 on the
    conversion wraps, so "at most" matches nothing and "at least" matches
    every record. *)
Theorem size_filter_range (record : FileRecord) (v : Z) :
  0 <= fr_Size record < 2 ^ 63 -> in_u 64 v ->
  let le := searchNumericExpr FTFileSize searchOpLessEqual v in
  let ge := searchNumericExpr FTFileSize searchOpGreaterEqual v in
  (v < 2 ^ 63 ->
     matchExpr le record = (fr_Size record <=? v) /\
     matchExpr ge record = (v <=? fr_Size record)) /\
  (2 ^ 63 <= v -> matchExpr le record = false /\ matchExpr ge record = true).
Proof.
  unfold in_u. intros Hs Hv. cbn [matchExpr]. unfold matchNumeric.
  rewrite byte_eqb_refl. unfold compareInt64. eval_eqb. split; intros Hb.
  - rewrite to_int64_id by (unfold in_s; lia). done.
  - assert (to_int64 v = v - 2 ^ 64) as ->.
    { unfold to_int64, wrap_s. change (64 - 1) with 63.
      replace ((v + 2 ^ 63) mod 2 ^ 64) with (v + 2 ^ 63 - 2 ^ 64); [lia|].
      apply (Z.mod_unique_pos _ _ 1); lia. }
    lia.
Qed.
End properties.

(** ** Witnesses *)

(** [holiday AND size <= 5000000000 AND type = Video], as a client sends it. *)
Definition example_expr : searchExpr :=
  searchCompoundExpr searchBoolAnd
    (searchKeywordExpr (lit "holiday"))
    (searchCompoundExpr searchBoolAnd
       (searchNumericExpr FTFileSize searchOpLessEqual 5000000000)
       (searchStringTagExpr FTFileType (lit "Video"))).

Definition example_record : FileRecord :=
  mkFile _ (replicate 16 x2a) (lit "Holiday-2026.mkv") 4000000000 (lit "video")
    (lit "mkv") [] 0 0 1 1 [].

Lemma ParseSearchRequest_terminates_witness :
  parseRecursiveSearchExpr 100 (lit "abc") 0 24 <> Err ErrFuel.
Proof.
  apply (ParseSearchRequest_terminates (lit "abc") 24 100); vm_compute; [done|lia].
Defined.

Lemma ParseSearchRequest_sound_witness :
  exists q root, ParseSearchRequestLimited (encode_expr example_expr) 24 = Ok q /\
    q = makeSearchQuery root /\ wf_expr root.
Proof.
  eexists. destruct (ParseSearchRequest_sound (encode_expr example_expr) 24 _
    ltac:(lia) ltac:(done) ltac:(vm_compute; reflexivity)) as (root & Hq & Hw & _).
  exists root. split; [vm_compute; reflexivity|]. by split.
Defined.

Lemma ParseSearchRequest_roundtrip_witness :
  ParseSearchRequestLimited (encode_expr example_expr) 24 = Ok (makeSearchQuery example_expr).
Proof.
  apply (ParseSearchRequest_roundtrip example_expr 24); [|lia|vm_compute; done].
  repeat split; try apply (bool_decide_unpack _); vm_compute; done.
Defined.

Lemma ParseSearchRequest_legacy_roundtrip_witness :
  ParseSearchRequestLimited
    (encode_legacy (searchKeywordExpr (lit "abc"))
       [(searchBoolOr, searchKeywordExpr (lit "def"))]) 24 =
  Ok (makeSearchQuery (searchCompoundExpr searchBoolOr (searchKeywordExpr (lit "abc"))
                         (searchKeywordExpr (lit "def")))).
Proof.
  apply (ParseSearchRequest_legacy_roundtrip (searchKeywordExpr (lit "abc"))
           [(searchBoolOr, searchKeywordExpr (lit "def"))] 24); [done| | |lia];
    repeat constructor; vm_compute; done.
Defined.

Lemma legacy_depth_unbounded_witness :
  exists body root, length body = 503%nat /\
    ParseSearchRequestLimited body 24 = Ok (makeSearchQuery root) /\ height root = 100%nat.
Proof. apply (legacy_depth_unbounded 24 100). lia. Defined.

Lemma summary_sound_witness :
  matchesLegacySearch example_record (makeSearchQuery example_expr) = true.
Proof. apply (summary_sound example_expr example_record); vm_compute; done. Defined.

Lemma size_filter_range_witness :
  matchExpr (searchNumericExpr FTFileSize searchOpLessEqual (2 ^ 63)) example_record = false.
Proof.
  apply (size_filter_range example_record (2 ^ 63)); vm_compute; intuition discriminate.
Defined.
