(* ===== verification/Catalog.v ===== *)
(** * The static catalog (ed2ksrv/catalog.go)

    The in-memory list of shared files with its hash map and its trigram index,
    and the operations on it: search, lookup, upsert, delete and replacement.
    Methods run under the catalog's lock, one at a time. The receiver is never
    nil ([NewServer] always installs a catalog), so the nil guards are left out;
    [Storage] holds what the stores do. *)

From S2P Require Import Prelude GoStrings Ed2kLib FileRecord Search.

Local Open Scope Z_scope.

(** The implementations of [catalogStore]: a JSON file, or a database table. *)
Inductive catalogStore :=
| jsonCatalogStore (path : bytes)
| sqlCatalogStore (backend tableName : bytes).

(** [Catalog]; file positions are list indices. *)
Record Catalog `{Ed2kLib} := mkCatalog {
  cat_path : bytes;
  cat_store : catalogStore;
  cat_files : list FileRecord;
  cat_byHash : gmap bytes FileRecord;
  cat_triIndex : gmap bytes (list nat)
}.

(** [uniqueTrigrams]: the distinct 3-byte substrings, in order of first
    occurrence. *)
Fixpoint trigram_loop (s : bytes) (seen : gset bytes) : list bytes :=
  match s with
  | a :: s' =>
    match s' with
    | b :: c :: _ =>
      let g := [a; b; c] in
      if decide (g ∈ seen) then trigram_loop s' seen
      else g :: trigram_loop s' ({[g]} ∪ seen)
    | _ => []
    end
  | [] => []
  end.

Definition uniqueTrigrams (s : bytes) : list bytes :=
  if len s <? 3 then [] else trigram_loop s ∅.

(** [counts[idx]++] for every posting. *)
Definition bump_counts (counts : gmap nat Z) (postings : list nat) : gmap nat Z :=
  foldl (fun m idx => <[idx := default 0 (m !! idx) + 1]> m) counts postings.

(** The counting loop of [searchCandidatesLocked]; [None] is its early return
    when a required trigram is absent. *)
Fixpoint count_grams (index : gmap bytes (list nat)) (grams : list bytes)
    (counts : gmap nat Z) : option (gmap nat Z) :=
  match grams with
  | [] => Some counts
  | g :: grams' =>
    match index !! g with
    | None => None
    | Some postings => count_grams index grams' (bump_counts counts postings)
    end
  end.

Section catalog.
Context `{L : Ed2kLib} `{U : UnicodeTables} `{M : MapIter}.

(** ** The trigram index *)

Definition name_grams (file : FileRecord) : list bytes :=
  uniqueTrigrams (ToLower (fr_Name file)).

Definition add_posting (idx : nat) (index : gmap bytes (list nat)) (g : bytes)
    : gmap bytes (list nat) :=
  <[g := default [] (index !! g) ++ [idx]]> index.

Fixpoint build_index (idx : nat) (files : list FileRecord) (index : gmap bytes (list nat))
    : gmap bytes (list nat) :=
  match files with
  | [] => index
  | file :: files' =>
    build_index (S idx) files' (foldl (add_posting idx) index (name_grams file))
  end.

Definition rebuildSearchIndexLocked (c : Catalog) : Catalog :=
  mkCatalog _ (cat_path c) (cat_store c) (cat_files c) (cat_byHash c) (build_index 0 (cat_files c) ∅).

(** ** Search *)

(** The longest usable keyword; the first one among equals. *)
Definition pick_key (keywords : list bytes) : bytes :=
  foldl (fun key kw =>
           let k := ToLower (TrimSpace kw) in
           if (3 <=? len k) && (len key <? len k) then k else key) [] keywords.

(** [None] is the nil result: scan all files. *)
Definition searchCandidatesLocked (c : Catalog) (query : SearchQuery) : option (list nat) :=
  if negb (sq_summarized query) || (size (cat_triIndex c) =? 0)%nat then None else
  let key := pick_key (sq_Keywords query) in
  if bytes_eqb key [] then None else
  let grams := uniqueTrigrams key in
  match count_grams (cat_triIndex c) grams ∅ with
  | None => Some []
  | Some counts =>
    Some (merge_sort (≤)%nat
            (omap (fun '(idx, n) => if n =? len grams then Some idx else None)
                  (range_map counts)))
  end.

Definition matchesRecord (record : FileRecord) (query : SearchQuery) : bool :=
  matchQuery query record.

(** The candidate loop; [None] is an index out of range, which panics. *)
Fixpoint search_at (files : list FileRecord) (query : SearchQuery) (candidates : list nat)
    : option (list SharedFileEntry) :=
  match candidates with
  | [] => Some []
  | idx :: candidates' =>
    match files !! idx, search_at files query candidates' with
    | Some record, Some results =>
      Some (if matchesRecord record query then makeSharedFileEntry record :: results
            else results)
    | _, _ => None
    end
  end.

Definition full_scan (files : list FileRecord) (query : SearchQuery)
    : list SharedFileEntry :=
  map makeSharedFileEntry
    (List.filter (fun record => matchesRecord record query) files).

Definition Catalog_Search (c : Catalog) (query : SearchQuery) : option (list SharedFileEntry) :=
  match searchCandidatesLocked c query with
  | None => Some (full_scan (cat_files c) query)
  | Some candidates => search_at (cat_files c) query candidates
  end.

(** ** Lookup *)

Definition Catalog_Path (c : Catalog) : bytes := cat_path c.

(** [Description] of either store. *)
Definition store_Description (store : catalogStore) : bytes :=
  match store with
  | jsonCatalogStore path => path
  | sqlCatalogStore backend tableName => backend ++ lit ":" ++ tableName
  end.

Definition Catalog_StoreDescription (c : Catalog) : bytes := store_Description (cat_store c).

Definition Catalog_Count (c : Catalog) : Z := len (cat_files c).

Definition Catalog_Snapshot (c : Catalog) : list FileRecord := cat_files c.

Definition Catalog_Get (c : Catalog) (hash : Hash) : option FileRecord :=
  cat_byHash c !! Hash_String hash.

Definition Catalog_Sources (c : Catalog) (hash : Hash) : list Endpoint :=
  match Catalog_Get c hash with
  | None => []
  | Some record =>
    omap (fun source => EndpointFromString (se_Host source) (se_Port source))
         (fr_Endpoints record)
  end.

(** ** Updates *)

(** [for idx := range c.files { if Equal { c.files[idx] = r; break } }] *)
Fixpoint replace_first (files : list FileRecord) (normalized : FileRecord)
    : list FileRecord :=
  match files with
  | [] => []
  | file :: files' =>
    if Hash_Equal (fr_Hash file) (fr_Hash normalized) then normalized :: files'
    else file :: replace_first files' normalized
  end.

Fixpoint delete_first (files : list FileRecord) (hash : Hash) : list FileRecord :=
  match files with
  | [] => []
  | file :: files' =>
    if Hash_Equal (fr_Hash file) hash then files' else file :: delete_first files' hash
  end.

Definition Catalog_Upsert (c : Catalog) (record : FileRecord) : result recordErr Catalog :=
  (let! normalized := normalizeFileRecord record in
   let key := Hash_String (fr_Hash normalized) in
   let files := match cat_byHash c !! key with
                | Some _ => replace_first (cat_files c) normalized
                | None => cat_files c ++ [normalized]
                end in
   Ok (rebuildSearchIndexLocked
         (mkCatalog _ (cat_path c) (cat_store c) files (<[key := normalized]> (cat_byHash c))
            (cat_triIndex c))))%go.

Definition Catalog_Delete (c : Catalog) (hash : Hash) : Catalog * bool :=
  let key := Hash_String hash in
  match cat_byHash c !! key with
  | None => (c, false)
  | Some _ =>
    (rebuildSearchIndexLocked
       (mkCatalog _ (cat_path c) (cat_store c) (delete_first (cat_files c) hash)
          (delete key (cat_byHash c)) (cat_triIndex c)), true)
  end.

(** The normalisation loop of [ReplaceAll]; the error carries the index. *)
Fixpoint normalize_all (idx : nat) (files : list FileRecord)
    : result (nat * recordErr) (list FileRecord) :=
  match files with
  | [] => Ok []
  | file :: files' =>
    match normalizeFileRecord file with
    | Err e => Err (idx, e)
    | Ok record => (let! records := normalize_all (S idx) files' in Ok (record :: records))%go
    end
  end.

Definition hash_map (files : list FileRecord) : gmap bytes FileRecord :=
  foldl (fun m record => <[Hash_String (fr_Hash record) := record]> m) ∅ files.

Definition Catalog_ReplaceAll (c : Catalog) (files : list FileRecord)
    : result (nat * recordErr) Catalog :=
  (let! normalized := normalize_all 0 files in
   Ok (rebuildSearchIndexLocked
         (mkCatalog _ (cat_path c) (cat_store c) normalized (hash_map normalized) (cat_triIndex c))))%go.

Definition NewCatalog (path : bytes) (files : list FileRecord)
    : result (nat * recordErr) Catalog :=
  Catalog_ReplaceAll (mkCatalog _ path (jsonCatalogStore path) [] ∅ ∅) files.
End catalog.
