(* ===== verification/CatalogFacts.v ===== *)
(** * Properties of the static catalog

    The trigram index, exactness of the indexed search, the catalog invariant
    and the functional behaviour of the updates. *)

From S2P Require Import Prelude GoStrings Ed2kLib Ed2kRef FileRecord Search SearchFacts Catalog.

Local Open Scope Z_scope.

(** ** Trigrams *)

(** [g] is a 3-byte substring of [s]. *)
Definition trigram_of (g s : bytes) : Prop := length g = 3%nat /\ Contains s g = true.

Lemma trigram_of_short g s : (length s < 3)%nat -> ~ trigram_of g s.
Proof.
  intros Hs [Hg (l & r & ->)%Contains_spec]. rewrite !length_app in Hs. lia.
Qed.

Lemma trigram_of_cons g a b c s :
  trigram_of g (a :: b :: c :: s) <-> g = [a; b; c] \/ trigram_of g (b :: c :: s).
Proof.
  unfold trigram_of. split.
  - intros [Hg H]. cbn [Contains] in H. apply orb_true_iff in H as [H|H]; [left|by right].
    destruct g as [|x [|y [|z [|]]]]; try done. cbn [has_prefix] in H.
    rewrite !andb_true_iff, !byte_eqb_eq in H. by destruct H as (-> & -> & -> & _).
  - intros [->|[Hg H]]; (split; [done|]); cbn [Contains].
    + cbn [has_prefix]. by rewrite !byte_eqb_refl.
    + cbn [Contains] in H. rewrite H. apply orb_true_r.
Qed.

Lemma trigram_loop_spec s seen :
  (forall g, g ∈ trigram_loop s seen <-> g ∉ seen /\ trigram_of g s) /\
  NoDup (trigram_loop s seen).
Proof.
  revert seen; induction s as [|a s IH]; intros seen.
  { split; [|constructor]. intros g. simpl. rewrite elem_of_nil. split; [done|].
    intros [_ Ht]. by apply trigram_of_short in Ht; [|simpl; lia]. }
  destruct s as [|b [|c t]]; [| |].
  1,2: split; [|constructor]; intros g; simpl; rewrite elem_of_nil; (split; [done|]);
    intros [_ Ht]; by apply trigram_of_short in Ht; [|simpl; lia].
  cbn [trigram_loop]. case_decide as Hd.
  - destruct (IH seen) as [Hm Hn]. split; [|done]. intros g.
    rewrite Hm, trigram_of_cons. split; [intros [? ?]; by auto|].
    intros [? [->|?]]; [done|by split].
  - destruct (IH ({[[a; b; c]]} ∪ seen)) as [Hm Hn]. split.
    + intros g. rewrite elem_of_cons, Hm, trigram_of_cons, not_elem_of_union,
        not_elem_of_singleton.
      destruct (decide (g = [a; b; c])) as [->|Hne]; tauto.
    + apply NoDup_cons. split; [|done]. rewrite Hm, not_elem_of_union, not_elem_of_singleton.
      tauto.
Qed.

Lemma uniqueTrigrams_spec s g : g ∈ uniqueTrigrams s <-> trigram_of g s.
Proof.
  unfold uniqueTrigrams. destruct (Z.ltb_spec (len s) 3) as [Hl|Hl]; unfold len in Hl.
  - rewrite elem_of_nil. split; [done|]. intros H. apply trigram_of_short in H; [done|lia].
  - rewrite (proj1 (trigram_loop_spec s ∅)). split; [by intros [_ ?]|].
    intros; split; [apply not_elem_of_empty|done].
Qed.

Lemma uniqueTrigrams_NoDup s : NoDup (uniqueTrigrams s).
Proof.
  unfold uniqueTrigrams. case_match; [constructor|apply trigram_loop_spec].
Qed.

Lemma uniqueTrigrams_nonempty s : 3 <= len s -> uniqueTrigrams s <> [].
Proof.
  unfold len. intros Hs Hn. destruct s as [|a [|b [|c s]]]; simpl in Hs; try lia.
  assert ([a; b; c] ∈ uniqueTrigrams (a :: b :: c :: s)) as Hin.
  { apply uniqueTrigrams_spec, trigram_of_cons. by left. }
  rewrite Hn in Hin. by apply elem_of_nil in Hin.
Qed.

(** A string that contains a keyword contains its trigrams. *)
Lemma Contains_trigrams s key g :
  Contains s key = true -> g ∈ uniqueTrigrams key -> g ∈ uniqueTrigrams s.
Proof.
  rewrite !uniqueTrigrams_spec. intros (l & r & ->)%Contains_spec [Hg (x & y & ->)%Contains_spec].
  split; [done|]. apply Contains_spec. exists (l ++ x), (y ++ r).
  by rewrite <- !app_assoc.
Qed.

(** ** The index *)

Section index.
Context `{L : Ed2kLib} `{U : UnicodeTables}.

(** The ascending positions of the files that satisfy [P]. *)
Fixpoint positions (P : FileRecord -> bool) (idx : nat) (files : list FileRecord) : list nat :=
  match files with
  | [] => []
  | file :: files' => (if P file then [idx] else []) ++ positions P (S idx) files'
  end.

Definition has_gram (g : bytes) (file : FileRecord) : bool :=
  bool_decide (g ∈ name_grams file).

Definition has_grams (grams : list bytes) (file : FileRecord) : bool :=
  forallb (fun g => has_gram g file) grams.

Lemma positions_ge P idx files i : i ∈ positions P idx files -> (idx <= i)%nat.
Proof.
  revert idx; induction files as [|f fs IH]; intros idx; cbn [positions].
  - by rewrite elem_of_nil.
  - rewrite elem_of_app. intros [H|H%IH]; [|lia].
    case_match; [|by apply elem_of_nil in H]. apply list_elem_of_singleton in H. lia.
Qed.

Lemma positions_spec P idx files i :
  i ∈ positions P idx files <->
  (idx <= i)%nat /\ exists file, files !! (i - idx)%nat = Some file /\ P file = true.
Proof.
  revert idx; induction files as [|f fs IH]; intros idx; cbn [positions].
  - rewrite elem_of_nil. split; [done|]. intros (_ & file & Hf & _).
    by rewrite lookup_nil in Hf.
  - rewrite elem_of_app, IH. split.
    + intros [H|(Hi & file & Hf & HP)].
      * destruct (P f) eqn:E; [|by apply elem_of_nil in H].
        apply list_elem_of_singleton in H as ->. split; [done|].
        exists f. by rewrite Nat.sub_diag.
      * split; [lia|]. exists file. split; [|done].
        replace (i - idx)%nat with (S (i - S idx)) by lia. done.
    + intros (Hi & file & Hf & HP). destruct (i - idx)%nat as [|k] eqn:E.
      * simpl in Hf. simplify_eq. left. rewrite HP. apply list_elem_of_singleton. lia.
      * right. split; [lia|]. exists file. by replace (i - S idx)%nat with k by lia.
Qed.

Lemma positions_sorted P idx files : StronglySorted lt (positions P idx files).
Proof.
  revert idx; induction files as [|f fs IH]; intros idx; cbn [positions]; [constructor|].
  case_match; [|apply IH]. constructor; [apply IH|].
  apply Forall_forall. intros i Hi%positions_ge. lia.
Qed.

Lemma foldl_add_posting idx grams index g :
  NoDup grams ->
  default [] (foldl (add_posting idx) index grams !! g) =
    default [] (index !! g) ++ (if bool_decide (g ∈ grams) then [idx] else []).
Proof.
  revert index; induction grams as [|h grams IH]; intros index Hnd; cbn [foldl].
  - by rewrite app_nil_r.
  - apply NoDup_cons in Hnd as [Hh Hnd]. rewrite IH by done. unfold add_posting.
    destruct (decide (g = h)) as [->|Hne].
    + rewrite lookup_insert_eq. rewrite bool_decide_eq_false_2 by done.
      rewrite (bool_decide_eq_true_2 (h ∈ h :: grams)) by apply elem_of_cons, or_introl, eq_refl.
      cbn. by rewrite app_nil_r.
    + rewrite lookup_insert_ne by done. f_equal.
      rewrite (bool_decide_ext (g ∈ grams) (g ∈ h :: grams)); [done|].
      rewrite elem_of_cons. tauto.
Qed.

(** Every posting list is exactly the list of files whose name has the gram. *)
Lemma build_index_spec idx files index g :
  default [] (build_index idx files index !! g) =
    default [] (index !! g) ++ positions (has_gram g) idx files.
Proof.
  revert idx index; induction files as [|f fs IH]; intros idx index; cbn [build_index positions].
  - by rewrite app_nil_r.
  - rewrite IH, foldl_add_posting by apply uniqueTrigrams_NoDup.
    by rewrite <- app_assoc.
Qed.

Definition no_empty_posting (index : gmap bytes (list nat)) : Prop :=
  forall g l, index !! g = Some l -> l <> [].

Lemma foldl_add_posting_no_empty idx grams index :
  no_empty_posting index -> no_empty_posting (foldl (add_posting idx) index grams).
Proof.
  revert index; induction grams as [|h grams IH]; intros index Hi; [done|]. cbn [foldl].
  apply IH. intros g l. unfold add_posting. rewrite lookup_insert. case_decide; [|apply Hi].
  intros [= <-] Hn. by apply app_eq_nil in Hn as [_ ?].
Qed.

Lemma build_index_no_empty idx files index :
  no_empty_posting index -> no_empty_posting (build_index idx files index).
Proof.
  revert idx index; induction files as [|f fs IH]; intros idx index Hi; [done|].
  cbn [build_index]. by apply IH, foldl_add_posting_no_empty.
Qed.
End index.

(** ** Counting *)

Lemma bump_counts_lookup postings m i :
  NoDup postings ->
  default 0 (bump_counts m postings !! i) =
    default 0 (m !! i) + (if bool_decide (i ∈ postings) then 1 else 0).
Proof.
  unfold bump_counts. revert m; induction postings as [|p ps IH]; intros m Hnd; cbn [foldl].
  - rewrite bool_decide_eq_false_2 by apply not_elem_of_nil. lia.
  - apply NoDup_cons in Hnd as [Hp Hnd]. rewrite IH by done.
    destruct (decide (i = p)) as [->|Hne].
    + rewrite lookup_insert_eq. cbn. rewrite bool_decide_eq_false_2 by done.
      rewrite bool_decide_eq_true_2 by (apply elem_of_cons; by left). lia.
    + rewrite lookup_insert_ne by done.
      rewrite (bool_decide_ext (i ∈ ps) (i ∈ p :: ps)); [done|].
      rewrite elem_of_cons. tauto.
Qed.

(** The number of grams whose posting list holds [i]. *)
Fixpoint hits (index : gmap bytes (list nat)) (grams : list bytes) (i : nat) : Z :=
  match grams with
  | [] => 0
  | g :: grams' =>
    (if bool_decide (i ∈ default [] (index !! g)) then 1 else 0) + hits index grams' i
  end.

Lemma hits_bound index grams i : 0 <= hits index grams i <= len grams.
Proof.
  unfold len. induction grams as [|g grams IH]; simpl length; cbn [hits]; [lia|].
  case_match; lia.
Qed.

Lemma hits_all index grams i :
  hits index grams i = len grams <-> Forall (fun g => i ∈ default [] (index !! g)) grams.
Proof.
  induction grams as [|g grams IH]; [split; [constructor|done]|].
  rewrite Forall_cons, <- IH, len_cons. cbn [hits].
  pose proof (hits_bound index grams i).
  case_bool_decide as Hi; split; intros Hh; try tauto; try lia.
  split; [done|lia].
Qed.

Lemma count_grams_spec index grams m :
  (forall g, NoDup (default [] (index !! g))) ->
  match count_grams index grams m with
  | None => exists g, g ∈ grams /\ index !! g = None
  | Some m' => forall i, default 0 (m' !! i) = default 0 (m !! i) + hits index grams i
  end.
Proof.
  intros Hnd. revert m; induction grams as [|g grams IH]; intros m; cbn [count_grams hits].
  { intros; lia. }
  destruct (index !! g) as [postings|] eqn:Hg.
  - specialize (IH (bump_counts m postings)). case_match.
    + intros i. rewrite IH, bump_counts_lookup; [simpl; lia|].
      specialize (Hnd g). by rewrite Hg in Hnd.
    + destruct IH as (h & ? & ?). exists h. split; [|done]. apply elem_of_cons. by right.
  - exists g. split; [|done]. apply elem_of_cons. by left.
Qed.

Lemma omap_keys_NoDup (k : Z) (l : list (nat * Z)) :
  NoDup l.*1 ->
  NoDup (omap (fun '(idx, n) => if n =? k then Some idx else None) l).
Proof.
  induction l as [|[idx n] l IH]; intros Hnd; [constructor|].
  apply NoDup_cons in Hnd as [Hx Hnd]. cbn. destruct (n =? k); [|by apply IH].
  apply NoDup_cons. split; [|by apply IH].
  rewrite list_elem_of_omap. intros ([idx' n'] & Hin & Hsome).
  case_match; simplify_eq/=. apply Hx. apply list_elem_of_fmap. eexists (_, n'). by split; [|exact Hin].
Qed.

Lemma StronglySorted_lt_le l : StronglySorted lt l -> StronglySorted le l.
Proof.
  induction 1; constructor; [done|]. eapply Forall_impl; [done|]. simpl. lia.
Qed.

Lemma StronglySorted_lt_NoDup l : StronglySorted lt l -> NoDup l.
Proof.
  induction 1 as [|x l Hs IH Hf]; constructor; [|done].
  intros Hin. rewrite Forall_forall in Hf. specialize (Hf _ Hin). lia.
Qed.

(** ** The candidates *)

Section candidates.
Context `{L : Ed2kLib} `{U : UnicodeTables} `{M : MapIter} {ML : MapIterLaws}.

(** The index describes the file list. *)
Definition index_ok (c : Catalog) : Prop := cat_triIndex c = build_index 0 (cat_files c) ∅.

Lemma index_lookup c g :
  index_ok c -> default [] (cat_triIndex c !! g) = positions (has_gram g) 0 (cat_files c).
Proof. intros ->. by rewrite build_index_spec, lookup_empty. Qed.

Lemma positions_has_grams grams files i :
  i ∈ positions (has_grams grams) 0 files <->
  (i < length files)%nat /\ Forall (fun g => i ∈ positions (has_gram g) 0 files) grams.
Proof.
  rewrite positions_spec, Nat.sub_0_r. split.
  - intros (_ & file & Hf & Hg). split; [by eapply lookup_lt_Some|].
    apply Forall_forall. intros g Hin. apply positions_spec. rewrite Nat.sub_0_r.
    split; [lia|]. exists file. split; [done|]. unfold has_grams in Hg.
    rewrite forallb_forall in Hg. by apply Hg, list_elem_of_In.
  - intros [Hi HF]. apply lookup_lt_is_Some_2 in Hi as [file Hf]. split; [lia|].
    exists file. split; [done|]. apply forallb_forall. intros g Hin.
    rewrite Forall_forall in HF. apply list_elem_of_In, HF in Hin.
    apply positions_spec in Hin as (_ & file' & Hf' & Hg).
    rewrite Nat.sub_0_r in Hf'. by simplify_eq.
Qed.

Lemma count_grams_candidates c grams counts :
  index_ok c -> grams <> [] -> count_grams (cat_triIndex c) grams ∅ = Some counts ->
  merge_sort le (omap (fun '(idx, n) => if n =? len grams then Some idx else None)
                      (range_map counts)) =
  positions (has_grams grams) 0 (cat_files c).
Proof.
  intros Hix Hne Hc.
  assert (forall i, default 0 (counts !! i) = hits (cat_triIndex c) grams i) as Hcnt.
  { intros i. pose proof (count_grams_spec (cat_triIndex c) grams ∅) as Hspec.
    rewrite Hc in Hspec. rewrite Hspec, lookup_empty; [done|].
    intros g. rewrite index_lookup by done.
    apply StronglySorted_lt_NoDup, positions_sorted. }
  apply (StronglySorted_unique le).
  - apply StronglySorted_merge_sort; apply _.
  - apply StronglySorted_lt_le, positions_sorted.
  - rewrite merge_sort_Permutation. apply NoDup_Permutation.
    + apply omap_keys_NoDup.
      rewrite (Permutation_map fst (range_map_perm counts)). apply NoDup_fst_map_to_list.
    + apply StronglySorted_lt_NoDup, positions_sorted.
    + intros i. rewrite list_elem_of_omap, positions_has_grams.
      assert ((exists x, x ∈ range_map counts /\
                (let '(idx, n) := x in if n =? len grams then Some idx else None) = Some i)
              <-> counts !! i = Some (len grams)) as ->.
      { split.
        - intros ([idx n] & Hin & Hsome). rewrite range_map_perm in Hin.
          apply elem_of_map_to_list in Hin. case_match eqn:E; simplify_eq.
          apply Z.eqb_eq in E as ->. done.
        - intros Hi. exists (i, len grams). rewrite range_map_perm.
          split; [by apply elem_of_map_to_list|]. by rewrite Z.eqb_refl. }
      assert (0 < len grams) by (destruct grams; [done|unfold len; simpl; lia]).
      assert (counts !! i = Some (len grams) <-> hits (cat_triIndex c) grams i = len grams) as ->.
      { rewrite <- Hcnt. destruct (counts !! i) as [n|]; simpl.
        - split; [by intros [= ->]|by intros ->].
        - split; [done|lia]. }
      rewrite hits_all. rewrite !Forall_forall.
      setoid_rewrite (index_lookup c _ Hix). split; [|tauto]. intros HF. split; [|done].
      destruct grams as [|g grams]; [done|]. specialize (HF g ltac:(apply elem_of_cons; by left)).
      apply positions_spec in HF as (_ & file & Hf & _). rewrite Nat.sub_0_r in Hf.
      by eapply lookup_lt_Some.
Qed.

Lemma count_grams_missing c grams :
  index_ok c -> count_grams (cat_triIndex c) grams ∅ = None ->
  positions (has_grams grams) 0 (cat_files c) = [].
Proof.
  intros Hix Hc. pose proof (count_grams_spec (cat_triIndex c) grams ∅) as Hspec.
  rewrite Hc in Hspec. destruct Hspec as (g & Hin & Hg).
  { intros g. rewrite index_lookup by done. apply StronglySorted_lt_NoDup, positions_sorted. }
  apply elem_of_nil_inv. intros i Hi%positions_has_grams. destruct Hi as [_ HF].
  rewrite Forall_forall in HF. specialize (HF g Hin).
  rewrite <- index_lookup, Hg in HF by done. by apply elem_of_nil in HF.
Qed.
End candidates.

(** ** Indexed search *)

(** A keyword that [keywordMatchesRecord] may compare with the file hash. *)
Definition is_hash_token (k : bytes) : bool :=
  let t := TrimPrefix k (lit "ed2k::") in
  (len t =? 32) && forallb is_lower_hex (runes t).

Section search.
Context `{L : Ed2kLib} `{U : UnicodeTables} `{M : MapIter} {ML : MapIterLaws}.

(** The key the index is asked for, if it is used at all. *)
Definition index_key (c : Catalog) (query : SearchQuery) : option bytes :=
  if negb (sq_summarized query) || (size (cat_triIndex c) =? 0)%nat then None
  else if bytes_eqb (pick_key (sq_Keywords query)) [] then None
  else Some (pick_key (sq_Keywords query)).

Lemma pick_key_spec keywords key0 key :
  foldl (fun key kw =>
           let k := ToLower (TrimSpace kw) in
           if (3 <=? len k) && (len key <? len k) then k else key) key0 keywords = key ->
  key = key0 \/ (3 <= len key /\ exists kw, kw ∈ keywords /\ key = ToLower (TrimSpace kw)).
Proof.
  intros <-. cbv zeta.
  revert key0; induction keywords as [|kw kws IH]; intros key0; cbn [foldl]; [by left|].
  destruct (IH (if (3 <=? len (ToLower (TrimSpace kw))) && (len key0 <? len (ToLower (TrimSpace kw)))
                then ToLower (TrimSpace kw) else key0)) as [Hk|(H3 & kw' & Hin & Hk)].
  - rewrite Hk. destruct (Z.leb_spec 3 (len (ToLower (TrimSpace kw)))); simpl; [|by left].
    destruct (_ <? _); [|by left]. right. split; [done|]. exists kw.
    split; [apply elem_of_cons; by left|done].
  - right. split; [done|]. exists kw'. split; [apply elem_of_cons; by right|done].
Qed.

Lemma index_key_spec c query key :
  index_key c query = Some key ->
  3 <= len key /\ exists kw, kw ∈ sq_Keywords query /\ key = ToLower (TrimSpace kw).
Proof.
  unfold index_key. intros H. case_match; [done|].
  destruct (bytes_eqb (pick_key (sq_Keywords query)) []) eqn:E; [done|].
  injection H as <-. apply bytes_eqb_neq in E.
  by destruct (pick_key_spec (sq_Keywords query) [] _ eq_refl) as [?|?].
Qed.

Lemma search_at_positions P pre files query :
  search_at (pre ++ files) query (positions P (length pre) files) =
  Some (map makeSharedFileEntry
          (List.filter (fun r => P r && matchesRecord r query) files)).
Proof.
  revert pre; induction files as [|f fs IH]; intros pre; [done|].
  cbn [positions List.filter].
  assert (search_at (pre ++ f :: fs) query (positions P (S (length pre)) fs) =
    Some (map makeSharedFileEntry (List.filter (fun r => P r && matchesRecord r query) fs)))
    as IH'.
  { specialize (IH (pre ++ [f])). rewrite <- app_assoc, length_app in IH.
    simpl length in IH. by rewrite Nat.add_1_r in IH. }
  destruct (P f); [|done]. cbn [app search_at andb].
  rewrite lookup_app_r, Nat.sub_diag by lia. cbn [lookup list_lookup].
  rewrite IH'. by destruct (matchesRecord f query).
Qed.

(** The search never panics, and the index restricts the scan to the files
    whose name has all trigrams of the key. *)
Lemma Catalog_Search_eq c query :
  index_ok c ->
  Catalog_Search c query =
  Some (match index_key c query with
        | None => full_scan (cat_files c) query
        | Some key =>
          map makeSharedFileEntry
            (List.filter (fun r => has_grams (uniqueTrigrams key) r && matchesRecord r query)
                         (cat_files c))
        end).
Proof.
  intros Hix. pose proof (index_key_spec c query) as Hkey.
  unfold Catalog_Search, searchCandidatesLocked, index_key in *.
  destruct (negb (sq_summarized query) || _); [done|].
  destruct (bytes_eqb (pick_key (sq_Keywords query)) []); [done|].
  destruct (Hkey _ eq_refl) as [Hlen _].
  set (grams := uniqueTrigrams (pick_key (sq_Keywords query))).
  assert (grams <> []) as Hne by by apply uniqueTrigrams_nonempty.
  rewrite <- (search_at_positions (has_grams grams) [] (cat_files c) query). cbn [app length].
  destruct (count_grams (cat_triIndex c) grams ∅) as [counts|] eqn:Hc.
  - by rewrite (count_grams_candidates c grams counts).
  - by rewrite (count_grams_missing c grams).
Qed.

Lemma filter_ext_in_bool {A} (P Q : A -> bool) l :
  (forall x, x ∈ l -> P x = Q x) -> List.filter P l = List.filter Q l.
Proof.
  intros H. apply List.filter_ext_in. intros x Hx. by apply H, list_elem_of_In.
Qed.

Lemma keyword_has_grams r kw :
  keywordMatchesRecord r kw = true -> is_hash_token (ToLower (TrimSpace kw)) = false ->
  has_grams (uniqueTrigrams (ToLower (TrimSpace kw))) r = true.
Proof.
  unfold keywordMatchesRecord, is_hash_token. intros Hm Hh.
  apply forallb_forall. intros g Hg%list_elem_of_In. apply bool_decide_eq_true_2.
  destruct (bytes_eqb (ToLower (TrimSpace kw)) []) eqn:E.
  { apply bytes_eqb_eq in E. rewrite E in Hg. by apply elem_of_nil in Hg. }
  destruct (Contains _ _) eqn:Ec; [by apply (Contains_trigrams _ _ _ Ec)|].
  destruct (len _ =? 32); [|done]. simpl in *. by rewrite Hh in Hm.
Qed.

(** Every keyword of a summarized tree is required. *)
Lemma collectSummary_keywords e q q' r kw :
  collectSummary e q = (q', true) -> matchExpr e r = true ->
  kw ∈ sq_Keywords q' -> kw ∈ sq_Keywords q \/ keywordMatchesRecord r kw = true.
Proof.
  revert q q'; induction e as [op l IHl rr IHr|v|t v|t op v| |]; intros q q' Hc Hm Hin;
    cbn [collectSummary matchExpr] in *.
  - destruct (byte_eqb op searchBoolAnd) eqn:Hop; [|done]. cbn [negb] in Hc.
    destruct (collectSummary l q) as [q1 ok1] eqn:E1.
    destruct (collectSummary rr q1) as [q2 ok2] eqn:E2. injection Hc as <- Hok.
    apply andb_true_iff in Hok as [-> ->].
    unfold boolOperator in Hm. rewrite Hop in Hm. apply andb_true_iff in Hm as [Hml Hmr].
    destruct (IHr _ _ E2 Hmr Hin) as [Hin1|]; [|by right]. by apply (IHl q q1).
  - injection Hc as <-. simpl in Hin. apply elem_of_app in Hin as [?|Hin]; [by left|].
    right. by apply list_elem_of_singleton in Hin as ->.
  - unfold collectStringTag in Hc. repeat case_match; simplify_eq; by left.
  - unfold collectNumeric in Hc. repeat case_match; simplify_eq; by left.
  - simplify_eq. by left.
  - done.
Qed.

Lemma makeSearchQuery_keyword root r kw :
  sq_summarized (makeSearchQuery root) = true ->
  matchesRecord r (makeSearchQuery root) = true ->
  kw ∈ sq_Keywords (makeSearchQuery root) -> keywordMatchesRecord r kw = true.
Proof.
  unfold makeSearchQuery, matchesRecord, matchQuery.
  destruct (collectSummary root (query_of_root root)) as [q ok] eqn:E.
  pose proof (collectSummary_root _ _ _ _ E) as Hroot. simpl. rewrite Hroot. simpl.
  intros -> Hm Hin.
  destruct (collectSummary_keywords _ _ _ r kw E Hm Hin) as [Hn|]; [|done].
  by apply elem_of_nil in Hn.
Qed.

(** [Search] never indexes out of range, and on every query, whatever its
    keywords, it returns an in-order sublist of the full scan. *)
Lemma Catalog_Search_total c query :
  index_ok c ->
  exists results, Catalog_Search c query = Some results /\
                  results `sublist_of` full_scan (cat_files c) query.
Proof.
  intros Hix. rewrite Catalog_Search_eq by done. eexists. split; [done|].
  destruct (index_key c query) as [key|]; [|done].
  unfold full_scan. induction (cat_files c) as [|f fs IH]; [done|]. cbn [List.filter].
  destruct (has_grams _ f), (matchesRecord f query); cbn [andb map];
    (by apply sublist_skip) || (by apply sublist_cons) || done.
Qed.

(** C2: the trigram index is transparent: a query built from any expression
    tree, none of whose keywords is a hash token, finds exactly the files a
    full scan finds, in the same order. *)
Theorem Catalog_Search_exact c root :
  index_ok c ->
  forallb (fun kw => negb (is_hash_token (ToLower (TrimSpace kw))))
          (sq_Keywords (makeSearchQuery root)) = true ->
  Catalog_Search c (makeSearchQuery root) =
    Some (full_scan (cat_files c) (makeSearchQuery root)).
Proof.
  intros Hix Htok. rewrite Catalog_Search_eq by done.
  destruct (index_key c (makeSearchQuery root)) as [key|] eqn:Hkey; [|done].
  pose proof (index_key_spec _ _ _ Hkey) as (_ & kw & Hin & ->).
  unfold full_scan. do 2 f_equal. apply filter_ext_in_bool. intros r _.
  destruct (matchesRecord r (makeSearchQuery root)) eqn:Hm; [|apply andb_false_r].
  rewrite andb_true_r. apply keyword_has_grams.
  - apply (makeSearchQuery_keyword root); [|done|done].
    unfold index_key in Hkey. by destruct (sq_summarized _).
  - rewrite forallb_forall in Htok. apply list_elem_of_In, Htok in Hin.
    by apply negb_true_iff in Hin.
Qed.
End search.

(** ** Updates *)

(** The key of a record in the hash map. *)
Definition key_of `{Ed2kLib} (r : FileRecord) : bytes := Hash_String (fr_Hash r).

(** What [normalizeFileRecord] guarantees. *)
Definition valid_record `{Ed2kLib} (r : FileRecord) : Prop :=
  Hash_IsZero (fr_Hash r) = false /\ fr_Name r <> [] /\ 0 < fr_Size r /\
  first_bad_endpoint 0 (fr_Endpoints r) = None /\
  0 <= fr_Sources r /\ 0 <= fr_CompleteSources r /\
  (fr_Endpoints r <> [] -> 0 < fr_Sources r /\ 0 < fr_CompleteSources r).

(** The catalog invariant: one file per hash, the hash map and the list agree,
    the index describes the list, and every record is valid. *)
Record catalog_ok `{Ed2kLib} `{UnicodeTables} (c : Catalog) : Prop := {
  ok_NoDup : NoDup (map key_of (cat_files c));
  ok_byHash : forall k r, cat_byHash c !! k = Some r <-> r ∈ cat_files c /\ key_of r = k;
  ok_index : index_ok c;
  ok_valid : Forall valid_record (cat_files c)
}.

Section updates.
Context `{L : Ed2kLib} {HL : Ed2kHashLaws} `{U : UnicodeTables}.

Lemma normalizeFileRecord_ok record r :
  normalizeFileRecord record = Ok r ->
  fr_Hash r = fr_Hash record /\ fr_Endpoints r = fr_Endpoints record /\
  fr_Size r = fr_Size record /\ fr_Name r = TrimSpace (fr_Name record) /\ valid_record r.
Proof.
  unfold normalizeFileRecord, valid_record. intros H.
  destruct (Hash_IsZero (fr_Hash record)) eqn:E1; [done|].
  destruct (bytes_eqb (TrimSpace (fr_Name record)) []) eqn:E2; [done|].
  apply bytes_eqb_neq in E2.
  destruct (Z.leb_spec (fr_Size record) 0); [done|].
  destruct (first_bad_endpoint 0 (fr_Endpoints record)) eqn:E3; [done|].
  injection H as <-. simpl. do 5 (split; [done|]).
  assert (fr_Endpoints record <> [] -> 0 < len (fr_Endpoints record)).
  { destruct (fr_Endpoints record); [done|]. rewrite len_cons. intros _.
    pose proof (len_nonneg l). lia. }
  pose proof (len_nonneg (fr_Endpoints record)).
  repeat split; try done;
    destruct (Z.leb_spec (fr_Sources record) 0), (Z.leb_spec (fr_CompleteSources record) 0);
    tauto || lia.
Qed.

Lemma Hash_Equal_key (f : FileRecord) h :
  Hash_Equal (fr_Hash f) h = bytes_eqb (key_of f) (Hash_String h).
Proof.
  apply eq_true_iff_eq. by rewrite Hash_Equal_String, bytes_eqb_eq.
Qed.

Lemma elem_of_keys (files : list FileRecord) k :
  k ∈ map key_of files <-> exists f, f ∈ files /\ key_of f = k.
Proof.
  rewrite list_elem_of_In, in_map_iff. by setoid_rewrite list_elem_of_In; firstorder.
Qed.

Lemma key_unique (files : list FileRecord) f g :
  NoDup (map key_of files) -> f ∈ files -> g ∈ files -> key_of f = key_of g -> f = g.
Proof.
  induction files as [|x fs IH]; intros Hnd Hf Hg Hk; [by apply elem_of_nil in Hf|].
  simpl in Hnd. apply NoDup_cons in Hnd as [Hx Hnd].
  assert (forall y, y ∈ fs -> key_of y <> key_of x) as Hne.
  { intros y Hy Hyx. apply Hx. rewrite <- Hyx. apply list_elem_of_In, in_map.
    by apply list_elem_of_In. }
  apply elem_of_cons in Hf as [->|Hf]; apply elem_of_cons in Hg as [->|Hg].
  - done.
  - by destruct (Hne g Hg).
  - by destruct (Hne f Hf).
  - by apply IH.
Qed.

(** Replacing keeps the keys and swaps the one record in place. *)
Lemma replace_first_spec files n :
  NoDup (map key_of files) -> key_of n ∈ map key_of files ->
  map key_of (replace_first files n) = map key_of files /\
  forall f, f ∈ replace_first files n <-> f = n \/ (f ∈ files /\ key_of f <> key_of n).
Proof.
  induction files as [|x fs IH]; intros Hnd Hin; [by apply elem_of_nil in Hin|].
  simpl in Hnd, Hin. apply NoDup_cons in Hnd as [Hx Hnd]. cbn [replace_first].
  rewrite Hash_Equal_key. fold (key_of n).
  destruct (bytes_eqb (key_of x) (key_of n)) eqn:E.
  - apply bytes_eqb_eq in E. cbn [map]. rewrite E. split; [done|]. intros f.
    rewrite !elem_of_cons. split.
    + intros [->|Hf]; [by left|right]. split; [by right|].
      intros Hk. apply Hx, elem_of_keys. exists f. by rewrite E.
    + intros [->|[[->|Hf] Hk]]; [by left|done|by right].
  - apply bytes_eqb_neq in E. apply elem_of_cons in Hin as [Hin|Hin]; [done|].
    destruct (IH Hnd Hin) as [Hk Hm]. cbn [map]. rewrite Hk. split; [done|]. intros f.
    rewrite !elem_of_cons, Hm. split; [|tauto].
    intros [->|[->|?]]; [right; by split; [left|]|by left|tauto].
Qed.

Lemma delete_first_spec files h :
  NoDup (map key_of files) ->
  NoDup (map key_of (delete_first files h)) /\
  (forall f, f ∈ delete_first files h <-> f ∈ files /\ key_of f <> Hash_String h).
Proof.
  induction files as [|x fs IH]; intros Hnd.
  { split; [done|]. intros f. simpl. rewrite elem_of_nil. tauto. }
  simpl in Hnd. apply NoDup_cons in Hnd as [Hx Hnd]. cbn [delete_first].
  rewrite Hash_Equal_key. destruct (IH Hnd) as [IHn IHm].
  destruct (bytes_eqb (key_of x) (Hash_String h)) eqn:E.
  - apply bytes_eqb_eq in E. split; [done|]. intros f. rewrite elem_of_cons. split.
    + intros Hf. split; [by right|]. intros Hk. apply Hx, elem_of_keys. exists f. by rewrite E.
    + intros [[->|Hf] Hk]; done.
  - apply bytes_eqb_neq in E. cbn [map]. split.
    + apply NoDup_cons. split; [|done]. intros (f & Hf & Hk)%elem_of_keys.
      apply Hx, elem_of_keys. exists f. rewrite IHm in Hf. by destruct Hf.
    + intros f. rewrite !elem_of_cons, IHm. split; [|tauto].
      intros [->|?]; [by split; [left|]|tauto].
Qed.

(** The rebuilt index always describes the list. *)
Lemma rebuild_ok path store files byHash tri :
  NoDup (map key_of files) ->
  (forall k r, byHash !! k = Some r <-> r ∈ files /\ key_of r = k) ->
  Forall valid_record files ->
  catalog_ok (rebuildSearchIndexLocked (mkCatalog _ path store files byHash tri)).
Proof. intros. by constructor. Qed.

Lemma hash_map_spec files :
  NoDup (map key_of files) ->
  forall k r, hash_map files !! k = Some r <-> r ∈ files /\ key_of r = k.
Proof.
  intros Hnd k r. unfold hash_map.
  assert (forall m : gmap bytes FileRecord, foldl (fun m record => <[Hash_String (fr_Hash record) := record]> m) m files
                    !! k = Some r <->
                    (r ∈ files /\ key_of r = k) \/ (k ∉ map key_of files /\ m !! k = Some r)) as Hg.
  { revert Hnd. induction files as [|x fs IH]; intros Hnd m; cbn [foldl map].
    - rewrite !elem_of_nil. tauto.
    - simpl in Hnd. apply NoDup_cons in Hnd as [Hx Hnd]. rewrite IH by done.
      fold (key_of x). rewrite lookup_insert, !elem_of_cons.
      assert (key_of r = k -> r ∈ fs -> k ∈ map key_of fs) as Hrk.
      { intros. apply elem_of_keys. by exists r. }
      case_decide as Hk.
      + rewrite Hk in Hx. split.
        * intros [[? ?]|[? [= ->]]]; left; [tauto|]. split; [by left|done].
        * intros [[[->|?] ?]|[Hn _]]; [by right|by left|]. destruct Hn. by left.
      + split; [intros [?|[? ?]]; [left; tauto|]|].
        * right. split; [|done]. intros [?|?]; congruence.
        * intros [[[->|?] ?]|[? ?]]; [done|left; tauto|right; tauto]. }
  rewrite Hg, lookup_empty. split; [intros [?|[? ?]]; done|by left].
Qed.

Lemma normalize_all_ok idx files rs :
  normalize_all idx files = Ok rs ->
  Forall2 (fun f r => normalizeFileRecord f = Ok r) files rs.
Proof.
  revert idx rs; induction files as [|f fs IH]; intros idx rs; cbn [normalize_all].
  - intros [= <-]. constructor.
  - destruct (normalizeFileRecord f) as [r|e] eqn:E; [|done].
    intros H. inv_ok. constructor; [done|by eapply IH].
Qed.

Lemma normalize_all_keys files rs :
  Forall2 (fun f r => normalizeFileRecord f = Ok r) files rs ->
  map key_of rs = map key_of files /\ Forall valid_record rs.
Proof.
  induction 1 as [|f r fs rs Hf _ [IHk IHv]]; [done|].
  apply normalizeFileRecord_ok in Hf as (Hh & _ & _ & _ & Hv). cbn [map]. split.
  - unfold key_of at 1 3. by rewrite IHk, Hh.
  - by constructor.
Qed.

Lemma Upsert_invariant c record c' :
  catalog_ok c -> Catalog_Upsert c record = Ok c' -> catalog_ok c'.
Proof.
  intros [Hnd Hby Hix Hv] H. unfold Catalog_Upsert in H. inv_ok. rename a into n.
  apply normalizeFileRecord_ok in E as (_ & _ & _ & _ & Hn).
  fold (key_of n). destruct (cat_byHash c !! key_of n) as [old|] eqn:Hold.
  - apply Hby in Hold as [Hin Hkey].
    destruct (replace_first_spec (cat_files c) n Hnd) as [Hks Hm].
    { apply elem_of_keys. by exists old. }
    apply rebuild_ok; [by rewrite Hks| |].
    + intros k r. rewrite Hm, lookup_insert. case_decide as Hk.
      * split; [intros [= <-]; auto|]. intros [[->|[? Hne]] ?]; [done|congruence].
      * rewrite Hby. split; [intros [? ?]; split; [right; split|]; congruence|].
        intros [[->|[? ?]] ?]; [done|by split].
    + rewrite Forall_forall in *. intros f [->|[? _]]%Hm; [done|by apply Hv].
  - assert (forall f, f ∈ cat_files c -> key_of f <> key_of n) as Hnew.
    { intros f Hf Hk. assert (cat_byHash c !! key_of n = Some f) as Hc by by apply Hby.
      by rewrite Hold in Hc. }
    apply rebuild_ok.
    + rewrite map_app. apply NoDup_app. split; [done|]. split; [|apply NoDup_singleton].
      intros k (f & Hf & Hk)%elem_of_keys Hin. apply list_elem_of_singleton in Hin.
      apply (Hnew f Hf). congruence.
    + intros k r. rewrite elem_of_app, list_elem_of_singleton, lookup_insert.
      case_decide as Hk.
      * split; [intros [= <-]; auto|]. intros [[?| ->] ?]; [|done].
        exfalso. by apply (Hnew r); [|congruence].
      * rewrite Hby. split; [intros [? ?]; auto|]. intros [[?| ->] ?]; done.
    + apply Forall_app. split; [done|by constructor].
Qed.

Lemma Delete_invariant c h :
  catalog_ok c -> catalog_ok (Catalog_Delete c h).1.
Proof.
  intros Hok. unfold Catalog_Delete.
  destruct (cat_byHash c !! Hash_String h) as [old|] eqn:Hold; [|done].
  destruct Hok as [Hnd Hby Hix Hv].
  destruct (delete_first_spec (cat_files c) h Hnd) as [Hks Hm]. apply rebuild_ok.
  - done.
  - intros k r. rewrite lookup_delete, Hm. case_decide as Hk.
    + split; [done|]. intros [[? ?] ?]. congruence.
    + rewrite Hby. split; [intros [? ?]; split; [split|]; congruence|tauto].
  - rewrite Forall_forall in *. intros f [? _]%Hm. by apply Hv.
Qed.

Lemma ReplaceAll_invariant c files c' :
  NoDup (map key_of files) -> Catalog_ReplaceAll c files = Ok c' -> catalog_ok c'.
Proof.
  intros Hnd H. unfold Catalog_ReplaceAll in H. inv_ok.
  apply normalize_all_ok, normalize_all_keys in E as [Hk Hv].
  rewrite <- Hk in Hnd. apply rebuild_ok; [done|by apply hash_map_spec|done].
Qed.
End updates.

(** ** The catalog as a finite map *)

(** The operations of the admin API and of the client protocol; a failing
    operation leaves the catalog as it was. *)
Inductive catalog_op `{Ed2kLib} :=
| OpUpsert (record : FileRecord)
| OpDelete (h : Hash)
| OpReplaceAll (files : list FileRecord).

Section operations.
Context `{L : Ed2kLib} {HL : Ed2kHashLaws} `{U : UnicodeTables}.

Definition run_op (c : Catalog) (op : catalog_op) : Catalog :=
  match op with
  | OpUpsert record => match Catalog_Upsert c record with Ok c' => c' | Err _ => c end
  | OpDelete h => (Catalog_Delete c h).1
  | OpReplaceAll files => match Catalog_ReplaceAll c files with Ok c' => c' | Err _ => c end
  end.

(** Bulk loads name every hash once. *)
Definition distinct_hashes (op : catalog_op) : Prop :=
  match op with OpReplaceAll files => NoDup (map key_of files) | _ => True end.

Lemma run_op_ok c op : catalog_ok c -> distinct_hashes op -> catalog_ok (run_op c op).
Proof.
  intros Hc Hd. destruct op as [record|h|files]; cbn [run_op].
  - destruct (Catalog_Upsert c record) eqn:E; [|done]. by eapply Upsert_invariant.
  - by apply Delete_invariant.
  - destruct (Catalog_ReplaceAll c files) eqn:E; [|done]. by eapply ReplaceAll_invariant.
Qed.

(** C3: every catalog that [NewCatalog] builds from records with distinct
    hashes, and every catalog reached from it by any sequence of upserts,
    deletes and bulk replacements (of distinct hashes), satisfies the catalog
    invariant: one file per hash, list, hash map and trigram index in
    agreement, every record valid. *)
Theorem catalog_reachable_ok path files c ops :
  NoDup (map key_of files) -> NewCatalog path files = Ok c -> Forall distinct_hashes ops ->
  catalog_ok (foldl run_op c ops).
Proof.
  intros Hnd Hnew. apply ReplaceAll_invariant in Hnew; [|done].
  revert c Hnew. induction ops as [|op ops IH]; intros c Hc Hops; [done|].
  apply Forall_cons in Hops as [Hop Hops]. by apply IH; [apply run_op_ok|].
Qed.

Lemma Get_files c h r :
  catalog_ok c -> (Catalog_Get c h = Some r <-> r ∈ cat_files c /\ key_of r = Hash_String h).
Proof. intros Hc. unfold Catalog_Get. by rewrite (ok_byHash _ Hc). Qed.

(** What lookups see after an upsert and after a deletion. *)
Lemma Upsert_get c record c' :
  Catalog_Upsert c record = Ok c' ->
  exists n, normalizeFileRecord record = Ok n /\
    forall h, Catalog_Get c' h = if Hash_Equal (fr_Hash record) h then Some n else Catalog_Get c h.
Proof.
  unfold Catalog_Upsert. intros Eu. destruct (normalizeFileRecord record) as [n|e] eqn:En; [|done].
  exists n. split; [done|]. cbn [rbind] in Eu. injection Eu as <-.
  apply normalizeFileRecord_ok in En as (Hh & _). rewrite Hh. intros h.
  unfold Catalog_Get. cbn [rebuildSearchIndexLocked cat_byHash].
  rewrite lookup_insert, Hash_Equal_key. fold (key_of record).
  case_decide as Hk; [rewrite Hk|apply bytes_eqb_neq in Hk; by rewrite Hk].
  by rewrite (proj2 (bytes_eqb_eq _ _) eq_refl).
Qed.

Lemma Hash_Equal_strings h h' : Hash_Equal h h' = bytes_eqb (Hash_String h) (Hash_String h').
Proof. apply eq_true_iff_eq. by rewrite Hash_Equal_String, bytes_eqb_eq. Qed.

Lemma Delete_get c h h' :
  Catalog_Get (Catalog_Delete c h).1 h' = if Hash_Equal h h' then None else Catalog_Get c h'.
Proof.
  unfold Catalog_Delete, Catalog_Get. rewrite Hash_Equal_strings.
  destruct (cat_byHash c !! Hash_String h) as [old|] eqn:Hold; cbn [fst].
  - cbn [rebuildSearchIndexLocked cat_byHash]. rewrite lookup_delete. unfold bytes_eqb.
    by case_decide; case_bool_decide.
  - destruct (bytes_eqb _ _) eqn:E; [|done]. apply bytes_eqb_eq in E. by rewrite <- E.
Qed.

(** [Upsert] is insertion into a finite map: it fails exactly as the
    normalisation fails; otherwise the normalised record is what [Get] returns
    for its hash, every other hash is untouched, the invariant is kept, and the
    list keeps its order (a new hash goes to the end, a known one keeps its
    place). *)
Theorem Catalog_Upsert_spec c record :
  catalog_ok c ->
  match normalizeFileRecord record with
  | Err e => Catalog_Upsert c record = Err e
  | Ok n =>
    exists c', Catalog_Upsert c record = Ok c' /\ catalog_ok c' /\
      (forall h, Catalog_Get c' h =
                 if Hash_Equal (fr_Hash record) h then Some n else Catalog_Get c h) /\
      map key_of (cat_files c') =
        map key_of (cat_files c) ++
        (if Catalog_Get c (fr_Hash record) then [] else [key_of record])
  end.
Proof.
  intros Hc. destruct (normalizeFileRecord record) as [n|e] eqn:En.
  2: by unfold Catalog_Upsert; rewrite En.
  destruct (Catalog_Upsert c record) as [c'|e] eqn:Eu;
    [|by unfold Catalog_Upsert in Eu; rewrite En in Eu].
  exists c'. split; [done|]. split; [by eapply Upsert_invariant|]. split.
  - destruct (Upsert_get _ _ _ Eu) as (n' & En' & Hget). rewrite En in En'. by injection En' as <-.
  - unfold Catalog_Upsert in Eu. rewrite En in Eu. cbn [rbind] in Eu. injection Eu as <-.
    apply normalizeFileRecord_ok in En as (Hh & _). rewrite Hh. unfold Catalog_Get. fold (key_of record). cbn [rebuildSearchIndexLocked cat_files].
    destruct (cat_byHash c !! key_of record) as [old|] eqn:Hold.
    + apply (ok_byHash _ Hc) in Hold as [Hin Hk]. rewrite app_nil_r.
      apply replace_first_spec; [apply Hc|]. apply elem_of_keys. exists old.
      unfold key_of at 2. rewrite Hh. done.
    + rewrite map_app. do 2 f_equal. unfold key_of. simpl. by rewrite Hh.
Qed.

(** [Delete] is removal from a finite map: it reports whether the hash was
    there, afterwards [Get] finds nothing under it and no listed file carries
    it, every other hash is untouched, and the invariant is kept. *)
Theorem Catalog_Delete_spec c h :
  catalog_ok c ->
  let '(c', found) := Catalog_Delete c h in
  found = (if Catalog_Get c h then true else false) /\ catalog_ok c' /\
  (forall h', Catalog_Get c' h' = if Hash_Equal h h' then None else Catalog_Get c h') /\
  (forall f, f ∈ cat_files c' <-> f ∈ cat_files c /\ key_of f <> Hash_String h).
Proof.
  intros Hc. pose proof (Delete_invariant c h Hc) as Hc'. pose proof (Delete_get c h) as Hget.
  destruct (Catalog_Delete c h) as [c' found] eqn:Ed. cbn [fst] in *.
  unfold Catalog_Delete in Ed. unfold Catalog_Get at 1.
  destruct (cat_byHash c !! Hash_String h) as [old|] eqn:Hold; injection Ed as <- <-.
  - split; [done|]. split; [done|]. split; [exact Hget|]. intros f. apply delete_first_spec, Hc.
  - split; [done|]. split; [done|]. split; [exact Hget|].
    intros f. split; [|tauto]. intros Hf. split; [done|]. intros Hk.
    assert (cat_byHash c !! Hash_String h = Some f) as Hs by by apply (ok_byHash _ Hc).
    by rewrite Hold in Hs.
Qed.
End operations.

(** ** Concrete catalogs *)

Definition demo_file (h : byte) (name : bytes) (size : Z) : FileRecord :=
  mkFile _ (replicate 16 h) name size (lit "Audio") (lit "mp3") [] 0 0 0 0
    [mkSource (lit "10.0.0.1") 4662 0 []].

Definition demo_files : list FileRecord :=
  [demo_file xab (lit "Blue Song.mp3") 1000; demo_file xcd (lit "Red Song.mp3") 2000].

Definition catalog_of (files : list FileRecord) : Catalog :=
  match NewCatalog [] files with
  | Ok c => c
  | Err _ => mkCatalog _ [] (jsonCatalogStore []) [] ∅ ∅
  end.

Lemma demo_catalog_ok : catalog_ok (catalog_of demo_files).
Proof.
  apply (ReplaceAll_invariant (mkCatalog _ [] (jsonCatalogStore []) [] ∅ ∅) demo_files).
  - apply (bool_decide_unpack _). vm_compute. done.
  - reflexivity.
Qed.

Lemma Catalog_Search_total_witness :
  exists results,
    Catalog_Search (catalog_of demo_files) (makeSearchQuery (searchKeywordExpr (lit "song")))
      = Some results /\
    results `sublist_of` full_scan (cat_files (catalog_of demo_files))
                           (makeSearchQuery (searchKeywordExpr (lit "song"))).
Proof. apply Catalog_Search_total. reflexivity. Defined.

Lemma Catalog_Search_exact_witness :
  length (full_scan (cat_files (catalog_of demo_files))
            (makeSearchQuery (searchKeywordExpr (lit "BLUE")))) = 1%nat /\
  Catalog_Search (catalog_of demo_files) (makeSearchQuery (searchKeywordExpr (lit "BLUE")))
  = Some (full_scan (cat_files (catalog_of demo_files))
            (makeSearchQuery (searchKeywordExpr (lit "BLUE")))).
Proof.
  split; [by vm_compute|].
  apply (Catalog_Search_exact (catalog_of demo_files) (searchKeywordExpr (lit "BLUE"))).
  - reflexivity.
  - vm_compute. reflexivity.
Defined.

Lemma catalog_reachable_ok_witness :
  catalog_ok (foldl run_op (catalog_of demo_files)
    [OpDelete (replicate 16 xab); OpUpsert (demo_file xef (lit "New.mp3") 5);
     OpUpsert (demo_file xcd (lit " ") 5); OpReplaceAll demo_files]).
Proof.
  apply (catalog_reachable_ok [] demo_files); [|reflexivity|].
  - apply (bool_decide_unpack _). vm_compute. done.
  - repeat constructor; apply (bool_decide_unpack _); vm_compute; done.
Defined.

Lemma Catalog_Upsert_spec_witness :
  is_ok (normalizeFileRecord (demo_file xef (lit "New.mp3") 5)) = true /\
  match normalizeFileRecord (demo_file xef (lit "New.mp3") 5) with
  | Err e => Catalog_Upsert (catalog_of demo_files) (demo_file xef (lit "New.mp3") 5) = Err e
  | Ok n =>
    exists c', Catalog_Upsert (catalog_of demo_files) (demo_file xef (lit "New.mp3") 5) = Ok c' /\
      catalog_ok c' /\
      (forall h, Catalog_Get c' h =
         if Hash_Equal (fr_Hash (demo_file xef (lit "New.mp3") 5)) h then Some n
         else Catalog_Get (catalog_of demo_files) h) /\
      map key_of (cat_files c') =
        map key_of (cat_files (catalog_of demo_files)) ++
        (if Catalog_Get (catalog_of demo_files) (fr_Hash (demo_file xef (lit "New.mp3") 5))
         then [] else [key_of (demo_file xef (lit "New.mp3") 5)])
  end.
Proof.
  split; [by vm_compute|]. apply (Catalog_Upsert_spec (catalog_of demo_files)).
  apply demo_catalog_ok.
Defined.

Lemma Catalog_Delete_spec_witness :
  let '(c', found) := Catalog_Delete (catalog_of demo_files) (replicate 16 xab) in
  found = (if Catalog_Get (catalog_of demo_files) (replicate 16 xab) then true else false) /\
  catalog_ok c' /\
  (forall h', Catalog_Get c' h' =
     if Hash_Equal (replicate 16 xab) h' then None
     else Catalog_Get (catalog_of demo_files) h') /\
  (forall f, f ∈ cat_files c' <->
     f ∈ cat_files (catalog_of demo_files) /\ key_of f <> Hash_String (replicate 16 xab)).
Proof.
  apply (Catalog_Delete_spec (catalog_of demo_files) (replicate 16 xab)).
  apply demo_catalog_ok.
Defined.

(** ** Two departures from the comments of the source *)

(** The index is not transparent for a hash keyword: the full scan finds a
    file by its 32-digit hash, bare or as [ed2k::hash], but the indexed search,
    which asks the trigram index for the digits as if they were part of a name,
    finds nothing. *)
Theorem hash_keyword_missed :
  Forall (fun kw =>
    let q := makeSearchQuery (searchKeywordExpr kw) in
    Catalog_Search (catalog_of demo_files) q = Some [] /\
    full_scan (cat_files (catalog_of demo_files)) q =
      [makeSharedFileEntry (nth 0 (cat_files (catalog_of demo_files)) (demo_file x00 [] 0))])
  [lit "abababababababababababababababab"; lit "ed2k::abababababababababababababababab"].
Proof. repeat constructor; by vm_compute. Qed.

(** [ReplaceAll] does not check that hashes are distinct. After loading two
    records with one hash, deleting that hash leaves the second record listed
    and searchable, and no later delete of the hash removes it. *)
Theorem duplicate_hash_undeletable :
  let dup := [demo_file xab (lit "First.mp3") 1; demo_file xab (lit "Second.mp3") 2] in
  let c := (Catalog_Delete (catalog_of dup) (replicate 16 xab)).1 in
  Catalog_Get c (replicate 16 xab) = None /\
  Catalog_Delete c (replicate 16 xab) = (c, false) /\
  option_map (@length _)
    (Catalog_Search c (makeSearchQuery (searchKeywordExpr (lit "second")))) = Some 1%nat.
Proof. repeat split; by vm_compute. Qed.
