(* ===== verification/Config.v ===== *)
(** * Configuration (ed2ksrv/config.go)

    The runtime settings, their defaults and their normalisation; [ConfigJson]
    reads them from a file. *)

From S2P Require Import Prelude GoStrings.

Local Open Scope Z_scope.

Definition defaultListenAddress : bytes := lit ":4661".
Definition defaultAdminListenAddress : bytes := lit ":8080".
Definition defaultServerName : bytes := lit "goed2k-server".
Definition defaultDescription : bytes := lit "Minimal eD2k/eMule compatible server".
Definition defaultBatchSize : Z := 200.
Definition defaultCatalogPath : bytes := lit "catalog.json".
Definition defaultDatabaseTable : bytes := lit "shared_files".

Definition storageBackendJSON : bytes := lit "json".
Definition storageBackendMySQL : bytes := lit "mysql".
Definition storageBackendPgSQL : bytes := lit "pgsql".

Record UDPConfig := mkUDPConfig {
  udp_SearchEnabled : bool;
  udp_SourcesEnabled : bool;
  udp_MaxPayloadBytes : Z;
  udp_MaxResults : Z;
  udp_SearchWorkers : Z;
  udp_SearchQueueSize : Z;
  udp_PerIPPacketsPerSecond : Z;
  udp_MaxASTDepth : Z
}.

Record Config := mkConfig {
  ListenAddress : bytes;
  AdminListenAddress : bytes;
  AdminToken : bytes;
  ServerName : bytes;
  ServerDescription : bytes;
  Message : bytes;
  StorageBackend : bytes;
  CatalogPath : bytes;
  DatabaseDSN : bytes;
  DatabaseTable : bytes;
  SearchBatchSize : Z;
  MaxSourcesPerReply : Z;
  MaxConnsPerIPPerSecond : Z;
  MaxOfferedFilesPerClient : Z;
  MaxCallbacksPerIPPerSecond : Z;
  PeerServers : list bytes;
  MaxTCPSearchResults : Z;
  TCPFlags : Z;
  AuxPort : Z;
  ProtocolObfuscation : bool;
  ServerUDP : bool;
  UDPPortOffset : Z;
  SoftFilesLimit : Z;
  HardFilesLimit : Z;
  MaxUsersAdvertised : Z;
  UDP : UDPConfig;
  PacketTrace : bool;
  PacketTracePath : bytes;
  PacketTraceMaxBytes : Z
}.

Definition DefaultUDPConfig : UDPConfig := {|
  udp_SearchEnabled := true;
  udp_SourcesEnabled := true;
  udp_MaxPayloadBytes := 1300;
  udp_MaxResults := 200;
  udp_SearchWorkers := 4;
  udp_SearchQueueSize := 1024;
  udp_PerIPPacketsPerSecond := 20;
  udp_MaxASTDepth := 24
|}.

Definition DefaultConfig : Config := {|
  ListenAddress := defaultListenAddress;
  AdminListenAddress := defaultAdminListenAddress;
  AdminToken := [];
  ServerName := defaultServerName;
  ServerDescription := defaultDescription;
  Message := lit "Welcome to goed2k-server";
  StorageBackend := storageBackendJSON;
  CatalogPath := defaultCatalogPath;
  DatabaseDSN := [];
  DatabaseTable := defaultDatabaseTable;
  SearchBatchSize := defaultBatchSize;
  MaxSourcesPerReply := 0;
  MaxConnsPerIPPerSecond := 0;
  MaxOfferedFilesPerClient := 0;
  MaxCallbacksPerIPPerSecond := 0;
  PeerServers := [];
  MaxTCPSearchResults := 0;
  TCPFlags := 0;
  AuxPort := 0;
  ProtocolObfuscation := true;
  ServerUDP := true;
  UDPPortOffset := 4;
  SoftFilesLimit := 5000;
  HardFilesLimit := 200000;
  MaxUsersAdvertised := 500000;
  UDP := DefaultUDPConfig;
  PacketTrace := false;
  PacketTracePath := [];
  PacketTraceMaxBytes := 64
|}.

(** [if x <= 0 { x = d }] and [if s == "" { s = d }]. *)
Definition or_default (x d : Z) : Z := if x <=? 0 then d else x.
Definition or_default_string (s d : bytes) : bytes := if bytes_eqb s [] then d else s.

Inductive configErr :=
| ErrCatalogPathRequired
| ErrDSNRequired (backend : bytes)
| ErrUnsupportedBackend (backend : bytes).

Section normalize.
Context `{U : UnicodeTables}.

(** The field defaults of [Normalize]; only the backend is left to check. *)
Definition apply_defaults (c : Config) : Config := {|
  ListenAddress := or_default_string (ListenAddress c) defaultListenAddress;
  AdminListenAddress := or_default_string (AdminListenAddress c) defaultAdminListenAddress;
  AdminToken := AdminToken c;
  ServerName := or_default_string (ServerName c) defaultServerName;
  ServerDescription := or_default_string (ServerDescription c) defaultDescription;
  Message := Message c;
  StorageBackend := ToLower (TrimSpace (or_default_string (StorageBackend c) storageBackendJSON));
  CatalogPath := CatalogPath c;
  DatabaseDSN := DatabaseDSN c;
  DatabaseTable := DatabaseTable c;
  SearchBatchSize := or_default (SearchBatchSize c) defaultBatchSize;
  MaxSourcesPerReply :=
    if (MaxSourcesPerReply c <=? 0) || (255 <? MaxSourcesPerReply c) then 255
    else MaxSourcesPerReply c;
  MaxConnsPerIPPerSecond := MaxConnsPerIPPerSecond c;
  MaxOfferedFilesPerClient := MaxOfferedFilesPerClient c;
  MaxCallbacksPerIPPerSecond := MaxCallbacksPerIPPerSecond c;
  PeerServers := PeerServers c;
  MaxTCPSearchResults := MaxTCPSearchResults c;
  TCPFlags := TCPFlags c;
  AuxPort := AuxPort c;
  ProtocolObfuscation := ProtocolObfuscation c;
  ServerUDP := ServerUDP c;
  UDPPortOffset := if UDPPortOffset c =? 0 then 4 else UDPPortOffset c;
  SoftFilesLimit := or_default (SoftFilesLimit c) 5000;
  HardFilesLimit := or_default (HardFilesLimit c) 200000;
  MaxUsersAdvertised := MaxUsersAdvertised c;
  UDP := {|
    udp_SearchEnabled := udp_SearchEnabled (UDP c);
    udp_SourcesEnabled := udp_SourcesEnabled (UDP c);
    udp_MaxPayloadBytes := or_default (udp_MaxPayloadBytes (UDP c)) 1300;
    udp_MaxResults := or_default (udp_MaxResults (UDP c)) 200;
    udp_SearchWorkers := or_default (udp_SearchWorkers (UDP c)) 4;
    udp_SearchQueueSize := or_default (udp_SearchQueueSize (UDP c)) 1024;
    udp_PerIPPacketsPerSecond := or_default (udp_PerIPPacketsPerSecond (UDP c)) 20;
    udp_MaxASTDepth := or_default (udp_MaxASTDepth (UDP c)) 24
  |};
  PacketTrace := PacketTrace c;
  PacketTracePath := PacketTracePath c;
  PacketTraceMaxBytes := or_default (PacketTraceMaxBytes c) 64
|}.

Definition Normalize (c : Config) : result configErr Config :=
  let c := apply_defaults c in
  if bytes_eqb (StorageBackend c) storageBackendJSON then
    if bytes_eqb (CatalogPath c) [] then Err ErrCatalogPathRequired else Ok c
  else if bytes_eqb (StorageBackend c) storageBackendMySQL
          || bytes_eqb (StorageBackend c) storageBackendPgSQL then
    if bytes_eqb (DatabaseDSN c) [] then Err (ErrDSNRequired (StorageBackend c)) else Ok c
  else Err (ErrUnsupportedBackend (StorageBackend c)).
End normalize.

(** ** Facts *)

(** What the rest of the server relies on after normalisation. *)
Record config_ok (c : Config) : Prop := {
  cfg_batch : 1 <= SearchBatchSize c;
  cfg_sources : 1 <= MaxSourcesPerReply c <= 255;
  cfg_offset : UDPPortOffset c <> 0;
  cfg_soft : 1 <= SoftFilesLimit c;
  cfg_hard : 1 <= HardFilesLimit c;
  cfg_payload : 1 <= udp_MaxPayloadBytes (UDP c);
  cfg_results : 1 <= udp_MaxResults (UDP c);
  cfg_workers : 1 <= udp_SearchWorkers (UDP c);
  cfg_queue : 1 <= udp_SearchQueueSize (UDP c);
  cfg_rate : 1 <= udp_PerIPPacketsPerSecond (UDP c);
  cfg_depth : 1 <= udp_MaxASTDepth (UDP c);
  cfg_trace : 1 <= PacketTraceMaxBytes c;
  cfg_names : ListenAddress c <> [] /\ AdminListenAddress c <> [] /\
              ServerName c <> [] /\ ServerDescription c <> [];
  cfg_backend :
    StorageBackend c = storageBackendJSON /\ CatalogPath c <> [] \/
    (StorageBackend c = storageBackendMySQL \/ StorageBackend c = storageBackendPgSQL) /\
    DatabaseDSN c <> []
}.

Lemma or_default_pos x d : 1 <= d -> 1 <= or_default x d.
Proof. unfold or_default. destruct (Z.leb_spec x 0); lia. Qed.

Lemma or_default_id x d : 1 <= x -> or_default x d = x.
Proof. unfold or_default. destruct (Z.leb_spec x 0); lia. Qed.

Lemma or_default_string_ne s d : d <> [] -> or_default_string s d <> [].
Proof. unfold or_default_string. destruct (bytes_eqb s []) eqn:E; [done|by apply bytes_eqb_neq in E]. Qed.

Lemma or_default_string_id s d : s <> [] -> or_default_string s d = s.
Proof. unfold or_default_string. intros Hs. by rewrite (proj2 (bytes_eqb_neq _ _) Hs). Qed.

Section facts.
Context `{U : UnicodeTables}.

(** The last part of [Normalize]. *)
Lemma Normalize_inv c n :
  Normalize c = Ok n ->
  n = apply_defaults c /\
  (StorageBackend n = storageBackendJSON /\ CatalogPath n <> [] \/
   (StorageBackend n = storageBackendMySQL \/ StorageBackend n = storageBackendPgSQL) /\
   DatabaseDSN n <> []).
Proof.
  unfold Normalize. destruct (bytes_eqb (StorageBackend _) storageBackendJSON) eqn:Ej.
  { apply bytes_eqb_eq in Ej. destruct (bytes_eqb (CatalogPath _) []) eqn:Ec; [done|].
    apply bytes_eqb_neq in Ec. intros [= <-]. auto. }
  destruct (bytes_eqb (StorageBackend _) storageBackendMySQL
            || bytes_eqb (StorageBackend _) storageBackendPgSQL) eqn:Eb; [|done].
  apply orb_true_iff in Eb. rewrite !bytes_eqb_eq in Eb.
  destruct (bytes_eqb (DatabaseDSN _) []) eqn:Ed; [done|].
  apply bytes_eqb_neq in Ed. intros [= <-]. auto.
Qed.

Lemma Normalize_config_ok c n : Normalize c = Ok n -> config_ok n.
Proof.
  intros [-> Hb]%Normalize_inv. constructor; try exact Hb; cbn [apply_defaults UDP
    SearchBatchSize MaxSourcesPerReply UDPPortOffset SoftFilesLimit HardFilesLimit
    udp_MaxPayloadBytes udp_MaxResults udp_SearchWorkers udp_SearchQueueSize
    udp_PerIPPacketsPerSecond udp_MaxASTDepth PacketTraceMaxBytes ListenAddress
    AdminListenAddress ServerName ServerDescription];
    try (apply or_default_pos; unfold defaultBatchSize; lia).
  - destruct (Z.leb_spec (MaxSourcesPerReply c) 0), (Z.ltb_spec 255 (MaxSourcesPerReply c));
      simpl; lia.
  - destruct (Z.eqb_spec (UDPPortOffset c) 0); lia.
  - repeat split; by apply or_default_string_ne.
Qed.

(** Every configuration [Normalize] accepts has positive limits (at most
    255 sources per reply), non-empty names and addresses, a known storage
    backend and the path or DSN that backend needs; and a second normalisation
    changes nothing. *)
Lemma Normalize_spec c n : Normalize c = Ok n -> config_ok n /\ Normalize n = Ok n.
Proof.
  intros Hn. pose proof (Normalize_config_ok c n Hn) as Hok. split; [done|].
  assert (apply_defaults n = n) as Hid.
  { destruct Hok as [Hb Hs Ho Hso Hh Hp Hr Hw Hq Hra Hd Ht (Hla & Hal & Hsn & Hsd) Hbk].
    destruct n as [f1 f2 f3 f4 f5 f6 f7 f8 f9 f10 f11 f12 f13 f14 f15 f16 f17 f18 f19 f20
                   f21 f22 f23 f24 f25 [u1 u2 u3 u4 u5 u6 u7 u8] f27 f28 f29].
    simpl in *. unfold apply_defaults. simpl.
    rewrite !or_default_id, !or_default_string_id by (done || by intros ->; intuition done).
    destruct (Z.leb_spec f12 0), (Z.ltb_spec 255 f12), (Z.eqb_spec f22 0); try lia.
    f_equal. destruct Hbk as [[-> _]|[[->| ->] _]]; by vm_compute. }
  apply Normalize_inv in Hn as [_ Hbk]. unfold Normalize. rewrite Hid.
  destruct Hbk as [[Hb Hp]|[[Hb|Hb] Hp]]; rewrite Hb; unfold bytes_eqb;
    cbv beta; [rewrite (bool_decide_eq_false_2 _ Hp); by case_bool_decide|..];
    (rewrite (bool_decide_eq_false_2 _ Hp); by vm_compute).
Qed.

End facts.
