(* ===== verification/Storage.v ===== *)
(** * The catalog stores (ed2ksrv/storage.go, ed2ksrv/db_store.go, catalog.go)

    The JSON file and the SQL table that back the catalog. Files are a map from
    paths to contents; of the database the model keeps the commands the store
    issues, in order, each with its outcome. The outcomes, the rows a query
    returns and what a failed write leaves in a file are inputs. The drivers and
    the encoding of records as JSON are parameters. *)

From S2P Require Import StateErr.
From S2P Require Import Prelude GoStrings GoPath Ed2kLib FileRecord CatalogJson Search Catalog Config.

Local Open Scope Z_scope.
Local Open Scope srv_scope.

(** Arguments of a statement, and a row of the table as [Scan] delivers it. *)
Inductive sqlValue :=
| SqlText (s : bytes)
| SqlInt (z : Z).

Record sqlRow := mkRow {
  row_hash : bytes;
  row_name : bytes;
  row_size : Z;
  row_file_type : bytes;
  row_extension : bytes;
  row_media_codec : bytes;
  row_media_length : Z;
  row_media_bitrate : Z;
  row_sources : Z;
  row_complete_sources : Z;
  row_endpoints_json : bytes
}.

Inductive dbCmd :=
| DbOpen (driver dsn : bytes)
| DbPing
| DbExec (sql : bytes)
| DbQuery (sql : bytes)
| DbScan
| DbRowsErr
| DbBegin
| DbTxExec (sql : bytes) (args : list sqlValue)
| DbCommit
| DbRollback
| DbClose.

Inductive storeErr :=
| ErrPathRequired
| ErrBackend (backend : bytes)
| ErrDSN (backend : bytes)
| ErrNotExist
| ErrIO
| ErrDB
| ErrMarshal
| ErrUnmarshal
| ErrRowHash
| ErrCatalog (idx : nat) (e : recordErr).

Record ioState := mkIO {
  io_files : gmap bytes bytes;
  io_log : list (dbCmd * bool);
  io_ops : nat
}.

(** The outcome of the n-th operation, the rows of the database, and what an
    interrupted write leaves. *)
Class IOWorld := {
  io_ok : nat -> bool;
  db_rows : list sqlRow;
  io_torn : nat -> bytes
}.

Section stores.
Context {L : Ed2kLib} {U : UnicodeTables} {HJ : HashJson} {IW : IOWorld}.

Definition IO (A : Type) := ST ioState storeErr A.

Definition os_step : IO bool := fun s =>
  (Ok (io_ok (io_ops s)), mkIO (io_files s) (io_log s) (S (io_ops s))).

(** [os.ReadFile] *)
Definition os_ReadFile (path : bytes) : IO bytes :=
  do! ok := os_step in
  do! files := gets io_files in
  match files !! path with
  | None => fail ErrNotExist
  | Some data => if ok : bool then ret data else fail ErrIO
  end.

(** [os.WriteFile] truncates the file first. *)
Definition os_WriteFile (path data : bytes) : IO unit := fun s =>
  let n := io_ops s in
  let content := if io_ok n then data else io_torn n in
  (if io_ok n then Ok tt else Err ErrIO,
   mkIO (<[path := content]> (io_files s)) (io_log s) (S n)).

Definition os_MkdirAll (dir : bytes) : IO unit :=
  do! ok := os_step in if ok : bool then ret tt else fail ErrIO.

Definition db_cmd (cmd : dbCmd) : IO unit := fun s =>
  let n := io_ops s in
  (if io_ok n then Ok tt else Err ErrDB,
   mkIO (io_files s) (io_log s ++ [(cmd, io_ok n)]) (S n)).

(** ** The JSON file *)

Definition json_Load (path : bytes) : IO (list FileRecord) :=
  do! r := try_ (os_ReadFile path) in
  match r with
  | Err ErrNotExist => ret []
  | Err e => fail e
  | Ok data => of_option (unmarshalDisk data) ErrUnmarshal
  end.

Definition json_Save (path : bytes) (files : list FileRecord) : IO unit :=
  if bytes_eqb (TrimSpace path) [] then fail ErrPathRequired else
  os_MkdirAll (path_Dir path) ;;;
  do! payload := of_option (marshalDisk files) ErrMarshal in
  os_WriteFile path (payload ++ [x0a]).

(** ** The SQL table *)

Definition newline : bytes := [x0a].

Definition schemaSQL (backend tableName : bytes) : bytes :=
  let columns (int json updated : bytes) :=
    lit "  hash CHAR(32) PRIMARY KEY," ++ newline ++
    lit "  name VARCHAR(1024) NOT NULL," ++ newline ++
    lit "  size BIGINT NOT NULL," ++ newline ++
    lit "  file_type VARCHAR(128) NOT NULL DEFAULT ''," ++ newline ++
    lit "  extension VARCHAR(64) NOT NULL DEFAULT ''," ++ newline ++
    lit "  media_codec VARCHAR(128) NOT NULL DEFAULT ''," ++ newline ++
    lit "  media_length " ++ int ++ lit " NOT NULL DEFAULT 0," ++ newline ++
    lit "  media_bitrate " ++ int ++ lit " NOT NULL DEFAULT 0," ++ newline ++
    lit "  sources " ++ int ++ lit " NOT NULL DEFAULT 0," ++ newline ++
    lit "  complete_sources " ++ int ++ lit " NOT NULL DEFAULT 0," ++ newline ++
    lit "  endpoints_json " ++ json ++ lit " NOT NULL," ++ newline ++
    lit "  updated_at " ++ updated ++ newline ++ lit ")" in
  lit "CREATE TABLE IF NOT EXISTS " ++ tableName ++ lit " (" ++ newline ++
  if bytes_eqb backend storageBackendMySQL
  then columns (lit "INT") (lit "JSON")
         (lit "TIMESTAMP NOT NULL DEFAULT CURRENT_TIMESTAMP ON UPDATE CURRENT_TIMESTAMP")
  else columns (lit "INTEGER") (lit "JSONB") (lit "TIMESTAMPTZ NOT NULL DEFAULT NOW()").

Definition column_list : bytes :=
  lit "hash, name, size, file_type, extension, media_codec, media_length, media_bitrate, sources, complete_sources, endpoints_json".

Definition insertSQL (backend tableName : bytes) : bytes :=
  lit "INSERT INTO " ++ tableName ++ lit " (" ++ column_list ++ lit ") VALUES (" ++
  (if bytes_eqb backend storageBackendPgSQL
   then lit "$1,$2,$3,$4,$5,$6,$7,$8,$9,$10,$11" else lit "?,?,?,?,?,?,?,?,?,?,?") ++ lit ")".

Definition deleteSQL (tableName : bytes) : bytes := lit "DELETE FROM " ++ tableName.

Definition selectSQL (tableName : bytes) : bytes :=
  lit "SELECT " ++ column_list ++ lit " FROM " ++ tableName ++ lit " ORDER BY name ASC".

(** The arguments of the insert statement. *)
Definition insert_args (file : FileRecord) (endpointsJSON : bytes) : list sqlValue :=
  [SqlText (Hash_String (fr_Hash file)); SqlText (fr_Name file); SqlInt (fr_Size file);
   SqlText (fr_FileType file); SqlText (fr_Extension file); SqlText (fr_MediaCodec file);
   SqlInt (fr_MediaLength file); SqlInt (fr_MediaBitrate file); SqlInt (fr_Sources file);
   SqlInt (fr_CompleteSources file); SqlText endpointsJSON].

Fixpoint insert_all (sql : bytes) (files : list FileRecord) : IO unit :=
  match files with
  | [] => ret tt
  | file :: files' =>
    do! endpointsJSON := of_option (marshalEndpoints (fr_Endpoints file)) ErrMarshal in
    db_cmd (DbTxExec sql (insert_args file endpointsJSON)) ;;;
    insert_all sql files'
  end.

(** The deferred rollback looks at the variable [err], which an encoding error
    does not set; the error of the commit is returned without being stored. *)
Definition sql_Save (backend tableName : bytes) (files : list FileRecord) : IO unit :=
  db_cmd DbBegin ;;;
  do! r := try_ (db_cmd (DbTxExec (deleteSQL tableName) []) ;;;
                 insert_all (insertSQL backend tableName) files) in
  match r with
  | Ok _ => db_cmd DbCommit
  | Err ErrMarshal => fail ErrMarshal
  | Err e => do! _ := try_ (db_cmd DbRollback) in fail e
  end.

Definition record_of_row (row : sqlRow) : IO FileRecord :=
  do! hash := of_option (HashFromString (row_hash row)) ErrRowHash in
  do! endpoints := (if bytes_eqb (TrimSpace (row_endpoints_json row)) [] then ret []
                    else of_option (unmarshalEndpoints (row_endpoints_json row)) ErrUnmarshal) in
  ret (mkFile _ hash (row_name row) (row_size row) (row_file_type row) (row_extension row)
         (row_media_codec row) (row_media_length row) (row_media_bitrate row)
         (row_sources row) (row_complete_sources row) endpoints).

Fixpoint scan_rows (rows : list sqlRow) (files : list FileRecord) : IO (list FileRecord) :=
  match rows with
  | [] => db_cmd DbRowsErr ;;; ret files
  | row :: rows' =>
    db_cmd DbScan ;;;
    do! record := record_of_row row in
    scan_rows rows' (files ++ [record])
  end.

Definition sql_Load (tableName : bytes) : IO (list FileRecord) :=
  db_cmd (DbQuery (selectSQL tableName)) ;;;
  scan_rows db_rows [].

Definition sql_init (backend tableName : bytes) : IO unit :=
  db_cmd DbPing ;;;
  db_cmd (DbExec (schemaSQL backend tableName)).

(** ** The interface *)

Definition store_Load (store : catalogStore) : IO (list FileRecord) :=
  match store with
  | jsonCatalogStore path => json_Load path
  | sqlCatalogStore _ tableName => sql_Load tableName
  end.

Definition store_Save (store : catalogStore) (files : list FileRecord) : IO unit :=
  match store with
  | jsonCatalogStore path => json_Save path files
  | sqlCatalogStore backend tableName => sql_Save backend tableName files
  end.

Definition store_Close (store : catalogStore) : IO unit :=
  match store with
  | jsonCatalogStore _ => ret tt
  | sqlCatalogStore _ _ => db_cmd DbClose
  end.

Definition newCatalogStore (cfg : Config) : IO catalogStore :=
  let backend := ToLower (TrimSpace (StorageBackend cfg)) in
  if bytes_eqb backend [] || bytes_eqb backend storageBackendJSON then
    if bytes_eqb (TrimSpace (CatalogPath cfg)) [] then fail ErrPathRequired
    else ret (jsonCatalogStore (CatalogPath cfg))
  else if negb (bytes_eqb backend storageBackendMySQL) && negb (bytes_eqb backend storageBackendPgSQL)
  then fail (ErrBackend (StorageBackend cfg))
  else if bytes_eqb (TrimSpace (DatabaseDSN cfg)) [] then fail (ErrDSN backend) else
  let tableName := TrimSpace (DatabaseTable cfg) in
  let tableName := if bytes_eqb tableName [] then lit "shared_files" else tableName in
  let driverName := if bytes_eqb backend storageBackendPgSQL then lit "pgx" else backend in
  db_cmd (DbOpen driverName (DatabaseDSN cfg)) ;;;
  do! r := try_ (sql_init backend tableName) in
  match r with
  | Ok _ => ret (sqlCatalogStore backend tableName)
  | Err e => do! _ := try_ (db_cmd DbClose) in fail e
  end.

(** ** The catalog and its store *)

Definition lift_catalog (r : result (nat * recordErr) Catalog) : IO Catalog :=
  match r with Ok c => ret c | Err (idx, e) => fail (ErrCatalog idx e) end.

Definition LoadCatalog (path : bytes) : IO Catalog :=
  do! files := json_Load path in
  lift_catalog (Catalog_ReplaceAll (mkCatalog _ path (jsonCatalogStore path) [] ∅ ∅) files).

(** The store is closed again when the catalog cannot be loaded. *)
Definition LoadCatalogFromConfig (cfg : Config) : IO Catalog :=
  do! store := newCatalogStore cfg in
  do! r := try_ (do! files := store_Load store in
                 lift_catalog (Catalog_ReplaceAll (mkCatalog _ (CatalogPath cfg) store [] ∅ ∅) files)) in
  match r with
  | Ok c => ret c
  | Err e => do! _ := try_ (store_Close store) in fail e
  end.

Definition Catalog_Save (c : Catalog) : IO unit := store_Save (cat_store c) (cat_files c).

Definition Catalog_Close (c : Catalog) : IO unit := store_Close (cat_store c).
End stores.
