(* ===== verification/StorageFacts.v ===== *)
(** * Properties of the catalog stores

    What a successful save stores is what the next load reads; saving to a
    database is atomic; a normalised configuration selects its store. *)

From S2P Require Import StateErr.
From S2P Require Import Prelude GoStrings GoUtf8 GoPath Json JsonFacts JsonDecode Ed2kLib Ed2kRef FileRecord CatalogJson.
From S2P Require Import CatalogJsonFacts Search Catalog Config Storage.

Local Open Scope Z_scope.
Local Open Scope srv_scope.

(** A file that a row can hold: its printed hash is parsed back (every 16-byte
    hash is), and JSON can express its endpoints. *)
Definition row_ok `{Ed2kLib} (file : FileRecord) : Prop :=
  HashFromString (Hash_String (fr_Hash file)) = Some (fr_Hash file) /\
  Forall source_ok (fr_Endpoints file).

(** ** A database that keeps its promises

    The committed rows of the table, and the rows as the open transaction sees
    them. A commit or a rollback ends the transaction whatever it reports; a
    commit that reports a failure has not taken effect. *)
Section database.
Context (backend tableName : bytes).

Definition db_state : Type := list (list sqlValue) * option (list (list sqlValue)).

Definition db_step (st : db_state) (cmd : dbCmd * bool) : db_state :=
  let '(committed, tx) := st in
  match cmd with
  | (DbBegin, true) => (committed, Some committed)
  | (DbTxExec sql args, true) =>
    match tx with
    | None => st
    | Some rows =>
      if bytes_eqb sql (deleteSQL tableName) then (committed, Some [])
      else if bytes_eqb sql (insertSQL backend tableName) then (committed, Some (rows ++ [args]))
      else st
    end
  | (DbCommit, true) => (default committed tx, None)
  | (DbCommit, false) | (DbRollback, _) => (committed, None)
  | _ => st
  end.

Definition db_after (st : db_state) (log : list (dbCmd * bool)) : db_state := foldl db_step st log.

Lemma db_after_app st l k : db_after st (l ++ k) = db_after (db_after st l) k.
Proof. apply foldl_app. Qed.

Lemma insert_ne_delete : bytes_eqb (insertSQL backend tableName) (deleteSQL tableName) = false.
Proof. by apply bytes_eqb_neq. Qed.
End database.

Section facts.
Context {L : Ed2kLib} {U : UnicodeTables}.
Context {HJ : HashJson} {HJL : HashJsonLaws} {IW : IOWorld}.

(** The row of a file. *)
Definition file_args (file : FileRecord) : list sqlValue :=
  insert_args file (default [] (marshalEndpoints (fr_Endpoints file))).

(** The inserts of a list of files: all of them, or up to the first failure. *)
Lemma insert_all_log backend tableName files s r s' c rows :
  insert_all (insertSQL backend tableName) files s = (r, s') ->
  exists log, io_log s' = io_log s ++ log /\ io_files s' = io_files s /\
    match r with
    | Ok _ => db_after backend tableName (c, Some rows) log = (c, Some (rows ++ map file_args files))
    | Err e => e <> ErrMarshal /\
               exists rows', db_after backend tableName (c, Some rows) log = (c, Some rows')
    end.
Proof.
  revert s rows; induction files as [|f files IH]; intros s rows; cbn [insert_all].
  { intros [= <- <-]. exists []. by rewrite !app_nil_r. }
  unfold marshalEndpoints. set (data := Json.Marshal _).
  cbn [of_option]. unfold bind at 1, ret at 1, bind, db_cmd.
  destruct (io_ok (io_ops s)) eqn:Eo.
  - intros E. destruct (IH _ (rows ++ [file_args f]) E) as (log & Hl & Hf & Hr). cbn [io_log io_files] in *.
    exists ((DbTxExec (insertSQL backend tableName) (insert_args f data), true) :: log).
    rewrite Hl, <- app_assoc. split; [done|]. split; [done|].
    unfold db_after in *. cbn [foldl db_step]. rewrite insert_ne_delete, (proj2 (bytes_eqb_eq _ _)) by done.
    change (insert_args f data) with (file_args f).
    destruct r as [u|e]; [|exact Hr]. rewrite Hr. cbn [map]. by rewrite <- app_assoc.
  - intros [= <- <-]. eexists. cbn [io_log io_files]. split; [done|]. split; [done|]. split; [done|].
    by exists rows.
Qed.

Lemma sql_save_log backend tableName files s r s' rows0 :
  sql_Save backend tableName files s = (r, s') ->
  exists log, io_log s' = io_log s ++ log /\ io_files s' = io_files s /\
    db_after backend tableName (rows0, None) log =
      (match r with Ok _ => map file_args files | Err _ => rows0 end, None).
Proof.
  unfold sql_Save, bind, try_, db_cmd. cbn [io_log io_ops io_files].
  destruct (io_ok (io_ops s)); [|intros [= <- <-]; eexists; by cbn].
  destruct (io_ok (S (io_ops s))).
  2: { intros [= <- <-]. eexists. cbn [io_log io_files]. rewrite <- !app_assoc. by split. }
  set (s2 := mkIO _ _ _). destruct (insert_all _ files s2) as [r1 s3] eqn:E.
  destruct (insert_all_log _ _ _ _ _ _ rows0 [] E) as (log & Hl & Hf & Hr).
  cbn [io_log io_files s2] in Hl, Hf. rewrite <- !app_assoc in Hl.
  set (pre := [(DbBegin, true); (DbTxExec (deleteSQL tableName) [], true)]).
  assert (db_after backend tableName (rows0, None) (pre ++ log) =
          db_after backend tableName (rows0, Some []) log) as Hpre.
  { rewrite db_after_app. cbn. by rewrite (proj2 (bytes_eqb_eq _ _)). }
  destruct r1 as [u|e].
  - intros [= <- <-]. exists (pre ++ log ++ [(DbCommit, io_ok (io_ops s3))]).
    cbn [io_log io_files]. rewrite Hl. split; [by rewrite <- !app_assoc|]. split; [done|].
    rewrite app_assoc, db_after_app, Hpre, Hr. by destruct (io_ok (io_ops s3)).
  - destruct Hr as (Hne & rows' & Hr).
    intros H. assert (H' : (r, s') = (Err e, mkIO (io_files s3)
      (io_log s3 ++ [(DbRollback, io_ok (io_ops s3))]) (S (io_ops s3)))) by (destruct e; by try rewrite <- H).
    injection H' as -> ->. exists (pre ++ log ++ [(DbRollback, io_ok (io_ops s3))]).
    cbn [io_log io_files]. rewrite Hl. split; [by rewrite <- !app_assoc|]. split; [done|].
    rewrite app_assoc, db_after_app, Hpre, Hr. by destruct (io_ok (io_ops s3)).
Qed.

(** C34: saving to a database is atomic: whatever fails and wherever, the
    transaction is closed, and the table holds either exactly the rows of the
    saved files, in order, or exactly what it held before; the first when the
    save reports success, the second when it reports an error. *)
Theorem sql_save_atomic backend tableName files s r s' rows0 :
  sql_Save backend tableName files s = (r, s') ->
  exists log, io_log s' = io_log s ++ log /\
    db_after backend tableName (rows0, None) log =
      (match r with Ok _ => map file_args files | Err _ => rows0 end, None).
Proof. intros (log & Hl & _ & Hd)%(sql_save_log _ _ _ _ _ _ rows0). by exists log. Qed.

(** ** Loading *)

(** The arguments that would have inserted a row, with this text for its endpoints. *)
Definition row_args (row : sqlRow) (endpointsJSON : bytes) : list sqlValue :=
  [SqlText (row_hash row); SqlText (row_name row); SqlInt (row_size row);
   SqlText (row_file_type row); SqlText (row_extension row); SqlText (row_media_codec row);
   SqlInt (row_media_length row); SqlInt (row_media_bitrate row); SqlInt (row_sources row);
   SqlInt (row_complete_sources row); SqlText endpointsJSON].

(** How a row comes back: its texts and numbers as they were inserted, but the
    column of the endpoints is of the type JSON or JSONB ([schemaSQL]), of which
    the database keeps the value and not the text: it may use other white space
    and other escapes, and put the members of an object in another order. *)
Definition returned (args : list sqlValue) (row : sqlRow) : Prop :=
  exists text j j', args = row_args row text /\
    parse_document text = Some j /\ parse_document (row_endpoints_json row) = Some j' /\
    same_value j j'.

Lemma record_of_row_returned row file s :
  row_ok file -> returned (file_args file) row -> record_of_row row s = (Ok file, s).
Proof.
  intros [Hh He] (text & j & j' & Ea & Ej & Ej' & Hsame). revert Ea.
  unfold row_args, file_args, insert_args. intros [= E1 E2 E3 E4 E5 E6 E7 E8 E9 E10 E11].
  subst text. unfold record_of_row.
  rewrite <- E1, Hh, (proj2 (bytes_eqb_neq _ _) (parse_document_visible _ _ Ej')).
  rewrite (unmarshal_reordered (fr_Endpoints file) _ j _ j' He eq_refl Ej Ej' Hsame).
  rewrite <- E2, <- E3, <- E4, <- E5, <- E6, <- E7, <- E8, <- E9, <- E10. by destruct file.
Qed.

Lemma scan_rows_ok rows files acc s :
  Forall2 (fun row file => returned (file_args file) row) rows files -> Forall row_ok files ->
  (forall n, (io_ops s <= n)%nat -> io_ok n = true) ->
  exists s', scan_rows rows acc s = (Ok (acc ++ files), s').
Proof.
  intros Hr. revert acc s; induction Hr as [|row file rows files Hrow _ IH]; intros acc s Hp Hok;
    cbn [scan_rows]; unfold bind at 1, db_cmd.
  - rewrite Hok by done. eexists. by rewrite app_nil_r.
  - rewrite Hok by done. unfold bind at 1. inversion_clear Hp.
    erewrite record_of_row_returned by done.
    destruct (IH (acc ++ [file]) (mkIO (io_files s) (io_log s ++ [(DbScan, true)]) (S (io_ops s))))
      as (s' & E); [done|cbn [io_ops]; intros n Hn; apply Hok; lia|].
    exists s'. rewrite E, <- app_assoc. done.
Qed.

(** The files a store can hold. *)
Definition can_hold (store : catalogStore) (file : FileRecord) : Prop :=
  match store with jsonCatalogStore _ => storable file | sqlCatalogStore _ _ => row_ok file end.

(** C35: what is saved is what is loaded. The files are such as the store can hold
    ([can_hold]): in the JSON file texts are valid UTF-8 and numbers machine
    integers; in the table that goes for the endpoints, and the hash is one that is
    read from the 32 digits it is printed as. After a save that reports success,
    a load that meets no failure returns the saved files, from the JSON file in
    order, from the table in the order in which the database returns its rows,
    whatever the table held before and however the database writes the text of
    its JSON column anew. *)
Theorem stores_roundtrip store files s s' rows0 :
  Forall (can_hold store) files -> store_Save store files s = (Ok tt, s') ->
  (forall n, (io_ops s' <= n)%nat -> io_ok n = true) ->
  match store with
  | jsonCatalogStore _ => True
  | sqlCatalogStore backend tableName => forall log, io_log s' = io_log s ++ log ->
      exists rows, rows ≡ₚ (db_after backend tableName (rows0, None) log).1 /\
                   Forall2 returned rows db_rows
  end ->
  exists files' s'', store_Load store s' = (Ok files', s'') /\ files' ≡ₚ files /\
    match store with jsonCatalogStore _ => files' = files | _ => True end.
Proof.
  destruct store as [path|backend tableName]; cbn [store_Save store_Load]; intros Hh Hs Hok Hrows.
  - unfold json_Save in Hs. destruct (bytes_eqb (TrimSpace path) []); [done|].
    unfold os_MkdirAll, os_step, bind in Hs. destruct (io_ok (io_ops s)); [|done].
    destruct (marshalDisk files) as [data|] eqn:Em; [|done].
    cbn [ret of_option] in Hs. unfold os_WriteFile in Hs. cbn [io_ops io_files io_log] in Hs.
    destruct (io_ok (S (io_ops s))) eqn:Eo; [|done]. injection Hs as <-.
    unfold json_Load, os_ReadFile, bind, try_, os_step, gets. cbn [io_ops io_files] in *.
    rewrite lookup_insert_eq, Hok by lia. cbn [ret of_option].
    rewrite (disk_roundtrip _ _ Hh Em). by do 2 eexists.
  - destruct (sql_save_log _ _ _ _ _ _ rows0 Hs) as (log & Hl & _ & Hd).
    destruct (Hrows log Hl) as (rows & Hp & Hret). rewrite Hd in Hp. cbn [fst] in Hp.
    apply Permutation_map_inv in Hp as (files' & -> & Hp).
    destruct (scan_rows_ok db_rows files' [] (mkIO (io_files s') (io_log s' ++
      [(DbQuery (selectSQL tableName), true)]) (S (io_ops s')))) as (s'' & E).
    + apply Forall2_flip. change (map file_args files') with (file_args <$> files') in Hret.
      exact (proj1 (Forall2_fmap_l file_args returned files' db_rows) Hret).
    + by rewrite <- Hp.
    + cbn [io_ops]. intros n Hn. apply Hok. lia.
    + exists files', s''. unfold sql_Load, bind at 1, db_cmd. rewrite Hok by done.
      split; [exact E|]. by split.
Qed.
End facts.

(** ** Witnesses *)

(** Everything succeeds but the [n]-th operation. *)
Definition failing_at (fail_at : nat) (rows : list sqlRow) : IOWorld := {|
  io_ok := fun n => negb (n =? fail_at)%nat; db_rows := rows; io_torn := fun _ => []
|}.

Definition demo_entry_file (h : byte) : @FileRecord ed2k_ref :=
  mkFile ed2k_ref (replicate 16 h) (lit "a.iso") 7 [] [] [] 0 0 1 1 [mkSource (lit "1.2.3.4") 4662 0 []].

Definition demo_pair : list FileRecord := [demo_entry_file xaa; demo_entry_file xbb].

(** The insert of the second file fails: the table is as before. *)
Lemma sql_save_atomic_witness :
  exists s' log,
    @sql_Save _ (failing_at 3 []) (lit "mysql") (lit "t") demo_pair (mkIO ∅ [] 0) = (Err ErrDB, s') /\
    io_log s' = log /\
    db_after (lit "mysql") (lit "t") ([[SqlInt 1]], None) log = ([[SqlInt 1]], None).
Proof.
  destruct (@sql_Save _ (failing_at 3 []) (lit "mysql") (lit "t") demo_pair (mkIO ∅ [] 0))
    as [r s'] eqn:E.
  assert (r = Err ErrDB) as -> by (vm_compute in E; by injection E).
  destruct (@sql_save_atomic _ (failing_at 3 []) _ _ _ _ _ _ [[SqlInt 1]] E) as (log & Hl & Hd).
  exists s', log. split; [done|]. split; [exact Hl|exact Hd].
Defined.

Definition demo_json_store : catalogStore := jsonCatalogStore (lit "data/c.json").

Definition demo_save : result storeErr unit * ioState :=
  @store_Save _ _ (failing_at 0 []) demo_json_store demo_pair (mkIO ∅ [] 1).

Lemma demo_save_ok : demo_save = (Ok tt, demo_save.2).
Proof.
  assert (is_ok demo_save.1 = true) as H by (vm_compute; reflexivity).
  destruct demo_save as [[[]|e] s']; done.
Qed.

Lemma demo_save_ops : io_ops demo_save.2 = 3%nat.
Proof. vm_compute. reflexivity. Qed.

Lemma demo_pair_storable : Forall (can_hold demo_json_store) demo_pair.
Proof.
  assert (forall h, storable (demo_entry_file h)) as H.
  { intros h. constructor; try names; cbn; try lia; [done..|].
    apply Forall_cons; split; [|constructor]. constructor; [names|done|done|names]. }
  do 2 (apply Forall_cons; split; [apply H|]). constructor.
Qed.

Lemma demo_pair_rows : Forall (can_hold (sqlCatalogStore (lit "postgres") (lit "t"))) demo_pair.
Proof.
  assert (forall h, row_ok (demo_entry_file h)) as H.
  { intros h. split; [by destruct h|].
    apply Forall_cons; split; [|constructor]. constructor; [names|done|done|names]. }
  do 2 (apply Forall_cons; split; [apply H|]). constructor.
Qed.

(** A table in PostgreSQL, which here puts the port before the host and
    leaves a blank after each colon. *)
Definition demo_sql_store : catalogStore := sqlCatalogStore (lit "postgres") (lit "t").

Definition demo_row (h : byte) : sqlRow :=
  mkRow (Hash_String (Ed2kLib := ed2k_ref) (replicate 16 h)) (lit "a.iso") 7 [] [] [] 0 0 1 1
    (json_text (lit "[{'port': 4662, 'host': '1.2.3.4'}]")).

(** It returns the rows by name, equal names in any order. *)
Definition demo_sql_world : IOWorld := failing_at 0 [demo_row xbb; demo_row xaa].

Definition demo_sql_save : result storeErr unit * ioState :=
  @store_Save _ _ demo_sql_world demo_sql_store demo_pair (mkIO ∅ [] 1).

Lemma demo_sql_save_ok : demo_sql_save = (Ok tt, demo_sql_save.2).
Proof.
  assert (is_ok demo_sql_save.1 = true) as H by (vm_compute; reflexivity).
  destruct demo_sql_save as [[[]|e] s']; done.
Qed.

Lemma demo_sql_save_ops : io_ops demo_sql_save.2 = 6%nat.
Proof. vm_compute. reflexivity. Qed.

Lemma demo_row_returned h : returned (file_args (demo_entry_file h)) (demo_row h).
Proof.
  eexists _, (JArray [JObject [(lit "host", JString (lit "1.2.3.4")); (lit "port", JNumber (lit "4662"))]]),
    (JArray [JObject [(lit "port", JNumber (lit "4662")); (lit "host", JString (lit "1.2.3.4"))]]).
  split; [reflexivity|]. split; [vm_compute; reflexivity|]. split; [vm_compute; reflexivity|].
  apply same_array. constructor; [|constructor].
  eapply same_object; [apply Permutation_swap|]. by repeat constructor.
Qed.

Lemma stores_roundtrip_witness :
  (exists files' s'',
    store_Load (L := ed2k_ref) (IW := failing_at 0 []) demo_json_store demo_save.2 = (Ok files', s'') /\
    files' = demo_pair) /\
  (exists files' s'',
    store_Load (L := ed2k_ref) (IW := demo_sql_world) demo_sql_store demo_sql_save.2 = (Ok files', s'') /\
    files' ≡ₚ demo_pair).
Proof.
  split.
  - destruct (@stores_roundtrip ed2k_ref _ _ _ (failing_at 0 []) demo_json_store
      demo_pair (mkIO ∅ [] 1) demo_save.2 []) as (files' & s'' & El & _ & Ef).
    + exact demo_pair_storable.
    + exact demo_save_ok.
    + intros n Hn. rewrite demo_save_ops in Hn. destruct n; [lia|done].
    + done.
    + exists files', s''. split; [exact El|exact Ef].
  - destruct (@stores_roundtrip ed2k_ref _ _ _ demo_sql_world demo_sql_store
      demo_pair (mkIO ∅ [] 1) demo_sql_save.2 [[SqlInt 1]]) as (files' & s'' & El & Ef & _).
    + exact demo_pair_rows.
    + exact demo_sql_save_ok.
    + intros n Hn. rewrite demo_sql_save_ops in Hn. destruct n; [lia|done].
    + intros log Hl. exists [file_args (demo_entry_file xbb); file_args (demo_entry_file xaa)]. split.
      * cbn [io_log app] in Hl. subst log. vm_compute. apply Permutation_swap.
      * constructor; [apply demo_row_returned|]. constructor; [apply demo_row_returned|constructor].
    + exists files', s''. split; [exact El|exact Ef].
Defined.
