(* ===== verification/CatalogRestart.v ===== *)
(** * The catalog over a restart

    What the administration leaves in the JSON file is what the next start finds
    there: records are only normalised once, and texts are only decoded once. *)

From S2P Require Import StateErr.
From S2P Require Import Prelude GoStrings GoUtf8 GoPath Json JsonFacts JsonDecode Ed2kLib Ed2kRef.
From S2P Require Import FileRecord CatalogJson CatalogJsonFacts Search Catalog CatalogFacts Config.
From S2P Require Import Storage StorageFacts.

Local Open Scope Z_scope.
Local Open Scope srv_scope.

(** What the administration does to the catalog: the body of a request is
    decoded and stored, or a hash is removed. *)
Inductive catalog_change `{Ed2kLib} :=
| PostRecord (body : bytes)
| RemoveFile (h : Hash).

Section restart.
Context {L : Ed2kLib} {EHL : Ed2kHashLaws} {U : UnicodeTables} {HJ : HashJson}.

Definition apply_change (c : Catalog) (change : catalog_change) : Catalog :=
  match change with
  | PostRecord body =>
    match decodeFileRecord body with
    | Some record => run_op c (OpUpsert record)
    | None => c
    end
  | RemoveFile h => run_op c (OpDelete h)
  end.

(** Memory holds fewer than 2^63 endpoints. *)
Definition change_in_memory (change : catalog_change) : Prop :=
  match change with
  | PostRecord body => forall record, decodeFileRecord body = Some record ->
                         len (fr_Endpoints record) < 2 ^ 63
  | RemoveFile _ => True
  end.

(** ** Normal forms *)

Definition normal (f : FileRecord) : Prop := normalizeFileRecord f = Ok f.

Definition settled (f : FileRecord) : Prop := storable f /\ normal f.

Definition trim (s : bytes) : bytes := if bytes_eqb s [] then s else TrimSpace s.

Lemma trim_utf8 s : utf8 s -> utf8 (trim s).
Proof. unfold trim. destruct (bytes_eqb s []); auto with go. Qed.

Lemma trim_idem s : utf8 s -> trim (trim s) = trim s.
Proof.
  intros Hs. unfold trim. destruct (bytes_eqb s []) eqn:E; [by rewrite E|].
  destruct (bytes_eqb (TrimSpace s) []); [done|by apply TrimSpace_idem].
Qed.

(** Normalising a second time changes nothing. *)
Lemma normalize_settled f n :
  storable f -> len (fr_Endpoints f) < 2 ^ 63 -> normalizeFileRecord f = Ok n -> settled n.
Proof.
  intros [Hn Hs Ht He Hc Hl Hb Hso Hco Hes] Hmem. unfold normalizeFileRecord at 1.
  fold (trim (fr_FileType f)) (trim (fr_Extension f)) (trim (fr_MediaCodec f)).
  destruct (Hash_IsZero (fr_Hash f)) eqn:E1; [done|].
  destruct (bytes_eqb (TrimSpace (fr_Name f)) []) eqn:E2; [done|].
  destruct (Z.leb_spec (fr_Size f) 0); [done|].
  destruct (first_bad_endpoint 0 (fr_Endpoints f)) eqn:E3; [done|]. cbv zeta. intros [= <-].
  set (sources := if fr_Sources f <=? 0 then len (fr_Endpoints f) else fr_Sources f).
  set (complete := if fr_CompleteSources f <=? 0 then sources else fr_CompleteSources f).
  pose proof (len_nonneg (fr_Endpoints f)) as Hlen.
  assert (in_s 64 sources /\ 0 <= sources /\ (sources = 0 -> len (fr_Endpoints f) = 0)) as (Hsr & Hs0 & Hsz).
  { unfold sources, in_s in *. destruct (Z.leb_spec (fr_Sources f) 0); lia. }
  assert (in_s 64 complete /\ 0 <= complete /\ (complete = 0 -> sources = 0)) as (Hcr & Hc0 & Hcz).
  { unfold complete, in_s in *. destruct (Z.leb_spec (fr_CompleteSources f) 0); lia. }
  split.
  - constructor; cbn [fr_Name fr_Size fr_FileType fr_Extension fr_MediaCodec fr_MediaLength
      fr_MediaBitrate fr_Sources fr_CompleteSources fr_Endpoints]; auto using trim_utf8 with go.
  - unfold normal, normalizeFileRecord. cbn [fr_Hash fr_Name fr_Size fr_FileType fr_Extension
      fr_MediaCodec fr_MediaLength fr_MediaBitrate fr_Sources fr_CompleteSources fr_Endpoints].
    fold (trim (trim (fr_FileType f))) (trim (trim (fr_Extension f))) (trim (trim (fr_MediaCodec f))).
    rewrite E1, TrimSpace_idem, E2, E3, !trim_idem by done.
    rewrite (proj2 (Z.leb_gt (fr_Size f) 0)) by done. cbv zeta. repeat f_equal.
    + destruct (Z.leb_spec sources 0); lia.
    + destruct (Z.leb_spec complete 0), (Z.leb_spec sources 0); lia.
Qed.

Lemma normalize_all_settled idx files rs :
  Forall storable files -> Forall (fun f => len (fr_Endpoints f) < 2 ^ 63) rs ->
  normalize_all idx files = Ok rs -> Forall settled rs.
Proof.
  intros Hf Hm E%normalize_all_ok. revert Hf Hm.
  induction E as [|f r files rs Hr _ IH]; intros Hf Hm; [constructor|].
  apply Forall_cons in Hf as [? ?], Hm as [Hm ?]. constructor; [|by apply IH].
  eapply normalize_settled; [done| |done].
  apply normalizeFileRecord_ok in Hr as (_ & He & _). by rewrite <- He.
Qed.

Lemma normalize_all_normal idx files : Forall normal files -> normalize_all idx files = Ok files.
Proof.
  intros Hf. revert idx; induction Hf as [|f files Hf _ IH]; intros idx; [done|].
  cbn [normalize_all]. by rewrite Hf, IH.
Qed.

(** ** Changes *)

Lemma Forall_replace_first (P : FileRecord -> Prop) files n :
  Forall P files -> P n -> Forall P (replace_first files n).
Proof.
  intros Hf Hn. induction Hf; cbn [replace_first]; [constructor|].
  destruct (Hash_Equal _ _); by constructor.
Qed.

Lemma Forall_delete_first (P : FileRecord -> Prop) files h :
  Forall P files -> Forall P (delete_first files h).
Proof.
  intros Hf. induction Hf; cbn [delete_first]; [constructor|].
  destruct (Hash_Equal _ _); [done|by constructor].
Qed.

(** A catalog of settled records in a JSON file. *)
Record persistent (path : bytes) (c : Catalog) : Prop := {
  pe_ok : catalog_ok c;
  pe_files : Forall settled (cat_files c);
  pe_path : cat_path c = path;
  pe_store : cat_store c = jsonCatalogStore path
}.

Lemma upsert_persistent path c record :
  persistent path c -> storable record -> len (fr_Endpoints record) < 2 ^ 63 ->
  persistent path (run_op c (OpUpsert record)).
Proof.
  intros [Hok Hf Hp Hs] Hst Hm. pose proof (run_op_ok c (OpUpsert record) Hok I) as Hok'.
  cbn [run_op] in *. unfold Catalog_Upsert in *.
  destruct (normalizeFileRecord record) as [n|e] eqn:En; [|by constructor].
  cbn [rbind] in *. pose proof (normalize_settled _ _ Hst Hm En) as Hn. constructor; try done.
  cbn [rebuildSearchIndexLocked cat_files].
  destruct (cat_byHash c !! Hash_String (fr_Hash n)); [by apply Forall_replace_first|].
  apply Forall_app. split; [done|]. by constructor.
Qed.

Lemma delete_persistent path c h : persistent path c -> persistent path (Catalog_Delete c h).1.
Proof.
  intros [Hok Hf Hp Hs]. pose proof (run_op_ok c (OpDelete h) Hok I) as Hok'. cbn [run_op] in *.
  unfold Catalog_Delete in *. destruct (cat_byHash c !! Hash_String h); [|by constructor].
  constructor; try done. cbn [fst rebuildSearchIndexLocked cat_files]. by apply Forall_delete_first.
Qed.

Lemma apply_change_persistent path c change :
  persistent path c -> change_in_memory change -> persistent path (apply_change c change).
Proof.
  intros Hc Hm. destruct change as [body|h]; cbn [apply_change]; [|by apply delete_persistent].
  destruct (decodeFileRecord body) as [record|] eqn:Ed; [|done].
  apply upsert_persistent; [done| |by apply Hm]. by eapply decodeFileRecord_storable.
Qed.

Lemma changes_persistent path c changes :
  persistent path c -> Forall change_in_memory changes -> persistent path (foldl apply_change c changes).
Proof.
  intros Hc Hm. revert c Hc; induction Hm as [|change changes H _ IH]; intros c Hc; [done|].
  cbn [foldl]. by apply IH, apply_change_persistent.
Qed.

(** ** Load and save *)

Context {HJL : HashJsonLaws} {IW : IOWorld}.

Lemma json_Load_storable path s files s' :
  json_Load path s = (Ok files, s') -> Forall storable files.
Proof.
  unfold json_Load, try_, bind. destruct (os_ReadFile path s) as [[data|e] s1].
  - destruct (unmarshalDisk data) as [fs|] eqn:E; [|done]. intros [= <- _].
    by apply unmarshalDisk_storable in E.
  - destruct e; try done. intros [= <- _]. constructor.
Qed.

Lemma LoadCatalog_persistent path s c s' :
  LoadCatalog path s = (Ok c, s') -> NoDup (map key_of (cat_files c)) ->
  Forall (fun f => len (fr_Endpoints f) < 2 ^ 63) (cat_files c) -> persistent path c.
Proof.
  unfold LoadCatalog, bind. destruct (json_Load path s) as [[files|e] s1] eqn:El; [|done].
  apply json_Load_storable in El. unfold Catalog_ReplaceAll.
  destruct (normalize_all 0 files) as [rs|[idx e]] eqn:En; [|done]. cbn [rbind lift_catalog].
  intros [= <- _] Hnd Hm. cbn [rebuildSearchIndexLocked cat_files] in *.
  pose proof (normalize_all_settled _ _ _ El Hm En) as Hs.
  apply normalize_all_ok, normalize_all_keys in En as [_ Hv].
  constructor; [|done..]. apply rebuild_ok; [done|by apply hash_map_spec|done].
Qed.

(** A catalog is determined by its files. *)
Lemma catalog_rebuilt path c :
  persistent path c ->
  Catalog_ReplaceAll (mkCatalog _ path (jsonCatalogStore path) [] ∅ ∅) (cat_files c) = Ok c.
Proof.
  intros [[Hnd Hby Hix Hv] Hf Hp Hs]. unfold Catalog_ReplaceAll.
  rewrite normalize_all_normal by (eapply Forall_impl; [exact Hf|by intros ? []]). cbn [rbind].
  f_equal. destruct c as [cp cs files byHash tri]. cbn [cat_path cat_store cat_files cat_byHash] in *.
  subst cp cs. unfold rebuildSearchIndexLocked. cbn [cat_path cat_store cat_files cat_byHash].
  unfold index_ok in Hix. cbn in Hix. rewrite <- Hix. f_equal.
  apply map_eq. intros k. apply option_eq. intros r. by rewrite hash_map_spec, Hby.
Qed.

(** The file that a save writes is read as the catalog. *)
Lemma load_from_disk path c data s :
  persistent path c -> marshalDisk (cat_files c) = Some data ->
  io_files s !! path = Some (data ++ [x0a]) -> io_ok (io_ops s) = true ->
  exists s', LoadCatalog path s = (Ok c, s').
Proof.
  intros Hc Em Hf Ho. pose proof (catalog_rebuilt _ _ Hc) as Hr.
  assert (Forall storable (cat_files c)) as Hsto
    by (eapply Forall_impl; [apply (pe_files _ _ Hc)|by intros ? []]).
  unfold LoadCatalog, json_Load, os_ReadFile, bind, try_, os_step, gets. cbn [io_ops io_files].
  rewrite Hf, Ho. cbn [ret of_option]. rewrite (disk_roundtrip _ _ Hsto Em).
  cbn [ret of_option]. rewrite Hr. cbn [lift_catalog ret]. by eexists.
Qed.

Lemma restart_persistent path c s1 s2 :
  persistent path c -> Catalog_Save c s1 = (Ok tt, s2) -> io_ok (io_ops s2) = true ->
  exists s3, LoadCatalog path s2 = (Ok c, s3).
Proof.
  intros Hc Hs Ho. unfold Catalog_Save in Hs. rewrite (pe_store _ _ Hc) in Hs. cbn [store_Save] in Hs.
  unfold json_Save in Hs. destruct (bytes_eqb (TrimSpace path) []); [done|].
  unfold os_MkdirAll, os_step, bind in Hs. destruct (io_ok (io_ops s1)); [|done].
  destruct (marshalDisk (cat_files c)) as [data|] eqn:Em; [|done].
  cbn [ret of_option] in Hs. unfold os_WriteFile in Hs. cbn [io_ops io_files io_log] in Hs.
  destruct (io_ok (S (io_ops s1))); [|done]. injection Hs as <-.
  apply (load_from_disk path c data); [done|done| |done]. apply lookup_insert_eq.
Qed.

(** With the JSON backend, starting from a configuration is loading its file. *)
Lemma LoadFromConfig_json cfg s :
  StorageBackend cfg = storageBackendJSON ->
  LoadCatalogFromConfig cfg s =
    if bytes_eqb (TrimSpace (CatalogPath cfg)) [] then (Err ErrPathRequired, s)
    else LoadCatalog (CatalogPath cfg) s.
Proof.
  intros Hb. unfold LoadCatalogFromConfig, newCatalogStore. rewrite Hb.
  change (bytes_eqb (ToLower (TrimSpace storageBackendJSON)) []
          || bytes_eqb (ToLower (TrimSpace storageBackendJSON)) storageBackendJSON) with true.
  cbv iota zeta. destruct (bytes_eqb (TrimSpace (CatalogPath cfg)) []); [done|].
  unfold bind, ret, LoadCatalog, try_, store_Close, bind, fail. cbn [store_Load].
  destruct (json_Load (CatalogPath cfg) s) as [[files|e] s1]; [|done].
  by destruct (lift_catalog _ s1) as [[c|e] s2].
Qed.

(** The catalog survives a restart: whatever text the catalog file holds when
    the server starts, and whatever records an administrator then posts (as raw
    request bodies) and deletes, in any order, once the catalog is saved a new
    start reads back exactly the catalog the server had in memory, list, hash map
    and trigram index. The hashes in the file are distinct, and memory bounds the
    number of endpoints of a record. *)
Theorem catalog_survives_restart cfg changes s c s' s1 s2 :
  StorageBackend cfg = storageBackendJSON ->
  LoadCatalogFromConfig cfg s = (Ok c, s') -> NoDup (map key_of (cat_files c)) ->
  Forall (fun f => len (fr_Endpoints f) < 2 ^ 63) (cat_files c) -> Forall change_in_memory changes ->
  Catalog_Save (foldl apply_change c changes) s1 = (Ok tt, s2) -> io_ok (io_ops s2) = true ->
  exists s3, LoadCatalogFromConfig cfg s2 = (Ok (foldl apply_change c changes), s3).
Proof.
  intros Hb Hl Hnd Hm Hch Hs Ho. rewrite LoadFromConfig_json in * by done.
  destruct (bytes_eqb _ []); [done|]. eapply restart_persistent; [|done..].
  apply changes_persistent; [by eapply LoadCatalog_persistent|done].
Qed.
End restart.

(** ** The example of the repository *)

(** [testdata/catalog.json] *)
Definition example_catalog : bytes := json_text (lit "{
  'files': [
    {
      'hash': '31D6CFE0D16AE931B73C59D7E0C089C0',
      'name': 'ubuntu-24.04-desktop-amd64.iso',
      'size': 6144000000,
      'file_type': 'Iso',
      'extension': 'iso',
      'sources': 12,
      'complete_sources': 10,
      'endpoints': [
        {
          'host': '127.0.0.1',
          'port': 4662
        },
        {
          'host': '127.0.0.2',
          'port': 4662
        }
      ]
    },
    {
      'hash': '31D6CFE0D14CE931B73C59D7E0C04BC0',
      'name': 'archlinux-2026.03.01-x86_64.iso',
      'size': 1024000000,
      'file_type': 'Iso',
      'extension': 'iso',
      'sources': 6,
      'complete_sources': 6,
      'endpoints': [
        {
          'host': '127.0.0.3',
          'port': 4662
        }
      ]
    },
    {
      'hash': '31D6CFE0D10EE931B73C59D7E0C06FC0',
      'name': 'demo-track.flac',
      'size': 52428800,
      'file_type': 'Audio',
      'extension': 'flac',
      'media_codec': 'FLAC',
      'media_length': 245,
      'media_bitrate': 1400,
      'sources': 3,
      'complete_sources': 2,
      'endpoints': [
        {
          'host': '127.0.0.4',
          'port': 4662
        }
      ]
    }
  ]
}").

Lemma example_catalog_reads :
  option_map (map (fun f => (fr_Name f, fr_Size f, len (fr_Endpoints f))))
    (unmarshalDisk (L := ed2k_ref) example_catalog) =
  Some [(lit "ubuntu-24.04-desktop-amd64.iso", 6144000000, 2);
        (lit "archlinux-2026.03.01-x86_64.iso", 1024000000, 1); (lit "demo-track.flac", 52428800, 1)].
Proof. vm_compute. reflexivity. Qed.

(** The default configuration. *)
Definition example_config : Config := apply_defaults DefaultConfig.
Definition example_io : ioState := mkIO {[ CatalogPath example_config := example_catalog ]} [] 0.

(** A record with characters that are escaped, a deletion, and a body that is
    refused. *)
Definition example_changes : list (@catalog_change ed2k_ref) :=
  [PostRecord (json_text (lit "{'hash':'AAAAAAAAAAAAAAAAAAAAAAAAAAAAAAAA','name':' a\u003cb\\n ',
     'size':7,'endpoints':[{'host':'127.0.0.9','port':4662,'user_hash':'x'}]}"));
   RemoveFile (default [] (hex_parse (lit "31D6CFE0D10EE931B73C59D7E0C06FC0")));
   PostRecord (lit "nonsense")].

Definition example_world : IOWorld := failing_at 99 [].

(** The catalog that is loaded, and the one that is saved. *)
Definition example_loaded : result storeErr Catalog * ioState :=
  LoadCatalogFromConfig (IW := example_world) example_config example_io.

Definition files_of (r : result storeErr (@Catalog ed2k_ref)) : list (@FileRecord ed2k_ref) :=
  match r with Ok c => cat_files c | Err _ => [] end.

Definition example_saved (c : Catalog) : result storeErr unit * ioState :=
  Catalog_Save (IW := example_world) (foldl apply_change c example_changes) example_loaded.2.

Lemma example_loaded_facts :
  is_ok example_loaded.1 = true /\ NoDup (map key_of (files_of example_loaded.1)) /\
  forallb (fun f => len (fr_Endpoints f) <? 2 ^ 63) (files_of example_loaded.1) = true.
Proof.
  split; [vm_compute; reflexivity|]. split; [|vm_compute; reflexivity].
  apply (bool_decide_unpack _). vm_compute. exact I.
Qed.

Lemma example_saved_facts :
  match example_loaded.1 with
  | Ok c => is_ok (example_saved c).1 && (io_ops (example_saved c).2 <? 99)%nat
  | Err _ => false
  end = true.
Proof. vm_compute. reflexivity. Qed.

Lemma example_changes_in_memory : Forall change_in_memory example_changes.
Proof.
  assert (forall body, match decodeFileRecord (L := ed2k_ref) body with
    | Some record => len (fr_Endpoints record) <? 2 ^ 63 | None => true end = true ->
    change_in_memory (PostRecord body)) as Hb.
  { intros body H record E. rewrite E in H. by apply Z.ltb_lt. }
  apply Forall_cons; split; [apply Hb; vm_compute; reflexivity|].
  apply Forall_cons; split; [exact I|].
  apply Forall_cons; split; [apply Hb; vm_compute; reflexivity|]. constructor.
Qed.

Lemma catalog_survives_restart_witness :
  exists c s2 s3, example_loaded.1 = Ok c /\ example_saved c = (Ok tt, s2) /\
    LoadCatalogFromConfig (IW := example_world) example_config s2 =
      (Ok (foldl apply_change c example_changes), s3).
Proof.
  pose proof example_loaded_facts as (Hok & Hnd & Hm). pose proof example_saved_facts as Hs.
  destruct example_loaded as [[c|e] s'] eqn:E; [|discriminate Hok]. cbn [fst snd files_of] in *.
  apply andb_true_iff in Hs as [Hsok Hops]. apply Nat.ltb_lt in Hops.
  destruct (example_saved c) as [[[]|e] s2] eqn:Es; [|discriminate Hsok]. cbn [fst snd] in *.
  destruct (catalog_survives_restart (IW := example_world) example_config example_changes example_io c s'
    example_loaded.2 s2) as [s3 H3].
  - vm_compute. reflexivity.
  - exact E.
  - exact Hnd.
  - apply Forall_forall. intros f Hf. apply Z.ltb_lt.
    apply (proj1 (forallb_forall _ _) Hm). by apply list_elem_of_In.
  - exact example_changes_in_memory.
  - exact Es.
  - unfold example_world, failing_at. cbn [io_ok]. apply negb_true_iff, Nat.eqb_neq. lia.
  - exists c, s2, s3. split; [reflexivity|]. split; [exact Es|exact H3].
Defined.

(** A save that fails half-way loses the catalog: [os.WriteFile] truncates the file,
    and when it stops there the next start finds an empty text, which is no JSON. *)
Lemma torn_save_loses_catalog :
  let world := failing_at 4 [] in
  let loaded := LoadCatalogFromConfig (IW := world) example_config example_io in
  match loaded.1 with
  | Ok c =>
    let saved := Catalog_Save (IW := world) c (mkIO (io_files loaded.2) [] 3) in
    negb (is_ok saved.1) && negb (is_ok (LoadCatalogFromConfig (IW := world) example_config saved.2).1)
  | Err _ => false
  end = true.
Proof. vm_compute. reflexivity. Qed.
