(* ===== verification/ConfigJson.v ===== *)
(** * Reading the configuration (ed2ksrv/config.go)

    The JSON form of [Config] and [LoadConfig]: a file is read over the defaults,
    so a name that it leaves out keeps its default. *)

From S2P Require Import Prelude GoStrings GoUtf8 GoNet GoPath Json JsonFacts JsonDecode StateErr.
From S2P Require Import Ed2kLib Ed2kRef FileRecord CatalogJson CatalogJsonFacts Search Catalog Config.
From S2P Require Import Storage StorageFacts.

Local Open Scope Z_scope.

Definition UDPConfig_names : list bytes :=
  [lit "search_enabled"; lit "sources_enabled"; lit "max_payload_bytes"; lit "max_results";
   lit "search_workers"; lit "search_queue_size"; lit "per_ip_packets_per_second";
   lit "max_ast_depth"].

Definition Config_names : list bytes :=
  [lit "listen_address"; lit "admin_listen_address"; lit "admin_token"; lit "server_name";
   lit "server_description"; lit "message"; lit "storage_backend"; lit "catalog_path";
   lit "database_dsn"; lit "database_table"; lit "search_batch_size";
   lit "max_sources_per_reply"; lit "max_conns_per_ip_per_second";
   lit "max_offered_files_per_client"; lit "max_callbacks_per_ip_per_second"; lit "peer_servers";
   lit "max_tcp_search_results"; lit "tcp_flags"; lit "aux_port"; lit "protocol_obfuscation";
   lit "server_udp"; lit "udp_port_offset"; lit "soft_files_limit"; lit "hard_files_limit";
   lit "max_users_advertised"; lit "udp"; lit "packet_trace"; lit "packet_trace_path";
   lit "packet_trace_max_bytes"].

Inductive loadErr :=
| ErrRead
| ErrDecode
| ErrConfig (e : configErr).

Section config.
Context {U : UnicodeTables}.

Definition decode_UDPConfig : decoder UDPConfig := decode_struct (fun old ms =>
  let field {A} := decode_field (A := A) UDPConfig_names ms in
  search_enabled ← field (lit "search_enabled") decode_bool (udp_SearchEnabled old);
  sources_enabled ← field (lit "sources_enabled") decode_bool (udp_SourcesEnabled old);
  max_payload_bytes ← field (lit "max_payload_bytes") (decode_int 64) (udp_MaxPayloadBytes old);
  max_results ← field (lit "max_results") (decode_int 64) (udp_MaxResults old);
  search_workers ← field (lit "search_workers") (decode_int 64) (udp_SearchWorkers old);
  search_queue_size ← field (lit "search_queue_size") (decode_int 64) (udp_SearchQueueSize old);
  per_ip_packets_per_second ← field (lit "per_ip_packets_per_second")
      (decode_int 64) (udp_PerIPPacketsPerSecond old);
  max_ast_depth ← field (lit "max_ast_depth") (decode_int 64) (udp_MaxASTDepth old);
  Some (mkUDPConfig
          search_enabled sources_enabled max_payload_bytes max_results search_workers
          search_queue_size per_ip_packets_per_second max_ast_depth)).

Definition decode_Config : decoder Config := decode_struct (fun old ms =>
  let field {A} := decode_field (A := A) Config_names ms in
  listen_address ← field (lit "listen_address") decode_string (ListenAddress old);
  admin_listen_address ← field (lit "admin_listen_address")
      decode_string (AdminListenAddress old);
  admin_token ← field (lit "admin_token") decode_string (AdminToken old);
  server_name ← field (lit "server_name") decode_string (ServerName old);
  server_description ← field (lit "server_description") decode_string (ServerDescription old);
  message ← field (lit "message") decode_string (Message old);
  storage_backend ← field (lit "storage_backend") decode_string (StorageBackend old);
  catalog_path ← field (lit "catalog_path") decode_string (CatalogPath old);
  database_dsn ← field (lit "database_dsn") decode_string (DatabaseDSN old);
  database_table ← field (lit "database_table") decode_string (DatabaseTable old);
  search_batch_size ← field (lit "search_batch_size") (decode_int 64) (SearchBatchSize old);
  max_sources_per_reply ← field (lit "max_sources_per_reply")
      (decode_int 64) (MaxSourcesPerReply old);
  max_conns_per_ip_per_second ← field (lit "max_conns_per_ip_per_second")
      (decode_int 64) (MaxConnsPerIPPerSecond old);
  max_offered_files_per_client ← field (lit "max_offered_files_per_client")
      (decode_int 64) (MaxOfferedFilesPerClient old);
  max_callbacks_per_ip_per_second ← field (lit "max_callbacks_per_ip_per_second")
      (decode_int 64) (MaxCallbacksPerIPPerSecond old);
  peer_servers ← field (lit "peer_servers")
      (decode_slice decode_string []) (mkSlice (PeerServers old) []);
  max_tcp_search_results ← field (lit "max_tcp_search_results")
      (decode_int 64) (MaxTCPSearchResults old);
  tcp_flags ← field (lit "tcp_flags") (decode_int 32) (TCPFlags old);
  aux_port ← field (lit "aux_port") (decode_int 32) (AuxPort old);
  protocol_obfuscation ← field (lit "protocol_obfuscation") decode_bool (ProtocolObfuscation old);
  server_udp ← field (lit "server_udp") decode_bool (ServerUDP old);
  udp_port_offset ← field (lit "udp_port_offset") (decode_int 64) (UDPPortOffset old);
  soft_files_limit ← field (lit "soft_files_limit") (decode_int 32) (SoftFilesLimit old);
  hard_files_limit ← field (lit "hard_files_limit") (decode_int 32) (HardFilesLimit old);
  max_users_advertised ← field (lit "max_users_advertised")
      (decode_uint 32) (MaxUsersAdvertised old);
  udp ← field (lit "udp") decode_UDPConfig (UDP old);
  packet_trace ← field (lit "packet_trace") decode_bool (PacketTrace old);
  packet_trace_path ← field (lit "packet_trace_path") decode_string (PacketTracePath old);
  packet_trace_max_bytes ← field (lit "packet_trace_max_bytes")
      (decode_int 64) (PacketTraceMaxBytes old);
  Some (mkConfig
          listen_address admin_listen_address admin_token server_name server_description message
          storage_backend catalog_path database_dsn database_table search_batch_size
          max_sources_per_reply max_conns_per_ip_per_second max_offered_files_per_client
          max_callbacks_per_ip_per_second (sl_elems peer_servers) max_tcp_search_results
          tcp_flags aux_port protocol_obfuscation server_udp udp_port_offset soft_files_limit
          hard_files_limit max_users_advertised udp packet_trace packet_trace_path
          packet_trace_max_bytes)).

(** [cfg := DefaultConfig(); json.Unmarshal(data, &cfg)] *)
Definition unmarshalConfig (data : bytes) : option Config :=
  j ← parse_document data; decode_Config DefaultConfig j.

(** The flag tells that the defaults were used because the file does not exist. *)
Definition LoadConfig {IW : IOWorld} (path : bytes) (io : ioState)
    : result loadErr Config * bool * ioState :=
  let normalized c := match Normalize c with Ok c => Ok c | Err e => Err (ErrConfig e) end in
  match os_ReadFile path io with
  | (Err ErrNotExist, io) => (normalized DefaultConfig, true, io)
  | (Err _, io) => (Err ErrRead, false, io)
  | (Ok data, io) =>
    match unmarshalConfig data with
    | None => (Err ErrDecode, false, io)
    | Some cfg => (normalized cfg, false, io)
    end
  end.
End config.

(** ** Facts *)

(** A configuration as the types of its fields allow, with texts in UTF-8. *)
Record config_typed (c : Config) : Prop := {
  ct_texts : Forall utf8 [ListenAddress c; AdminListenAddress c; AdminToken c; ServerName c;
    ServerDescription c; Message c; StorageBackend c; CatalogPath c; DatabaseDSN c; DatabaseTable c;
    PacketTracePath c];
  ct_peers : Forall utf8 (PeerServers c);
  ct_ints : Forall (in_s 64) [SearchBatchSize c; MaxSourcesPerReply c; MaxConnsPerIPPerSecond c;
    MaxOfferedFilesPerClient c; MaxCallbacksPerIPPerSecond c; MaxTCPSearchResults c;
    UDPPortOffset c; PacketTraceMaxBytes c; udp_MaxPayloadBytes (UDP c); udp_MaxResults (UDP c);
    udp_SearchWorkers (UDP c); udp_SearchQueueSize (UDP c); udp_PerIPPacketsPerSecond (UDP c);
    udp_MaxASTDepth (UDP c)];
  ct_int32s : Forall (in_s 32) [TCPFlags c; AuxPort c; SoftFilesLimit c; HardFilesLimit c];
  ct_uint32 : in_u 32 (MaxUsersAdvertised c)
}.

Definition udp_typed (u : UDPConfig) : Prop :=
  Forall (in_s 64) [udp_MaxPayloadBytes u; udp_MaxResults u; udp_SearchWorkers u;
    udp_SearchQueueSize u; udp_PerIPPacketsPerSecond u; udp_MaxASTDepth u].

(** Take a [Forall] of a constant list apart. *)
Ltac inv_Forall :=
  repeat match goal with H : Forall _ (_ :: _) |- _ => apply Forall_cons in H as [? H] end.

Ltac each tac := repeat (apply Forall_cons; split; [tac|]); apply List.Forall_nil.

Lemma default_typed : config_typed DefaultConfig.
Proof. constructor; try names; by vm_compute. Qed.

Section facts.
Context {U : UnicodeTables}.

Lemma keeps_UDPConfig : keeps udp_typed decode_UDPConfig.
Proof.
  intros u j u' Hj Hu. unfold udp_typed in *. inv_Forall.
  destruct Hj as [| | | | |ms Hms]; cbn [decode_UDPConfig decode_struct]; try done;
    [intros [= <-]; each ltac:(idtac; assumption)|].
  unfold decode_UDPConfig, decode_struct. cbv beta iota zeta. peel.
  each ltac:(idtac; field_kept).
Qed.

Lemma keeps_Config : keeps config_typed decode_Config.
Proof.
  intros c j c' Hj [Ht Hp Hi H32 Hu].
  assert (udp_typed (UDP c)) as Hudp by (unfold udp_typed; inv_Forall; each ltac:(idtac; assumption)).
  pose proof keeps_UDPConfig as Hk.
  pose proof (keeps_slice utf8 decode_string keeps_string [] utf8_nil) as Hks.
  destruct Hj as [| | | | |ms Hms]; cbn [decode_Config decode_struct]; try done; [by intros [= <-]|].
  unfold decode_Config, decode_struct. cbv beta iota zeta. inv_Forall. peel.
  match goal with E : decode_field _ _ (lit "peer_servers") _ _ = Some _ |- _ =>
    apply (keeps_field _ _ Hks) in E as [He' _]; [|exact Hms|by split; [|constructor]]
  end.
  match goal with E : decode_field _ _ (lit "udp") _ _ = Some _ |- _ =>
    apply (keeps_field _ _ Hk) in E; [|exact Hms|exact Hudp]; rename E into Hudp'
  end.
  unfold udp_typed in Hudp'. inv_Forall.
  constructor; cbn [ListenAddress]; try exact He'; try (each ltac:(idtac; assumption || field_kept)); field_kept.
Qed.

Lemma or_default_string_utf8 s d : utf8 s -> utf8 d -> utf8 (or_default_string s d).
Proof. unfold or_default_string. by destruct (bytes_eqb s []). Qed.

Lemma if_in_s w (b : bool) d x : in_s w d -> in_s w x -> in_s w (if b then d else x).
Proof. by destruct b. Qed.

Lemma apply_defaults_typed c : config_typed c -> config_typed (apply_defaults c).
Proof.
  intros [Ht Hp Hi H32 Hu]. inv_Forall. constructor; cbn [apply_defaults UDP ListenAddress
    AdminListenAddress AdminToken ServerName ServerDescription Message StorageBackend CatalogPath
    DatabaseDSN DatabaseTable PacketTracePath PeerServers MaxUsersAdvertised]; try done.
  - each ltac:(idtac; first [assumption | apply or_default_string_utf8; [assumption|names]
      | apply utf8_flat_map]).
  - each ltac:(idtac; first [assumption | apply if_in_s; [by vm_compute|assumption]]).
  - each ltac:(idtac; first [assumption | apply if_in_s; [by vm_compute|assumption]]).
Qed.

Lemma Normalize_typed c n : config_typed c -> Normalize c = Ok n -> config_typed n.
Proof. intros Hc [-> _]%Normalize_inv. by apply apply_defaults_typed. Qed.

(** Members with unknown names are ignored. *)
Lemma decode_Config_unknown ms ms' k v old :
  field_of Config_names k = None ->
  decode_Config old (JObject (ms ++ (k, v) :: ms')) = decode_Config old (JObject (ms ++ ms')).
Proof.
  intros Hk. unfold decode_Config, decode_struct. cbv beta iota zeta.
  rewrite !decode_field_drop by congruence. done.
Qed.

(** [{}] stands for the defaults, as a missing file does. *)
Lemma empty_config w :
  Forall (fun b => is_space b = true) w -> unmarshalConfig (lit "{}" ++ w) = Some DefaultConfig.
Proof.
  intros Hw. unfold unmarshalConfig. change (lit "{}") with (encode false (JObject []) 0).
  rewrite parse_document_encode; [reflexivity| |done]. by apply fits_object; [constructor|].
Qed.

Context {IW : IOWorld}.

(** What [LoadConfig] reads before it normalises. *)
Definition config_read (path : bytes) (io : ioState) : option Config :=
  match io_files io !! path with
  | None => Some DefaultConfig
  | Some data => unmarshalConfig data
  end.

(** What is read is typed, and so is its normal form. *)
Lemma config_read_typed path io read : config_read path io = Some read -> config_typed read.
Proof.
  unfold config_read, unmarshalConfig. destruct (io_files io !! path) as [data|];
    [|intros [= <-]; exact default_typed].
  destruct (parse_document data) as [j|] eqn:Ej; [|done]. cbn [mbind option_bind].
  apply parse_document_ok in Ej as [Hj _]. intros E.
  by apply keeps_Config in E; [|done|apply default_typed].
Qed.

Lemma Normalize_good read cfg :
  config_typed read -> Normalize read = Ok cfg -> config_ok cfg /\ config_typed cfg /\ Normalize cfg = Ok cfg.
Proof.
  intros Hr E. destruct (Normalize_spec _ _ E) as [H1 H2]. split; [exact H1|].
  split; [by eapply Normalize_typed|exact H2].
Qed.

(** [LoadConfig] on every outcome of reading the file. *)
Lemma LoadConfig_eq path io :
  (LoadConfig path io).1 =
    match io_files io !! path with
    | None => (match Normalize DefaultConfig with Ok c => Ok c | Err e => Err (ErrConfig e) end, true)
    | Some _ =>
      (if io_ok (io_ops io) then
         match config_read path io with
         | None => Err ErrDecode
         | Some read => match Normalize read with Ok c => Ok c | Err e => Err (ErrConfig e) end
         end
       else Err ErrRead, false)
    end.
Proof.
  unfold LoadConfig, os_ReadFile, os_step, bind, gets, config_read, ret, fail. cbn [io_files].
  destruct (io_files io !! path) as [data|]; [|done].
  destruct (io_ok (io_ops io)); [|done]. by destruct (unmarshalConfig data).
Qed.

Lemma LoadConfig_typed path io cfg d io' : LoadConfig path io = (Ok cfg, d, io') -> config_typed cfg.
Proof.
  intros E. pose proof (LoadConfig_eq path io) as H. rewrite E in H. cbn [fst] in H.
  pose proof (config_read_typed path io) as Ht. unfold config_read in *.
  destruct (io_files io !! path) as [data|].
  - destruct (io_ok (io_ops io)); [|done]. destruct (unmarshalConfig data) as [read|]; [|done].
    destruct (Normalize read) as [n|e] eqn:En; [|done]. injection H as -> _.
    eapply Normalize_typed; [|exact En]. by apply Ht.
  - injection H as -> _. apply apply_defaults_typed, default_typed.
Qed.

(** C40: whatever is in the configuration file: a file that is missing stands for
    the defaults, and the second result says so; a file whose text is not JSON of
    the right types is refused; so are settings that cannot be normalised. A
    configuration that is accepted is the normal form of what was read: its
    limits are positive and within their machine types, its texts are valid
    UTF-8, its backend is known and has the path or DSN it needs, and normalising
    it again changes nothing. *)
Theorem LoadConfig_spec path io r defaulted io' :
  LoadConfig path io = (r, defaulted, io') ->
  (defaulted = true <-> io_files io !! path = None) /\
  match r with
  | Ok cfg => exists read, config_read path io = Some read /\ Normalize read = Ok cfg /\
                config_ok cfg /\ config_typed cfg /\ Normalize cfg = Ok cfg
  | Err ErrRead => is_Some (io_files io !! path) /\ io_ok (io_ops io) = false
  | Err ErrDecode => config_read path io = None
  | Err (ErrConfig e) => exists read, config_read path io = Some read /\ Normalize read = Err e
  end.
Proof.
  intros E. pose proof (LoadConfig_eq path io) as H. rewrite E in H. cbn [fst] in H.
  assert (forall read, config_read path io = Some read ->
    match match Normalize read with Ok c => Ok c | Err e => Err (ErrConfig e) end with
    | Ok cfg => exists read, config_read path io = Some read /\ Normalize read = Ok cfg /\
                  config_ok cfg /\ config_typed cfg /\ Normalize cfg = Ok cfg
    | Err (ErrConfig e) => exists read, config_read path io = Some read /\ Normalize read = Err e
    | _ => False
    end) as Hn.
  { intros read Hr. pose proof (config_read_typed _ _ _ Hr) as Ht.
    destruct (Normalize read) as [cfg|e] eqn:En; exists read; [|done].
    split; [done|]. split; [done|]. by apply (Normalize_good read). }
  unfold config_read in *. destruct (io_files io !! path) as [data|]; injection H as -> ->.
  - split; [by split|]. destruct (io_ok (io_ops io)) eqn:Eo; [|done].
    destruct (unmarshalConfig data) as [read|]; [|done]. specialize (Hn read eq_refl).
    by destruct (Normalize read).
  - split; [by split|]. exact (Hn _ eq_refl).
Qed.
End facts.

(** ** The example of the repository *)

(** [config.example.json] *)
Definition example_config_text : bytes := json_text (lit "{
  'listen_address': ':4661',
  'admin_listen_address': ':8080',
  'admin_token': 'change-me',
  'server_name': 'goed2k-server',
  'server_description': 'Minimal eD2k/eMule compatible server',
  'message': 'Welcome to goed2k-server',
  'storage_backend': 'json',
  'catalog_path': 'testdata/catalog.json',
  'database_dsn': '',
  'database_table': 'shared_files',
  'search_batch_size': 2,
  'tcp_flags': 0,
  'aux_port': 0,
  'protocol_obfuscation': true,
  'server_udp': true,
  'udp_port_offset': 4,
  'soft_files_limit': 5000,
  'hard_files_limit': 200000,
  'max_users_advertised': 500000,
  'max_sources_per_reply': 255,
  'max_conns_per_ip_per_second': 0,
  'max_offered_files_per_client': 0,
  'max_callbacks_per_ip_per_second': 0,
  'max_tcp_search_results': 0,
  'peer_servers': [],
  'udp': {
    'search_enabled': true,
    'sources_enabled': true,
    'max_payload_bytes': 1300,
    'max_results': 200,
    'search_workers': 4,
    'search_queue_size': 1024,
    'per_ip_packets_per_second': 20,
    'max_ast_depth': 24
  },
  'packet_trace': false,
  'packet_trace_path': '',
  'packet_trace_max_bytes': 64
}").

Lemma example_config_text_reads :
  exists cfg, unmarshalConfig example_config_text = Some cfg /\
    (AdminToken cfg, CatalogPath cfg, SearchBatchSize cfg, MaxSourcesPerReply cfg) =
    (lit "change-me", lit "testdata/catalog.json", 2, 255).
Proof. eexists. split; vm_compute; reflexivity. Qed.

Lemma LoadConfig_spec_witness :
  let io := mkIO {[ lit "config.json" := example_config_text ]} [] 0 in
  exists cfg io', LoadConfig (IW := failing_at 9 []) (lit "config.json") io = (Ok cfg, false, io') /\
    config_ok cfg /\ config_typed cfg /\ Normalize cfg = Ok cfg.
Proof.
  cbv zeta. set (io := mkIO _ _ _).
  assert (is_ok (LoadConfig (IW := failing_at 9 []) (lit "config.json") io).1.1 = true) as Ho
    by (vm_compute; reflexivity).
  assert ((LoadConfig (IW := failing_at 9 []) (lit "config.json") io).1.2 = false) as Hd
    by (vm_compute; reflexivity).
  destruct (LoadConfig (lit "config.json") io) as [[r d] io'] eqn:E. cbn [fst snd] in *. subst d.
  destruct r as [cfg|e]; [|discriminate Ho].
  destruct (LoadConfig_spec _ _ _ _ _ E) as [_ (read & _ & _ & Hok & Ht & Hn)].
  exists cfg, io'. split; [reflexivity|]. split; [exact Hok|]. split; [exact Ht|exact Hn].
Defined.
