(* ===== verification/IdChange.v ===== *)
(** * The extended ID change packet (ed2ksrv/id_change_extended.go)

    The login reply with the assigned client ID, and the two fields eMule added
    behind it: the client's address as the server sees it and the port for
    obfuscated connections. *)

From S2P Require Import Prelude GoStrings Ed2kLib Ed2kRef Ed2kWire Config.

Local Open Scope Z_scope.

Definition idChangeExtendedSize : Z := 20.

Record idChangeExtended := mkIdChange {
  ic_ClientID : Z;
  ic_TCPFlags : Z;
  ic_AuxPort : Z;
  ic_ReportedIP : Z;
  ic_ObfuscationTCPPort : Z
}.

Section idchange.
Context `{W : Ed2kWire}.

(** [if src.Len() >= 4 { v, err := Read(src); ... }]: a missing field keeps its
    zero value. *)
Definition read_optional (read : bytes -> option (Z * bytes)) (src : bytes)
    : option (Z * bytes) :=
  if 4 <=? len src then read src else Some (0, src).

(** [Get]; the receiver is a zero value. *)
Definition idChangeExtended_Get (src : bytes) : option (idChangeExtended * bytes) :=
  match ReadInt32 src with None => None | Some (id, src) =>
  match read_optional ReadInt32 src with None => None | Some (flags, src) =>
  match read_optional ReadInt32 src with None => None | Some (aux, src) =>
  match read_optional ReadUInt32 src with None => None | Some (ip, src) =>
  match read_optional ReadUInt32 src with None => None | Some (port, src) =>
  Some (mkIdChange id flags aux ip port, src)
  end end end end end.

Definition idChangeExtended_Put (i : idChangeExtended) : bytes :=
  WriteInt32 (ic_ClientID i) ++ WriteInt32 (ic_TCPFlags i) ++ WriteInt32 (ic_AuxPort i) ++
  WriteUInt32 (ic_ReportedIP i) ++ WriteUInt32 (ic_ObfuscationTCPPort i).

Definition idChangeExtended_BytesCount (i : idChangeExtended) : Z := idChangeExtendedSize.
End idchange.

Definition reportedIPForIdChange (assignedID : Z) : Z :=
  let u := to_uint32 assignedID in
  if u <? 0x01000000 then 0 else u.

Definition obfuscationTCPPortAdvertised (cfg : Config) (listenerPort : Z) : Z :=
  if negb (ProtocolObfuscation cfg) || (listenerPort =? 0) then 0
  else to_uint32 listenerPort.

(** ** Facts *)

Record id_change_ok (i : idChangeExtended) : Prop := {
  id_ok : in_s 32 (ic_ClientID i);
  flags_ok : in_s 32 (ic_TCPFlags i);
  aux_ok : in_s 32 (ic_AuxPort i);
  ip_ok : in_u 32 (ic_ReportedIP i);
  port_ok : in_u 32 (ic_ObfuscationTCPPort i)
}.

Section facts.
Context `{W : Ed2kWire} {R : Ed2kReaderLaws} {WL : Ed2kWireLaws}.

Lemma ReadInt32_Write z rest : in_s 32 z -> ReadInt32 (WriteInt32 z ++ rest) = Some (z, rest).
Proof.
  intros Hz. rewrite ReadInt32_spec, WriteInt32_spec, read_le_encode.
  - unfold to_int32, to_uint32. rewrite wrap_s_wrap_u by lia. by rewrite wrap_s_id.
  - apply (wrap_u_range 32). lia.
Qed.

Lemma ReadUInt32_Write z rest : in_u 32 z -> ReadUInt32 (WriteUInt32 z ++ rest) = Some (z, rest).
Proof. intros Hz. rewrite ReadUInt32_spec, WriteUInt32_spec. by apply read_le_encode. Qed.

Lemma WriteInt32_len z : len (WriteInt32 z) = 4.
Proof. rewrite WriteInt32_spec. unfold len. by rewrite le_encode_length. Qed.
Lemma WriteUInt32_len z : len (WriteUInt32 z) = 4.
Proof. rewrite WriteUInt32_spec. unfold len. by rewrite le_encode_length. Qed.

Lemma read_optional_app read v rest out :
  len v = 4 -> read (v ++ rest) = Some out -> read_optional read (v ++ rest) = Some out.
Proof.
  intros Hv Hr. unfold read_optional. rewrite len_app, Hv.
  pose proof (len_nonneg rest). by destruct (Z.leb_spec 4 (4 + len rest)); [|lia].
Qed.

(** An ID change packet whose fields fit their types reads back exactly,
    whatever follows it, and has the announced 20 bytes; so the login reply a
    client decodes is the one the server built. *)
Theorem idChangeExtended_roundtrip i rest :
  id_change_ok i ->
  idChangeExtended_Get (idChangeExtended_Put i ++ rest) = Some (i, rest) /\
  len (idChangeExtended_Put i) = idChangeExtended_BytesCount i.
Proof.
  intros [Hid Hf Ha Hip Hp]. unfold idChangeExtended_Put, idChangeExtended_BytesCount. split.
  - rewrite <- !app_assoc. unfold idChangeExtended_Get. rewrite ReadInt32_Write by done.
    rewrite (read_optional_app _ _ _ _ (WriteInt32_len _) (ReadInt32_Write _ _ Hf)).
    rewrite (read_optional_app _ _ _ _ (WriteInt32_len _) (ReadInt32_Write _ _ Ha)).
    rewrite (read_optional_app _ _ _ _ (WriteUInt32_len _) (ReadUInt32_Write _ _ Hip)).
    rewrite (read_optional_app _ _ _ _ (WriteUInt32_len _) (ReadUInt32_Write _ _ Hp)).
    by destruct i.
  - by rewrite !len_app, !WriteInt32_len, !WriteUInt32_len.
Qed.

(** The reply [handleLogin] builds for an assigned ID. *)
Definition login_reply (cfg : Config) (assignedID port : Z) : idChangeExtended :=
  mkIdChange assignedID (TCPFlags cfg) (AuxPort cfg) (reportedIPForIdChange assignedID)
    (obfuscationTCPPortAdvertised cfg port).

Lemma reportedIP_range id : in_u 32 (reportedIPForIdChange id).
Proof.
  unfold reportedIPForIdChange. pose proof (wrap_u_range 32 id ltac:(lia)).
  unfold to_uint32. destruct (Z.ltb_spec (wrap_u 32 id) 0x01000000); [|done].
  unfold in_u. lia.
Qed.
End facts.

Lemma idChangeExtended_roundtrip_witness :
  idChangeExtended_Get (idChangeExtended_Put (mkIdChange (-1062731519) 0 (-1) 4026531839 4661)
                        ++ [xff]) =
    Some (mkIdChange (-1062731519) 0 (-1) 4026531839 4661, [xff]) /\
  len (idChangeExtended_Put (mkIdChange (-1062731519) 0 (-1) 4026531839 4661)) =
    idChangeExtended_BytesCount (mkIdChange (-1062731519) 0 (-1) 4026531839 4661).
Proof.
  apply idChangeExtended_roundtrip. constructor; vm_compute; intuition discriminate.
Defined.
