(* ===== verification/OfferFiles.v ===== *)
(** * Offered files (ed2ksrv/offerfiles.go)

    The packet in which a client announces its shared files, and the file
    record the server makes of each announced entry. *)

From S2P Require Import Prelude GoStrings Ed2kLib Ed2kRef Ed2kWire FileRecord.

Local Open Scope Z_scope.

Definition opOfferFiles : byte := x15.
Definition opDisconnect : byte := x18.

Record OfferFiles `{Ed2kLib} := mkOffer { of_Entries : list SharedFileEntry }.

(** The errors of [fileRecordFromSharedEntry]. *)
Inductive offerErr :=
| ErrSharedNameRequired
| ErrSharedSizeNotPositive
| ErrSharedRecord (e : recordErr).

(** [filepath.Ext]: from the last dot of the last path element. [acc] is what
    follows the position being looked at; [s] is reversed. *)
Fixpoint Ext_loop (s acc : bytes) : bytes :=
  match s with
  | [] => []
  | c :: s' =>
    if byte_eqb c x2f then []
    else if byte_eqb c x2e then c :: acc
    else Ext_loop s' (c :: acc)
  end.

Definition Ext (path : bytes) : bytes := Ext_loop (reverse path) [].

Definition ed2kFileTypeName (value : Z) : bytes :=
  if value =? 1 then lit "Audio"
  else if value =? 2 then lit "Video"
  else if value =? 3 then lit "Image"
  else if value =? 4 then lit "Program"
  else if value =? 5 then lit "Document"
  else if value =? 6 then lit "Archive"
  else if value =? 7 then lit "Iso"
  else [].

Definition one_of (s : bytes) (l : list bytes) : bool := existsb (bytes_eqb s) l.

Section offer.
Context `{W : Ed2kWire} `{U : UnicodeTables}.

Definition inferFileTypeFromExtension (ext : bytes) : bytes :=
  let e := ToLower (TrimSpace ext) in
  if one_of e [lit "mp3"; lit "flac"; lit "aac"; lit "ogg"; lit "wav"; lit "m4a"]
  then lit "Audio"
  else if one_of e [lit "mp4"; lit "mkv"; lit "avi"; lit "wmv"; lit "mov"; lit "mpeg"]
  then lit "Video"
  else if one_of e [lit "jpg"; lit "jpeg"; lit "png"; lit "gif"; lit "bmp"; lit "webp"]
  then lit "Image"
  else if one_of e [lit "zip"; lit "rar"; lit "7z"; lit "tar"; lit "gz"]
  then lit "Archive"
  else if one_of e [lit "iso"; lit "bin"; lit "nrg"] then lit "Iso"
  else if one_of e [lit "pdf"; lit "doc"; lit "docx"; lit "txt"; lit "epub"]
  then lit "Document"
  else if one_of e [lit "exe"; lit "msi"; lit "apk"; lit "deb"; lit "rpm"]
  then lit "Program"
  else [].

(** [if v, ok := tag; ok { field = int(v) }] on a zero field. *)
Definition int_tag (tags : list Tag) (id : byte) : Z :=
  match UIntTag tags id with Some v => to_int v | None => 0 end.

Definition string_tag (tags : list Tag) (id : byte) : bytes := default [] (StringTag tags id).

Definition fileRecordFromSharedEntry (entry : SharedFileEntry) : result offerErr FileRecord :=
  let tags := entry_Tags entry in
  let name := match StringTag tags FTFilename with Some n => TrimSpace n | None => [] end in
  if bytes_eqb name [] then Err ErrSharedNameRequired else
  let size := match UIntTag tags FTFileSize with Some v => to_int64 v | None => 0 end in
  let size := match UIntTag tags FTFileSizeHi with
              | Some hi => add64 size (to_int64 (to_uint64 (Z.shiftl hi 32)))
              | None => size
              end in
  if size <=? 0 then Err ErrSharedSizeNotPositive else
  let fileType := match StringTag tags FTFileType with
                  | Some t => t
                  | None => match UIntTag tags FTFileType with
                            | Some id => ed2kFileTypeName id
                            | None => []
                            end
                  end in
  let extension := string_tag tags FTFileFormat in
  let extension := if bytes_eqb extension []
                   then TrimPrefix (ToLower (Ext name)) (lit ".") else extension in
  let fileType := if bytes_eqb fileType [] then inferFileTypeFromExtension extension
                  else fileType in
  match normalizeFileRecord
          (mkFile _ (entry_Hash entry) name size fileType extension
             (string_tag tags FTMediaCodec) (int_tag tags FTMediaLength)
             (int_tag tags FTMediaBitrate) (int_tag tags FTSources)
             (int_tag tags FTCompleteSources) []) with
  | Ok r => Ok r
  | Err e => Err (ErrSharedRecord e)
  end.

(** ** The packet *)

Fixpoint get_entries (n : nat) (src : bytes) : option (list SharedFileEntry * bytes) :=
  match n with
  | O => Some ([], src)
  | S n' =>
    match Entry_Get src with
    | None => None
    | Some (e, src) =>
      match get_entries n' src with
      | None => None
      | Some (es, src) => Some (e :: es, src)
      end
    end
  end.

(** [Get]; [None] is a decoding error, after which the packet is dropped. *)
Definition OfferFiles_Get (src : bytes) : option (OfferFiles * bytes) :=
  match ReadUInt32 src with
  | None => None
  | Some (count, src) =>
    match get_entries (Z.to_nat count) src with
    | None => None
    | Some (es, src) => Some (mkOffer _ es, src)
    end
  end.

Fixpoint put_entries (es : list SharedFileEntry) : option bytes :=
  match es with
  | [] => Some []
  | e :: es' =>
    match Entry_Put e, put_entries es' with
    | Some a, Some b => Some (a ++ b)
    | _, _ => None
    end
  end.

Definition OfferFiles_Put (o : OfferFiles) : option bytes :=
  match put_entries (of_Entries o) with
  | Some body => Some (WriteUInt32 (to_uint32 (len (of_Entries o))) ++ body)
  | None => None
  end.

Definition OfferFiles_BytesCount (o : OfferFiles) : Z :=
  foldl (fun size e => to_int (size + Entry_BytesCount e)) 4 (of_Entries o).
End offer.

(** ** Facts *)

Section facts.
Context `{W : Ed2kWire} {R : Ed2kReaderLaws} {WL : Ed2kWireLaws} {EL : Ed2kEntryLaws}.

Lemma get_put_entries es body rest :
  put_entries es = Some body -> get_entries (length es) (body ++ rest) = Some (es, rest).
Proof.
  revert body; induction es as [|e es IH]; intros body; cbn [put_entries length get_entries].
  - by intros [= <-].
  - destruct (Entry_Put e) as [a|] eqn:Ea; [|done].
    destruct (put_entries es) as [b|] eqn:Eb; [|done]. intros [= <-].
    rewrite <- app_assoc, (Entry_Get_Put e) by done. by rewrite (IH b).
Qed.

Lemma put_entries_count es body n :
  put_entries es = Some body -> 0 <= n -> n + len body < 2 ^ 63 ->
  foldl (fun size e => to_int (size + Entry_BytesCount e)) n es = n + len body.
Proof.
  revert body n; induction es as [|e es IH]; intros body n; cbn [put_entries foldl].
  - intros [= <-]. unfold len. simpl. lia.
  - destruct (Entry_Put e) as [a|] eqn:Ea; [|done].
    destruct (put_entries es) as [b|] eqn:Eb; [|done]. intros [= <-] Hn Hb.
    rewrite len_app in *. pose proof (len_nonneg a). pose proof (len_nonneg b).
    rewrite <- (Entry_Put_length e a) by done.
    rewrite to_int_id by (unfold in_s; simpl; lia). rewrite (IH b); [lia|done|lia|lia].
Qed.

(** An offer packet reads back as the list of entries that was written,
    whatever follows it on the wire, and its announced size is the size
    written (below the range of [int]). *)
Theorem OfferFiles_roundtrip o raw rest :
  OfferFiles_Put o = Some raw -> len (of_Entries o) < 2 ^ 32 -> len raw < 2 ^ 63 ->
  OfferFiles_Get (raw ++ rest) = Some (o, rest) /\ OfferFiles_BytesCount o = len raw.
Proof.
  unfold OfferFiles_Put, OfferFiles_Get, OfferFiles_BytesCount.
  destruct (put_entries (of_Entries o)) as [body|] eqn:Eb; [|done].
  intros Hraw Hl Hlen. apply (inj Some) in Hraw as <-.
  rewrite WriteUInt32_spec, to_uint32_id by (split; [apply len_nonneg|done]). split.
  - rewrite <- app_assoc, ReadUInt32_spec, read_le_encode by (split; [apply len_nonneg|done]).
    unfold len. rewrite Nat2Z.id, (get_put_entries (of_Entries o) body) by done. by destruct o.
  - rewrite WriteUInt32_spec, len_app in Hlen. rewrite len_app.
    unfold len in *. rewrite le_encode_length in *.
    by rewrite (put_entries_count (of_Entries o) body) by (done || unfold len; lia).
Qed.
End facts.

(** ** Search results offered again *)

(** A record as the catalog stores it, small enough for the 32-bit tags. *)
Record shareable `{Ed2kLib} (r : FileRecord) : Prop := {
  sh_hash : Hash_IsZero (fr_Hash r) = false;
  sh_name : fr_Name r <> [] /\ TrimSpace (fr_Name r) = fr_Name r;
  sh_size : 0 < fr_Size r < 2 ^ 63;
  sh_sources : in_u 32 (fr_Sources r);
  sh_complete : in_u 32 (fr_CompleteSources r);
  sh_length : in_u 32 (fr_MediaLength r);
  sh_bitrate : in_u 32 (fr_MediaBitrate r)
}.

(** The 64-bit size survives its two 32-bit tags. *)
Lemma size_words s :
  0 < s < 2 ^ 63 ->
  add64 (to_int64 (to_uint32 s))
    (to_int64 (to_uint64 (Z.shiftl (to_uint32 (Z.shiftr (to_uint64 s) 32)) 32))) = s.
Proof.
  intros Hs. unfold to_uint64. rewrite (wrap_u_id 64 s) by (unfold in_u; lia).
  rewrite Z.shiftr_div_pow2 by lia.
  pose proof (Z.div_mod s (2 ^ 32) ltac:(lia)). pose proof (Z.mod_pos_bound s (2 ^ 32) ltac:(lia)).
  assert (0 <= s / 2 ^ 32 < 2 ^ 31) by (split; [apply Z.div_pos|apply Z.div_lt_upper_bound]; lia).
  unfold to_uint32 at 2. rewrite (wrap_u_id 32 (s / 2 ^ 32)) by (unfold in_u; lia).
  rewrite Z.shiftl_mul_pow2 by lia. rewrite wrap_u_id by (unfold in_u; lia).
  unfold to_uint32, wrap_u, add64.
  rewrite (to_int64_id (s mod _)), (to_int64_id (_ * _)) by (unfold in_s; simpl; lia).
  rewrite to_int64_id; [lia|]. unfold in_s; simpl; lia.
Qed.

Section reoffer.
Context `{W : Ed2kWire} {TL : Ed2kTagLaws} `{U : UnicodeTables}.

(** Lookups step over an optional tag. *)
Lemma StringTag_opt_string (b : bool) i s rest id :
  StringTag ((if b then [] else [NewStringTag i s]) ++ rest) id =
  if negb b && byte_eqb i id then Some s else StringTag rest id.
Proof. destruct b; [done|]. apply StringTag_string. Qed.

Lemma StringTag_opt_int (b : bool) i n rest id :
  StringTag ((if b then [NewUInt32Tag i n] else []) ++ rest) id = StringTag rest id.
Proof. destruct b; [|done]. apply StringTag_int. Qed.

Lemma UIntTag_opt_string (b : bool) i s rest id :
  UIntTag ((if b then [] else [NewStringTag i s]) ++ rest) id = UIntTag rest id.
Proof. destruct b; [done|]. apply UIntTag_string. Qed.

Lemma UIntTag_opt_int (b : bool) i n rest id :
  UIntTag ((if b then [NewUInt32Tag i n] else []) ++ rest) id =
  if b && byte_eqb i id then Some n else UIntTag rest id.
Proof. destruct b; [|done]. apply UIntTag_int. Qed.

Ltac distinct_tags :=
  pose proof file_tags_NoDup as Hnd;
  repeat (apply NoDup_cons in Hnd as [? Hnd]);
  rewrite ?not_elem_of_cons in *; destruct_and?.

Ltac lookup_tags :=
  repeat first
    [ rewrite StringTag_string | rewrite StringTag_int | rewrite UIntTag_string
    | rewrite UIntTag_int | rewrite StringTag_opt_string | rewrite StringTag_opt_int
    | rewrite UIntTag_opt_string | rewrite UIntTag_opt_int
    | rewrite StringTag_nil | rewrite UIntTag_nil | rewrite byte_eqb_refl
    | rewrite (proj2 (byte_eqb_neq _ _)) by congruence
    | rewrite andb_false_r | rewrite andb_true_r ].

(** The tags a result carries, as an offer reads them. *)
Lemma result_tags r :
  let tags := entry_Tags (makeSharedFileEntry r) in
  StringTag tags FTFilename = Some (fr_Name r) /\
  UIntTag tags FTFileSize = Some (to_uint32 (fr_Size r)) /\
  UIntTag tags FTFileSizeHi =
    (if 0xffffffff <? fr_Size r
     then Some (to_uint32 (Z.shiftr (to_uint64 (fr_Size r)) 32)) else None) /\
  UIntTag tags FTSources = Some (to_uint32 (fr_Sources r)) /\
  UIntTag tags FTCompleteSources = Some (to_uint32 (fr_CompleteSources r)) /\
  UIntTag tags FTMediaLength =
    (if 0 <? fr_MediaLength r then Some (to_uint32 (fr_MediaLength r)) else None) /\
  UIntTag tags FTMediaBitrate =
    (if 0 <? fr_MediaBitrate r then Some (to_uint32 (fr_MediaBitrate r)) else None).
Proof.
  cbv zeta. unfold makeSharedFileEntry.
  destruct (match fr_Endpoints r with [] => _ | _ => _ end) as [id port].
  cbn [entry_Tags]. rewrite <- (app_nil_r (if 0 <? fr_MediaBitrate r then _ else _)).
  cbn [app]. distinct_tags.
  repeat split; lookup_tags; done.
Qed.

(** A search result is a faithful description of the file: when a client
    offers the entry it was sent, the server recovers the hash, the name, the
    full 64-bit size (which travels in two 32-bit tags), the source counts and
    the media fields of the catalog record, and accepts it. *)
Theorem result_reoffered r :
  shareable r ->
  exists r', fileRecordFromSharedEntry (makeSharedFileEntry r) = Ok r' /\
    fr_Hash r' = fr_Hash r /\ fr_Name r' = fr_Name r /\ fr_Size r' = fr_Size r /\
    fr_Sources r' = fr_Sources r /\
    fr_CompleteSources r' = (if fr_CompleteSources r =? 0 then fr_Sources r
                             else fr_CompleteSources r) /\
    fr_MediaLength r' = fr_MediaLength r /\ fr_MediaBitrate r' = fr_MediaBitrate r /\
    fr_Endpoints r' = [].
Proof.
  intros [Hh [Hn Ht] Hs Hso Hc Hl Hb].
  destruct (result_tags r) as (T1 & T2 & T3 & T4 & T5 & T6 & T7).
  unfold fileRecordFromSharedEntry. rewrite T1, T2, T3, Ht.
  rewrite (proj2 (bytes_eqb_neq _ _) Hn).
  set (size := match _ with Some hi => _ | None => _ end).
  assert (size = fr_Size r) as ->.
  { unfold size. destruct (Z.ltb_spec 0xffffffff (fr_Size r)); [by apply size_words|].
    rewrite to_uint32_id by (unfold in_u; lia). apply to_int64_id. unfold in_s. lia. }
  destruct (Z.leb_spec (fr_Size r) 0); [lia|].
  unfold int_tag. rewrite T4, T5, T6, T7.
  assert (entry_Hash (makeSharedFileEntry r) = fr_Hash r) as ->.
  { unfold makeSharedFileEntry. by destruct (match fr_Endpoints r with [] => _ | _ => _ end). }
  assert (forall v, in_u 32 v -> to_int (to_uint32 v) = v) as Hint.
  { intros v Hv. rewrite to_uint32_id by done. apply to_int_id. unfold in_u, in_s in *. lia. }
  assert (forall v, in_u 32 v ->
    match (if 0 <? v then Some (to_uint32 v) else None) with
    | Some n => to_int n | None => 0 end = v) as Hopt.
  { intros v Hv. destruct (Z.ltb_spec 0 v); [by apply Hint|]. unfold in_u in Hv. lia. }
  rewrite !Hint, !Hopt by done. unfold normalizeFileRecord.
  cbn [fr_Hash fr_Name fr_Size fr_Endpoints fr_Sources fr_CompleteSources fr_FileType
       fr_Extension fr_MediaCodec fr_MediaLength fr_MediaBitrate].
  rewrite Hh, Ht, (proj2 (bytes_eqb_neq _ _) Hn).
  destruct (Z.leb_spec (fr_Size r) 0); [lia|]. cbn [first_bad_endpoint].
  eexists. split; [done|]. cbn. unfold in_u in *.
  repeat split; destruct (Z.leb_spec (fr_Sources r) 0), (Z.leb_spec (fr_CompleteSources r) 0);
    try destruct (Z.eqb_spec (fr_CompleteSources r) 0); unfold len; simpl; lia.
Qed.
End reoffer.

(** ** Witnesses *)

Definition large_file : FileRecord :=
  mkFile _ (replicate 16 x2a) (lit "Big Movie.MKV") 5000000000 [] [] (lit "x264") 5400 900 3 0 [].

Lemma result_reoffered_witness :
  exists r', fileRecordFromSharedEntry (makeSharedFileEntry large_file) = Ok r' /\
    fr_Size r' = 5000000000.
Proof.
  destruct (result_reoffered large_file) as (r' & Hr & _ & _ & Hs & _).
  - constructor; vm_compute; intuition discriminate.
  - exists r'. split; [exact Hr|exact Hs].
Defined.

Lemma OfferFiles_roundtrip_witness :
  exists raw, OfferFiles_Put (mkOffer _ [makeSharedFileEntry large_file]) = Some raw /\
    OfferFiles_Get (raw ++ [x00]) = Some (mkOffer _ [makeSharedFileEntry large_file], [x00]).
Proof.
  eexists. split; [vm_compute; reflexivity|].
  refine (proj1 (OfferFiles_roundtrip (mkOffer _ [makeSharedFileEntry large_file]) _ _ _ _ _));
    vm_compute; reflexivity.
Defined.
