(* ===== verification/Sources.v ===== *)
(** * Source lists (ed2ksrv/server.go, orderAndCapSources)

    The entries of a source reply, their deduplication, the order in which they
    are sent and the protocol's limit on their number. *)

From S2P Require Import Prelude GoStrings Ed2kLib Ed2kRef GoSort.

Local Open Scope Z_scope.

(** [foundSourceEntry]. *)
Record foundSourceEntry `{Ed2kLib} := mkFound {
  fs_ClientID : Z;
  fs_Port : Z;
  fs_ObfuscationOptions : Z;
  fs_UserHash : option Hash
}.

Definition sourceObfuscationUserHashFlag : Z := 0x80.

Section sources.
Context `{L : Ed2kLib}.

Definition parseSourceUserHash (value : bytes) : option Hash :=
  let value := TrimSpace value in
  if bytes_eqb value [] then None else HashFromString value.

(** The key of the [seen] map. *)
Definition source_key (src : foundSourceEntry) : Z * Z :=
  (to_int64 (fs_ClientID src), to_int64 (fs_Port src)).

Fixpoint dedup_sources (sources : list foundSourceEntry) (seen : gset (Z * Z))
    : list foundSourceEntry :=
  match sources with
  | [] => []
  | src :: sources' =>
    if decide (source_key src ∈ seen) then dedup_sources sources' seen
    else src :: dedup_sources sources' ({[source_key src]} ∪ seen)
  end.

(** A routable client ID. *)
Definition is_high_id (src : foundSourceEntry) : bool :=
  0x1000000 <=? to_uint32 (fs_ClientID src).

Definition high_first (a b : foundSourceEntry) : bool := is_high_id a && negb (is_high_id b).

Definition orderAndCapSources (sources : list foundSourceEntry) (max : Z)
    : list foundSourceEntry :=
  let max := if (max <=? 0) || (255 <? max) then 255 else max in
  let sources := if 1 <? len sources then dedup_sources sources ∅ else sources in
  let sources := SliceStable high_first sources in
  if max <? len sources then take (Z.to_nat max) sources else sources.
End sources.

(** ** Facts *)

Section facts.
Context `{L : Ed2kLib}.

(** The effective cap. *)
Definition source_cap (max : Z) : Z := if (max <=? 0) || (255 <? max) then 255 else max.

Lemma source_cap_range max : 1 <= source_cap max <= 255.
Proof.
  unfold source_cap. destruct (Z.leb_spec max 0), (Z.ltb_spec 255 max); simpl; lia.
Qed.

Lemma dedup_sources_spec sources seen :
  dedup_sources sources seen `sublist_of` sources /\
  NoDup (map source_key (dedup_sources sources seen)) /\
  (forall k, k ∈ map source_key (dedup_sources sources seen) <->
             k ∈ map source_key sources /\ k ∉ seen).
Proof.
  revert seen; induction sources as [|src ss IH]; intros seen; cbn [dedup_sources map].
  { split; [done|]. split; [constructor|]. intros k. rewrite elem_of_nil. tauto. }
  case_decide as Hd.
  - destruct (IH seen) as (Hs & Hn & Hk). split; [by apply sublist_cons|]. split; [done|].
    intros k. rewrite Hk, elem_of_cons. split; [tauto|]. intros [[->|?] ?]; [done|by split].
  - destruct (IH ({[source_key src]} ∪ seen)) as (Hs & Hn & Hk).
    split; [by apply sublist_skip|]. cbn [map]. split.
    + apply NoDup_cons. split; [|done]. rewrite Hk, elem_of_union, elem_of_singleton. tauto.
    + intros k. rewrite !elem_of_cons, Hk, not_elem_of_union, not_elem_of_singleton.
      destruct (decide (k = source_key src)) as [->|]; tauto.
Qed.

(** The deduplicated list, whichever branch computes it. *)
Definition unique_sources (sources : list foundSourceEntry) : list foundSourceEntry :=
  if 1 <? len sources then dedup_sources sources ∅ else sources.

Lemma unique_sources_spec sources :
  unique_sources sources `sublist_of` sources /\
  NoDup (map source_key (unique_sources sources)) /\
  (forall k, k ∈ map source_key (unique_sources sources) <-> k ∈ map source_key sources).
Proof.
  unfold unique_sources. destruct (Z.ltb_spec 1 (len sources)) as [Hl|Hl].
  - destruct (dedup_sources_spec sources ∅) as (Hs & Hn & Hk). split; [done|].
    split; [done|]. intros k. rewrite Hk. split; [tauto|].
    split; [done|apply not_elem_of_empty].
  - split; [done|]. split; [|done].
    destruct sources as [|a [|b l]]; [constructor|apply NoDup_singleton|].
    unfold len in Hl. simpl in Hl. lia.
Qed.

Lemma orderAndCapSources_eq sources max :
  orderAndCapSources sources max =
  take (Z.to_nat (source_cap max))
    (List.filter is_high_id (unique_sources sources) ++
     List.filter (fun s => negb (is_high_id s)) (unique_sources sources)).
Proof.
  unfold orderAndCapSources. fold (source_cap max). fold (unique_sources sources).
  unfold high_first. rewrite SliceStable_partition.
  set (l := _ ++ _). destruct (Z.ltb_spec (source_cap max) (len l)); [done|].
  rewrite take_ge; [done|]. unfold len in *. pose proof (source_cap_range max). lia.
Qed.

Lemma filter_sublist {A} (P : A -> bool) (l : list A) : List.filter P l `sublist_of` l.
Proof.
  induction l as [|x l IH]; [done|]. cbn. destruct (P x);
    [by apply sublist_skip|by apply sublist_cons].
Qed.

Lemma NoDup_take_app_filter sources n :
  NoDup (map source_key (take n (List.filter is_high_id (unique_sources sources) ++
     List.filter (fun s => negb (is_high_id s)) (unique_sources sources)))).
Proof.
  destruct (unique_sources_spec sources) as (_ & Hn & _).
  set (u := unique_sources sources) in *.
  assert (List.filter is_high_id u ++ List.filter (fun s => negb (is_high_id s)) u ≡ₚ u) as Hp.
  { unfold is_high_id. rewrite <- SliceStable_partition. apply SliceStable_perm. }
  rewrite <- firstn_map. eapply sublist_NoDup; [|apply sublist_take].
  by rewrite Hp.
Qed.

(** A source reply never exceeds the protocol's 255 entries nor the
    configured cap, names no endpoint twice, and lists routable (HighID) peers
    before LowID peers, each group in the order in which the sources were found;
    below the cap no endpoint is lost. *)
Theorem orderAndCapSources_spec sources max :
  let out := orderAndCapSources sources max in
  len out <= source_cap max <= 255 /\
  NoDup (map source_key out) /\
  (exists hs ls, out = hs ++ ls /\
     Forall (fun s => is_high_id s = true) hs /\ Forall (fun s => is_high_id s = false) ls /\
     hs `sublist_of` sources /\ ls `sublist_of` sources) /\
  (len (unique_sources sources) <= source_cap max ->
   forall k, k ∈ map source_key sources -> k ∈ map source_key out).
Proof.
  cbv zeta. rewrite orderAndCapSources_eq. pose proof (source_cap_range max) as Hc.
  destruct (unique_sources_spec sources) as (Hsub & Hn & Hk).
  set (n := Z.to_nat (source_cap max)).
  pose proof (NoDup_take_app_filter sources n) as Hnd.
  set (u := unique_sources sources) in *.
  assert (forall P m, take m (List.filter P u) `sublist_of` sources) as Hts.
  { intros P m. etransitivity; [apply sublist_take|].
    etransitivity; [apply filter_sublist|done]. }
  assert (forall P m, Forall (fun s => P s = true) (take m (List.filter P u))) as HP.
  { intros P m. apply Forall_take, List.Forall_forall.
    intros s Hs. by apply filter_In in Hs as [_ ?]. }
  split; [unfold len; rewrite length_take; lia|]. split; [done|]. split.
  - rewrite take_app. do 2 eexists. split; [done|]. split; [apply HP|]. split; [|done].
    eapply Forall_impl; [apply (HP (fun s => negb (is_high_id s)))|].
    intros s Hs. by apply negb_true_iff in Hs.
  - intros Hle k Hin. apply Hk in Hin. rewrite take_ge.
    + rewrite list_elem_of_In in *. apply in_map_iff in Hin as (s & <- & Hs). apply in_map.
      apply in_app_iff. rewrite !filter_In. destruct (is_high_id s); simpl; auto.
    + assert (List.filter is_high_id u ++ List.filter (fun s => negb (is_high_id s)) u ≡ₚ u)
        as Hp by (rewrite <- SliceStable_partition; apply SliceStable_perm).
      rewrite Hp. unfold n, len in *. lia.
Qed.
End facts.
