(* ===== verification/PeerServers.v ===== *)
(** * Peer servers and server lists (ed2ksrv/peer_registry.go)

    The registry of known peer servers, its liveness marks, and the two server
    lists the server hands out: to clients ([buildServerListBody], server.go)
    and to other servers ([buildUDPServerListReply], server_udp.go). *)

From S2P Require Import Prelude GoStrings GoNet.

Local Open Scope Z_scope.

(** ** The registry *)

Record peerState := mkPeer { ps_addr : NetAddr; ps_lastSeen : option Z }.

(** [peers] and the configuration order of its keys. *)
Record peerRegistry := mkRegistry {
  pr_peers : gmap bytes peerState;
  pr_order : list bytes
}.

Record PeerStatus := mkPeerStatus { pst_Address : bytes; pst_LastSeen : option Z }.

(** A valid "host:port" specification: the registry key and the address. *)
Definition parse_spec (spec : bytes) : option (bytes * NetAddr) :=
  match SplitHostPort (TrimSpace spec) with
  | None => None
  | Some (host, portStr) =>
    match ParseIP host, Atoi portStr with
    | Some ip, Some port =>
      if (port <=? 0) || (65535 <? port) then None
      else Some (JoinHostPort host portStr, mkAddr ip port)
    | _, _ => None
    end
  end.

Definition add_spec (r : peerRegistry) (spec : bytes) : peerRegistry :=
  match parse_spec spec with
  | None => r
  | Some (key, addr) =>
    match pr_peers r !! key with
    | Some _ => r
    | None => mkRegistry (<[key := mkPeer addr None]> (pr_peers r)) (pr_order r ++ [key])
    end
  end.

Definition newPeerRegistry (specs : list bytes) : peerRegistry :=
  foldl add_spec (mkRegistry ∅ []) specs.

Definition registry_len (r : peerRegistry) : Z := Z.of_nat (size (pr_peers r)).

(** [r.peers[key].addr] for every key in order; [None] is a nil dereference. *)
Definition registry_addrs (r : peerRegistry) : option (list NetAddr) :=
  mapM (fun key => option_map ps_addr (pr_peers r !! key)) (pr_order r).

Definition registry_snapshot (r : peerRegistry) : option (list PeerStatus) :=
  mapM (fun key => option_map (fun p => mkPeerStatus key (ps_lastSeen p)) (pr_peers r !! key))
       (pr_order r).

(** A reply counts only when its source address is a registered peer. *)
Definition markSeen (r : peerRegistry) (now : Z) (addr : NetAddr) : peerRegistry * bool :=
  let key := NetAddr_String addr in
  match pr_peers r !! key with
  | None => (r, false)
  | Some p => (mkRegistry (<[key := mkPeer (ps_addr p) (Some now)]> (pr_peers r)) (pr_order r), true)
  end.

Definition registry_add (r : peerRegistry) (addr : NetAddr) : peerRegistry * bool :=
  match To4 (addr_IP addr) with
  | None => (r, false)
  | Some v4 =>
    if addr_Port addr <=? 0 then (r, false) else
    let key := NetAddr_String addr in
    match pr_peers r !! key with
    | Some _ => (r, false)
    | None => (mkRegistry (<[key := mkPeer (mkAddr v4 (addr_Port addr)) None]> (pr_peers r))
                          (pr_order r ++ [key]), true)
    end
  end.

(** ** Server lists *)

(** The entry loop of [parseServerListBody]. *)
Fixpoint parse_server_entries (count : nat) (body : bytes) : list NetAddr :=
  match count, body with
  | S count', a :: b :: c :: d :: p0 :: p1 :: body' =>
    let port := le_decode [p0; p1] in
    (if 0 <? port then [mkAddr [a; b; c; d] port] else []) ++ parse_server_entries count' body'
  | _, _ => []
  end.

Definition parseServerListBody (body : bytes) : list NetAddr :=
  match body with
  | [] => []
  | count :: body' => parse_server_entries (Z.to_nat (byteZ count)) body'
  end.

(** [appendEntry]: four address bytes and the port, low byte first. *)
Definition append_entry (st : bytes * Z) (v4 : bytes) (port : Z) : bytes * Z :=
  (st.1 ++ take 4 v4 ++ [byte_of_Z port; byte_of_Z (Z.shiftr port 8)], to_int (st.2 + 1)).

(** The IPv4 endpoint of a configured peer server. *)
Definition peer_endpoint (peer : bytes) : option (bytes * Z) :=
  match SplitHostPort (TrimSpace peer) with
  | None => None
  | Some (host, portStr) =>
    match match ParseIP host with Some ip => To4 ip | None => None end, Atoi portStr with
    | Some v4, Some port =>
      if (port <=? 0) || (65535 <? port) then None else Some (v4, to_uint16 port)
    | _, _ => None
    end
  end.

Definition append_peer (st : bytes * Z) (peer : bytes) : bytes * Z :=
  match peer_endpoint peer with
  | Some (v4, port) => append_entry st v4 port
  | None => st
  end.

(** [None] is the nil body. *)
Definition buildServerListBody (self : bytes) (selfPort : Z) (peers : list bytes)
    : option bytes :=
  let st := match To4 self with
            | Some v4 => append_entry ([], 0) v4 selfPort
            | None => ([], 0)
            end in
  let st := foldl append_peer st peers in
  if st.2 =? 0 then None else Some (byte_of_Z st.2 :: st.1).

Definition ed2kUDPHeader : byte := xe3.
Definition udpOpServerListRes : byte := xa1.

Definition buildUDPServerListReply (r : peerRegistry) : option bytes :=
  match registry_addrs r with
  | None => None
  | Some addrs =>
    let st := foldl (fun st a => match To4 (addr_IP a) with
                                 | Some v4 => append_entry st v4 (addr_Port a)
                                 | None => st
                                 end) ([], 0) addrs in
    Some (ed2kUDPHeader :: udpOpServerListRes :: byte_of_Z st.2 :: st.1)
  end.

(** ** Facts: server lists *)

Definition encode_entry (e : bytes * Z) : bytes :=
  take 4 e.1 ++ [byte_of_Z e.2; byte_of_Z (Z.shiftr e.2 8)].

Definition entry_ok (e : bytes * Z) : Prop := length e.1 = 4%nat /\ 0 < e.2 < 65536.

Definition addr_of_entry (e : bytes * Z) : NetAddr := mkAddr e.1 e.2.

Lemma To4_length ip v4 : To4 ip = Some v4 -> length v4 = 4%nat.
Proof.
  unfold To4. destruct (length ip =? 4)%nat eqn:E.
  { intros [= <-]. by apply Nat.eqb_eq. }
  destruct ((length ip =? 16)%nat && _) eqn:E2; [|done].
  apply andb_true_iff in E2 as [H16%Nat.eqb_eq _]. intros [= <-]. rewrite length_drop. lia.
Qed.

Lemma peer_endpoint_ok peer e : peer_endpoint peer = Some e -> entry_ok e.
Proof.
  unfold peer_endpoint. intros H. repeat case_match; simplify_eq.
  split; [by eapply To4_length|]. simpl.
  match goal with Hb : _ || _ = false |- _ =>
    apply orb_false_iff in Hb as [?%Z.leb_gt ?%Z.ltb_ge] end.
  unfold to_uint16. rewrite wrap_u_id; [lia|unfold in_u; simpl; lia].
Qed.

Lemma parse_encoded n es :
  Forall entry_ok es ->
  parse_server_entries n (flat_map encode_entry es) = take n (map addr_of_entry es).
Proof.
  intros Hes. revert n; induction Hes as [|[v4 port] es [Hl Hp] _ IH]; intros [|n]; try done.
  simpl in Hl, Hp. destruct v4 as [|a [|b [|c [|d [|]]]]]; try done.
  cbn [flat_map encode_entry fst snd take app parse_server_entries map].
  assert (le_decode [byte_of_Z port; byte_of_Z (Z.shiftr port 8)] = port) as ->.
  { rewrite Z.shiftr_div_pow2 by lia.
    change (le_decode (le_encode 2 port) = port). apply le_decode_encode_small. simpl. lia. }
  destruct (Z.ltb_spec 0 port); [|lia]. cbn [app]. by rewrite IH.
Qed.

Lemma byte_of_Z_to_int z : byte_of_Z (to_int z) = byte_of_Z z.
Proof.
  apply byteZ_inj. rewrite !byteZ_byte_of_Z. unfold to_int, wrap_s.
  rewrite (Z.mod_eq _ (2 ^ 64)) by lia.
  replace (z + 2 ^ (64 - 1) - 2 ^ 64 * ((z + 2 ^ (64 - 1)) / 2 ^ 64) - 2 ^ (64 - 1)) with
    (z + (- (2 ^ 56 * ((z + 2 ^ (64 - 1)) / 2 ^ 64))) * 256) by (simpl; lia).
  by rewrite Z_mod_plus_full.
Qed.

(** Any fold of [append_entry] over the entries a list gives. *)
Lemma fold_entries {A} (f : A -> option (bytes * Z)) l st :
  let st' := foldl (fun st x => match f x with
                                | Some e => append_entry st e.1 e.2
                                | None => st
                                end) st l in
  st'.1 = st.1 ++ flat_map encode_entry (omap f l) /\
  to_int st'.2 = to_int (st.2 + len (omap f l)).
Proof.
  cbv zeta. revert st; induction l as [|x l IH]; intros st; cbn [foldl].
  { cbn. unfold len. simpl. rewrite app_nil_r. by rewrite Z.add_0_r. }
  destruct (IH (match f x with Some e => append_entry st e.1 e.2 | None => st end)) as [-> ->].
  cbn. destruct (f x) as [[v4 port]|]; [|done]. cbn [append_entry fst snd flat_map].
  rewrite <- app_assoc. split; [done|]. rewrite len_cons.
  unfold to_int, wrap_s.
  rewrite (Z.add_comm (st.2) (1 + len _)).
  set (k := len _). set (m := st.2).
  replace ((m + 1 + 2 ^ (64 - 1)) mod 2 ^ 64 - 2 ^ (64 - 1) + k + 2 ^ (64 - 1))
    with ((m + 1 + 2 ^ (64 - 1)) mod 2 ^ 64 + k) by lia.
  rewrite Zplus_mod_idemp_l. do 2 f_equal. lia.
Qed.

(** The entries of a client's server list: this server and the valid peers. *)
Definition list_entries (self : bytes) (selfPort : Z) (peers : list bytes) : list (bytes * Z) :=
  match To4 self with Some v4 => [(v4, selfPort)] | None => [] end ++ omap peer_endpoint peers.

Lemma omap_peer_endpoint_ok peers : Forall entry_ok (omap peer_endpoint peers).
Proof.
  apply Forall_forall. intros e (peer & _ & He)%list_elem_of_omap. by eapply peer_endpoint_ok.
Qed.

Lemma foldl_append_peer peers st :
  foldl append_peer st peers =
  foldl (fun st x => match peer_endpoint x with
                     | Some e => append_entry st e.1 e.2
                     | None => st
                     end) st peers.
Proof.
  revert st; induction peers as [|p ps IH]; intros st; [done|]. cbn [foldl]. rewrite IH.
  f_equal. unfold append_peer. by destruct (peer_endpoint p) as [[? ?]|].
Qed.

Lemma buildServerListBody_eq self selfPort peers :
  0 < len (list_entries self selfPort peers) < 2 ^ 63 ->
  buildServerListBody self selfPort peers =
    Some (byte_of_Z (len (list_entries self selfPort peers)) ::
          flat_map encode_entry (list_entries self selfPort peers)).
Proof.
  unfold buildServerListBody, list_entries. intros Hlen. rewrite foldl_append_peer.
  set (st0 := match To4 self with Some v4 => append_entry ([], 0) v4 selfPort | None => ([], 0) end).
  destruct (fold_entries peer_endpoint peers st0) as [E1 E2].
  set (st := foldl _ st0 peers) in *.
  assert (to_int st.2 = len (match To4 self with Some v4 => [(v4, selfPort)] | None => [] end
                             ++ omap peer_endpoint peers)) as Hc.
  { rewrite E2. assert (st0.2 = len (match To4 self with Some v4 => [(v4, selfPort)]
                                      | None => [] end)) as -> by (subst st0; by destruct (To4 self)).
    rewrite <- len_app. apply to_int_id. unfold in_s. split; [|apply Hlen].
    etransitivity; [|apply Z.lt_le_incl, Hlen]. done. }
  destruct (Z.eqb_spec st.2 0) as [H0|_].
  { rewrite H0 in Hc. change (to_int 0) with 0 in Hc. lia. }
  rewrite <- (byte_of_Z_to_int st.2), Hc, E1. do 2 f_equal. subst st0.
  rewrite flat_map_app. destruct (To4 self); [|done].
  cbn [flat_map append_entry fst snd app]. by rewrite app_nil_r.
Qed.

(** The list as a receiver reads it. *)
Lemma parse_built es :
  Forall entry_ok es ->
  parseServerListBody (byte_of_Z (len es) :: flat_map encode_entry es) =
  take (Z.to_nat (len es mod 256)) (map addr_of_entry es).
Proof.
  intros Hes. cbn [parseServerListBody]. rewrite byteZ_byte_of_Z. by apply parse_encoded.
Qed.

(** The server list a client receives decodes to this server's own address
    followed by every valid configured peer, in order, of which the one-byte
    count announces the number modulo 256: with at most 255 servers nothing is
    lost, beyond that only the remainder is visible. *)
Theorem server_list_roundtrip self selfPort peers v4 :
  To4 self = Some v4 -> 0 < selfPort < 65536 -> len peers < 2 ^ 62 ->
  exists body, buildServerListBody self selfPort peers = Some body /\
    parseServerListBody body =
      take (Z.to_nat ((1 + len (omap peer_endpoint peers)) mod 256))
           (mkAddr v4 selfPort :: map addr_of_entry (omap peer_endpoint peers)).
Proof.
  intros Hself Hport Hlen.
  assert (list_entries self selfPort peers = (v4, selfPort) :: omap peer_endpoint peers) as E.
  { unfold list_entries. by rewrite Hself. }
  assert (len (omap peer_endpoint peers) <= len peers) as Hle.
  { unfold len. clear. induction peers as [|p ps IH]; [done|]. cbn.
    destruct (peer_endpoint p); simpl; lia. }
  eexists. split.
  - apply buildServerListBody_eq. rewrite E, len_cons.
    pose proof (len_nonneg (omap peer_endpoint peers)). lia.
  - rewrite parse_built, E; [by rewrite len_cons|]. rewrite E.
    constructor; [|apply omap_peer_endpoint_ok]. split; [by eapply To4_length|done].
Qed.

(** ** Facts: the registry *)

(** Keys in order without repetition, exactly the keys of the map; every peer
    has an IPv4 or IPv6 address and a real port. *)
Record registry_ok (r : peerRegistry) : Prop := {
  reg_NoDup : NoDup (pr_order r);
  reg_keys : forall key, key ∈ pr_order r <-> is_Some (pr_peers r !! key);
  reg_ports : forall key p, pr_peers r !! key = Some p -> 0 < addr_Port (ps_addr p)
}.

Lemma registry_insert r key p :
  registry_ok r -> pr_peers r !! key = None -> 0 < addr_Port (ps_addr p) ->
  registry_ok (mkRegistry (<[key := p]> (pr_peers r)) (pr_order r ++ [key])).
Proof.
  intros [Hn Hk Hp] Hnew Hport. constructor; cbn [pr_order pr_peers].
  - apply NoDup_app. split; [done|]. split; [|apply NoDup_singleton].
    intros k Hin ->%list_elem_of_singleton. apply Hk in Hin. rewrite Hnew in Hin.
    by apply is_Some_None in Hin.
  - intros k. rewrite elem_of_app, list_elem_of_singleton, Hk, lookup_insert.
    case_decide as Hd; [split; [eauto|by right]|]. split; [by intros [?| ->]|by left].
  - intros k q. rewrite lookup_insert. case_decide; [by intros [= <-]|apply Hp].
Qed.

Lemma parse_spec_port spec key addr : parse_spec spec = Some (key, addr) -> 0 < addr_Port addr.
Proof.
  unfold parse_spec. intros H. repeat case_match; simplify_eq. simpl.
  match goal with Hb : _ || _ = false |- _ => apply orb_false_iff in Hb as [?%Z.leb_gt _] end.
  done.
Qed.

Lemma newPeerRegistry_ok specs : registry_ok (newPeerRegistry specs).
Proof.
  unfold newPeerRegistry.
  assert (registry_ok (mkRegistry ∅ [])) as H0.
  { constructor; cbn [pr_order pr_peers]; [constructor| |].
    - intros k. rewrite elem_of_nil, lookup_empty. split; [done|by intros [? ?]].
    - intros k p. by rewrite lookup_empty. }
  revert H0. generalize (mkRegistry ∅ []) as r.
  induction specs as [|spec specs IH]; intros r Hr; [done|]. cbn [foldl]. apply IH.
  unfold add_spec. destruct (parse_spec spec) as [[key addr]|] eqn:E; [|done].
  destruct (pr_peers r !! key) eqn:Ek; [done|].
  apply registry_insert; [done|done|by eapply parse_spec_port].
Qed.

Lemma registry_add_ok r addr : registry_ok r -> registry_ok (registry_add r addr).1.
Proof.
  intros Hr. unfold registry_add. destruct (To4 (addr_IP addr)); [|done].
  destruct (Z.leb_spec (addr_Port addr) 0); [done|].
  destruct (pr_peers r !! NetAddr_String addr) eqn:E; [done|]. by apply registry_insert.
Qed.

Lemma markSeen_ok r now addr : registry_ok r -> registry_ok (markSeen r now addr).1.
Proof.
  intros [Hn Hk Hp]. unfold markSeen.
  destruct (pr_peers r !! NetAddr_String addr) as [p|] eqn:E; [|done].
  constructor; cbn [fst pr_order pr_peers]; [done| |].
  - intros k. rewrite Hk, lookup_insert. case_decide as Hd; [|done].
    rewrite <- Hd, E. split; eauto.
  - intros k q. rewrite lookup_insert. case_decide; [intros [= <-]; exact (Hp _ _ E)|apply Hp].
Qed.

(** The operations of the registry at run time. *)
Inductive registry_op :=
| OpMarkSeen (now : Z) (addr : NetAddr)
| OpAdd (addr : NetAddr).

Definition run_registry_op (r : peerRegistry) (op : registry_op) : peerRegistry :=
  match op with
  | OpMarkSeen now addr => (markSeen r now addr).1
  | OpAdd addr => (registry_add r addr).1
  end.

Lemma run_registry_ok ops r : registry_ok r -> registry_ok (foldl run_registry_op r ops).
Proof.
  revert r; induction ops as [|op ops IH]; intros r Hr; [done|]. cbn [foldl]. apply IH.
  destruct op; [by apply markSeen_ok|by apply registry_add_ok].
Qed.

Lemma registry_addrs_total r :
  registry_ok r -> exists addrs, registry_addrs r = Some addrs /\ length addrs = size (pr_peers r).
Proof.
  intros [Hn Hk Hp]. unfold registry_addrs.
  assert (exists addrs, mapM (fun key => option_map ps_addr (pr_peers r !! key)) (pr_order r)
                        = Some addrs) as [addrs Ha].
  { apply mapM_is_Some_2, Forall_forall. intros k [p Hkp]%Hk. unfold compose. rewrite Hkp.
    by eexists. }
  exists addrs. split; [done|]. apply length_mapM in Ha. rewrite <- Ha.
  assert (list_to_set (pr_order r) = dom (pr_peers r)) as Hdom.
  { apply set_eq. intros k. by rewrite elem_of_list_to_set, Hk, elem_of_dom. }
  rewrite <- (size_list_to_set (C := gset bytes) (pr_order r)) by done.
  by rewrite Hdom, size_dom.
Qed.

(** From any configuration and after any sequence of status replies and
    learned peers, the peer addresses can be listed (no key of the order is
    missing from the map), one for every registered peer; and a status reply
    from an address that is not registered changes nothing and is refused. *)
Lemma registry_reachable specs ops :
  let r := foldl run_registry_op (newPeerRegistry specs) ops in
  registry_ok r /\
  (exists addrs, registry_addrs r = Some addrs /\ len addrs = registry_len r) /\
  (forall now addr, NetAddr_String addr ∉ pr_order r -> markSeen r now addr = (r, false)).
Proof.
  cbv zeta. pose proof (run_registry_ok ops _ (newPeerRegistry_ok specs)) as Hr.
  split; [done|]. split.
  - destruct (registry_addrs_total _ Hr) as (addrs & Ha & Hl). exists addrs.
    split; [done|]. unfold len, registry_len. by rewrite Hl.
  - intros now addr Hn. unfold markSeen.
    destruct (pr_peers _ !! NetAddr_String addr) eqn:E; [|done].
    destruct Hn. apply (reg_keys _ Hr). by eexists.
Qed.

(** ** Facts: recognising a peer *)

(** An "ip:port" specification in the form [net.UDPAddr.String] prints. *)
Definition canonical_spec (v4 : bytes) (port : Z) : bytes :=
  dotted_quad v4 ++ x3a :: Itoa port.

Lemma dotted_quad_ends a b c d :
  exists x s y, dotted_quad [a; b; c; d] = x :: s ++ [y] /\
                is_digit x = true /\ is_digit y = true.
Proof.
  pose proof (Itoa_digits (byteZ a) ltac:(apply byteZ_range)) as Ha.
  pose proof (Itoa_digits (byteZ d) ltac:(apply byteZ_range)) as Hd.
  pose proof (Itoa_octet_ne a) as Na. pose proof (Itoa_octet_ne d) as Nd.
  unfold dotted_quad. destruct (Itoa (byteZ a)) as [|x s]; [done|].
  destruct (@exists_last _ (Itoa (byteZ d)) Nd) as (t & y & E). rewrite E in *.
  apply Forall_cons in Ha as [Hx _]. apply Forall_app in Hd as [_ Hy].
  apply Forall_cons in Hy as [Hy _].
  exists x, (s ++ x2e :: Itoa (byteZ b) ++ x2e :: Itoa (byteZ c) ++ x2e :: t), y.
  split; [|done]. cbn [app]. f_equal. by rewrite <- !app_assoc, !app_comm_cons, <- !app_assoc.
Qed.

Lemma canonical_join v4 port :
  JoinHostPort (dotted_quad v4) (Itoa port) = canonical_spec v4 port.
Proof. unfold JoinHostPort. by rewrite dotted_quad_no_byte. Qed.

Lemma TrimSpace_canonical a b c d port :
  0 <= port -> TrimSpace (canonical_spec [a; b; c; d] port) = canonical_spec [a; b; c; d] port.
Proof.
  intros Hp. destruct (dotted_quad_ends a b c d) as (x & s & y & E & Hx & _).
  pose proof (Itoa_digits port Hp) as Hd.
  assert (Itoa port <> []) as Hne.
  { unfold Itoa. destruct (port <? 0); [done|apply digits_fuel_ne]. }
  destruct (@exists_last _ (Itoa port) Hne) as (t & z & Ez). rewrite Ez in Hd.
  apply Forall_app in Hd as [_ [Hz _]%Forall_cons].
  unfold canonical_spec. rewrite E, Ez.
  assert (forall w, is_digit w = true -> visible w = true) as Hv.
  { unfold is_digit, visible. intros w [?%Z.leb_le ?%Z.leb_le]%andb_true_iff.
    apply andb_true_iff. split; apply Z.ltb_lt; lia. }
  replace ((x :: s ++ [y]) ++ x3a :: t ++ [z]) with (x :: (s ++ [y] ++ x3a :: t) ++ [z]);
    [apply TrimSpace_visible; by apply Hv|].
  cbn [app]. f_equal. by rewrite <- !app_assoc.
Qed.

Lemma parse_canonical a b c d port :
  0 < port < 65536 ->
  parse_spec (canonical_spec [a; b; c; d] port) =
    Some (canonical_spec [a; b; c; d] port, mkAddr (IPv4 a b c d) port).
Proof.
  intros Hp. unfold parse_spec. rewrite TrimSpace_canonical by lia.
  rewrite <- canonical_join at 1.
  assert (forall x, is_digit x = false -> contains_byte (Itoa port) x = false) as Hd.
  { intros x Hx. apply digits_no_byte; [done|]. apply Itoa_digits. lia. }
  rewrite SplitHostPort_Join;
    [|by apply Hd|rewrite contains_byte_app, Hd, dotted_quad_no_byte by done; done..].
  rewrite ParseIP_dotted, Atoi_Itoa by lia. rewrite canonical_join.
  destruct (Z.leb_spec port 0), (Z.ltb_spec 65535 port); try lia. done.
Qed.

Definition is_peer (r : peerRegistry) (key : bytes) : Prop := is_Some (pr_peers r !! key).

Lemma add_spec_keeps r spec key : is_peer r key -> is_peer (add_spec r spec) key.
Proof.
  intros Hk. unfold add_spec. destruct (parse_spec spec) as [[k a]|]; [|done].
  destruct (pr_peers r !! k) eqn:E; [done|]. unfold is_peer. cbn [pr_peers].
  rewrite lookup_insert. case_decide; [by eexists|done].
Qed.

Lemma add_spec_new r spec key addr :
  parse_spec spec = Some (key, addr) -> is_peer (add_spec r spec) key.
Proof.
  intros Hs. unfold add_spec. rewrite Hs. destruct (pr_peers r !! key) eqn:E.
  - unfold is_peer. rewrite E. by eexists.
  - unfold is_peer. cbn [pr_peers]. rewrite lookup_insert_eq. by eexists.
Qed.

Lemma newPeerRegistry_has specs spec key addr :
  spec ∈ specs -> parse_spec spec = Some (key, addr) -> is_peer (newPeerRegistry specs) key.
Proof.
  intros Hin Hs. unfold newPeerRegistry. generalize (mkRegistry ∅ []) as r.
  assert (forall l r, is_peer r key -> is_peer (foldl add_spec r l) key) as Hkeep.
  { induction l as [|x l IH]; intros r Hr; [done|]. cbn [foldl]. by apply IH, add_spec_keeps. }
  induction specs as [|x specs IH]; intros r; [by apply elem_of_nil in Hin|]. cbn [foldl].
  apply elem_of_cons in Hin as [->|Hin]; [|by apply IH].
  apply Hkeep. by eapply add_spec_new.
Qed.

Lemma run_registry_keeps ops r key : is_peer r key -> is_peer (foldl run_registry_op r ops) key.
Proof.
  revert r; induction ops as [|op ops IH]; intros r Hr; [done|]. cbn [foldl]. apply IH.
  destruct op as [now addr|addr]; cbn [run_registry_op].
  - unfold markSeen. destruct (pr_peers r !! NetAddr_String addr); [|done].
    unfold is_peer. cbn [fst pr_peers]. rewrite lookup_insert. case_decide; [by eexists|done].
  - unfold registry_add. destruct (To4 _); [|done]. destruct (_ <=? 0); [done|].
    destruct (pr_peers r !! NetAddr_String addr); [done|].
    unfold is_peer. cbn [fst pr_peers]. rewrite lookup_insert. case_decide; [by eexists|done].
Qed.

(** A peer configured as "a.b.c.d:port" (without leading zeros or sign) is
    recognised for ever: whatever was learned or marked in between, a status
    reply from that address is accepted as that peer's. *)
Theorem canonical_peer_recognised specs ops a b c d port now :
  0 < port < 65536 -> canonical_spec [a; b; c; d] port ∈ specs ->
  (markSeen (foldl run_registry_op (newPeerRegistry specs) ops) now
            (mkAddr [a; b; c; d] port)).2 = true.
Proof.
  intros Hp Hin.
  pose proof (newPeerRegistry_has specs _ _ _ Hin (parse_canonical a b c d port Hp)) as Hk.
  apply (run_registry_keeps ops) in Hk as [p Hk].
  unfold markSeen. change (NetAddr_String (mkAddr [a; b; c; d] port)) with
    (JoinHostPort (dotted_quad [a; b; c; d]) (Itoa port)).
  by rewrite canonical_join, Hk.
Qed.

Lemma canonical_peer_recognised_witness :
  (markSeen (foldl run_registry_op (newPeerRegistry [lit "10.0.0.1:4665"])
               [OpAdd (mkAddr [x0a; x00; x00; x02] 4665)]) 7
            (mkAddr [x0a; x00; x00; x01] 4665)).2 = true.
Proof.
  apply (canonical_peer_recognised [lit "10.0.0.1:4665"] _ x0a x00 x00 x01 4665 7); [lia|].
  apply elem_of_cons. left. vm_compute. reflexivity.
Defined.

Lemma server_list_roundtrip_witness :
  exists body, buildServerListBody [x7f; x00; x00; x01] 4661 [lit "10.0.0.1:4661"; lit "x"]
    = Some body /\
    parseServerListBody body =
      take (Z.to_nat ((1 + len (omap peer_endpoint [lit "10.0.0.1:4661"; lit "x"])) mod 256))
        (mkAddr [x7f; x00; x00; x01] 4661 ::
         map addr_of_entry (omap peer_endpoint [lit "10.0.0.1:4661"; lit "x"])).
Proof. apply server_list_roundtrip; [reflexivity|lia|vm_compute; reflexivity]. Defined.

(** ** Departures *)

(** A peer configured with a signed or zero-padded port, or as an
    IPv4-mapped IPv6 address, is accepted and pinged, but its replies are never
    recognised, because the registry key keeps the spelling of the
    configuration. *)
Theorem noncanonical_peer_ignored :
  Forall (fun spec =>
    let r := newPeerRegistry [spec] in
    registry_addrs r = Some [mkAddr (IPv4 x0a x00 x00 x01) 4665] /\
    markSeen r 0 (mkAddr (IPv4 x0a x00 x00 x01) 4665) = (r, false) /\
    markSeen r 0 (mkAddr [x0a; x00; x00; x01] 4665) = (r, false))
  [lit "10.0.0.1:+4665"; lit "10.0.0.1:04665"; lit "[::ffff:10.0.0.1]:4665"].
Proof. repeat constructor; vm_compute; reflexivity. Qed.

(** With 255 valid peers configured besides itself, the server announces a
    count of zero and a client sees an empty list. *)
Theorem server_list_overflow :
  option_map parseServerListBody
    (buildServerListBody [x7f; x00; x00; x01] 4661 (replicate 255 (lit "10.0.0.1:4661"))) =
    Some [].
Proof. vm_compute. reflexivity. Qed.
