(* ===== verification/Limiter.v ===== *)
(** * Token-bucket rate limiting (ed2ksrv/udp_limit.go)

    One bucket per source address, in Go's [float64] arithmetic ([SpecFloat]
    with 53 bits of precision, round to nearest even; products and sums are
    rounded separately, as on amd64). Times are nanoseconds. *)

From Stdlib Require Import Floats.SpecFloat.
From S2P Require Import Prelude.

Local Open Scope Z_scope.

(** ** float64 *)

Definition float64 := spec_float.
Definition f_of_int (z : Z) : float64 := binary_normalize 53 1024 z 0 false.
Definition f_add : float64 -> float64 -> float64 := SFadd 53 1024.
Definition f_sub : float64 -> float64 -> float64 := SFsub 53 1024.
Definition f_mul : float64 -> float64 -> float64 := SFmul 53 1024.
Definition f_div : float64 -> float64 -> float64 := SFdiv 53 1024.
Definition f_ltb : float64 -> float64 -> bool := SFltb.
Definition f_leb : float64 -> float64 -> bool := SFleb.

(** [time.Time.Sub] saturates; [Duration.Seconds]. *)
Definition time_Sub (a b : Z) : Z := Z.max (- 2 ^ 63) (Z.min (2 ^ 63 - 1) (a - b)).
Definition Seconds (d : Z) : float64 :=
  f_add (f_of_int (Z.quot d 1000000000))
        (f_div (f_of_int (Z.rem d 1000000000)) (f_of_int 1000000000)).

(** ** The limiter *)

Record udpBucket := mkBucket { tokens : float64; last : Z }.

Record udpLimiter := mkLimiter {
  lim_rate : float64;
  lim_seen : gmap bytes udpBucket
}.

Definition udpLimiterMaxEntries : Z := 65536.

Definition newUDPLimiter (packetsPerSecond : Z) : udpLimiter :=
  let pps := if packetsPerSecond <=? 0 then 20 else packetsPerSecond in
  mkLimiter (f_of_int pps) ∅.

(** A bucket that has refilled by now. *)
Definition refilled (rate : float64) (now : Z) (b : udpBucket) : bool :=
  f_leb rate (f_add (tokens b) (f_mul (Seconds (time_Sub now (last b))) rate)).

Definition sweepLocked (l : udpLimiter) (now : Z) : udpLimiter :=
  mkLimiter (lim_rate l)
    (filter (fun kv => refilled (lim_rate l) now kv.2 = false) (lim_seen l)).

(** [allow] at the time [now] of its clock. *)
Definition allow (l : udpLimiter) (now : Z) (ip : bytes) : udpLimiter * bool :=
  let l := if udpLimiterMaxEntries <=? Z.of_nat (size (lim_seen l))
           then sweepLocked l now else l in
  let put b := mkLimiter (lim_rate l) (<[ip := b]> (lim_seen l)) in
  match lim_seen l !! ip with
  | None => (put (mkBucket (f_sub (lim_rate l) (f_of_int 1)) now), true)
  | Some bucket =>
    let elapsed := Seconds (time_Sub now (last bucket)) in
    let bucket :=
      if f_ltb (f_of_int 0) elapsed then
        let t := f_add (tokens bucket) (f_mul elapsed (lim_rate l)) in
        mkBucket (if f_ltb (lim_rate l) t then lim_rate l else t) now
      else bucket in
    if f_ltb (tokens bucket) (f_of_int 1) then (put bucket, false)
    else (put (mkBucket (f_sub (tokens bucket) (f_of_int 1)) (last bucket)), true)
  end.

(** A nil limiter allows everything. *)
Definition allow_opt (l : option udpLimiter) (now : Z) (ip : bytes)
    : option udpLimiter * bool :=
  match l with
  | None => (None, true)
  | Some l => let '(l', ok) := allow l now ip in (Some l', ok)
  end.

(** ** Facts *)

(** The verdicts on a sequence of packets. *)
Fixpoint allow_all (l : udpLimiter) (packets : list (Z * bytes)) : udpLimiter * list bool :=
  match packets with
  | [] => (l, [])
  | (now, ip) :: packets' =>
    let '(l, ok) := allow l now ip in
    let '(l, oks) := allow_all l packets' in (l, ok :: oks)
  end.

(** The rates the facts are checked for. *)
Definition rate_range (r : Z) : Prop := 1 <= r <= 1000.

Lemma rate_check (P : Z -> bool) r :
  forallb P (map Z.of_nat (seq 1 1000)) = true -> rate_range r -> P r = true.
Proof.
  intros H Hr. rewrite forallb_forall in H. apply H. apply in_map_iff.
  exists (Z.to_nat r). unfold rate_range in Hr. split; [lia|]. apply in_seq. lia.
Qed.

Definition sf_eqb (a b : float64) : bool :=
  match a, b with
  | S754_finite s m e, S754_finite s' m' e' => Bool.eqb s s' && Pos.eqb m m' && Z.eqb e e'
  | S754_zero s, S754_zero s' => Bool.eqb s s'
  | _, _ => false
  end.

Lemma sf_eqb_eq a b : sf_eqb a b = true -> a = b.
Proof.
  destruct a, b; simpl; try done.
  - by intros ->%eqb_prop.
  - intros [[->%eqb_prop ->%Pos.eqb_eq]%andb_true_iff ->%Z.eqb_eq]%andb_true_iff. done.
Qed.

(** Whole numbers of tokens are counted exactly. *)
Lemma f_sub_one r : rate_range r -> f_sub (f_of_int r) (f_of_int 1) = f_of_int (r - 1).
Proof.
  intros Hr. apply sf_eqb_eq. revert Hr.
  apply (rate_check (fun r => sf_eqb (f_sub (f_of_int r) (f_of_int 1)) (f_of_int (r - 1)))).
  vm_compute. reflexivity.
Qed.

Lemma f_one_leb r : rate_range r -> f_ltb (f_of_int r) (f_of_int 1) = false.
Proof.
  intros Hr. apply negb_true_iff. revert Hr.
  apply (rate_check (fun r => negb (f_ltb (f_of_int r) (f_of_int 1)))). vm_compute. reflexivity.
Qed.

(** A bucket that has just lost a token is not full. *)
Lemma not_refilled r now :
  rate_range r -> refilled (f_of_int r) now (mkBucket (f_sub (f_of_int r) (f_of_int 1)) now) = false.
Proof.
  intros Hr. unfold refilled. cbn [tokens last]. unfold time_Sub. rewrite Z.sub_diag.
  change (Seconds (Z.max (- 2 ^ 63) (Z.min (2 ^ 63 - 1) 0))) with (Seconds 0).
  apply negb_true_iff. revert Hr.
  apply (rate_check (fun r => negb (f_leb (f_of_int r) (f_add (f_sub (f_of_int r) (f_of_int 1))
                                      (f_mul (Seconds 0) (f_of_int r)))))).
  vm_compute. reflexivity.
Qed.

(** No time has passed: the bucket is neither refilled nor touched. *)
Lemma allow_same_instant l now ip t :
  Z.of_nat (size (lim_seen l)) < udpLimiterMaxEntries ->
  lim_seen l !! ip = Some (mkBucket t now) ->
  allow l now ip =
    if f_ltb t (f_of_int 1) then (l, false)
    else (mkLimiter (lim_rate l) (<[ip := mkBucket (f_sub t (f_of_int 1)) now]> (lim_seen l)), true).
Proof.
  intros Hs Hl. unfold allow.
  destruct (Z.leb_spec udpLimiterMaxEntries (Z.of_nat (size (lim_seen l)))); [lia|].
  rewrite Hl. cbn [last tokens]. unfold time_Sub. rewrite Z.sub_diag.
  change (Seconds (Z.max (- 2 ^ 63) (Z.min (2 ^ 63 - 1) 0))) with (Seconds 0).
  replace (f_ltb (f_of_int 0) (Seconds 0)) with false by (vm_compute; reflexivity).
  cbn [tokens last]. destruct (f_ltb t (f_of_int 1)); [|done].
  rewrite insert_id by done. by destruct l.
Qed.

(** From [k] tokens on: [k] packets pass, the others do not. *)
Lemma burst_from k n now ip l :
  (k <= 1000)%nat -> Z.of_nat (size (lim_seen l)) < udpLimiterMaxEntries ->
  lim_seen l !! ip = Some (mkBucket (f_of_int (Z.of_nat k)) now) ->
  (allow_all l (replicate n (now, ip))).2 = replicate (min n k) true ++ replicate (n - k) false.
Proof.
  revert k l; induction n as [|n IH]; intros k l Hk Hs Hl; [done|].
  cbn [replicate allow_all]. rewrite (allow_same_instant l now ip _ Hs Hl).
  destruct k as [|k].
  - change (f_ltb (f_of_int (Z.of_nat 0)) (f_of_int 1)) with true. cbv beta iota.
    specialize (IH 0%nat l Hk Hs Hl).
    destruct (allow_all l (replicate n (now, ip))) as [l' oks]. cbn [snd] in *.
    rewrite IH. rewrite Nat.min_0_r, !Nat.sub_0_r. done.
  - rewrite f_one_leb by (unfold rate_range; lia). cbv beta iota.
    rewrite f_sub_one by (unfold rate_range; lia).
    replace (Z.of_nat (S k) - 1) with (Z.of_nat k) by lia.
    set (l1 := mkLimiter _ _).
    specialize (IH k l1 ltac:(lia)).
    destruct (allow_all l1 (replicate n (now, ip))) as [l' oks]. cbn [snd] in *.
    rewrite IH; [done| |].
    + subst l1. cbn [lim_seen]. by rewrite map_size_insert_Some by by eexists.
    + subst l1. cbn [lim_seen]. by rewrite lookup_insert_eq.
Qed.

(** C39: of any number of packets that arrive from a new address at one
    instant, a limiter of [r] packets per second (1 to 1000) lets exactly the
    first [r] through. *)
Theorem limiter_burst r n now ip :
  rate_range r ->
  (allow_all (newUDPLimiter r) (replicate n (now, ip))).2 =
    replicate (min n (Z.to_nat r)) true ++ replicate (n - Z.to_nat r) false.
Proof.
  intros Hr. unfold newUDPLimiter. unfold rate_range in Hr.
  destruct (Z.leb_spec r 0); [lia|]. destruct n as [|n]; [done|].
  cbn [replicate allow_all]. unfold allow at 1. cbn [lim_seen lim_rate].
  change (udpLimiterMaxEntries <=? Z.of_nat (size (∅ : gmap bytes udpBucket))) with false.
  cbv beta iota. cbn [lim_seen lim_rate]. rewrite lookup_empty. cbv beta iota.
  rewrite f_sub_one by done.
  set (l1 := mkLimiter _ _).
  pose proof (burst_from (Z.to_nat (r - 1)) n now ip l1 ltac:(lia)) as Hb.
  destruct (allow_all l1 (replicate n (now, ip))) as [l' oks]. cbn [snd] in *.
  replace (Z.to_nat r) with (S (Z.to_nat (r - 1))) by lia. rewrite Hb; [done| |].
  - subst l1. cbn [lim_seen]. rewrite map_size_insert_None by apply lookup_empty.
    by rewrite map_size_empty.
  - subst l1. cbn [lim_seen]. rewrite lookup_insert_eq. do 3 f_equal. lia.
Qed.

Lemma limiter_burst_witness :
  (allow_all (newUDPLimiter 2) (replicate 4 (5, [x0a]))).2 = [true; true; false; false].
Proof. apply (limiter_burst 2 4 5 [x0a]). unfold rate_range. lia. Defined.

(** Every bucket was made just now, and has spent its first token. *)
Definition all_fresh (r now : Z) (l : udpLimiter) : Prop :=
  lim_rate l = f_of_int r /\
  map_Forall (fun _ b => b = mkBucket (f_sub (f_of_int r) (f_of_int 1)) now) (lim_seen l).

Lemma sweep_fresh r now l : rate_range r -> all_fresh r now l -> sweepLocked l now = l.
Proof.
  intros Hr [Hrate Hall]. destruct l as [rate seen]. cbn [lim_rate lim_seen] in *. subst rate.
  unfold sweepLocked. cbn [lim_rate lim_seen]. f_equal. apply map_filter_id.
  intros ip b Hb. rewrite (Hall ip b Hb). by apply not_refilled.
Qed.

Lemma allow_new r now l ip :
  rate_range r -> all_fresh r now l -> lim_seen l !! ip = None ->
  (allow l now ip).2 = true /\ all_fresh r now (allow l now ip).1 /\
  lim_seen (allow l now ip).1 = <[ip := mkBucket (f_sub (f_of_int r) (f_of_int 1)) now]> (lim_seen l).
Proof.
  intros Hr Hf Hip. unfold allow.
  assert ((if udpLimiterMaxEntries <=? Z.of_nat (size (lim_seen l)) then sweepLocked l now else l)
          = l) as ->.
  { rewrite (sweep_fresh r) by done. by destruct (_ <=? _). }
  rewrite Hip. cbn [fst snd lim_seen]. destruct Hf as [Hrate Hall]. rewrite Hrate.
  split; [done|]. split; [|done]. split; [done|]. cbn [lim_seen].
  apply map_Forall_insert; [done|]. by split.
Qed.

(** The cap on the tracking table is not a cap: [n] packets from [n]
    different (possibly forged) addresses within one instant are all allowed
    and leave [n] entries behind, for any [n], because the sweep at 65536
    entries removes only refilled buckets. *)
Theorem limiter_flood r now ips :
  rate_range r -> NoDup ips ->
  let '(l, oks) := allow_all (newUDPLimiter r) (map (fun ip => (now, ip)) ips) in
  Forall (fun ok => ok = true) oks /\ size (lim_seen l) = length ips.
Proof.
  intros Hr Hnd.
  assert (forall l, all_fresh r now l -> Forall (fun ip => lim_seen l !! ip = None) ips ->
    let '(l', oks) := allow_all l (map (fun ip => (now, ip)) ips) in
    Forall (fun ok => ok = true) oks /\ size (lim_seen l') = (size (lim_seen l) + length ips)%nat)
    as H.
  { induction ips as [|ip ips IH]; intros l Hf Hnone; cbn [map allow_all length].
    { split; [constructor|lia]. }
    apply NoDup_cons in Hnd as [Hip Hnd]. apply Forall_cons in Hnone as [Hn Hnone].
    destruct (allow_new r now l ip Hr Hf Hn) as (Hok & Hf' & Hseen).
    destruct (allow l now ip) as [l1 ok]. cbn [fst snd] in *. subst ok.
    specialize (IH Hnd l1 Hf'). rewrite Hseen in IH.
    destruct (allow_all l1 (map (fun ip => (now, ip)) ips)) as [l2 oks].
    destruct IH as [Ho Hs].
    - apply Forall_forall. intros x Hx. rewrite Forall_forall in Hnone.
      rewrite lookup_insert_ne by (intros ->; done). by apply Hnone.
    - rewrite map_size_insert_None in Hs by done. split; [by constructor|lia]. }
  specialize (H (newUDPLimiter r)).
  destruct (allow_all (newUDPLimiter r) (map (fun ip => (now, ip)) ips)) as [l oks].
  destruct H as [Ho Hs]; [| |split; [done|]].
  - unfold newUDPLimiter. unfold rate_range in Hr. destruct (Z.leb_spec r 0); [lia|].
    split; [done|]. apply map_Forall_empty.
  - apply Forall_forall. intros ip _. apply lookup_empty.
  - rewrite Hs. unfold newUDPLimiter. cbn [lim_seen]. by rewrite map_size_empty.
Qed.

Lemma limiter_flood_witness :
  let '(l, oks) := allow_all (newUDPLimiter 20) (map (fun ip => (0, ip)) [[x01]; [x02]; [x03]]) in
  Forall (fun ok => ok = true) oks /\ size (lim_seen l) = 3%nat.
Proof.
  apply (limiter_flood 20 0 [[x01]; [x02]; [x03]]); [unfold rate_range; lia|].
  apply (bool_decide_unpack _). vm_compute. done.
Defined.
