(* ===== verification/Text.v ===== *)
(** * Login properties (ed2ksrv/text.go and the extract functions of server.go)

    The client name and the connection options a login request carries. The
    GB18030 decoder of golang.org/x/text is a parameter. *)

From S2P Require Import Prelude GoStrings Ed2kLib.

Local Open Scope Z_scope.

(** [simplifiedchinese.GB18030.NewDecoder().Bytes]. *)
Class TextDecoder := { GB18030_Bytes : bytes -> option bytes }.

(** A decoder that refuses everything, to evaluate examples. *)
#[export] Instance no_decoder : TextDecoder | 100 := { GB18030_Bytes := fun _ => None }.

Definition ctServerFlags : byte := x20.
Definition srvCapSupportCrypt : Z := 0x0200.
Definition srvCapRequestCrypt : Z := 0x0400.
Definition srvCapRequireCrypt : Z := 0x0800.

Section text.
Context `{L : Ed2kLib} `{D : TextDecoder}.

Definition normalizeDisplayText (value : bytes) : bytes :=
  let trimmed := TrimSpace value in
  if bytes_eqb trimmed [] then []
  else if ValidString trimmed then trimmed
  else match GB18030_Bytes trimmed with
       | None => trimmed
       | Some decoded =>
         let decodedText := TrimSpace decoded in
         if bytes_eqb decodedText [] then trimmed else decodedText
       end.

Fixpoint extractClientName (tags : list Tag) : bytes :=
  match tags with
  | [] => []
  | tag :: tags' =>
    if byte_eqb (Tag_ID tag) x01 then normalizeDisplayText (Tag_String tag)
    else extractClientName tags'
  end.

Fixpoint extractClientConnectOptions (tags : list Tag) : Z :=
  match tags with
  | [] => 0
  | tag :: tags' =>
    if negb (byte_eqb (Tag_ID tag) ctServerFlags) then extractClientConnectOptions tags'
    else
      let flags := to_uint32 (Tag_UInt64 tag) in
      let options := 0 in
      let options := if negb (Z.land flags srvCapSupportCrypt =? 0)
                     then Z.lor options 0x01 else options in
      let options := if negb (Z.land flags srvCapRequestCrypt =? 0)
                     then Z.lor options 0x02 else options in
      if negb (Z.land flags srvCapRequireCrypt =? 0) then Z.lor options 0x04 else options
  end.

(** The options occupy the three low bits, below the user-hash flag. *)
Lemma extractClientConnectOptions_range tags : 0 <= extractClientConnectOptions tags < 8.
Proof.
  induction tags as [|tag tags IH]; cbn [extractClientConnectOptions]; [lia|].
  destruct (byte_eqb (Tag_ID tag) ctServerFlags); cbn [negb]; [|done].
  do 3 (destruct (_ =? 0); cbn [negb]); vm_compute; intuition discriminate.
Qed.
End text.
