(* ===== verification/Frames.v ===== *)
(** * TCP frames (ed2ksrv/server.go, readFrame, maybePackFrame, inflatePackedFrame)

    A frame is a protocol byte, a 32-bit length that counts the opcode, the
    opcode and the body. Large bodies travel zlib-compressed under the packed
    protocol byte. The compressor is a parameter. *)

From S2P Require Import Prelude GoStrings Ed2kLib Ed2kRef Ed2kWire.

Local Open Scope Z_scope.

Definition maxDecodedFrameBytes : Z := 2 ^ 20.
Definition minPackBodyBytes : Z := 256.

(** [compress/zlib]. The decoder yields [None] when the header is bad, and
    otherwise the bytes it can produce and whether the stream ends cleanly
    after them. *)
Class Zlib := {
  zlib_compress : bytes -> bytes;
  zlib_decode : bytes -> option (bytes * bool)
}.

Class ZlibLaws `{Zlib} : Prop := {
  zlib_roundtrip body : zlib_decode (zlib_compress body) = Some (body, true)
}.

(** Run-length coding: [n, b] stands for [n] copies of [b]. *)
Fixpoint rle_compress (s : bytes) : bytes :=
  match s with
  | [] => []
  | b :: s' =>
    match rle_compress s' with
    | n :: b' :: r => if byte_eqb b b' && (byteZ n <? 255)
                      then byte_of_Z (byteZ n + 1) :: b' :: r else x01 :: b :: n :: b' :: r
    | r => x01 :: b :: r
    end
  end.

Fixpoint rle_decode (s : bytes) : bytes * bool :=
  match s with
  | [] => ([], true)
  | n :: b :: s' => let '(d, ok) := rle_decode s' in (replicate (Z.to_nat (byteZ n)) b ++ d, ok)
  | _ => ([], false)
  end.

(** The compressor used to evaluate examples. *)
#[export] Instance rle_zlib : Zlib | 100 :=
  { zlib_compress := rle_compress; zlib_decode := fun s => Some (rle_decode s) }.

Inductive frameErr :=
| ErrFrameEOF
| ErrFrameHeader
| ErrFrameSize
| ErrInflate
| ErrInflateTooLarge.

Section frames.
Context `{W : Ed2kWire} `{ZL : Zlib}.

Definition maybePackFrame (raw : bytes) : bytes :=
  if len raw <=? PacketHeaderSize then raw else
  match raw with
  | proto :: l0 :: l1 :: l2 :: l3 :: opcode :: body =>
    if negb (byte_eqb proto EdonkeyHeader) then raw
    else if len body <? minPackBodyBytes then raw
    else
      let compressed := zlib_compress body in
      if len body <=? len compressed then raw
      else PackedProt :: le_encode 4 (to_uint32 (len compressed + 1)) ++ opcode :: compressed
  | _ => raw
  end.

(** [io.ReadAll(io.LimitReader(zr, max+1))]: once the limit is reached the end
    of the stream is not looked at. *)
Definition inflatePackedFrame (body : bytes) : result frameErr bytes :=
  match zlib_decode body with
  | None => Err ErrInflate
  | Some (out, clean) =>
    if maxDecodedFrameBytes <? len out then Err ErrInflateTooLarge
    else if clean then Ok out else Err ErrInflate
  end.

(** [io.ReadFull]: the stream is what the peer has sent before closing. *)
Definition ReadFull (stream : bytes) (n : Z) : result frameErr (bytes * bytes) :=
  if len stream <? n then Err ErrFrameEOF
  else Ok (take (Z.to_nat n) stream, drop (Z.to_nat n) stream).

(** The protocol byte, opcode, body and wire size of the next frame, and the
    connection after it. [readFull] is [io.ReadFull] on the connection. *)
Definition readFrameFrom {C : Type} (readFull : C -> Z -> result frameErr (bytes * C)) (conn : C)
    : result frameErr (byte * byte * bytes * Z * C) :=
  (let! (headerBuf, conn) := readFull conn PacketHeaderSize in
   match PacketHeader_Get headerBuf with
   | None => Err ErrFrameHeader
   | Some (proto, opcode, bodySize) =>
     if bodySize <? 0 then Err ErrFrameSize else
     let! (body, conn) := readFull conn bodySize in
     let frameBytes := to_int (PacketHeaderSize + bodySize) in
     if byte_eqb proto PackedProt then
       let! inflated := inflatePackedFrame body in
       Ok (EdonkeyHeader, opcode, inflated, frameBytes, conn)
     else Ok (proto, opcode, body, frameBytes, conn)
   end)%go.

(** Frames of a plain byte stream. *)
Definition readFrame : bytes -> result frameErr (byte * byte * bytes * Z * bytes) :=
  readFrameFrom ReadFull.
End frames.

(** What the server relies on of the header codec: it reads six bytes, and the
    size it reports is the length field without the opcode byte. *)
Class FrameHeaderLaws `{Ed2kWire} : Prop := {
  PacketHeader_Get_spec proto opcode n :
    0 <= n < 2 ^ 31 - 1 ->
    PacketHeader_Get (proto :: le_encode 4 (n + 1) ++ [opcode]) = Some (proto, opcode, n);
  PacketHeader_Put_spec proto opcode size :
    0 <= size < 2 ^ 31 ->
    PacketHeader_Put proto opcode size = proto :: le_encode 4 size ++ [opcode];
  packed_ne_plain : PackedProt <> EdonkeyHeader
}.

(** A plain frame. *)
Definition plain_frame `{Ed2kWire} (opcode : byte) (body : bytes) : bytes :=
  EdonkeyHeader :: le_encode 4 (len body + 1) ++ opcode :: body.

Section facts.
Context `{W : Ed2kWire} `{ZL : Zlib} {FL : FrameHeaderLaws} {ZLL : ZlibLaws}.

Lemma le_encode_4 z : exists a b c d, le_encode 4 z = [a; b; c; d].
Proof. do 4 eexists. reflexivity. Qed.

(** Reading a frame whose header announces the body. *)
Lemma readFrame_header proto opcode body rest :
  len body < 2 ^ 31 - 1 ->
  readFrame (proto :: le_encode 4 (len body + 1) ++ opcode :: body ++ rest) =
    if byte_eqb proto PackedProt then
      (let! inflated := inflatePackedFrame body in
       Ok (EdonkeyHeader, opcode, inflated, 6 + len body, rest))%go
    else Ok (proto, opcode, body, 6 + len body, rest).
Proof.
  intros Hb. pose proof (len_nonneg body). pose proof (len_nonneg rest).
  pose proof (PacketHeader_Get_spec proto opcode (len body) ltac:(lia)) as Hg.
  destruct (le_encode_4 (len body + 1)) as (a & b & c & d & E). rewrite E in *.
  unfold readFrame, readFrameFrom, ReadFull at 1, PacketHeaderSize at 1. cbn [app] in *.
  rewrite !len_cons, len_app.
  destruct (Z.ltb_spec (1 + (1 + (1 + (1 + (1 + (1 + (len body + len rest))))))) 6); [lia|].
  change (Z.to_nat PacketHeaderSize) with 6%nat. cbn [take drop rbind]. rewrite take_0, drop_0.
  rewrite Hg.
  destruct (Z.ltb_spec (len body) 0); [lia|]. unfold ReadFull. rewrite len_app.
  destruct (Z.ltb_spec (len body + len rest) (len body)); [lia|]. cbn [rbind].
  assert (Z.to_nat (len body) = length body) as -> by (unfold len; lia).
  rewrite take_app_length, drop_app_length.
  unfold PacketHeaderSize. rewrite to_int_id; [done|]. unfold in_s. simpl. lia.
Qed.

Lemma plain_frame_len opcode body : len (plain_frame opcode body) = 6 + len body.
Proof.
  unfold plain_frame. rewrite len_cons, len_app, len_cons.
  unfold len at 1. rewrite le_encode_length. lia.
Qed.

(** The wire form of a plain frame: itself, or packed when that is shorter. *)
Definition packed_frame (opcode : byte) (body : bytes) : bytes :=
  PackedProt :: le_encode 4 (len (zlib_compress body) + 1) ++ opcode :: zlib_compress body.

Lemma maybePackFrame_plain opcode body :
  len body < 2 ^ 31 ->
  maybePackFrame (plain_frame opcode body) =
    if (len body <? minPackBodyBytes) || (len body <=? len (zlib_compress body))
    then plain_frame opcode body else packed_frame opcode body.
Proof.
  intros Hb. unfold maybePackFrame. rewrite plain_frame_len. pose proof (len_nonneg body).
  unfold PacketHeaderSize, packed_frame.
  destruct (Z.leb_spec (6 + len body) 6) as [H6|_].
  { assert (len body <? minPackBodyBytes = true) as -> by (apply Z.ltb_lt;
      unfold minPackBodyBytes; lia). done. }
  unfold plain_frame. destruct (le_encode_4 (len body + 1)) as (a & b & c & d & E).
  rewrite E. cbn [app]. rewrite byte_eqb_refl. cbn [negb].
  destruct (len body <? minPackBodyBytes); [done|]. cbn [orb].
  destruct (Z.leb_spec (len body) (len (zlib_compress body))); [done|].
  pose proof (len_nonneg (zlib_compress body)).
  by rewrite to_uint32_id by (unfold in_u; simpl in *; lia).
Qed.

Lemma readFrame_plain opcode body rest :
  len body < 2 ^ 31 - 1 ->
  readFrame (plain_frame opcode body ++ rest) =
    Ok (EdonkeyHeader, opcode, body, len (plain_frame opcode body), rest).
Proof.
  intros Hb. rewrite plain_frame_len. unfold plain_frame.
  rewrite <- app_comm_cons, <- app_assoc, <- app_comm_cons.
  rewrite readFrame_header by done.
  by rewrite (proj2 (byte_eqb_neq _ _)) by (intros E; by apply packed_ne_plain).
Qed.

(** Compression is transparent: whatever [maybePackFrame] makes of a plain
    frame, its reader recovers the protocol, the opcode and the body, consumes
    exactly the bytes sent, leaves the following frames alone, and never has
    to read more bytes than the plain frame has. *)
Theorem packed_frame_roundtrip opcode body rest :
  len body <= maxDecodedFrameBytes ->
  let wire := maybePackFrame (plain_frame opcode body) in
  readFrame (wire ++ rest) = Ok (EdonkeyHeader, opcode, body, len wire, rest) /\
  len wire <= len (plain_frame opcode body).
Proof.
  intros Hb. cbv zeta. pose proof (len_nonneg body) as Hn.
  assert (len body < 2 ^ 31 - 1) as Hb' by (unfold maxDecodedFrameBytes in Hb; simpl in *; lia).
  rewrite maybePackFrame_plain by lia.
  destruct (Z.ltb_spec (len body) minPackBodyBytes); cbn [orb]; [by rewrite readFrame_plain|].
  destruct (Z.leb_spec (len body) (len (zlib_compress body))); [by rewrite readFrame_plain|].
  set (z := zlib_compress body) in *. pose proof (len_nonneg z).
  assert (len (packed_frame opcode body) = 6 + len z) as Hz.
  { unfold packed_frame. rewrite len_cons, len_app, len_cons.
    unfold len at 1. rewrite le_encode_length. fold z. lia. }
  rewrite Hz, plain_frame_len. split; [|lia]. unfold packed_frame. fold z.
  rewrite <- app_comm_cons, <- app_assoc, <- app_comm_cons.
  rewrite readFrame_header by lia. rewrite byte_eqb_refl.
  unfold inflatePackedFrame, z. rewrite zlib_roundtrip.
  destruct (Z.ltb_spec maxDecodedFrameBytes (len body)); [lia|done].
Qed.

(** No compressed frame, however it is crafted, makes the server hold more
    than [maxDecodedFrameBytes] of inflated body. *)
Lemma inflate_bounded body out :
  inflatePackedFrame body = Ok out -> len out <= maxDecodedFrameBytes.
Proof.
  unfold inflatePackedFrame. destruct (zlib_decode body) as [[d clean]|]; [|done].
  destruct (Z.ltb_spec maxDecodedFrameBytes (len d)); [done|]. destruct clean; [|done].
  by intros [= <-].
Qed.
End facts.

(** ** The reference instances satisfy the laws *)

Lemma rle_roundtrip s : rle_decode (rle_compress s) = (s, true).
Proof.
  induction s as [|b s IH]; [done|]. cbn [rle_compress].
  destruct (rle_compress s) as [|n [|b' r]] eqn:E.
  - cbn in IH. injection IH as <-. reflexivity.
  - cbn in IH. by destruct (rle_decode []).
  - destruct (byte_eqb b b' && (byteZ n <? 255)) eqn:Eb.
    + apply andb_true_iff in Eb as [->%byte_eqb_eq Hn%Z.ltb_lt].
      cbn [rle_decode] in *. destruct (rle_decode r) as [t ok].
      injection IH as IH1 ->. f_equal. rewrite byteZ_byte_of_Z, Z.mod_small
        by (pose proof (byteZ_range n); lia).
      replace (Z.to_nat (byteZ n + 1)) with (S (Z.to_nat (byteZ n)))
        by (pose proof (byteZ_range n); lia).
      cbn [replicate app]. by rewrite IH1.
    + change (rle_decode (x01 :: b :: n :: b' :: r)) with
        (let '(d, ok) := rle_decode (n :: b' :: r) in (replicate 1 b ++ d, ok)).
      by rewrite IH.
Qed.

#[export] Instance rle_zlib_laws : @ZlibLaws rle_zlib.
Proof. constructor. intros body. cbn [zlib_decode zlib_compress rle_zlib]. by rewrite rle_roundtrip. Qed.

#[export] Instance ed2k_wire_ref_frames : @FrameHeaderLaws _ ed2k_wire_ref.
Proof.
  constructor.
  - intros proto opcode n Hn. cbn [PacketHeader_Get ed2k_wire_ref].
    rewrite read_le_encode by (simpl in *; lia). f_equal. f_equal.
    unfold to_int32. rewrite wrap_s_id; [lia|lia|unfold in_s; simpl in *; lia].
  - intros proto opcode size Hs. cbn [PacketHeader_Put ed2k_wire_ref].
    by rewrite to_uint32_id by (unfold in_u; simpl in *; lia).
  - discriminate.
Qed.

Lemma packed_frame_roundtrip_witness :
  len (maybePackFrame (plain_frame x33 (replicate 300 x2a))) < 300 /\
  readFrame (maybePackFrame (plain_frame x33 (replicate 300 x2a)) ++ [xe3]) =
    Ok (EdonkeyHeader, x33, replicate 300 x2a,
        len (maybePackFrame (plain_frame x33 (replicate 300 x2a))), [xe3]).
Proof.
  split; [vm_compute; reflexivity|].
  apply (packed_frame_roundtrip x33 (replicate 300 x2a) [xe3]).
  vm_compute. discriminate.
Defined.

Lemma inflate_bounded_witness : len (replicate 300 x2a) <= maxDecodedFrameBytes.
Proof.
  apply (inflate_bounded (zlib_compress (replicate 300 x2a))). vm_compute. reflexivity.
Defined.
