(* ===== verification/AuditLog.v ===== *)
(** * The audit log (ed2ksrv/audit.go)

    The last management events, kept in memory. Times are nanoseconds, with 0
    for the zero time. *)

From S2P Require Import Prelude GoStrings GoSort.

Local Open Scope Z_scope.

Definition maxAuditEntries : Z := 200.

Record AuditEntry := mkAudit {
  au_Time : Z;
  au_Action : bytes;
  au_Resource : bytes;
  au_ResourceID : bytes;
  au_RemoteAddr : bytes;
  au_Status : bytes;
  au_Detail : bytes
}.

(** [appendAudit] on the log, at the time [now]. *)
Definition appendAudit (log : list AuditEntry) (now : Z) (entry : AuditEntry)
    : list AuditEntry :=
  let entry := mkAudit (if au_Time entry =? 0 then now else au_Time entry)
                 (au_Action entry) (au_Resource entry) (au_ResourceID entry)
                 (au_RemoteAddr entry)
                 (if bytes_eqb (au_Status entry) [] then lit "ok" else au_Status entry)
                 (au_Detail entry) in
  let log := log ++ [entry] in
  if maxAuditEntries <? len log
  then drop (Z.to_nat (len log - maxAuditEntries)) log else log.

(** Newest first. *)
Definition AuditSnapshot `{SliceSort} (log : list AuditEntry) : list AuditEntry :=
  Slice (fun a b => au_Time b <? au_Time a) log.

(** ** Facts *)

#[export] Instance newest_first_order :
  strict_weak_order (fun a b : AuditEntry => au_Time b <? au_Time a).
Proof.
  constructor; intros *; rewrite ?Z.ltb_lt, ?Z.ltb_ge; lia.
Qed.

(** The entry as it is stored. *)
Definition stamped (now : Z) (entry : AuditEntry) : AuditEntry :=
  mkAudit (if au_Time entry =? 0 then now else au_Time entry)
    (au_Action entry) (au_Resource entry) (au_ResourceID entry) (au_RemoteAddr entry)
    (if bytes_eqb (au_Status entry) [] then lit "ok" else au_Status entry) (au_Detail entry).

Lemma appendAudit_last log now entry :
  len log <= maxAuditEntries ->
  appendAudit log now entry =
    drop (Z.to_nat (len log + 1 - maxAuditEntries)) (log ++ [stamped now entry]).
Proof.
  intros Hl. unfold appendAudit. fold (stamped now entry). rewrite len_app.
  change (len [stamped now entry]) with 1.
  destruct (Z.ltb_spec maxAuditEntries (len log + 1)); [done|].
  by replace (Z.to_nat (len log + 1 - maxAuditEntries)) with 0%nat by lia.
Qed.

(** The whole history, of which the log keeps the end. *)
Definition run_audit (events : list (Z * AuditEntry)) : list AuditEntry :=
  foldl (fun log '(now, entry) => appendAudit log now entry) [] events.

(** After any sequence of management events the log holds exactly the last
    200 of them (all of them while there are fewer), each stamped with its time
    and status, in order; and the snapshot shows the same entries, newest
    first. *)
Theorem audit_log_window `{SL : SliceSortLaws} events :
  let history := map (fun '(now, entry) => stamped now entry) events in
  run_audit events = drop (length history - 200) history /\
  AuditSnapshot (run_audit events) ≡ₚ run_audit events /\
  slice_sorted (fun a b => au_Time b <? au_Time a) (AuditSnapshot (run_audit events)).
Proof.
  cbv zeta. split; [|split; [apply Slice_perm|apply Slice_sorted, _]].
  unfold run_audit. induction events as [|[now entry] events IH] using rev_ind; [done|].
  rewrite foldl_app, IH, map_app. cbn [foldl map].
  set (h := map _ events).
  rewrite appendAudit_last.
  - unfold len, maxAuditEntries. rewrite length_drop, length_app. simpl length.
    rewrite drop_app_le by (rewrite length_drop; lia). rewrite drop_drop.
    rewrite drop_app_le by lia. do 2 f_equal. lia.
  - unfold len, maxAuditEntries. rewrite length_drop. lia.
Qed.

(** ** A witness *)

Definition demo_audit (n : nat) : Z * AuditEntry :=
  (Z.of_nat n, mkAudit 0 (lit "delete") (lit "file") [] [] [] []).

Lemma audit_log_window_witness :
  let events := map demo_audit (seq 1 203) in
  length (run_audit events) = 200%nat /\
  slice_sorted (fun a b => au_Time b <? au_Time a) (AuditSnapshot (run_audit events)).
Proof.
  split; [by vm_compute|]. apply (audit_log_window (map demo_audit (seq 1 203))).
Defined.
