(* ===== verification/AdminLocale.v ===== *)
(** * Languages of the admin pages (ed2ksrv/admin_locale.go)

    The texts of the pages and of their script in English and Chinese, and the
    choice of the language of a request. *)

From S2P Require Import Prelude GoStrings.

(** The texts in the HTML template. *)
Record adminHTMLStrings := mkHTMLStrings {
  html_LangAttr : bytes;
  html_TitleSuffix : bytes;
  html_Eyebrow : bytes;
  html_BtnRefresh : bytes;
  html_BtnLogout : bytes;
  html_LoginKicker : bytes;
  html_LoginTitle : bytes;
  html_LoginHelp : bytes;
  html_LabelToken : bytes;
  html_PlaceholderToken : bytes;
  html_BtnLogin : bytes;
  html_StatClients : bytes;
  html_StatConnSmall : bytes;
  html_StatFiles : bytes;
  html_StatRegSmall : bytes;
  html_StatSearches : bytes;
  html_StatEntriesSmall : bytes;
  html_StatTraffic : bytes;
  html_StatPacketsSmall : bytes;
  html_ClientKicker : bytes;
  html_ClientTitle : bytes;
  html_ClientSearchL : bytes;
  html_ClientSearchPh : bytes;
  html_ThID : bytes;
  html_ThName : bytes;
  html_ThRemote : bytes;
  html_ThListen : bytes;
  html_ThLastSeen : bytes;
  html_PagerPrev : bytes;
  html_PagerNext : bytes;
  html_PagerPageOne : bytes;
  html_FilesKicker : bytes;
  html_FilesTitle : bytes;
  html_FileSearchL : bytes;
  html_FileSearchPh : bytes;
  html_FileTypeL : bytes;
  html_FileTypePh : bytes;
  html_BtnBatchDelete : bytes;
  html_ThCheck : bytes;
  html_ThFName : bytes;
  html_ThFType : bytes;
  html_ThSize : bytes;
  html_ThSources : bytes;
  html_ThActions : bytes;
  html_RegKicker : bytes;
  html_RegTitle : bytes;
  html_LHash : bytes;
  html_PHHash : bytes;
  html_LName : bytes;
  html_LSize : bytes;
  html_LFileType : bytes;
  html_LExt : bytes;
  html_LHost : bytes;
  html_LPort : bytes;
  html_PHPort : bytes;
  html_BtnSave : bytes;
  html_InspKicker : bytes;
  html_InspTitle : bytes;
  html_DetailPlaceholder : bytes;
  html_AuditKicker : bytes;
  html_AuditTitle : bytes;
  html_ThATime : bytes;
  html_ThAAction : bytes;
  html_ThARes : bytes;
  html_ThAID : bytes;
  html_ThASrc : bytes;
  html_ThAStatus : bytes;
  html_LangEN : bytes;
  html_LangZH : bytes
}.

(** The texts the script of the page uses. *)
Record adminJSStrings := mkJSStrings {
  js_StatConnectionsFmt : bytes;
  js_StatRegisteredFmt : bytes;
  js_StatSearchEntriesFmt : bytes;
  js_StatPacketsFmt : bytes;
  js_PagerFmt : bytes;
  js_EmptyClients : bytes;
  js_EmptyFiles : bytes;
  js_EmptyAudit : bytes;
  js_BtnDelete : bytes;
  js_ToastDeleted : bytes;
  js_ToastNoSelection : bytes;
  js_ToastBatchDone : bytes;
  js_ToastInvalidToken : bytes;
  js_ToastSaved : bytes;
  js_ToastLoggedOut : bytes;
  js_InvalidResponse : bytes;
  js_DateLocale : bytes
}.

Definition en_HTML : adminHTMLStrings := {|
  html_LangAttr := lit "en";
  html_TitleSuffix := lit "Control";
  html_Eyebrow := lit "eD2k Server Console";
  html_BtnRefresh := lit "Refresh";
  html_BtnLogout := lit "Logout";
  html_LoginKicker := lit "Admin Access";
  html_LoginTitle := lit "Sign in";
  html_LoginHelp := lit "Enter the token that matches X-Admin-Token. The page loads stats, clients, shared files, and audit logs via the admin API.";
  html_LabelToken := lit "Admin Token";
  html_PlaceholderToken := lit "Enter admin token";
  html_BtnLogin := lit "Login";
  html_StatClients := lit "Connected clients";
  html_StatConnSmall := lit "Total connections 0";
  html_StatFiles := lit "Shared files";
  html_StatRegSmall := lit "Registered 0 / Removed 0";
  html_StatSearches := lit "Search requests";
  html_StatEntriesSmall := lit "Result entries 0";
  html_StatTraffic := lit "Network traffic";
  html_StatPacketsSmall := lit "In 0 / Out 0";
  html_ClientKicker := lit "Clients";
  html_ClientTitle := lit "Online clients";
  html_ClientSearchL := lit "Search";
  html_ClientSearchPh := lit "Name, address, hash";
  html_ThID := lit "ID";
  html_ThName := lit "Name";
  html_ThRemote := lit "Remote address";
  html_ThListen := lit "Listen endpoint";
  html_ThLastSeen := lit "Last seen";
  html_PagerPrev := lit "Previous";
  html_PagerNext := lit "Next";
  html_PagerPageOne := lit "Page 1";
  html_FilesKicker := lit "Files";
  html_FilesTitle := lit "Shared files";
  html_FileSearchL := lit "Search";
  html_FileSearchPh := lit "File name, hash";
  html_FileTypeL := lit "Type";
  html_FileTypePh := lit "Audio / Video / Iso";
  html_BtnBatchDelete := lit "Delete selected";
  html_ThCheck := lit "";
  html_ThFName := lit "File name";
  html_ThFType := lit "Type";
  html_ThSize := lit "Size";
  html_ThSources := lit "Sources";
  html_ThActions := lit "Actions";
  html_RegKicker := lit "Register";
  html_RegTitle := lit "Add shared file";
  html_LHash := lit "Hash";
  html_PHHash := lit "32-char ED2K hash";
  html_LName := lit "File name";
  html_LSize := lit "Size";
  html_LFileType := lit "Type";
  html_LExt := lit "Extension";
  html_LHost := lit "Source host";
  html_LPort := lit "Source port";
  html_PHPort := lit "4662";
  html_BtnSave := lit "Save shared file";
  html_InspKicker := lit "Inspect";
  html_InspTitle := lit "Detail";
  html_DetailPlaceholder := lit "Select a client or file to show full JSON here.";
  html_AuditKicker := lit "Audit";
  html_AuditTitle := lit "Audit log";
  html_ThATime := lit "Time";
  html_ThAAction := lit "Action";
  html_ThARes := lit "Resource";
  html_ThAID := lit "ID";
  html_ThASrc := lit "Source";
  html_ThAStatus := lit "Status";
  html_LangEN := lit "English";
  html_LangZH := lit "中文"
|}.

Definition en_JS : adminJSStrings := {|
  js_StatConnectionsFmt := lit "Total connections {n}";
  js_StatRegisteredFmt := lit "Registered {reg} / Removed {rem}";
  js_StatSearchEntriesFmt := lit "Result entries {n}";
  js_StatPacketsFmt := lit "In {inPkts} / Out {outPkts}";
  js_PagerFmt := lit "Page {cur} / {total}";
  js_EmptyClients := lit "No online clients";
  js_EmptyFiles := lit "No shared files";
  js_EmptyAudit := lit "No audit entries";
  js_BtnDelete := lit "Delete";
  js_ToastDeleted := lit "Shared file deleted";
  js_ToastNoSelection := lit "No shared files selected";
  js_ToastBatchDone := lit "Batch delete completed";
  js_ToastInvalidToken := lit "Invalid token, please sign in again";
  js_ToastSaved := lit "Shared file saved";
  js_ToastLoggedOut := lit "Signed out";
  js_InvalidResponse := lit "invalid response";
  js_DateLocale := lit "en-US"
|}.

Definition zh_HTML : adminHTMLStrings := {|
  html_LangAttr := lit "zh-CN";
  html_TitleSuffix := lit "管理控制台";
  html_Eyebrow := lit "eD2k 服务器控制台";
  html_BtnRefresh := lit "刷新";
  html_BtnLogout := lit "退出";
  html_LoginKicker := lit "管理访问";
  html_LoginTitle := lit "登录管理界面";
  html_LoginHelp := lit "输入 X-Admin-Token 对应的令牌后，页面会通过管理 API 拉取统计、客户端、共享文件和审计日志。";
  html_LabelToken := lit "Admin Token";
  html_PlaceholderToken := lit "输入管理令牌";
  html_BtnLogin := lit "登录";
  html_StatClients := lit "当前客户端";
  html_StatConnSmall := lit "总连接 0";
  html_StatFiles := lit "共享文件";
  html_StatRegSmall := lit "注册 0 / 移除 0";
  html_StatSearches := lit "搜索请求";
  html_StatEntriesSmall := lit "结果项 0";
  html_StatTraffic := lit "网络流量";
  html_StatPacketsSmall := lit "入 0 / 出 0";
  html_ClientKicker := lit "Clients";
  html_ClientTitle := lit "在线客户端";
  html_ClientSearchL := lit "搜索";
  html_ClientSearchPh := lit "名称、地址、Hash";
  html_ThID := lit "ID";
  html_ThName := lit "名称";
  html_ThRemote := lit "远端地址";
  html_ThListen := lit "监听端点";
  html_ThLastSeen := lit "最后活跃";
  html_PagerPrev := lit "上一页";
  html_PagerNext := lit "下一页";
  html_PagerPageOne := lit "第 1 页";
  html_FilesKicker := lit "Files";
  html_FilesTitle := lit "共享文件";
  html_FileSearchL := lit "搜索";
  html_FileSearchPh := lit "文件名、Hash";
  html_FileTypeL := lit "类型";
  html_FileTypePh := lit "Audio / Video / Iso";
  html_BtnBatchDelete := lit "批量删除";
  html_ThCheck := lit "";
  html_ThFName := lit "文件名";
  html_ThFType := lit "类型";
  html_ThSize := lit "大小";
  html_ThSources := lit "来源";
  html_ThActions := lit "操作";
  html_RegKicker := lit "Register";
  html_RegTitle := lit "新增共享文件";
  html_LHash := lit "Hash";
  html_PHHash := lit "32 位 ED2K Hash";
  html_LName := lit "文件名";
  html_LSize := lit "大小";
  html_LFileType := lit "类型";
  html_LExt := lit "扩展名";
  html_LHost := lit "来源主机";
  html_LPort := lit "来源端口";
  html_PHPort := lit "4662";
  html_BtnSave := lit "保存共享文件";
  html_InspKicker := lit "Inspect";
  html_InspTitle := lit "详情";
  html_DetailPlaceholder := lit "选择客户端或文件后，这里显示完整 JSON。";
  html_AuditKicker := lit "Audit";
  html_AuditTitle := lit "操作审计日志";
  html_ThATime := lit "时间";
  html_ThAAction := lit "动作";
  html_ThARes := lit "资源";
  html_ThAID := lit "标识";
  html_ThASrc := lit "来源";
  html_ThAStatus := lit "状态";
  html_LangEN := lit "English";
  html_LangZH := lit "中文"
|}.

Definition zh_JS : adminJSStrings := {|
  js_StatConnectionsFmt := lit "总连接 {n}";
  js_StatRegisteredFmt := lit "注册 {reg} / 移除 {rem}";
  js_StatSearchEntriesFmt := lit "结果项 {n}";
  js_StatPacketsFmt := lit "入 {inPkts} / 出 {outPkts}";
  js_PagerFmt := lit "第 {cur} / {total} 页";
  js_EmptyClients := lit "没有在线客户端";
  js_EmptyFiles := lit "没有共享文件";
  js_EmptyAudit := lit "暂无审计日志";
  js_BtnDelete := lit "删除";
  js_ToastDeleted := lit "共享文件已删除";
  js_ToastNoSelection := lit "没有选中的共享文件";
  js_ToastBatchDone := lit "批量删除完成";
  js_ToastInvalidToken := lit "令牌无效，请重新登录";
  js_ToastSaved := lit "共享文件已保存";
  js_ToastLoggedOut := lit "已退出登录";
  js_InvalidResponse := lit "invalid response";
  js_DateLocale := lit "zh-CN"
|}.

Definition adminLocales (lang : bytes) : option (adminHTMLStrings * adminJSStrings) :=
  if bytes_eqb lang (lit "en") then Some (en_HTML, en_JS)
  else if bytes_eqb lang (lit "zh") then Some (zh_HTML, zh_JS) else None.

Definition getAdminLocalePack (lang : bytes) : adminHTMLStrings * adminJSStrings :=
  default (en_HTML, en_JS) (adminLocales lang).

(** The query parameter if it names a language, otherwise the header. *)
Definition resolveAdminLocale `{UnicodeTables} (lang_query accept_language : bytes) : bytes :=
  let q := TrimSpace lang_query in
  let l := ToLower q in
  if negb (bytes_eqb q []) && bytes_eqb l (lit "en") then lit "en"
  else if negb (bytes_eqb q []) && (bytes_eqb l (lit "zh") || bytes_eqb l (lit "cn")) then lit "zh"
  else if Contains (ToLower accept_language) (lit "zh") then lit "zh" else lit "en".

(** Whatever the request says, it gets a language that has a pack. *)
Lemma resolved_pack `{UnicodeTables} q a :
  is_Some (adminLocales (resolveAdminLocale q a)).
Proof.
  unfold resolveAdminLocale. cbv zeta. repeat case_match; by eexists.
Qed.
