(* ===== verification/GoCrypto.v ===== *)
(** * Go's crypto/md5 and math/big, as far as the server uses them

    [md5.Sum] as RFC 1321 defines it, on words that are [Z] below 2^32, and the
    operations of [big.Int] on non-negative numbers: big-endian bytes in and
    out, and modular powers. *)

From Stdlib Require Import ZArith.Zpow_facts.
From S2P Require Import Prelude.

Local Open Scope Z_scope.

(** ** crypto/md5 *)

Definition md5_table : list Z := [
   0xd76aa478; 0xe8c7b756; 0x242070db; 0xc1bdceee; 0xf57c0faf; 0x4787c62a; 0xa8304613; 0xfd469501;
   0x698098d8; 0x8b44f7af; 0xffff5bb1; 0x895cd7be; 0x6b901122; 0xfd987193; 0xa679438e; 0x49b40821;
   0xf61e2562; 0xc040b340; 0x265e5a51; 0xe9b6c7aa; 0xd62f105d; 0x02441453; 0xd8a1e681; 0xe7d3fbc8;
   0x21e1cde6; 0xc33707d6; 0xf4d50d87; 0x455a14ed; 0xa9e3e905; 0xfcefa3f8; 0x676f02d9; 0x8d2a4c8a;
   0xfffa3942; 0x8771f681; 0x6d9d6122; 0xfde5380c; 0xa4beea44; 0x4bdecfa9; 0xf6bb4b60; 0xbebfbc70;
   0x289b7ec6; 0xeaa127fa; 0xd4ef3085; 0x04881d05; 0xd9d4d039; 0xe6db99e5; 0x1fa27cf8; 0xc4ac5665;
   0xf4292244; 0x432aff97; 0xab9423a7; 0xfc93a039; 0x655b59c3; 0x8f0ccc92; 0xffeff47d; 0x85845dd1;
   0x6fa87e4f; 0xfe2ce6e0; 0xa3014314; 0x4e0811a1; 0xf7537e82; 0xbd3af235; 0x2ad7d2bb; 0xeb86d391
  ].

Definition md5_shifts : list Z := [7; 12; 17; 22; 5; 9; 14; 20; 4; 11; 16; 23; 6; 10; 15; 21].

Record md5_state := mkMd5 { md5_a : Z; md5_b : Z; md5_c : Z; md5_d : Z }.

Definition md5_init : md5_state := mkMd5 0x67452301 0xefcdab89 0x98badcfe 0x10325476.

Definition add32 (x y : Z) : Z := to_uint32 (x + y).
Definition not32 (x : Z) : Z := Z.lxor x 0xffffffff.
Definition rotl32 (x n : Z) : Z :=
  Z.lor (to_uint32 (Z.shiftl x n)) (Z.shiftr x (32 - n)).

(** The boolean function and the word index of step [i]. *)
Definition md5_mix (i b c d : Z) : Z * Z :=
  if i <? 16 then (Z.lor (Z.land b c) (Z.land (not32 b) d), i)
  else if i <? 32 then (Z.lor (Z.land d b) (Z.land (not32 d) c), (5 * i + 1) mod 16)
  else if i <? 48 then (Z.lxor b (Z.lxor c d), (3 * i + 5) mod 16)
  else (Z.lxor c (Z.lor b (not32 d)), (7 * i) mod 16).

Definition md5_step (words : list Z) (st : md5_state) (i : nat) : md5_state :=
  let '(mkMd5 a b c d) := st in
  let '(f, g) := md5_mix (Z.of_nat i) b c d in
  let shift := nth (4 * (i / 16) + i mod 4) md5_shifts 0 in
  let f := add32 (add32 f a) (add32 (nth i md5_table 0) (nth (Z.to_nat g) words 0)) in
  mkMd5 d (add32 b (rotl32 f shift)) b c.

Fixpoint md5_words (n : nat) (block : bytes) : list Z :=
  match n with
  | O => []
  | S n' => le_decode (take 4 block) :: md5_words n' (drop 4 block)
  end.

Definition md5_block (st : md5_state) (block : bytes) : md5_state :=
  let r := fold_left (md5_step (md5_words 16 block)) (seq 0 64) st in
  mkMd5 (add32 (md5_a st) (md5_a r)) (add32 (md5_b st) (md5_b r))
        (add32 (md5_c st) (md5_c r)) (add32 (md5_d st) (md5_d r)).

Fixpoint md5_blocks (n : nat) (st : md5_state) (s : bytes) : md5_state :=
  match n with
  | O => st
  | S n' => md5_blocks n' (md5_block st (take 64 s)) (drop 64 s)
  end.

(** A one bit, zeros up to 56 modulo 64, and the length in bits. *)
Definition md5_pad (s : bytes) : bytes :=
  s ++ x80 :: replicate (Z.to_nat ((55 - len s) mod 64)) x00 ++ le_encode 8 (8 * len s).

(** [md5.Sum]. *)
Definition md5_Sum (s : bytes) : bytes :=
  let p := md5_pad s in
  let '(mkMd5 a b c d) := md5_blocks (length p / 64) md5_init p in
  le_encode 4 a ++ le_encode 4 b ++ le_encode 4 c ++ le_encode 4 d.

Lemma md5_Sum_length s : length (md5_Sum s) = 16%nat.
Proof.
  unfold md5_Sum. cbv zeta. destruct (md5_blocks _ _ _) as [a b c d].
  rewrite !length_app. by rewrite !le_encode_length.
Qed.

Lemma md5_pad_blocks s : (64 | len (md5_pad s)).
Proof.
  unfold md5_pad. rewrite len_app, len_cons, len_app.
  assert (forall n (b : byte), len (replicate n b) = Z.of_nat n) as -> by
    (intros; unfold len; by rewrite length_replicate).
  assert (forall z, len (le_encode 8 z) = 8) as -> by
    (intros; unfold len; by rewrite le_encode_length).
  pose proof (Z.mod_pos_bound (55 - len s) 64 ltac:(lia)). rewrite Z2Nat.id by lia.
  exists (- ((55 - len s) / 64) + 1). pose proof (Z.div_mod (55 - len s) 64 ltac:(lia)). lia.
Qed.

(** The test suite of RFC 1321. *)
Definition hex_of (z : Z) : bytes := reverse (le_encode 16 z).

Example md5_empty : md5_Sum [] = hex_of 0xd41d8cd98f00b204e9800998ecf8427e.
Proof. vm_compute. reflexivity. Qed.

Example md5_message :
  md5_Sum (lit "message digest") = hex_of 0xf96b697d7cb7938d525a2f31aaf161d0.
Proof. vm_compute. reflexivity. Qed.

(** Two blocks. *)
Example md5_digits :
  md5_Sum (lit "12345678901234567890123456789012345678901234567890123456789012345678901234567890")
  = hex_of 0x57edf4a22be3c955ac49da2e2107b67a.
Proof. vm_compute. reflexivity. Qed.

(** ** math/big *)

(** [Int.SetBytes]: big-endian. *)
Definition big_SetBytes (b : bytes) : Z := le_decode (reverse b).

(** [Int.Bytes]: big-endian without leading zeros. *)
Definition big_Bytes (n : Z) : bytes :=
  reverse (le_encode (if n =? 0 then 0 else S (Z.to_nat (Z.log2 n / 8))) n).

(** [Int.Exp] with a positive modulus. *)
Definition big_Exp (x y m : Z) : Z := Zpow_mod x y m.

Lemma big_Exp_spec x y m : 0 < m -> big_Exp x y m = x ^ y mod m.
Proof. intros. apply Zpow_mod_correct. lia. Qed.

Lemma big_SetBytes_range b : 0 <= big_SetBytes b < 256 ^ len b.
Proof. unfold big_SetBytes, len. rewrite <- length_reverse. apply le_decode_range. Qed.

(** The bytes above the leading one are zero. *)
Lemma le_encode_zeros k j n :
  0 <= n < 256 ^ Z.of_nat k -> le_encode (k + j) n = le_encode k n ++ replicate j x00.
Proof.
  revert n; induction k as [|k IH]; intros n Hn.
  - assert (n = 0) as -> by (simpl in Hn; lia). cbn [plus le_encode app].
    clear Hn. induction j as [|j IHj]; [done|]. cbn [le_encode replicate]. f_equal. exact IHj.
  - cbn [plus le_encode app]. f_equal. apply IH.
    rewrite Nat2Z.inj_succ, Z.pow_succ_r in Hn by lia. split; [apply Z.div_pos; lia|].
    apply Z.div_lt_upper_bound; lia.
Qed.

Lemma big_Bytes_bound n :
  0 <= n -> n < 256 ^ Z.of_nat (if n =? 0 then 0 else S (Z.to_nat (Z.log2 n / 8))).
Proof.
  intros Hn. destruct (Z.eqb_spec n 0) as [->|Hz]; [simpl; lia|].
  pose proof (Z.log2_spec n ltac:(lia)) as [_ Hl]. pose proof (Z.log2_nonneg n).
  assert (0 <= Z.log2 n / 8) by (apply Z.div_pos; lia).
  rewrite Nat2Z.inj_succ, Z2Nat.id by done. change 256 with (2 ^ 8).
  rewrite <- Z.pow_mul_r by lia. eapply Z.lt_le_trans; [exact Hl|].
  apply Z.pow_le_mono_r; [lia|]. pose proof (Z.div_mod (Z.log2 n) 8 ltac:(lia)).
  pose proof (Z.mod_pos_bound (Z.log2 n) 8 ltac:(lia)). lia.
Qed.

(** [n.Bytes()] has at most [k] bytes exactly when [n] fits in them, and left
    padding gives the fixed-width encoding. *)
Lemma big_Bytes_padded k n :
  0 <= n < 256 ^ Z.of_nat k ->
  (length (big_Bytes n) <= k)%nat /\
  replicate (k - length (big_Bytes n)) x00 ++ big_Bytes n = reverse (le_encode k n).
Proof.
  intros [Hn Hk]. unfold big_Bytes. rewrite length_reverse, le_encode_length.
  set (m := if n =? 0 then 0%nat else S (Z.to_nat (Z.log2 n / 8))).
  assert (m <= k)%nat as Hm.
  { unfold m. destruct (Z.eqb_spec n 0); [lia|]. change 256 with (2 ^ 8) in Hk.
    rewrite <- Z.pow_mul_r in Hk by lia.
    apply Z.log2_lt_pow2 in Hk; [|lia]. pose proof (Z.log2_nonneg n).
    assert (Z.log2 n / 8 < Z.of_nat k) by (apply Z.div_lt_upper_bound; lia). lia. }
  split; [done|]. pose proof (big_Bytes_bound n Hn) as Hb. fold m in Hb.
  replace k with (m + (k - m))%nat at 2 by lia.
  rewrite le_encode_zeros by done. by rewrite reverse_app, reverse_replicate.
Qed.

Lemma big_SetBytes_fixed k n :
  0 <= n < 256 ^ Z.of_nat k -> big_SetBytes (reverse (le_encode k n)) = n.
Proof.
  intros Hn. unfold big_SetBytes. rewrite reverse_involutive. by apply le_decode_encode_small.
Qed.
