(* ===== verification/Rc4.v ===== *)
(** * The stream cipher of obfuscated connections (ed2ksrv/obfuscate.go, amuleRC4)

    RC4 as aMule uses it: a table of 256 bytes that is always a permutation of
    0..255, two indices, and the first 1024 bytes of the key stream discarded. *)

From S2P Require Import Prelude.

Local Open Scope Z_scope.

Definition to_uint8 : Z -> Z := wrap_u 8.

Definition rc4DiscardBytes : nat := 1024.

(** The table [s], and the indices [x] and [y]; all are [uint8]. *)
Record amuleRC4 := mkRC4 { rc4_s : list Z; rc4_x : Z; rc4_y : Z }.

(** [s[i]], for a [uint8] index. *)
Definition at_ (s : list Z) (i : Z) : Z := nth (Z.to_nat i) s 0.

(** [s[i], s[j] = s[j], s[i]] *)
Definition swap (s : list Z) (i j : Z) : list Z :=
  <[Z.to_nat j := at_ s i]> (<[Z.to_nat i := at_ s j]> s).

Definition nextKeystreamByte (r : amuleRC4) : Z * amuleRC4 :=
  let x := to_uint8 (rc4_x r + 1) in
  let y := to_uint8 (at_ (rc4_s r) x + rc4_y r) in
  let s := swap (rc4_s r) x y in
  let idx := to_uint8 (at_ s x + at_ s y) in
  (at_ s idx, mkRC4 s x y).

Fixpoint discard (n : nat) (r : amuleRC4) : amuleRC4 :=
  match n with
  | O => r
  | S n' => discard n' (nextKeystreamByte r).2
  end.

Definition xor_byte (b : byte) (k : Z) : byte := byte_of_Z (Z.lxor (byteZ b) k).

Fixpoint xorInPlace (r : amuleRC4) (p : bytes) : bytes * amuleRC4 :=
  match p with
  | [] => ([], r)
  | b :: p' =>
    let '(k, r) := nextKeystreamByte r in
    let '(out, r) := xorInPlace r p' in
    (xor_byte b k :: out, r)
  end.

(** One round of the key schedule: the table and the two indices. *)
Definition schedule_round (key : bytes) (st : list Z * Z * Z) (i : Z) : list Z * Z * Z :=
  let '(s, index1, index2) := st in
  let index2 := to_uint8 ((byteZ (nth (Z.to_nat index1) key x00) + at_ s i + index2) mod 256) in
  (swap s i index2, to_uint8 ((index1 + 1) mod len key), index2).

Definition identity_table : list Z := map Z.of_nat (seq 0 256).

(** The table after the key schedule. *)
Definition schedule (key : bytes) : list Z :=
  (fold_left (schedule_round key) identity_table (identity_table, 0, 0)).1.1.

(** [None]: an empty key is indexed out of range. *)
Definition newAmuleRC4 (key : bytes) : option amuleRC4 :=
  match key with
  | [] => None
  | _ => Some (discard rc4DiscardBytes (mkRC4 (schedule key) 0 0))
  end.

(** ** The type of cipher states *)

Definition table_ok (s : list Z) : Prop := s ≡ₚ identity_table.

Definition rc4_ok (r : amuleRC4) : Prop :=
  table_ok (rc4_s r) /\ in_u 8 (rc4_x r) /\ in_u 8 (rc4_y r).

Lemma to_uint8_range z : in_u 8 (to_uint8 z).
Proof. apply wrap_u_range. lia. Qed.

Lemma table_length s : table_ok s -> length s = 256%nat.
Proof. intros Hs. by rewrite (Permutation_length Hs). Qed.

Lemma at_lookup s i : table_ok s -> in_u 8 i -> s !! Z.to_nat i = Some (at_ s i).
Proof.
  intros Hs Hi. apply table_length in Hs. unfold at_, in_u in *. simpl in Hi.
  destruct (nth_lookup_or_length s (Z.to_nat i) 0); [done|lia].
Qed.

(** Every entry of a table is a byte. *)
Lemma at_range s i : table_ok s -> in_u 8 i -> in_u 8 (at_ s i).
Proof.
  intros Hs Hi. pose proof (list_elem_of_lookup_2 _ _ _ (at_lookup _ _ Hs Hi)) as Hin.
  apply (elem_of_Permutation_proper _ _ _ Hs) in Hin. unfold identity_table in Hin.
  apply list_elem_of_In, in_map_iff in Hin as (n & <- & [_ Hn]%in_seq). unfold in_u. simpl in *. lia.
Qed.

(** Exchanging two entries permutes the table. *)
Lemma swap_lookup s i j n :
  (i < length s)%nat -> (j < length s)%nat ->
  <[j := nth i s 0]> (<[i := nth j s 0]> s) !! n =
    s !! (if decide (n = i) then j else if decide (n = j) then i else n).
Proof.
  intros Hi Hj. assert (forall k, (k < length s)%nat -> s !! k = Some (nth k s 0)) as Hs.
  { intros k Hk. destruct (nth_lookup_or_length s k 0); [done|lia]. }
  destruct (decide (n = i)) as [->|Hni]; [|destruct (decide (n = j)) as [->|Hnj]].
  - destruct (decide (i = j)) as [->|Hij].
    + rewrite list_lookup_insert_eq by (by rewrite length_insert). by rewrite Hs.
    + rewrite list_lookup_insert_ne by done. rewrite list_lookup_insert_eq by done. by rewrite Hs.
  - rewrite list_lookup_insert_eq by (by rewrite length_insert). by rewrite Hs.
  - by rewrite !list_lookup_insert_ne by done.
Qed.

Lemma swap_perm s i j : table_ok s -> in_u 8 i -> in_u 8 j -> table_ok (swap s i j).
Proof.
  intros Hs Hi Hj. pose proof (table_length _ Hs) as Hl. unfold table_ok in *. rewrite <- Hs.
  unfold in_u in *. simpl in *. unfold swap, at_.
  apply Permutation_inj. split; [by rewrite !length_insert|].
  set (f := fun n => if decide (n = Z.to_nat i) then Z.to_nat j
                     else if decide (n = Z.to_nat j) then Z.to_nat i else n).
  exists f. split.
  - intros n m. unfold f. repeat case_decide; lia.
  - intros n. apply swap_lookup; lia.
Qed.

Create HintDb rc4.
#[export] Hint Resolve to_uint8_range at_range swap_perm : rc4.

Lemma nextKeystreamByte_ok r :
  rc4_ok r -> in_u 8 (nextKeystreamByte r).1 /\ rc4_ok (nextKeystreamByte r).2.
Proof.
  intros (Hs & _ & _). unfold nextKeystreamByte, rc4_ok. cbn [fst snd rc4_s rc4_x rc4_y].
  split_and!; auto with rc4.
Qed.

Lemma discard_ok n r : rc4_ok r -> rc4_ok (discard n r).
Proof.
  revert r; induction n as [|n IH]; intros r Hr; [done|]. by apply IH, nextKeystreamByte_ok.
Qed.

Lemma xorInPlace_ok r p : rc4_ok r -> rc4_ok (xorInPlace r p).2.
Proof.
  revert r; induction p as [|b p IH]; intros r Hr; [done|]. cbn [xorInPlace].
  destruct (nextKeystreamByte_ok r Hr) as [_ Hr']. destruct (nextKeystreamByte r) as [k r'].
  specialize (IH r' Hr'). by destruct (xorInPlace r' p).
Qed.

Lemma identity_ok : table_ok identity_table.
Proof. unfold table_ok. reflexivity. Qed.

Lemma schedule_ok key : table_ok (schedule key).
Proof.
  unfold schedule.
  assert (forall js st, Forall (in_u 8) js -> table_ok st.1.1 ->
            table_ok (fold_left (schedule_round key) js st).1.1) as H.
  { intros js. induction js as [|i js IH]; intros [[s i1] i2] Hi Hs; [done|].
    inversion_clear Hi. cbn [fold_left]. apply IH; [done|]. cbn. auto with rc4. }
  apply H; [|apply identity_ok]. apply Forall_forall. intros z Hz.
  apply list_elem_of_In, in_map_iff in Hz as (n & <- & [_ Hn]%in_seq). unfold in_u. simpl in *. lia.
Qed.

(** C8: the cipher state is well typed for ever: a key that is not empty gives a
    state whose table is a permutation of 0..255 and whose indices are bytes,
    and every amount of traffic keeps it so; only the empty key is refused. *)
Theorem rc4_well_typed key traffic :
  match newAmuleRC4 key with
  | None => key = []
  | Some r => key <> [] /\ rc4_ok r /\ rc4_ok (xorInPlace r traffic).2
  end.
Proof.
  unfold newAmuleRC4. destruct key as [|b key]; [done|].
  assert (rc4_ok (discard rc4DiscardBytes (mkRC4 (schedule (b :: key)) 0 0))) as H.
  { apply discard_ok. split_and!; [apply schedule_ok|done|done]. }
  split_and!; [done|done|by apply xorInPlace_ok].
Qed.

(** ** The key stream *)

Lemma xorInPlace_length r p : length (xorInPlace r p).1 = length p.
Proof.
  revert r; induction p as [|b p IH]; intros r; [done|]. cbn [xorInPlace].
  destruct (nextKeystreamByte r) as [k r']. specialize (IH r').
  destruct (xorInPlace r' p). cbn in *. lia.
Qed.

(** Traffic in two pieces is traffic in one. *)
Lemma xorInPlace_app r p q :
  xorInPlace r (p ++ q) =
    let '(a, r1) := xorInPlace r p in let '(b, r2) := xorInPlace r1 q in (a ++ b, r2).
Proof.
  revert r; induction p as [|b p IH]; intros r; cbn [xorInPlace app].
  - by destruct (xorInPlace r q).
  - destruct (nextKeystreamByte r) as [k r']. rewrite IH.
    destruct (xorInPlace r' p) as [a r1]. by destruct (xorInPlace r1 q).
Qed.

Lemma xorInPlace_app_1 r p q :
  (xorInPlace r (p ++ q)).1 = (xorInPlace r p).1 ++ (xorInPlace (xorInPlace r p).2 q).1.
Proof.
  rewrite xorInPlace_app. destruct (xorInPlace r p) as [a r1]. cbn [fst snd].
  by destruct (xorInPlace r1 q).
Qed.

Lemma xorInPlace_app_2 r p q :
  (xorInPlace r (p ++ q)).2 = (xorInPlace (xorInPlace r p).2 q).2.
Proof.
  rewrite xorInPlace_app. destruct (xorInPlace r p) as [a r1]. cbn [fst snd].
  by destruct (xorInPlace r1 q).
Qed.

Lemma xor_byte_involutive b k : xor_byte (xor_byte b k) k = b.
Proof.
  unfold xor_byte. apply byteZ_inj. rewrite !byteZ_byte_of_Z. change 256 with (2 ^ 8).
  pose proof (byteZ_range b) as Hb. apply Z.bits_inj'. intros n Hn.
  destruct (decide (n < 8)) as [Hlt|Hge].
  - rewrite Z.mod_pow2_bits_low, Z.lxor_spec, Z.mod_pow2_bits_low, Z.lxor_spec by lia.
    by rewrite xorb_assoc, xorb_nilpotent, xorb_false_r.
  - rewrite Z.mod_pow2_bits_high by lia. symmetry.
    rewrite <- (Z.mod_small (byteZ b) (2 ^ 8)) by (simpl; lia). apply Z.mod_pow2_bits_high. lia.
Qed.

(** Two ciphers in the same state undo each other and stay in the same state. *)
Lemma xorInPlace_involutive r p :
  xorInPlace r (xorInPlace r p).1 = (p, (xorInPlace r p).2).
Proof.
  revert r; induction p as [|b p IH]; intros r; [done|]. cbn [xorInPlace].
  destruct (nextKeystreamByte r) as [k r'] eqn:Ek. specialize (IH r').
  destruct (xorInPlace r' p) as [a r1] eqn:Ep. cbn [fst snd xorInPlace] in *.
  rewrite Ek, IH. by rewrite xor_byte_involutive.
Qed.

(** RFC 6229, the key 0102030405 at offset 1024. *)
Example rc4_vector :
  option_map (fun r => (xorInPlace r (replicate 16 x00)).1)
    (newAmuleRC4 [x01; x02; x03; x04; x05]) =
  Some [x30; xab; xbc; xc7; xc2; x0b; x01; x60; x9f; x23; xee; x2d; x5f; x6b; xb7; xdf].
Proof. vm_compute. reflexivity. Qed.
