(* ===== verification/Streams.v ===== *)
(** * Connections as readers (Go's io.ReadFull; obfConn and prependConn of
    ed2ksrv/obfuscate.go)

    A reader delivers the bytes of a stream in pieces of its own choosing. What
    the server relies on is the interface [ReaderStream]; the connection, the
    deciphering reader and the reader with a prefix implement it. *)

From S2P Require Import Prelude Ed2kLib Ed2kWire Frames Rc4.

Local Open Scope Z_scope.

(** One call of [Read] with a buffer of the given size; [None] is the end of
    the stream or another error. A read of a TCP connection that returns bytes
    returns no error with them. *)
Class Reader (C : Type) := conn_read : nat -> C -> option (bytes * C).

(** The bytes a reader still has to deliver, and what one call does to them. *)
Class ReaderStream (C : Type) `{Reader C} := {
  stream_of : C -> bytes;
  conn_read_spec k c : (0 < k)%nat ->
    match conn_read k c with
    | None => stream_of c = []
    | Some (b, c') => b <> [] /\ (length b <= k)%nat /\ stream_of c = b ++ stream_of c'
    end
}.

(** [io.ReadFull]: reads until [n] bytes are there. Every call delivers at
    least one byte, so [n] calls are enough. *)
Fixpoint read_full_loop {C} `{Reader C} (calls n : nat) (acc : bytes) (c : C)
    : option (bytes * C) :=
  match n with
  | O => Some (acc, c)
  | S _ =>
    match calls with
    | O => None
    | S calls' =>
      match conn_read n c with
      | None => None
      | Some (b, c') => read_full_loop calls' (n - length b) (acc ++ b) c'
      end
    end
  end.

Definition conn_ReadFull {C} `{Reader C} (c : C) (n : Z) : result frameErr (bytes * C) :=
  or_err (read_full_loop (Z.to_nat n) (Z.to_nat n) [] c) ErrFrameEOF.

(** ** The connections *)

(** A TCP connection: the segments that arrive, each of which is what one call
    of [Read] can see at most, the bytes written so far, and whether the next
    writes succeed. *)
Record netConn := mkNet { nc_in : list bytes; nc_out : bytes; nc_writable : bool }.

Fixpoint next_segment (segments : list bytes) (k : nat) : option (bytes * list bytes) :=
  match segments with
  | [] => None
  | [] :: segments' => next_segment segments' k
  | seg :: segments' => Some (take k seg, drop k seg :: segments')
  end.

#[export] Instance net_reader : Reader netConn := fun k c =>
  match next_segment (nc_in c) k with
  | None => None
  | Some (b, segments) => Some (b, mkNet segments (nc_out c) (nc_writable c))
  end.

Definition conn_write (c : netConn) (p : bytes) : bool * netConn :=
  if nc_writable c then (true, mkNet (nc_in c) (nc_out c ++ p) true) else (false, c).

(** [obfConn] *)
Record obfConn := mkObf {
  oc_Conn : netConn;
  oc_send : option amuleRC4;
  oc_recv : option amuleRC4
}.

#[export] Instance obfConn_Read : Reader obfConn := fun k o =>
  match conn_read k (oc_Conn o) with
  | None => None
  | Some (p, c) =>
    match oc_recv o with
    | Some r =>
      let '(p, r) := xorInPlace r p in
      Some (p, mkObf c (oc_send o) (Some r))
    | None => Some (p, mkObf c (oc_send o) None)
    end
  end.

Definition obfConn_Write (o : obfConn) (p : bytes) : bool * obfConn :=
  match oc_send o with
  | None => let '(ok, c) := conn_write (oc_Conn o) p in (ok, mkObf c None (oc_recv o))
  | Some r =>
    let '(buf, r) := xorInPlace r p in
    let '(ok, c) := conn_write (oc_Conn o) buf in
    (ok, mkObf c (Some r) (oc_recv o))
  end.

(** [prependConn], over any connection. *)
Record prependConn (C : Type) := mkPrepend { pc_Conn : C; pc_prefix : bytes }.
Arguments mkPrepend {C}.
Arguments pc_Conn {C}.
Arguments pc_prefix {C}.

#[export] Instance prependConn_Read {C} `{Reader C} : Reader (prependConn C) := fun k c =>
  match pc_prefix c with
  | [] => match conn_read k (pc_Conn c) with
          | None => None
          | Some (b, c') => Some (b, mkPrepend c' [])
          end
  | prefix => Some (take k prefix, mkPrepend (pc_Conn c) (drop k prefix))
  end.

(** ** They keep the interface *)

Lemma next_segment_spec segments k :
  (0 < k)%nat ->
  match next_segment segments k with
  | None => concat segments = []
  | Some (b, segments') =>
      b <> [] /\ (length b <= k)%nat /\ concat segments = b ++ concat segments'
  end.
Proof.
  intros Hk. induction segments as [|[|x seg] segments IH]; [done|exact IH|]. cbn [next_segment].
  split_and!; [by destruct k; [lia|]|rewrite length_take; lia|].
  cbn [concat]. by rewrite app_assoc, take_drop.
Qed.

#[export] Program Instance net_stream : ReaderStream netConn :=
  {| stream_of c := concat (nc_in c) |}.
Next Obligation.
  intros k c Hk. unfold conn_read, net_reader. pose proof (next_segment_spec (nc_in c) k Hk) as H.
  by destruct (next_segment (nc_in c) k) as [[b segments]|].
Qed.

Definition decipher (r : option amuleRC4) (p : bytes) : bytes :=
  match r with Some r => (xorInPlace r p).1 | None => p end.

#[export] Program Instance obf_stream : ReaderStream obfConn :=
  {| stream_of o := decipher (oc_recv o) (stream_of (oc_Conn o)) |}.
Next Obligation.
  intros k [c tx rcv] Hk. unfold conn_read at 1, obfConn_Read. cbn [oc_Conn oc_recv oc_send].
  pose proof (conn_read_spec k c Hk) as H. destruct (conn_read k c) as [[b c']|].
  - destruct H as (Hn & Hl & ->). destruct rcv as [r|]; [|done]. cbn [decipher].
    pose proof (xorInPlace_length r b) as Hx. rewrite xorInPlace_app_1.
    destruct (xorInPlace r b) as [p r'] eqn:E. cbn [fst snd oc_recv oc_Conn decipher] in *.
    split_and!; [|lia|done]. intros ->. by destruct b.
  - rewrite H. by destruct rcv.
Qed.

#[export] Program Instance prepend_stream {C} `{ReaderStream C} : ReaderStream (prependConn C) :=
  {| stream_of c := pc_prefix c ++ stream_of (pc_Conn c) |}.
Next Obligation.
  intros C RC RS k [c [|x prefix]] Hk; unfold conn_read at 1, prependConn_Read;
    cbn [pc_prefix pc_Conn].
  - pose proof (conn_read_spec k c Hk) as Hc. by destruct (conn_read k c) as [[b c']|].
  - split_and!; [by destruct k; [lia|]|rewrite length_take; lia|]. cbn [pc_prefix pc_Conn].
    by rewrite app_assoc, take_drop.
Qed.

(** ** Clients of the interface *)

Section readers.
Context {C : Type} `{RS : ReaderStream C}.

Lemma read_full_loop_spec calls n acc c :
  (n <= calls)%nat ->
  if decide (length (stream_of c) < n)%nat
  then read_full_loop calls n acc c = None
  else exists c', read_full_loop calls n acc c = Some (acc ++ take n (stream_of c), c') /\
                  stream_of c' = drop n (stream_of c).
Proof.
  revert n acc c; induction calls as [|calls IH]; intros n acc c Hn.
  - assert (n = 0%nat) as -> by lia. case_decide; [lia|]. exists c. cbn. by rewrite app_nil_r.
  - destruct n as [|n]; [case_decide; [lia|]; exists c; cbn; by rewrite app_nil_r|].
    cbn [read_full_loop]. pose proof (conn_read_spec (S n) c ltac:(lia)) as Hr.
    destruct (conn_read (S n) c) as [[b c']|].
    + destruct Hr as (Hb & Hl & ->). assert (0 < length b)%nat by (destruct b; [done|simpl; lia]).
      specialize (IH (S n - length b)%nat (acc ++ b) c' ltac:(lia)). rewrite length_app.
      case_decide; case_decide; try lia; [done|]. destruct IH as (c2 & -> & Hc2). exists c2.
      rewrite take_app_ge, drop_app_ge by lia. by rewrite app_assoc.
    + rewrite Hr. case_decide; [done|]. simpl in *. lia.
Qed.

(** [ReadFull] on a connection is [ReadFull] on its stream, however the stream
    is cut into pieces. *)
Lemma conn_ReadFull_spec c n :
  match ReadFull (stream_of c) n with
  | Err e => conn_ReadFull c n = Err e
  | Ok (b, rest) => exists c', conn_ReadFull c n = Ok (b, c') /\ stream_of c' = rest
  end.
Proof.
  unfold ReadFull, conn_ReadFull.
  pose proof (read_full_loop_spec (Z.to_nat n) (Z.to_nat n) [] c ltac:(lia)) as Hr.
  unfold len. destruct (Z.ltb_spec (Z.of_nat (length (stream_of c))) n); case_decide; try lia.
  - by rewrite Hr.
  - destruct Hr as (c' & -> & Hc'). by exists c'.
Qed.

Context {L : Ed2kLib} {W : Ed2kWire} {ZL : Zlib}.

(** The frames of a connection are those of its stream. *)
Lemma readFrame_stream c :
  match readFrame (stream_of c) with
  | Err e => readFrameFrom conn_ReadFull c = Err e
  | Ok (frame, rest) => exists c',
      readFrameFrom conn_ReadFull c = Ok (frame, c') /\ stream_of c' = rest
  end.
Proof.
  unfold readFrame, readFrameFrom. pose proof (conn_ReadFull_spec c PacketHeaderSize) as H1.
  destruct (ReadFull (stream_of c) PacketHeaderSize) as [[header rest]|]; cbn [rbind] in *;
    [|by rewrite H1].
  destruct H1 as (c1 & -> & <-). cbn [rbind].
  destruct (PacketHeader_Get header) as [[[proto opcode] size]|]; [|done].
  destruct (size <? 0); [done|]. pose proof (conn_ReadFull_spec c1 size) as H2.
  destruct (ReadFull (stream_of c1) size) as [[body rest]|]; cbn [rbind] in *; [|by rewrite H2].
  destruct H2 as (c2 & -> & <-). cbn [rbind].
  destruct (byte_eqb proto PackedProt); [|by exists c2].
  destruct (inflatePackedFrame body); cbn [rbind]; [by exists c2|done].
Qed.
End readers.
