(* ===== verification/Obfuscate.v ===== *)
(** * Protocol obfuscation (ed2ksrv/obfuscate.go)

    The server's half of the handshake: Diffie-Hellman over a 768-bit prime,
    two RC4 keys hashed from the shared secret, and paddings of random length.
    Random values are inputs. [Rc4] holds the cipher, [Streams] the connections. *)

From Stdlib Require Import ZArith.Znumtheory.
From S2P Require Import Prelude StateErr Ed2kLib Ed2kWire Frames GoCrypto Rc4 Streams.

Local Open Scope Z_scope.
Local Open Scope srv_scope.

Definition magicValueRequester : byte := x22.
Definition magicValueServer : byte := xcb.
Definition magicValueSync : Z := 0x835E6FC4.
Definition enmObfuscation : byte := x00.
Definition primeSizeBytes : nat := 96.
Definition dhAgreementBits : Z := 128.

Definition bytesToBig : bytes -> Z := big_SetBytes.

Definition dh768P : Z := bytesToBig [
  xf2; xbf; x52; xc5; x5f; x58; x7a; xdd; x53; x71; xa9; x36;
  xe8; x86; xeb; x3c; x62; x17; xa3; x3e; xc3; x4c; xb4; x0d;
  xc7; x3a; x41; xa6; x43; xaf; xfc; xe7; x21; xfc; x28; x63;
  x66; x53; x5b; xdb; xce; x25; x9f; x22; x86; xda; x4a; x91;
  xb2; x07; xcb; xaa; x52; x55; xd4; xf6; x1c; xce; xae; xd4;
  x5a; xd5; xe0; x74; x7d; xf7; x78; x18; x28; x10; x5f; x34;
  x0f; x76; x23; x87; xf8; x8b; x28; x91; x42; xfb; x42; x68;
  x8f; x05; x15; x0f; x54; x8b; x5f; x43; x6a; xf7; x0d; xf3].

(** [None] is the nil slice of a number that needs more than 96 bytes. *)
Definition encodeFixed96 (n : Z) : option bytes :=
  let b := big_Bytes n in
  if (primeSizeBytes <? length b)%nat then None
  else Some (replicate (primeSizeBytes - length b) x00 ++ b).

(** [copy(buf, s96)] into 97 zero bytes, then the magic byte. *)
Definition md5Key97 (s96 : bytes) (magic : byte) : bytes :=
  md5_Sum (resize 96 x00 s96 ++ [magic]).

Inductive obfErr :=
| ErrObfRead
| ErrPadLen (n : Z)
| ErrInvalidDH
| ErrRand
| ErrSecret
| ErrPublic
| ErrObfWrite
| ErrClientMagic (magic : Z)
| ErrClientMethod (method : byte)
| ErrClientPad (n : Z)
| ErrObfPanic.

(** What [crypto/rand] delivers: the exponent below 2^128, the byte that
    chooses the padding, and the padding. *)
Record handshakeRandom := mkRandom {
  rnd_priv : option Z;
  rnd_padN : option byte;
  rnd_pad : option bytes
}.

Definition hsM (A : Type) := ST netConn obfErr A.

(** [io.ReadFull] into a buffer of [n] bytes. *)
Definition read_full (n : Z) : hsM bytes := fun c =>
  match conn_ReadFull c n with
  | Ok (b, c') => (Ok b, c')
  | Err _ => (Err ErrObfRead, c)
  end.

Definition write (p : bytes) : hsM unit := fun c =>
  let '(ok, c') := conn_write c p in (if ok then Ok tt else Err ErrObfWrite, c').

(** [conn.Read] into a chunk of 65536 bytes. *)
Definition read_chunk : hsM bytes := fun c =>
  match conn_read (Z.to_nat 65536) c with
  | None => (Err ErrObfRead, c)
  | Some (b, c') => (Ok b, c')
  end.

(** G^a and the padding of the client. *)
Definition read_public : hsM Z :=
  do! gaBuf := read_full 96 in
  do! padLenBuf := read_full 1 in
  let padLen := byteZ (nth 0 padLenBuf x00) in
  (if 15 <? padLen then fail (ErrPadLen padLen) else ret tt) ;;;
  (if 0 <? padLen then do! _ := read_full padLen in ret tt else ret tt) ;;;
  let ga := big_SetBytes gaBuf in
  if (ga <=? 0) || (dh768P <=? ga) then fail ErrInvalidDH else ret ga.

(** The second part of the server's message, in the clear. *)
Definition server_tail (padN : Z) (pad : bytes) : bytes :=
  le_encode 4 magicValueSync ++ [enmObfuscation; enmObfuscation; byte_of_Z padN] ++
  resize (Z.to_nat padN) x00 pad.

(** The client's header and padding; the state of the cipher after them. *)
Definition read_client_header (recv : amuleRC4) : hsM amuleRC4 :=
  do! hdr := read_full 6 in
  let '(hdr, recv) := xorInPlace recv hdr in
  let magic := le_decode (take 4 hdr) in
  if negb (magic =? magicValueSync) then fail (ErrClientMagic magic) else
  let method := nth 4 hdr x00 in
  if negb (byte_eqb method enmObfuscation) then fail (ErrClientMethod method) else
  let pad2 := byteZ (nth 5 hdr x00) in
  if 15 <? pad2 then fail (ErrClientPad pad2) else
  if 0 <? pad2 then
    do! padBuf := read_full pad2 in ret (xorInPlace recv padBuf).2
  else ret recv.

Definition serverObfuscatedHandshake (rnd : handshakeRandom) (firstByte : byte)
    : hsM (prependConn obfConn) :=
  do! ga := read_public in
  do! priv := of_option (rnd_priv rnd) ErrRand in
  let gb := big_Exp 2 priv dh768P in
  let S := big_Exp ga priv dh768P in
  do! s96 := of_option (encodeFixed96 S) ErrSecret in
  do! sendRC4 := of_option (newAmuleRC4 (md5Key97 s96 magicValueServer)) ErrObfPanic in
  do! recvRC4 := of_option (newAmuleRC4 (md5Key97 s96 magicValueRequester)) ErrObfPanic in
  do! rb := of_option (rnd_padN rnd) ErrRand in
  let padN := byteZ rb mod 16 in
  do! pad := (if 0 <? padN then of_option (rnd_pad rnd) ErrRand else ret []) in
  let '(tailCopy, sendRC4) := xorInPlace sendRC4 (server_tail padN pad) in
  do! gb96 := of_option (encodeFixed96 gb) ErrPublic in
  write (gb96 ++ tailCopy) ;;;
  do! recvRC4 := read_client_header recvRC4 in
  do! chunk := read_chunk in
  let '(leftover, recvRC4) := xorInPlace recvRC4 chunk in
  do! conn := gets id in
  ret (mkPrepend (mkObf conn (Some sendRC4) (Some recvRC4)) leftover).

(** ** Numbers and keys *)

Definition fixed96 (n : Z) : bytes := reverse (le_encode 96 n).

Lemma encodeFixed96_spec n : 0 <= n < 2 ^ 768 -> encodeFixed96 n = Some (fixed96 n).
Proof.
  intros Hn. assert (0 <= n < 256 ^ Z.of_nat primeSizeBytes) as Hn'.
  { replace (256 ^ Z.of_nat primeSizeBytes) with (2 ^ 768) by reflexivity. done. }
  destruct (big_Bytes_padded _ _ Hn') as [Hl Hp]. unfold encodeFixed96.
  destruct (Nat.ltb_spec primeSizeBytes (length (big_Bytes n))); [lia|]. by rewrite Hp.
Qed.

Lemma fixed96_length n : length (fixed96 n) = 96%nat.
Proof. unfold fixed96. by rewrite length_reverse, le_encode_length. Qed.

Lemma fixed96_value n : 0 <= n < 2 ^ 768 -> big_SetBytes (fixed96 n) = n.
Proof.
  intros Hn. apply (big_SetBytes_fixed 96).
  replace (256 ^ Z.of_nat 96) with (2 ^ 768) by reflexivity. done.
Qed.

Lemma dh768P_bounds : 1 < dh768P < 2 ^ 768.
Proof. split; by vm_compute. Qed.

Lemma residue_range n : 0 <= n mod dh768P < 2 ^ 768.
Proof. pose proof dh768P_bounds. pose proof (Z.mod_pos_bound n dh768P). lia. Qed.

(** A power of two is no multiple of the prime, which is odd. *)
Lemma public_positive a : 0 <= a -> 0 < 2 ^ a mod dh768P.
Proof.
  intros Ha. pose proof dh768P_bounds as Hp.
  pose proof (Z.mod_pos_bound (2 ^ a) dh768P ltac:(lia)) as Hm.
  assert (2 ^ a mod dh768P <> 0) as Hz; [|lia]. intros Hz.
  apply Z.mod_divide in Hz; [|lia].
  assert (Z.gcd dh768P (2 ^ a) = 1) as Hg.
  { apply Z.coprime_pow_r; [done|]. by vm_compute. }
  pose proof (Z.gcd_greatest _ _ _ (Z.divide_refl dh768P) Hz) as Hd. rewrite Hg in Hd.
  apply Z.divide_1_r_nonneg in Hd; lia.
Qed.

(** The key agreement. *)
Lemma agreement a b :
  0 <= a -> 0 <= b ->
  big_Exp (2 ^ a mod dh768P) b dh768P = (2 ^ b mod dh768P) ^ a mod dh768P.
Proof.
  intros Ha Hb. pose proof dh768P_bounds. rewrite big_Exp_spec by lia.
  rewrite <- !Zpow_facts.Zpower_mod by lia. rewrite <- !Z.pow_mul_r by done. f_equal. f_equal. lia.
Qed.

Lemma md5Key97_length s96 magic : length (md5Key97 s96 magic) = 16%nat.
Proof. apply md5_Sum_length. Qed.

Lemma cipher_exists s96 magic : exists r, newAmuleRC4 (md5Key97 s96 magic) = Some r.
Proof.
  pose proof (md5Key97_length s96 magic). destruct (md5Key97 s96 magic); [done|]. by eexists.
Qed.
