(* ===== verification/Handshake.v ===== *)
(** * The obfuscation handshake meets its client (ed2ksrv/obfuscate.go)

    The client's half of the handshake, as eMule and aMule speak it, and the
    theorem that a server and a client that follow it agree on the ciphers of
    both directions, on every segmentation of the traffic. *)

From S2P Require Import Prelude StateErr Ed2kLib Ed2kWire Frames GoCrypto Rc4 Streams Obfuscate.

Local Open Scope Z_scope.

(** ** The client *)

(** G^a, the length of the first padding, the padding. *)
Definition client_hello (a : Z) (padA : bytes) : bytes :=
  fixed96 (2 ^ a mod dh768P) ++ byte_of_Z (len padA) :: padA.

(** The secret shared with the owner of the public key [gb]. *)
Definition client_secret (a gb : Z) : bytes := fixed96 (gb ^ a mod dh768P).

(** The second part of the client's message, in the clear, and what follows. *)
Definition client_tail (padB data : bytes) : bytes :=
  le_encode 4 magicValueSync ++ enmObfuscation :: byte_of_Z (len padB) :: padB ++ data.

(** ** Reads of a connection that holds enough *)

Definition net (segments : list bytes) (out : bytes) (ok : bool) : netConn :=
  mkNet segments out ok.

Lemma read_loop_net calls n acc c b c' :
  read_full_loop calls n acc c = Some (b, c') ->
  nc_out c' = nc_out c /\ nc_writable c' = nc_writable c.
Proof.
  revert n acc c; induction calls as [|calls IH]; intros [|n] acc c; cbn [read_full_loop];
    try (by intros [= _ <-]).
  unfold conn_read, net_reader. destruct (next_segment (nc_in c) (S n)) as [[p segs]|]; [|done].
  intros E%IH. exact E.
Qed.

Lemma read_full_ok c n b rest :
  stream_of c = b ++ rest -> len b = n ->
  exists segs, read_full n c = (Ok b, mkNet segs (nc_out c) (nc_writable c)) /\ concat segs = rest.
Proof.
  intros Hc <-. unfold read_full. pose proof (conn_ReadFull_spec c (len b)) as Hr.
  unfold ReadFull in Hr. rewrite Hc, len_app in Hr. pose proof (len_nonneg rest).
  destruct (Z.ltb_spec (len b + len rest) (len b)); [lia|].
  assert (Z.to_nat (len b) = length b) as El by (unfold len; lia).
  rewrite El, take_app_length, drop_app_length in Hr.
  destruct Hr as ([segs out ok] & E & Hs). rewrite E.
  unfold conn_ReadFull in E. apply or_err_ok, read_loop_net in E as [<- <-]. by exists segs.
Qed.

Lemma read_chunk_ok c :
  stream_of c <> [] ->
  exists b segs, read_chunk c = (Ok b, mkNet segs (nc_out c) (nc_writable c)) /\
                 b <> [] /\ stream_of c = b ++ concat segs.
Proof.
  intros Hc. unfold read_chunk. pose proof (conn_read_spec (Z.to_nat 65536) c ltac:(lia)) as Hr.
  unfold conn_read, net_reader in *. cbv beta in *.
  destruct (next_segment (nc_in c) (Z.to_nat 65536)) as [[b segs]|]; [|done].
  exists b, segs. destruct Hr as (Hb & _ & Hs). done.
Qed.

Lemma byte_roundtrip n : 0 <= n <= 15 -> byteZ (byte_of_Z n) = n.
Proof. intros. rewrite byteZ_byte_of_Z. apply Z.mod_small. lia. Qed.

(** ** The steps of the server *)

Section steps.
Local Open Scope srv_scope.

(** Padding is read only when there is some. *)
Lemma read_padding c pad rest :
  stream_of c = pad ++ rest ->
  exists segs,
    (if 0 <? len pad then (do! _ := read_full (len pad) in ret tt) else ret tt) c
      = (Ok tt, mkNet segs (nc_out c) (nc_writable c)) /\ concat segs = rest.
Proof.
  intros Hc. pose proof (len_nonneg pad). destruct (Z.ltb_spec 0 (len pad)).
  - destruct (read_full_ok c _ pad rest Hc eq_refl) as (segs & E & Hs). exists segs.
    unfold bind. by rewrite E.
  - destruct pad; [|rewrite len_cons in *; pose proof (len_nonneg pad); lia].
    exists (nc_in c). split; [by destruct c|done].
Qed.

Lemma read_public_ok c a padA rest :
  0 <= a -> len padA <= 15 -> stream_of c = client_hello a padA ++ rest ->
  exists segs,
    read_public c = (Ok (2 ^ a mod dh768P), mkNet segs (nc_out c) (nc_writable c)) /\
    concat segs = rest.
Proof.
  intros Ha Hp Hc. unfold client_hello in Hc. rewrite <- app_assoc, <- app_comm_cons in Hc.
  destruct (read_full_ok c 96 _ _ Hc) as (s1 & E1 & H1); [by unfold len; rewrite fixed96_length|].
  unfold read_public. rewrite (bind_ok _ _ _ _ _ E1).
  destruct (read_full_ok (mkNet s1 (nc_out c) (nc_writable c)) 1
    [byte_of_Z (len padA)] (padA ++ rest) H1 eq_refl) as (s2 & E2 & H2). rewrite (bind_ok _ _ _ _ _ E2).
  cbn [nth nc_out nc_writable]. pose proof (len_nonneg padA). rewrite byte_roundtrip by lia.
  destruct (Z.ltb_spec 15 (len padA)); [lia|]. rewrite (bind_ok (ret tt) _ _ _ _ eq_refl).
  destruct (read_padding (mkNet s2 (nc_out c) (nc_writable c)) padA rest H2) as (s3 & E3 & H3).
  rewrite (bind_ok _ _ _ _ _ E3). rewrite fixed96_value by apply residue_range.
  pose proof (public_positive a Ha). pose proof dh768P_bounds.
  pose proof (Z.mod_pos_bound (2 ^ a) dh768P ltac:(lia)).
  destruct (Z.leb_spec (2 ^ a mod dh768P) 0); [lia|].
  destruct (Z.leb_spec dh768P (2 ^ a mod dh768P)); [lia|]. cbn [orb]. by exists s3.
Qed.

Definition client_header (padB : bytes) : bytes :=
  le_encode 4 magicValueSync ++ [enmObfuscation; byte_of_Z (len padB)].

Lemma client_tail_eq padB data : client_tail padB data = client_header padB ++ padB ++ data.
Proof. done. Qed.

Lemma client_header_length padB : len (client_header padB) = 6.
Proof. done. Qed.

(** The header and the padding are deciphered; the cipher is left where the
    client's data starts. *)
Lemma read_client_header_ok c up padB data :
  len padB <= 15 -> stream_of c = (xorInPlace up (client_tail padB data)).1 ->
  let up' := (xorInPlace up (client_header padB ++ padB)).2 in
  exists segs,
    read_client_header up c = (Ok up', mkNet segs (nc_out c) (nc_writable c)) /\
    concat segs = (xorInPlace up' data).1.
Proof.
  intros Hp Hc. cbv zeta. rewrite xorInPlace_app_2. rewrite client_tail_eq, xorInPlace_app_1 in Hc.
  destruct (read_full_ok c 6 _ _ Hc) as (s1 & E1 & H1).
  { unfold len. rewrite xorInPlace_length. apply (client_header_length padB). }
  unfold read_client_header. rewrite (bind_ok _ _ _ _ _ E1). rewrite xorInPlace_involutive.
  set (up1 := (xorInPlace up (client_header padB)).2) in *. unfold client_header.
  change (le_decode (take 4 _)) with magicValueSync. rewrite Z.eqb_refl. cbn [negb].
  change (nth 4 _ _) with enmObfuscation. rewrite byte_eqb_refl. cbn [negb].
  change (nth 5 _ _) with (byte_of_Z (len padB)). pose proof (len_nonneg padB).
  rewrite byte_roundtrip by lia. destruct (Z.ltb_spec 15 (len padB)); [lia|].
  rewrite xorInPlace_app_1 in H1. destruct (Z.ltb_spec 0 (len padB)).
  - destruct (read_full_ok (mkNet s1 (nc_out c) (nc_writable c)) (len padB) _ _ H1) as (s2 & E2 & Hs2).
    { unfold len. by rewrite xorInPlace_length. }
    exists s2. rewrite (bind_ok _ _ _ _ _ E2). by rewrite xorInPlace_involutive.
  - destruct padB; [|rewrite len_cons in *; pose proof (len_nonneg padB); lia].
    exists s1. done.
Qed.
End steps.

(** ** Agreement *)

Lemma agreed a padA padB data priv rb pad firstByte segments :
  0 <= a -> 0 <= priv -> len padA <= 15 -> len padB <= 15 -> data <> [] ->
  let gb := 2 ^ priv mod dh768P in
  let s96 := client_secret a gb in
  forall up down,
  newAmuleRC4 (md5Key97 s96 magicValueRequester) = Some up ->
  newAmuleRC4 (md5Key97 s96 magicValueServer) = Some down ->
  concat segments = client_hello a padA ++ (xorInPlace up (client_tail padB data)).1 ->
  exists c conn,
    serverObfuscatedHandshake (mkRandom (Some priv) (Some rb) (Some pad)) firstByte
      (mkNet segments [] true) = (Ok conn, c) /\
    stream_of conn = data /\
    exists reply down',
      nc_out (oc_Conn (pc_Conn conn)) = fixed96 gb ++ reply /\
      nc_writable (oc_Conn (pc_Conn conn)) = true /\
      xorInPlace down reply = (server_tail (byteZ rb mod 16) pad, down') /\
      oc_send (pc_Conn conn) = Some down'.
Proof.
  intros Ha Hb HpA HpB Hd gb s96 up down Hup Hdown Hs.
  destruct (read_public_ok (mkNet segments [] true) a padA _ Ha HpA Hs) as (s1 & E1 & H1).
  unfold serverObfuscatedHandshake. rewrite (bind_ok _ _ _ _ _ E1).
  cbn [rnd_priv rnd_padN rnd_pad nc_out nc_writable of_option].
  rewrite (bind_ok (ret _) _ _ _ _ eq_refl). rewrite agreement by done.
  rewrite big_Exp_spec by (pose proof dh768P_bounds; lia). fold gb.
  rewrite !encodeFixed96_spec by apply residue_range. fold (client_secret a gb). fold s96.
  cbn [of_option]. rewrite (bind_ok (ret _) _ _ _ _ eq_refl).
  rewrite Hup, Hdown. cbn [of_option]. do 3 rewrite (bind_ok (ret _) _ _ _ _ eq_refl).
  set (padN := byteZ rb mod 16).
  assert (exists pad', server_tail padN pad' = server_tail padN pad /\
    (if 0 <? padN then ret pad else ret []) = (ret pad' : hsM bytes)) as (pad' & Et & ->).
  { destruct (Z.ltb_spec 0 padN); [by exists pad|]. exists []. split; [|done]. unfold server_tail.
    assert (Z.to_nat padN = 0%nat) as -> by lia. by rewrite !resize_0. }
  rewrite (bind_ok (ret _) _ _ _ _ eq_refl). rewrite Et.
  destruct (xorInPlace down (server_tail padN pad)) as [reply down'] eqn:Ex.
  rewrite (bind_ok (ret _) _ _ _ _ eq_refl).
  rewrite (bind_ok (write (fixed96 gb ++ reply)) _ (mkNet s1 [] true) tt
             (mkNet s1 (fixed96 gb ++ reply) true)) by done.
  destruct (read_client_header_ok (mkNet s1 (fixed96 gb ++ reply) true) up padB data HpB H1)
    as (s2 & E2 & H2).
  rewrite (bind_ok _ _ _ _ _ E2). set (up' := (xorInPlace up (client_header padB ++ padB)).2) in *.
  cbn [nc_out nc_writable].
  destruct (read_chunk_ok (mkNet s2 (fixed96 gb ++ reply) true)) as (chunk & s3 & E3 & _ & H3).
  { cbn [stream_of net_stream nc_in]. rewrite H2. intros E%(f_equal length).
    rewrite xorInPlace_length in E. by destruct data. }
  rewrite (bind_ok _ _ _ _ _ E3). destruct (xorInPlace up' chunk) as [left up2] eqn:El.
  rewrite bind_gets. do 2 eexists. split; [done|].
  cbn [stream_of prepend_stream obf_stream net_stream pc_prefix pc_Conn oc_Conn oc_recv oc_send
       nc_in nc_out nc_writable decipher id] in *.
  split.
  - pose proof (xorInPlace_involutive up' data) as Hi. rewrite <- H2, H3 in Hi.
    apply (f_equal fst) in Hi. rewrite xorInPlace_app_1, El in Hi. exact Hi.
  - exists reply, down'. split_and!; [done..| |done].
    pose proof (xorInPlace_involutive down (server_tail padN pad)) as Hi. by rewrite Ex in Hi.
Qed.

(** C7: the handshake works: a client that follows the protocol, with any secret
    exponent, any paddings of at most 15 bytes and at least one byte of data
    behind them, is accepted on every segmentation of its traffic. What the
    server then reads is the client's data; what it wrote is its public key
    and, for the client's cipher of that direction, the announced tail; and the
    two ciphers of each direction are in the same state. *)
Theorem handshake_agreement a padA padB data priv rb pad firstByte segments :
  0 <= a -> 0 <= priv -> len padA <= 15 -> len padB <= 15 -> data <> [] ->
  let gb := 2 ^ priv mod dh768P in
  let s96 := client_secret a gb in
  forall up down,
  newAmuleRC4 (md5Key97 s96 magicValueRequester) = Some up ->
  newAmuleRC4 (md5Key97 s96 magicValueServer) = Some down ->
  concat segments = client_hello a padA ++ (xorInPlace up (client_tail padB data)).1 ->
  exists c conn,
    serverObfuscatedHandshake (mkRandom (Some priv) (Some rb) (Some pad)) firstByte
      (mkNet segments [] true) = (Ok conn, c) /\
    stream_of conn = data /\
    exists reply down',
      nc_out (oc_Conn (pc_Conn conn)) = fixed96 gb ++ reply /\
      nc_writable (oc_Conn (pc_Conn conn)) = true /\
      xorInPlace down reply = (server_tail (byteZ rb mod 16) pad, down') /\
      oc_send (pc_Conn conn) = Some down'.
Proof. apply agreed. Qed.

(** A client with secret 5 and a server with secret 7. *)
Definition demo_gb : Z := 2 ^ 7 mod dh768P.

Definition demo_cipher (magic : byte) : amuleRC4 :=
  default (mkRC4 [] 0 0) (newAmuleRC4 (md5Key97 (client_secret 5 demo_gb) magic)).

Lemma demo_cipher_eq magic :
  newAmuleRC4 (md5Key97 (client_secret 5 demo_gb) magic) = Some (demo_cipher magic).
Proof.
  unfold demo_cipher. by destruct (cipher_exists (client_secret 5 demo_gb) magic) as [r ->].
Qed.

(** The ciphertext arrives in two segments, the second of which starts in the
    middle of the header. *)
Definition demo_traffic (data : bytes) : list bytes :=
  let x := (xorInPlace (demo_cipher magicValueRequester) (client_tail [x07; x08] data)).1 in
  [client_hello 5 [x01] ++ take 3 x; drop 3 x].

Lemma demo_traffic_eq data :
  concat (demo_traffic data) =
  client_hello 5 [x01] ++ (xorInPlace (demo_cipher magicValueRequester) (client_tail [x07; x08] data)).1.
Proof. unfold demo_traffic. cbn [concat]. by rewrite app_nil_r, <- app_assoc, take_drop. Qed.

Lemma handshake_agreement_witness :
  exists c conn,
    serverObfuscatedHandshake (mkRandom (Some 7) (Some x03) (Some [x0a; x0b; x0c])) x42
      (mkNet (demo_traffic [xe3; x01]) [] true) = (Ok conn, c) /\
    stream_of conn = [xe3; x01].
Proof.
  destruct (handshake_agreement 5 [x01] [x07; x08] [xe3; x01] 7 x03 [x0a; x0b; x0c] x42
    (demo_traffic [xe3; x01]) ltac:(lia) ltac:(lia) ltac:(done) ltac:(done) ltac:(done)
    _ _ (demo_cipher_eq magicValueRequester) (demo_cipher_eq magicValueServer) (demo_traffic_eq _))
    as (c & conn & E & Hs & _).
  exists c, conn. split; [exact E|exact Hs].
Defined.
