(* ===== verification/Server.v ===== *)
(** * The server's core (ed2ksrv/server.go)

    The table of clients, the files they share, and the handlers of the TCP
    protocol. A handler is a state-passing function with errors; its state is
    the whole server: sessions are records in a heap addressed by connection
    numbers, so that the client table can point to them and two entries can
    point to one session, as pointers do in the source. Handlers run one at a
    time; [Locks] has the same handlers with their locks, for servers where they
    interleave. *)

From S2P Require Import StateErr.
From S2P Require Import Prelude GoStrings GoSort GoNet Ed2kLib Ed2kRef Ed2kWire FileRecord.
From S2P Require Import Search Catalog Config IdChange OfferFiles Sources PeerServers Limiter.
From S2P Require Import Text Frames AuditLog.

Local Open Scope Z_scope.

(** ** Opcodes *)

Definition opLoginRequest : byte := x01.
Definition opGetServerList : byte := x14.
Definition opServerList : byte := x32.
Definition opSearchRequest : byte := x16.
Definition opGetSources : byte := x19.
Definition opGetSourcesObfu : byte := x23.
Definition opCallbackReq : byte := x1c.
Definition opSearchMore : byte := x21.
Definition opFoundSourcesObfu : byte := x44.

(** ** Packets and the outside world *)

(** The packets the handlers send through the library's combiner. *)
Inductive Packet `{Ed2kLib} :=
| PktStatus (UsersCount FilesCount : Z)
| PktMessage (Value : bytes)
| PktIdChange (ic : idChangeExtended)
| PktSearchResult (Results : list SharedFileEntry) (MoreResults : bool)
| PktFoundFileSources (h : Hash) (Sources : list Endpoint)
| PktCallbackRequestIncoming (Point : Endpoint)
| PktCallbackRequestFailed.

(** [combiner.Pack]: the plain frame of a packet, or an encoding error. *)
Class PacketCombiner `{Ed2kLib} := { Pack : Packet -> option bytes }.

(** The clock readings and the outcomes of the writes (to connections and to
    the catalog store), in the order in which the server makes them, and the
    resolver. *)
Class World := {
  clock : nat -> Z;
  write_ok : nat -> bool;
  ResolveTCPPort : bytes -> option Z
}.

(** What was written to a connection: a packet of the combiner, a frame built
    by the server itself, or plain bytes. *)
Inductive sent `{Ed2kLib} :=
| SentPacket (p : Packet)
| SentRaw (opcode : byte) (body : bytes)
| SentBytes (b : bytes).

(** ** State *)

(** [serverCounters]: the fields are all [int64]. *)
Inductive counter :=
| TotalConnections | TotalDisconnects | InboundPackets | OutboundPackets
| InboundBytes | OutboundBytes | SearchRequests | SearchResultPackets
| SearchResultEntries | SourceRequests | CallbackRequests | FilesRegistered
| FilesRemoved | PersistWrites | UDPSearchRequests | UDPSourceRequests
| UDPDropped | UDPMalformed | UDPRateLimited | ConnRateLimited
| OfferFilesDropped | CallbackRateLimited | PeerStatusReplies | PeersLearned
| HTTPProbes.

#[export] Instance counter_eq_dec : EqDecision counter.
Proof. solve_decision. Defined.

Definition serverCounters := counter -> Z.

(** The [int64] counters of a session. *)
Inductive session_counter :=
| ses_searchRequests | ses_sourceRequests | ses_callbackRequests
| ses_inboundPackets | ses_outboundPackets | ses_inboundBytes | ses_outboundBytes.

#[export] Instance session_counter_eq_dec : EqDecision session_counter.
Proof. solve_decision. Defined.

(** [clientSession]. *)
Record clientSession `{Ed2kLib} := mkSession {
  cs_remote : option NetAddr;
  cs_local : option NetAddr;
  cs_clientHash : Hash;
  cs_connectOptions : Z;
  cs_loginPoint : Endpoint;
  cs_assignedID : Z;
  cs_clientName : bytes;
  cs_offeredFiles : gmap bytes FileRecord;
  cs_searchResult : list SharedFileEntry;
  cs_searchOffset : Z;
  cs_connectedAt : Z;
  cs_lastSeenAt : Z;
  cs_counts : session_counter -> Z
}.

(** [dynamicSharedFile]: a file shared by connected clients. *)
Record dynamicSharedFile `{Ed2kLib} := mkDynamic {
  dyn_record : FileRecord;
  dyn_byClient : gmap Z SourceEntry;
  dyn_completes : gmap Z bool
}.

(** [Server], with the session heap, the connections that are being served, the
    content of the catalog store as far as the server wrote it, and the log of
    what was written to connections. *)
Record Server `{Ed2kLib} := mkServer {
  sv_cfg : Config;
  sv_catalog : Catalog;
  sv_connLimiter : option udpLimiter;
  sv_callbackLimiter : option udpLimiter;
  sv_peers : peerRegistry;
  sv_listener : option Z;
  sv_sessions : nat -> clientSession;
  sv_conns : nat;
  sv_open : gset nat;
  sv_clients : gmap Z nat;
  sv_dynamicFiles : gmap bytes dynamicSharedFile;
  sv_auditLog : list AuditEntry;
  sv_saved : option (list FileRecord);
  sv_nextID : Z;
  sv_stats : counter -> Z;
  sv_sent : list (nat * sent);
  sv_ticks : nat;
  sv_writes : nat;
  sv_startedAt : Z
}.

(** Field updates. *)
Section updates.
Context `{L : Ed2kLib}.
Definition set_sv_catalog (x : Catalog) (s : Server) : Server :=
    mkServer _ (sv_cfg s) x (sv_connLimiter s) (sv_callbackLimiter s) (sv_peers s)
    (sv_listener s) (sv_sessions s) (sv_conns s) (sv_open s) (sv_clients s)
    (sv_dynamicFiles s) (sv_auditLog s) (sv_saved s) (sv_nextID s) (sv_stats s) (sv_sent
    s) (sv_ticks s) (sv_writes s)
    (sv_startedAt s).
Definition set_sv_connLimiter (x : option udpLimiter) (s : Server) : Server :=
    mkServer _ (sv_cfg s) (sv_catalog s) x (sv_callbackLimiter s) (sv_peers s)
    (sv_listener s) (sv_sessions s) (sv_conns s) (sv_open s) (sv_clients s)
    (sv_dynamicFiles s) (sv_auditLog s) (sv_saved s) (sv_nextID s) (sv_stats s) (sv_sent
    s) (sv_ticks s) (sv_writes s)
    (sv_startedAt s).
Definition set_sv_callbackLimiter (x : option udpLimiter) (s : Server) : Server :=
    mkServer _ (sv_cfg s) (sv_catalog s) (sv_connLimiter s) x (sv_peers s) (sv_listener s)
    (sv_sessions s) (sv_conns s) (sv_open s) (sv_clients s) (sv_dynamicFiles s)
    (sv_auditLog s) (sv_saved s) (sv_nextID s) (sv_stats s) (sv_sent s) (sv_ticks s)
    (sv_writes s)
    (sv_startedAt s).
Definition set_sv_peers (x : peerRegistry) (s : Server) : Server :=
    mkServer _ (sv_cfg s) (sv_catalog s) (sv_connLimiter s) (sv_callbackLimiter s) x
    (sv_listener s) (sv_sessions s) (sv_conns s) (sv_open s) (sv_clients s)
    (sv_dynamicFiles s) (sv_auditLog s) (sv_saved s) (sv_nextID s) (sv_stats s) (sv_sent
    s) (sv_ticks s) (sv_writes s)
    (sv_startedAt s).
Definition set_sv_sessions (x : nat -> clientSession) (s : Server) : Server :=
    mkServer _ (sv_cfg s) (sv_catalog s) (sv_connLimiter s) (sv_callbackLimiter s)
    (sv_peers s) (sv_listener s) x (sv_conns s) (sv_open s) (sv_clients s)
    (sv_dynamicFiles s) (sv_auditLog s) (sv_saved s) (sv_nextID s) (sv_stats s) (sv_sent
    s) (sv_ticks s) (sv_writes s)
    (sv_startedAt s).
Definition set_sv_conns (x : nat) (s : Server) : Server :=
    mkServer _ (sv_cfg s) (sv_catalog s) (sv_connLimiter s) (sv_callbackLimiter s)
    (sv_peers s) (sv_listener s) (sv_sessions s) x (sv_open s) (sv_clients s)
    (sv_dynamicFiles s) (sv_auditLog s) (sv_saved s) (sv_nextID s) (sv_stats s) (sv_sent
    s) (sv_ticks s) (sv_writes s)
    (sv_startedAt s).
Definition set_sv_open (x : gset nat) (s : Server) : Server :=
    mkServer _ (sv_cfg s) (sv_catalog s) (sv_connLimiter s) (sv_callbackLimiter s)
    (sv_peers s) (sv_listener s) (sv_sessions s) (sv_conns s) x (sv_clients s)
    (sv_dynamicFiles s) (sv_auditLog s) (sv_saved s) (sv_nextID s) (sv_stats s) (sv_sent
    s) (sv_ticks s) (sv_writes s)
    (sv_startedAt s).
Definition set_sv_clients (x : gmap Z nat) (s : Server) : Server :=
    mkServer _ (sv_cfg s) (sv_catalog s) (sv_connLimiter s) (sv_callbackLimiter s)
    (sv_peers s) (sv_listener s) (sv_sessions s) (sv_conns s) (sv_open s) x
    (sv_dynamicFiles s) (sv_auditLog s) (sv_saved s) (sv_nextID s) (sv_stats s) (sv_sent
    s) (sv_ticks s) (sv_writes s)
    (sv_startedAt s).
Definition set_sv_dynamicFiles (x : gmap bytes dynamicSharedFile) (s : Server) : Server :=
    mkServer _ (sv_cfg s) (sv_catalog s) (sv_connLimiter s) (sv_callbackLimiter s)
    (sv_peers s) (sv_listener s) (sv_sessions s) (sv_conns s) (sv_open s) (sv_clients s) x
    (sv_auditLog s) (sv_saved s) (sv_nextID s) (sv_stats s) (sv_sent s) (sv_ticks s)
    (sv_writes s)
    (sv_startedAt s).
Definition set_sv_auditLog (x : list AuditEntry) (s : Server) : Server :=
    mkServer _ (sv_cfg s) (sv_catalog s) (sv_connLimiter s) (sv_callbackLimiter s)
    (sv_peers s) (sv_listener s) (sv_sessions s) (sv_conns s) (sv_open s) (sv_clients s)
    (sv_dynamicFiles s) x (sv_saved s) (sv_nextID s) (sv_stats s) (sv_sent s) (sv_ticks s)
    (sv_writes s)
    (sv_startedAt s).
Definition set_sv_saved (x : option (list FileRecord)) (s : Server) : Server :=
    mkServer _ (sv_cfg s) (sv_catalog s) (sv_connLimiter s) (sv_callbackLimiter s)
    (sv_peers s) (sv_listener s) (sv_sessions s) (sv_conns s) (sv_open s) (sv_clients s)
    (sv_dynamicFiles s) (sv_auditLog s) x (sv_nextID s) (sv_stats s) (sv_sent s) (sv_ticks
    s) (sv_writes s)
    (sv_startedAt s).
Definition set_sv_nextID (x : Z) (s : Server) : Server :=
    mkServer _ (sv_cfg s) (sv_catalog s) (sv_connLimiter s) (sv_callbackLimiter s)
    (sv_peers s) (sv_listener s) (sv_sessions s) (sv_conns s) (sv_open s) (sv_clients s)
    (sv_dynamicFiles s) (sv_auditLog s) (sv_saved s) x (sv_stats s) (sv_sent s) (sv_ticks
    s) (sv_writes s)
    (sv_startedAt s).
Definition set_sv_stats (x : counter -> Z) (s : Server) : Server :=
    mkServer _ (sv_cfg s) (sv_catalog s) (sv_connLimiter s) (sv_callbackLimiter s)
    (sv_peers s) (sv_listener s) (sv_sessions s) (sv_conns s) (sv_open s) (sv_clients s)
    (sv_dynamicFiles s) (sv_auditLog s) (sv_saved s) (sv_nextID s) x (sv_sent s) (sv_ticks
    s) (sv_writes s)
    (sv_startedAt s).
Definition set_sv_sent (x : list (nat * sent)) (s : Server) : Server :=
    mkServer _ (sv_cfg s) (sv_catalog s) (sv_connLimiter s) (sv_callbackLimiter s)
    (sv_peers s) (sv_listener s) (sv_sessions s) (sv_conns s) (sv_open s) (sv_clients s)
    (sv_dynamicFiles s) (sv_auditLog s) (sv_saved s) (sv_nextID s) (sv_stats s) x
    (sv_ticks s) (sv_writes s)
    (sv_startedAt s).
Definition set_sv_ticks (x : nat) (s : Server) : Server :=
    mkServer _ (sv_cfg s) (sv_catalog s) (sv_connLimiter s) (sv_callbackLimiter s)
    (sv_peers s) (sv_listener s) (sv_sessions s) (sv_conns s) (sv_open s) (sv_clients s)
    (sv_dynamicFiles s) (sv_auditLog s) (sv_saved s) (sv_nextID s) (sv_stats s) (sv_sent
    s) x (sv_writes s)
    (sv_startedAt s).
Definition set_sv_writes (x : nat) (s : Server) : Server :=
    mkServer _ (sv_cfg s) (sv_catalog s) (sv_connLimiter s) (sv_callbackLimiter s)
    (sv_peers s) (sv_listener s) (sv_sessions s) (sv_conns s) (sv_open s) (sv_clients s)
    (sv_dynamicFiles s) (sv_auditLog s) (sv_saved s) (sv_nextID s) (sv_stats s) (sv_sent
    s) (sv_ticks s) x (sv_startedAt s).
End updates.

(** Update of one cell of a heap or of one counter. *)
Definition upd {K V} `{EqDecision K} (f : K -> V) (k : K) (v : V) : K -> V :=
  fun k' => if decide (k' = k) then v else f k'.

(** ** Handlers: state and errors *)

Inductive srvErr :=
| ErrEOF
| ErrDecode
| ErrNotLoggedIn
| ErrOffer (e : offerErr)
| ErrUpsert (e : recordErr)
| ErrSave
| ErrPack
| ErrWrite
| Panic.

Definition M `{Ed2kLib} (A : Type) := ST Server srvErr A.

Local Open Scope srv_scope.

Section server.
Context {L : Ed2kLib} {W : Ed2kWire} {U : UnicodeTables} {MI : MapIter} {D : TextDecoder}.
Context {ZL : Zlib} {PC : PacketCombiner} {WD : World}.

(** ** Sessions *)

Definition set_search (results : list SharedFileEntry) (offset : Z) (c : clientSession)
    : clientSession :=
    mkSession _ (cs_remote c) (cs_local c) (cs_clientHash c) (cs_connectOptions c)
    (cs_loginPoint c) (cs_assignedID c) (cs_clientName c) (cs_offeredFiles c) results
    offset (cs_connectedAt c) (cs_lastSeenAt c) (cs_counts c).

Definition set_offered (offered : gmap bytes FileRecord) (c : clientSession) : clientSession :=
    mkSession _ (cs_remote c) (cs_local c) (cs_clientHash c) (cs_connectOptions c)
    (cs_loginPoint c) (cs_assignedID c) (cs_clientName c) offered (cs_searchResult c)
    (cs_searchOffset c) (cs_connectedAt c) (cs_lastSeenAt c) (cs_counts c).

(** The fields a login sets. *)
Definition set_login (h : Hash) (options : Z) (point : Endpoint) (name : bytes) (id : Z)
    (c : clientSession) : clientSession :=
    mkSession _ (cs_remote c) (cs_local c) h options point id name (cs_offeredFiles c) []
    0 (cs_connectedAt c) (cs_lastSeenAt c) (cs_counts c).

(** [c.lastSeenAt = time.Now()] and an addition to some counters. *)
Definition touch (now : Z) (adds : list (session_counter * Z)) (c : clientSession)
    : clientSession :=
    mkSession _ (cs_remote c) (cs_local c) (cs_clientHash c) (cs_connectOptions c)
    (cs_loginPoint c) (cs_assignedID c) (cs_clientName c) (cs_offeredFiles c)
    (cs_searchResult c) (cs_searchOffset c) (cs_connectedAt c) now (foldl (fun f kn => upd
    f kn.1 (add64 (f kn.1) kn.2)) (cs_counts c) adds).

Definition new_session (remote local : option NetAddr) (now1 now2 : Z) : clientSession :=
  mkSession _ remote local Hash_zero 0 Endpoint_zero 0 [] ∅ [] 0 now1 now2 (fun _ => 0).

Definition session (s : Server) (sid : nat) : clientSession := sv_sessions s sid.

Definition modify_session (sid : nat) (f : clientSession -> clientSession) : M unit :=
  modify (fun s => set_sv_sessions (upd (sv_sessions s) sid (f (session s sid))) s).

(** [time.Now()]. *)
Definition now : M Z := fun s => (Ok (clock (sv_ticks s)), set_sv_ticks (S (sv_ticks s)) s).

(** [bumpCounter] with an addition to one counter. *)
Definition bump (k : counter) (n : Z) : M unit :=
  modify (fun s => set_sv_stats (upd (sv_stats s) k (add64 (sv_stats s k) n)) s).

(** ** Writing *)

(** [conn.Write]: what is written, and whether it succeeds. *)
Definition conn_write (sid : nat) (what : sent) : M unit := fun s =>
  let ok := write_ok (sv_writes s) in
  let s := set_sv_writes (S (sv_writes s)) (set_sv_sent (sv_sent s ++ [(sid, what)]) s) in
  if ok then (Ok tt, s) else (Err ErrWrite, s).

Definition noteOutbound (sid : nat) (frameBytes : Z) : M unit :=
  do! t := now in
  modify_session sid (touch t [(ses_outboundPackets, 1); (ses_outboundBytes, frameBytes)]).

Definition send (sid : nat) (packet : Packet) : M unit :=
  do! raw := of_option (Pack packet) ErrPack in
  let wire := maybePackFrame raw in
  noteOutbound sid (len wire) ;;;
  bump OutboundPackets 1 ;;;
  bump OutboundBytes (len wire) ;;;
  conn_write sid (SentPacket packet).

Definition sendRawEd2k (sid : nat) (opcode : byte) (body : bytes) : M unit :=
  let raw := PacketHeader_Put EdonkeyHeader opcode (to_int32 (len body + 1)) ++ body in
  noteOutbound sid (len raw) ;;;
  bump OutboundPackets 1 ;;;
  bump OutboundBytes (len raw) ;;;
  conn_write sid (SentRaw opcode body).

Definition source_block (source : foundSourceEntry) : bytes :=
  WriteInt32 (fs_ClientID source) ++ WriteUInt16 (to_uint16 (fs_Port source)) ++
  [byte_of_Z (fs_ObfuscationOptions source)] ++
  match fs_UserHash source with Some h => Hash_Bytes h | None => [] end.

Definition sendFoundSourcesObfuscated (sid : nat) (h : Hash) (sources : list foundSourceEntry)
    : M unit :=
  sendRawEd2k sid opFoundSourcesObfu
    (WriteHash h ++ [byte_of_Z (len sources)] ++ flat_map source_block sources).

(** ** Counting and finding *)

Definition clientCount (s : Server) : Z := Z.of_nat (size (sv_clients s)).

Definition currentFilesCount (s : Server) : Z :=
  to_int (Catalog_Count (sv_catalog s) + Z.of_nat (size (sv_dynamicFiles s))).

Definition findClient (s : Server) (clientID : Z) : option nat := sv_clients s !! clientID.

Definition status_packet (s : Server) : Packet :=
  PktStatus (to_int32 (clientCount s)) (to_int32 (currentFilesCount s)).

(** The listener's port, else the configured one, else the usual one. *)
Definition serverTCPPort (s : Server) : Z :=
  match sv_listener s with
  | Some port => if 0 <? port then to_uint16 port else
      match ResolveTCPPort (ListenAddress (sv_cfg s)) with
      | Some p => if 0 <? p then to_uint16 p else 4661
      | None => 4661
      end
  | None =>
      match ResolveTCPPort (ListenAddress (sv_cfg s)) with
      | Some p => if 0 <? p then to_uint16 p else 4661
      | None => 4661
      end
  end.

(** ** Client IDs *)

Definition clientIDFromRemote (addr : option NetAddr) : Z :=
  match addr with
  | None => 0
  | Some a => if bytes_eqb (addr_IP a) [] then 0
              else Endpoint_IP (EndpointFromInet (addr_IP a) (addr_Port a))
  end.

(** The search for a free number, which wraps around like an [int32]. The fuel
    is one more than the number of clients: some number in that range is free. *)
Fixpoint free_id (fuel : nat) (clients : gmap Z nat) (clientID : Z) : option Z :=
  match fuel with
  | O => None
  | S fuel' =>
    match clients !! clientID with
    | None => Some clientID
    | Some _ => free_id fuel' clients (to_int32 (clientID + 1))
    end
  end.

Definition allocateClientID (addr : option NetAddr) : M Z := fun s =>
  let clientID := clientIDFromRemote addr in
  if negb (clientID =? 0) && (match sv_clients s !! clientID with None => true | Some _ => false end)
  then (Ok clientID, s)
  else match free_id (S (size (sv_clients s))) (sv_clients s) (sv_nextID s) with
       | Some id => (Ok id, set_sv_nextID (to_int32 (id + 1)) s)
       | None => (Err Panic, s)
       end.

Definition registerClient (sid : nat) : M unit := modify (fun s =>
  let assignedID := cs_assignedID (session s sid) in
  if assignedID =? 0 then s
  else set_sv_clients (<[assignedID := sid]> (sv_clients s)) s).

(** ** Files shared by clients *)

Definition or_zero (dst src : Z) : Z := if dst =? 0 then src else dst.
Definition or_empty (dst src : bytes) : bytes := if bytes_eqb dst [] then src else dst.

Definition mergeDynamicFileRecord (dst src : FileRecord) : FileRecord :=
  if Hash_IsZero (fr_Hash dst) then src else
  mkFile _ (fr_Hash dst) (or_empty (fr_Name dst) (fr_Name src))
    (or_zero (fr_Size dst) (fr_Size src)) (or_empty (fr_FileType dst) (fr_FileType src))
    (or_empty (fr_Extension dst) (fr_Extension src))
    (or_empty (fr_MediaCodec dst) (fr_MediaCodec src))
    (or_zero (fr_MediaLength dst) (fr_MediaLength src))
    (or_zero (fr_MediaBitrate dst) (fr_MediaBitrate src))
    (fr_Sources dst) (fr_CompleteSources dst) (fr_Endpoints dst).

Definition set_endpoints (es : list SourceEntry) (r : FileRecord) : FileRecord :=
  mkFile _ (fr_Hash r) (fr_Name r) (fr_Size r) (fr_FileType r) (fr_Extension r)
    (fr_MediaCodec r) (fr_MediaLength r) (fr_MediaBitrate r) (fr_Sources r)
    (fr_CompleteSources r) es.

Definition addDynamicLocked (clientID : Z) (record : FileRecord)
    (dynamicFiles : gmap bytes dynamicSharedFile) : gmap bytes dynamicSharedFile :=
  let key := Hash_String (fr_Hash record) in
  let shared := match dynamicFiles !! key with
                | Some shared => shared
                | None => mkDynamic _ record ∅ ∅
                end in
  let base := set_endpoints [] record in
  <[key := mkDynamic _ (mergeDynamicFileRecord (dyn_record shared) base)
             (match fr_Endpoints record with
              | e :: _ => <[clientID := e]> (dyn_byClient shared)
              | [] => dyn_byClient shared
              end)
             (<[clientID := 0 <? fr_CompleteSources record]> (dyn_completes shared))]>
    dynamicFiles.

Definition removeDynamicLocked (clientID : Z) (h : Hash)
    (dynamicFiles : gmap bytes dynamicSharedFile) : gmap bytes dynamicSharedFile :=
  let key := Hash_String h in
  match dynamicFiles !! key with
  | None => dynamicFiles
  | Some shared =>
    let byClient := delete clientID (dyn_byClient shared) in
    if (size byClient =? 0)%nat then delete key dynamicFiles
    else <[key := mkDynamic _ (dyn_record shared) byClient
                    (delete clientID (dyn_completes shared))]> dynamicFiles
  end.

(** [materialize]: the record with the current sources, in map order. It
    refills the record's own endpoint slice; the value it returns is this one. *)
Definition materialize (d : dynamicSharedFile) : FileRecord :=
  let r := dyn_record d in
  let endpoints := map snd (range_map (dyn_byClient d)) in
  let sources := len endpoints in
  let complete := len (List.filter (fun kv => kv.2) (range_map (dyn_completes d))) in
  mkFile _ (fr_Hash r) (fr_Name r) (fr_Size r) (fr_FileType r) (fr_Extension r)
    (fr_MediaCodec r) (fr_MediaLength r) (fr_MediaBitrate r) sources
    (if complete =? 0 then sources else complete) endpoints.

Definition shouldPreferObservedRemoteSource (host remoteHost : bytes) : bool :=
  if bytes_eqb remoteHost [] || bytes_eqb host [] || bytes_eqb host remoteHost then false else
  match ParseIP remoteHost with
  | None => false
  | Some remoteIP =>
    if negb (IsPrivate remoteIP) && negb (IsLoopback remoteIP) then false else
    match ParseIP host with
    | None => false
    | Some sourceIP => negb (IP_Equal sourceIP remoteIP)
    end
  end.

Definition sourceFromSharedEntry (clientID listenPort : Z) (remoteHost : bytes)
    (entry : SharedFileEntry) : option SourceEntry :=
  let ip := entry_ClientID entry in
  let port := entry_Port entry in
  let '(ip, port) :=
    if (ip =? 0) || (port =? 0) || (to_uint32 ip =? 0xfbfbfbfb) || (to_uint32 ip =? 0xfcfcfcfc)
    then (clientID, listenPort) else (ip, port) in
  if (ip =? 0) || (port =? 0) then None else
  let host := Endpoint_String (NewEndpoint ip port) in
  let host := match split_last host x3a with Some (h, _) => h | None => host end in
  let host := if shouldPreferObservedRemoteSource host remoteHost then remoteHost else host in
  Some (mkSource host port 0 []).

(** The loop of [mergeClientOfferedFiles] over the client's own map. *)
Record merge_state := mkMerge {
  mg_offered : gmap bytes FileRecord;
  mg_previous : list FileRecord;
  mg_accepted : list FileRecord;
  mg_dropped : Z
}.

Definition merge_record (max : Z) (st : merge_state) (record : FileRecord) : merge_state :=
  let key := Hash_String (fr_Hash record) in
  match mg_offered st !! key with
  | None =>
    if (0 <? max) && (max <=? Z.of_nat (size (mg_offered st)))
    then mkMerge (mg_offered st) (mg_previous st) (mg_accepted st) (to_int (mg_dropped st + 1))
    else mkMerge (<[key := record]> (mg_offered st)) (mg_previous st)
           (mg_accepted st ++ [record]) (mg_dropped st)
  | Some old =>
    mkMerge (<[key := record]> (mg_offered st)) (mg_previous st ++ [old])
      (mg_accepted st ++ [record]) (mg_dropped st)
  end.

Definition removeClientOfferedFiles (clientID : Z) : M unit := modify (fun s =>
  match findClient s clientID with
  | None => s
  | Some sid =>
    let records := map snd (range_map (cs_offeredFiles (session s sid))) in
    let s := set_sv_sessions (upd (sv_sessions s) sid (set_offered ∅ (session s sid))) s in
    set_sv_dynamicFiles
      (foldl (fun d record => removeDynamicLocked clientID (fr_Hash record) d)
             (sv_dynamicFiles s) records) s
  end).

Definition mergeClientOfferedFiles (clientID : Z) (records : list FileRecord) : M (Z * Z) :=
  do! client := gets (fun s => findClient s clientID) in
  match client with
  | None => ret (0, 0)
  | Some sid =>
    match records with
    | [] => removeClientOfferedFiles clientID ;;; ret (0, 0)
    | _ =>
      do! offered := gets (fun s => cs_offeredFiles (session s sid)) in
      do! max := gets (fun s => MaxOfferedFilesPerClient (sv_cfg s)) in
      let st := foldl (merge_record max) (mkMerge offered [] [] 0) records in
      modify_session sid (set_offered (mg_offered st)) ;;;
      modify (fun s =>
        let d := foldl (fun d record => removeDynamicLocked clientID (fr_Hash record) d)
                       (sv_dynamicFiles s) (mg_previous st) in
        set_sv_dynamicFiles
          (foldl (fun d record => addDynamicLocked clientID record d) d (mg_accepted st)) s) ;;;
      ret (len (mg_accepted st), mg_dropped st)
    end
  end.

Definition unregisterClient (sid : nat) : M unit :=
  do! assignedID := gets (fun s => cs_assignedID (session s sid)) in
  bump TotalDisconnects 1 ;;;
  (if negb (assignedID =? 0) then removeClientOfferedFiles assignedID else ret tt) ;;;
  if assignedID =? 0 then ret tt else
  modify (fun s =>
    match sv_clients s !! assignedID with
    | Some existing => if (existing =? sid)%nat
                       then set_sv_clients (delete assignedID (sv_clients s)) s else s
    | None => s
    end).

(** ** Search *)

Definition capSearchResults (results : list SharedFileEntry) (max : Z) : list SharedFileEntry :=
  if (0 <? max) && (max <? len results) then take (Z.to_nat max) results else results.

(** The catalog's results, then those of the shared files in map order.
    [None] is a panic in the catalog. *)
Definition searchAll (s : Server) (query : SearchQuery) : option (list SharedFileEntry) :=
  match Catalog_Search (sv_catalog s) query with
  | None => None
  | Some results =>
    Some (results ++
          omap (fun '(_, shared) =>
                  let record := materialize shared in
                  if matchesRecord record query then Some (makeSharedFileEntry record) else None)
               (range_map (sv_dynamicFiles s)))
  end.

Definition loggedIn (c : clientSession) : bool := negb (cs_assignedID c =? 0).

(** [l[from:to]]; [None] is a slice out of range, which panics. *)
Definition slice {A} (l : list A) (from to : Z) : option (list A) :=
  if (0 <=? from) && (from <=? to) && (to <=? len l)
  then Some (take (Z.to_nat (to - from)) (drop (Z.to_nat from) l)) else None.

Definition empty_result : Packet := PktSearchResult [] false.

Definition handleSearchMore (sid : nat) : M unit :=
  do! c := gets (fun s => session s sid) in
  if (len (cs_searchResult c) =? 0) || (len (cs_searchResult c) <=? cs_searchOffset c) then
    bump SearchResultPackets 1 ;;;
    send sid empty_result
  else
    do! batch := gets (fun s => SearchBatchSize (sv_cfg s)) in
    let fin := to_int (cs_searchOffset c + batch) in
    let fin := if len (cs_searchResult c) <? fin then len (cs_searchResult c) else fin in
    do! results := of_option (slice (cs_searchResult c) (cs_searchOffset c) fin) Panic in
    let packet := PktSearchResult results (fin <? len (cs_searchResult c)) in
    modify_session sid (set_search (cs_searchResult c) fin) ;;;
    bump SearchResultPackets 1 ;;;
    send sid packet.

(** [handleSearch] once the results are there: they replace the previous ones,
    and the first page goes out. *)
Definition publish_results (sid : nat) (results : list SharedFileEntry) : M unit :=
  do! t := now in
  modify_session sid (touch t [(ses_searchRequests, 1)]) ;;;
  bump SearchRequests 1 ;;;
  bump SearchResultEntries (len results) ;;;
  modify_session sid (set_search results 0) ;;;
  handleSearchMore sid.

Definition handleSearch (sid : nat) (query : SearchQuery) : M unit :=
  do! c := gets (fun s => session s sid) in
  if negb (loggedIn c) then send sid empty_result else
  do! max := gets (fun s => MaxTCPSearchResults (sv_cfg s)) in
  do! found := gets (fun s => searchAll s query) in
  match found with
  | None => fail Panic
  | Some results => publish_results sid (capSearchResults results max)
  end.

(** ** Sources *)

(** The options and the user hash a client's sources are reported with. *)
Definition sourceObfuscationMetadata (c : clientSession) : Z * option Hash :=
  let options := cs_connectOptions c in
  if (options =? 0) || Hash_IsZero (cs_clientHash c) then (options, None)
  else (Z.lor options sourceObfuscationUserHashFlag, Some (cs_clientHash c)).

(** A source of the catalog. *)
Definition static_source (obfuscated : bool) (source : SourceEntry) : option foundSourceEntry :=
  match EndpointFromString (se_Host source) (se_Port source) with
  | None => None
  | Some endpoint =>
    let '(options, userHash) :=
      if obfuscated then
        match parseSourceUserHash (se_UserHash source) with
        | Some h => (Z.lor (se_ObfuscationOptions source) sourceObfuscationUserHashFlag, Some h)
        | None => (se_ObfuscationOptions source, None)
        end
      else (0, None) in
    Some (mkFound _ (Endpoint_IP endpoint) (Endpoint_Port endpoint) options userHash)
  end.

(** A source that a connected client announced. *)
Definition dynamic_source (s : Server) (obfuscated : bool) (src : Z * SourceEntry)
    : option foundSourceEntry :=
  let '(clientID, source) := src in
  match EndpointFromString (se_Host source) (se_Port source) with
  | None => None
  | Some endpoint =>
    let '(options, userHash) :=
      if obfuscated then
        match sv_clients s !! clientID with
        | Some sid => sourceObfuscationMetadata (session s sid)
        | None => (0, None)
        end
      else (0, None) in
    Some (mkFound _ (Endpoint_IP endpoint) (Endpoint_Port endpoint) options userHash)
  end.

Definition sourcesAll (s : Server) (h : Hash) (obfuscated : bool) : list foundSourceEntry :=
  match Catalog_Get (sv_catalog s) h with
  | Some record => omap (static_source obfuscated) (fr_Endpoints record)
  | None => []
  end ++
  match sv_dynamicFiles s !! Hash_String h with
  | Some shared => omap (dynamic_source s obfuscated) (range_map (dyn_byClient shared))
  | None => []
  end.

Definition handleGetSources (sid : nat) (h : Hash) (obfuscatedReply : bool) : M unit :=
  do! sources := gets (fun s =>
    orderAndCapSources (sourcesAll s h obfuscatedReply) (MaxSourcesPerReply (sv_cfg s))) in
  do! t := now in
  modify_session sid (touch t [(ses_sourceRequests, 1)]) ;;;
  bump SourceRequests 1 ;;;
  if obfuscatedReply then sendFoundSourcesObfuscated sid h sources
  else send sid (PktFoundFileSources h
         (map (fun source => NewEndpoint (fs_ClientID source) (fs_Port source)) sources)).

(** ** Callbacks *)

(** [s.callbackLimiter.allow(ip)], true without a limiter. *)
Definition allow_callback (ip : bytes) : M bool :=
  do! limiter := gets sv_callbackLimiter in
  match limiter with
  | None => ret true
  | Some l =>
    do! t := now in
    let '(l', ok) := allow l t ip in
    modify (set_sv_callbackLimiter (Some l')) ;;;
    ret ok
  end.

Definition remote_host (c : clientSession) : bytes :=
  match cs_remote c with Some a => IP_String (addr_IP a) | None => [] end.

Definition handleCallback (sid : nat) (clientID : Z) : M unit :=
  do! c := gets (fun s => session s sid) in
  do! ok := allow_callback (remote_host c) in
  if negb ok then
    bump CallbackRateLimited 1 ;;;
    send sid PktCallbackRequestFailed
  else
    do! t := now in
    modify_session sid (touch t [(ses_callbackRequests, 1)]) ;;;
    bump CallbackRequests 1 ;;;
    do! target := gets (fun s => findClient s clientID) in
    match target with
    | None => send sid PktCallbackRequestFailed
    | Some target =>
      let origin := NewEndpoint (cs_assignedID c) (Endpoint_Port (cs_loginPoint c)) in
      do! r := try_ (send target (PktCallbackRequestIncoming origin)) in
      match r with
      | Ok _ => ret tt
      | Err _ => send sid PktCallbackRequestFailed
      end
    end.

(** ** Login, server list, offers *)

Definition send_status (sid : nat) : M unit :=
  do! packet := gets status_packet in send sid packet.

(** The session and the client table after a login; the assigned ID. *)
Definition login_session (sid : nat) (h : Hash) (point : Endpoint) (properties : list Tag)
    : M Z :=
  do! remote := gets (fun s => cs_remote (session s sid)) in
  do! id := allocateClientID remote in
  modify_session sid (set_login h (extractClientConnectOptions properties) point
                        (extractClientName properties) id) ;;;
  registerClient sid ;;;
  ret id.

Definition handleLogin (sid : nat) (h : Hash) (point : Endpoint) (properties : list Tag)
    : M unit :=
  do! id := login_session sid h point properties in
  send_status sid ;;;
  do! cfg := gets sv_cfg in
  (if negb (bytes_eqb (Message cfg) []) then send sid (PktMessage (Message cfg)) else ret tt) ;;;
  do! port := gets serverTCPPort in
  send sid (PktIdChange (mkIdChange id (TCPFlags cfg) (AuxPort cfg) (reportedIPForIdChange id)
                           (obfuscationTCPPortAdvertised cfg port))).

Definition handleGetServerList (sid : nat) : M unit :=
  send_status sid ;;;
  do! cfg := gets sv_cfg in
  (if negb (bytes_eqb (ServerDescription cfg) [])
   then send sid (PktMessage (ServerDescription cfg)) else ret tt) ;;;
  do! local := gets (fun s => cs_local (session s sid)) in
  do! port := gets serverTCPPort in
  match local with
  | None => ret tt
  | Some addr =>
    match buildServerListBody (addr_IP addr) port (PeerServers cfg) with
    | Some body => sendRawEd2k sid opServerList body
    | None => ret tt
    end
  end.

(** The loop of [handleOfferFiles]: the first bad entry ends it. *)
Fixpoint offer_records (clientID listenPort : Z) (remoteHost : bytes)
    (entries : list SharedFileEntry) : result offerErr (list FileRecord) :=
  match entries with
  | [] => Ok []
  | entry :: entries' =>
    (let! record := fileRecordFromSharedEntry entry in
     let record := match sourceFromSharedEntry clientID listenPort remoteHost entry with
                   | Some source => set_endpoints [source] record
                   | None => record
                   end in
     let! records := offer_records clientID listenPort remoteHost entries' in
     Ok (record :: records))%go
  end.

Definition offer_remote_host (c : clientSession) : bytes :=
  match cs_remote c with
  | Some a => if bytes_eqb (addr_IP a) [] then [] else IP_String (addr_IP a)
  | None => []
  end.

Definition handleOfferFiles (sid : nat) (req : OfferFiles) : M unit :=
  do! c := gets (fun s => session s sid) in
  let clientID := cs_assignedID c in
  if clientID =? 0 then fail ErrNotLoggedIn else
  match offer_records clientID (Endpoint_Port (cs_loginPoint c)) (offer_remote_host c)
          (of_Entries req) with
  | Err e => fail (ErrOffer e)
  | Ok records =>
    do! (accepted, dropped) := mergeClientOfferedFiles clientID records in
    bump FilesRegistered accepted ;;;
    bump OfferFilesDropped dropped ;;;
    send_status sid
  end.

(** ** Dispatch *)

Definition dispatch (sid : nat) (packet : byte) (body : bytes) : M unit :=
  if byte_eqb packet opLoginRequest then
    do! (h, point, properties) := of_option (LoginRequest_Get body) ErrDecode in
    handleLogin sid h point properties
  else if byte_eqb packet opGetServerList then handleGetServerList sid
  else if byte_eqb packet opOfferFiles then
    do! (req, _) := of_option (OfferFiles_Get body) ErrDecode in
    handleOfferFiles sid req
  else if byte_eqb packet opSearchRequest then
    match ParseSearchRequest body with
    | Ok query => handleSearch sid query
    | Err _ => handleSearch sid (query_of_root searchMatchNoneExpr)
    end
  else if byte_eqb packet opSearchMore then handleSearchMore sid
  else if byte_eqb packet opGetSources then
    do! h := of_option (GetFileSources_Get body) ErrDecode in
    handleGetSources sid h false
  else if byte_eqb packet opGetSourcesObfu then
    do! h := of_option (GetFileSources_Get body) ErrDecode in
    handleGetSources sid h true
  else if byte_eqb packet opCallbackReq then
    do! id := of_option (CallbackRequest_Get body) ErrDecode in
    handleCallback sid id
  else if byte_eqb packet opDisconnect then fail ErrEOF
  else ret tt.

(** ** Connections *)

Definition isPlainEd2kFirstByte (b : byte) : bool :=
  byte_eqb b EdonkeyHeader || byte_eqb b PackedProt || byte_eqb b EMuleProt.

(** G, P, H, O, D, T, C. *)
Definition isHTTPMethodStart (b : byte) : bool :=
  byte_eqb b x47 || byte_eqb b x50 || byte_eqb b x48 || byte_eqb b x4f || byte_eqb b x44
  || byte_eqb b x54 || byte_eqb b x43.

Definition http_reply : bytes :=
  lit "HTTP/1.0 400 Bad Request" ++ [x0d; x0a] ++ lit "Connection: close" ++ [x0d; x0a] ++
  lit "Content-Length: 0" ++ [x0d; x0a; x0d; x0a].

(** The part of [handleConn] before the session exists: whether the connection
    is served. [first] is the first byte, if one arrives; [handshake] is the
    outcome of the obfuscation handshake, should it be tried. The connection
    has a TCP address. *)
Definition admit_conn (sid : nat) (remote : NetAddr) (first : option byte) (handshake : bool)
    : M bool :=
  do! limiter := gets sv_connLimiter in
  do! ok := match limiter with
            | None => ret true
            | Some l =>
              do! t := now in
              let '(l', ok) := allow l t (IP_String (addr_IP remote)) in
              modify (set_sv_connLimiter (Some l')) ;;;
              ret ok
            end in
  if negb ok then bump ConnRateLimited 1 ;;; ret false else
  match first with
  | None => ret false
  | Some b =>
    do! cfg := gets sv_cfg in
    if ProtocolObfuscation cfg && negb (isPlainEd2kFirstByte b) then ret handshake
    else if negb (isPlainEd2kFirstByte b) then
      (if isHTTPMethodStart b then
         bump HTTPProbes 1 ;;;
         do! _ := try_ (conn_write sid (SentBytes http_reply)) in ret tt
       else ret tt) ;;;
      ret false
    else ret true
  end.

(** The session of an admitted connection. *)
Definition open_session (sid : nat) (remote local : option NetAddr) : M unit :=
  do! t1 := now in
  do! t2 := now in
  modify (fun s =>
    set_sv_open ({[sid]} ∪ sv_open s)
      (set_sv_sessions (upd (sv_sessions s) sid (new_session remote local t1 t2)) s)) ;;;
  bump TotalConnections 1.

(** [client.noteInbound] and the server's counters. *)
Definition note_inbound (sid : nat) (frameBytes : Z) : M unit :=
  do! t := now in
  modify_session sid (touch t [(ses_inboundPackets, 1); (ses_inboundBytes, frameBytes)]) ;;;
  bump InboundPackets 1 ;;;
  bump InboundBytes frameBytes.

(** One round of the frame loop; an error ends the connection. *)
Definition serve_frame (sid : nat) (proto opcode : byte) (body : bytes) (frameBytes : Z)
    : M unit :=
  note_inbound sid frameBytes ;;;
  if negb (byte_eqb proto EdonkeyHeader) then fail ErrEOF
  else dispatch sid opcode body.

Definition close_conn (sid : nat) : M unit :=
  unregisterClient sid ;;;
  modify (fun s => set_sv_open (sv_open s ∖ {[sid]}) s).

(** ** The server as a transition system *)

Inductive event :=
| EvConnect (remote : NetAddr) (local : option NetAddr) (first : option byte) (handshake : bool)
| EvFrame (sid : nat) (proto opcode : byte) (body : bytes) (frameBytes : Z)
| EvClose (sid : nat)
| EvUpsert (record : FileRecord)
| EvDelete (h : Hash).

(** The connection's goroutine: a failing request closes the connection. *)
Definition serve_or_close (sid : nat) (proto opcode : byte) (body : bytes) (frameBytes : Z)
    : M unit :=
  do! r := try_ (serve_frame sid proto opcode body frameBytes) in
  match r with
  | Ok _ => ret tt
  | Err Panic => fail Panic
  | Err _ => close_conn sid
  end.

(** [persistCatalog]: the store receives a copy of the whole catalog. *)
Definition persistCatalog : M unit := fun s =>
  let ok := write_ok (sv_writes s) in
  let s := set_sv_writes (S (sv_writes s)) s in
  if ok then bump PersistWrites 1 (set_sv_saved (Some (Catalog_Snapshot (sv_catalog s))) s)
  else (Err ErrSave, s).

Definition UpsertFile (record : FileRecord) : M unit :=
  do! c := gets sv_catalog in
  match Catalog_Upsert c record with
  | Err e => fail (ErrUpsert e)
  | Ok c' =>
    modify (set_sv_catalog c') ;;;
    bump FilesRegistered 1 ;;;
    persistCatalog
  end.

Definition DeleteFile (h : Hash) : M bool :=
  do! c := gets sv_catalog in
  let '(c', deleted) := Catalog_Delete c h in
  if negb deleted then ret false else
  modify (set_sv_catalog c') ;;;
  bump FilesRemoved 1 ;;;
  persistCatalog ;;;
  ret true.

Definition run_event (ev : event) : M unit :=
  match ev with
  | EvConnect remote local first handshake =>
    do! sid := gets sv_conns in
    modify (set_sv_conns (S sid)) ;;;
    do! ok := admit_conn sid remote first handshake in
    if ok then open_session sid (Some remote) local else ret tt
  | EvFrame sid proto opcode body frameBytes =>
    do! served := gets (fun s => bool_decide (sid ∈ sv_open s)) in
    if served then serve_or_close sid proto opcode body frameBytes else ret tt
  | EvClose sid =>
    do! served := gets (fun s => bool_decide (sid ∈ sv_open s)) in
    if served then close_conn sid else ret tt
  | EvUpsert record => do! _ := try_ (UpsertFile record) in ret tt
  | EvDelete h => do! _ := try_ (DeleteFile h) in ret tt
  end.

(** [NewServer] on a normalised configuration. *)
Definition NewServer (cfg : Config) (catalog : Catalog) : result configErr Server :=
  (let! normalized := Normalize cfg in
   let limiter n := if 0 <? n then Some (newUDPLimiter n) else None in
   Ok (mkServer _ normalized catalog
         (limiter (MaxConnsPerIPPerSecond normalized))
         (limiter (MaxCallbacksPerIPPerSecond normalized))
         (newPeerRegistry (PeerServers normalized)) None
         (fun _ => new_session None None 0 0) 0 ∅ ∅ ∅ [] None 16777217 (fun _ => 0) [] 1 0
         (clock 0)))%go.

(** The server reached by a sequence of events; a panic ends the process. *)
Fixpoint run_events (evs : list event) (s : Server) : result srvErr unit * Server :=
  match evs with
  | [] => (Ok tt, s)
  | ev :: evs' =>
    match run_event ev s with
    | (Ok _, s') => run_events evs' s'
    | r => r
    end
  end.
End server.
