(* ===== verification/Snapshots.v ===== *)
(** * Views of the server for its administrator (ed2ksrv/server.go)

    Copies of the statistics, the client table and the shared files. The records
    are values, so a copy is the value itself. *)

From S2P Require Import Prelude StateErr GoStrings GoSort GoNet Ed2kLib Ed2kWire FileRecord.
From S2P Require Import Catalog Config PeerServers Text Frames Server.

Local Open Scope Z_scope.
Local Open Scope srv_scope.

(** [ServerStats]: the counters keep their names, so they are one function; the
    other fields are computed for the snapshot. *)
Record ServerStats := mkStats {
  st_StartedAt : Z;
  st_CurrentClients : Z;
  st_CurrentFiles : Z;
  st_Counters : counter -> Z;
  st_Peers : Z
}.

Record ClientSnapshot `{Ed2kLib} := mkClientSnapshot {
  sn_ClientID : Z;
  sn_ClientName : bytes;
  sn_ClientHash : Hash;
  sn_RemoteAddress : bytes;
  sn_ListenEndpoint : bytes;
  sn_ConnectedAt : Z;
  sn_LastSeenAt : Z;
  sn_SearchRequests : Z;
  sn_SourceRequests : Z;
  sn_CallbackRequests : Z;
  sn_InboundPackets : Z;
  sn_OutboundPackets : Z;
  sn_InboundBytes : Z;
  sn_OutboundBytes : Z
}.

Section snapshots.
Context {L : Ed2kLib} {W : Ed2kWire} {MI : MapIter} {SS : SliceSort}.

Definition StatsSnapshot (s : Server) : ServerStats :=
  mkStats (sv_startedAt s) (clientCount s)
    (to_int (Catalog_Count (sv_catalog s) + Z.of_nat (size (sv_dynamicFiles s))))
    (sv_stats s) (registry_len (sv_peers s)).

Definition snapshot (c : clientSession) : ClientSnapshot :=
  let remoteAddress := match cs_remote c with Some a => NetAddr_String a | None => [] end in
  let listenEndpoint :=
    if Endpoint_Defined (cs_loginPoint c) then Endpoint_String (cs_loginPoint c) else [] in
  mkClientSnapshot _ (cs_assignedID c) (cs_clientName c) (cs_clientHash c) remoteAddress
    listenEndpoint (cs_connectedAt c) (cs_lastSeenAt c)
    (cs_counts c ses_searchRequests) (cs_counts c ses_sourceRequests)
    (cs_counts c ses_callbackRequests) (cs_counts c ses_inboundPackets)
    (cs_counts c ses_outboundPackets) (cs_counts c ses_inboundBytes)
    (cs_counts c ses_outboundBytes).

(** The client table in some order, then by ID. *)
Definition ClientsSnapshot (s : Server) : list ClientSnapshot :=
  let clients := map snd (range_map (sv_clients s)) in
  Slice (fun a b => sn_ClientID a <? sn_ClientID b) (map (fun sid => snapshot (session s sid)) clients).

(** The static files, then the files that clients share. *)
Definition FilesSnapshot (s : Server) : list FileRecord :=
  Catalog_Snapshot (sv_catalog s) ++
  map (fun e => materialize e.2) (range_map (sv_dynamicFiles s)).

Definition FileSnapshot (s : Server) (hash : Hash) : option FileRecord :=
  match Catalog_Get (sv_catalog s) hash with
  | Some record => Some record
  | None => materialize <$> sv_dynamicFiles s !! Hash_String hash
  end.

Definition ClientSnapshotByID (s : Server) (clientID : Z) : option ClientSnapshot :=
  match sv_clients s !! clientID with
  | None => None
  | Some sid => Some (snapshot (session s sid))
  end.
End snapshots.
