(* ===== verification/ServerFacts.v ===== *)
(** * Properties of the server's core

    Frame rules for the handlers, the invariants of the client table and of the
    shared files over all event sequences, search paging, and the functional
    behaviour of offers, disconnects and administration. *)

From S2P Require Import StateErr.
From S2P Require Import Prelude GoStrings GoSort GoNet Ed2kLib Ed2kRef Ed2kWire FileRecord.
From S2P Require Import Search SearchFacts Catalog CatalogFacts Config IdChange OfferFiles.
From S2P Require Import Sources PeerServers Limiter Text Frames AuditLog Server.

Local Open Scope Z_scope.
Local Open Scope srv_scope.

(** ** The core of the state

    What the invariants are about: everything but counters, clocks, output,
    limiters and search pages. *)
Record same_core `{Ed2kLib} (s s' : Server) : Prop := {
  sc_cfg : sv_cfg s' = sv_cfg s;
  sc_catalog : sv_catalog s' = sv_catalog s;
  sc_conns : sv_conns s' = sv_conns s;
  sc_open : sv_open s' = sv_open s;
  sc_clients : sv_clients s' = sv_clients s;
  sc_dynamic : sv_dynamicFiles s' = sv_dynamicFiles s;
  sc_nextID : sv_nextID s' = sv_nextID s;
  sc_assigned sid : cs_assignedID (session s' sid) = cs_assignedID (session s sid);
  sc_offered sid : cs_offeredFiles (session s' sid) = cs_offeredFiles (session s sid);
  sc_remote sid : cs_remote (session s' sid) = cs_remote (session s sid)
}.

(** A page position: at the start, or behind at least one full batch. *)
Definition page_ok `{Ed2kLib} (batch : Z) (c : clientSession) : Prop :=
  0 <= cs_searchOffset c <= len (cs_searchResult c) /\
  (cs_searchOffset c = 0 \/ cs_searchOffset c = len (cs_searchResult c) \/ batch <= cs_searchOffset c) /\
  len (cs_searchResult c) < 2 ^ 62.

Definition pages_ok `{Ed2kLib} (s : Server) : Prop :=
  forall sid, page_ok (SearchBatchSize (sv_cfg s)) (session s sid).

Section frame.
Context {L : Ed2kLib} {W : Ed2kWire} {U : UnicodeTables} {MI : MapIter} {D : TextDecoder}.
Context {ZL : Zlib} {PC : PacketCombiner} {WD : World}.

#[global] Instance same_core_preorder : PreOrder same_core.
Proof.
  split; [by constructor|].
  intros s1 s2 s3 [] []. constructor; intros; etransitivity; eauto.
Qed.

(** From a state in [P] with well-formed pages, [m] leaves the core alone, keeps
    the pages well-formed and does not panic. *)
Definition quiet {A} (P : Server -> Prop) (m : M A) : Prop := forall s,
  P s -> pages_ok s ->
  same_core s (m s).2 /\ pages_ok (m s).2 /\ (m s).1 <> Err Panic.

Lemma quiet_weaken {A} (P Q : Server -> Prop) (m : M A) :
  (forall s, Q s -> P s) -> quiet P m -> quiet Q m.
Proof. intros HQ H s Hs. by apply H, HQ. Qed.

Lemma quiet_ret {A} P (a : A) : quiet P (ret a).
Proof. by intros s _ Hp. Qed.

Lemma quiet_fail {A} P e : e <> Panic -> quiet P (fail e : M A).
Proof. intros He s _ Hp. split; [done|]. split; [done|]. simpl. congruence. Qed.

Lemma quiet_gets {A} P (f : Server -> A) : quiet P (gets f).
Proof. by intros s _ Hp. Qed.

(** Conditions that depend only on the core survive quiet steps. *)
Definition core_pred (P : Server -> Prop) : Prop := forall s s', same_core s s' -> P s -> P s'.

Lemma quiet_bind {A B} P (m : M A) (k : A -> M B) :
  core_pred P -> quiet P m -> (forall a, quiet P (k a)) -> quiet P (bind m k).
Proof.
  intros HP Hm Hk s Hs Hp. unfold bind. destruct (Hm s Hs Hp) as (Hc & Hpg & Hn).
  destruct (m s) as [[a|e] s1]; cbn [fst snd] in *;
    [|split; [done|split; [done|congruence]]].
  destruct (Hk a s1 (HP _ _ Hc Hs) Hpg) as (Hc' & Hpg' & Hn').
  split; [by etransitivity|done].
Qed.

(** The value read from the state may be used. *)
Lemma quiet_bind_gets {A B} P (f : Server -> A) (k : A -> M B) :
  (forall a, quiet (fun s => P s /\ pages_ok s /\ a = f s) (k a)) -> quiet P (bind (gets f) k).
Proof. intros Hk s Hs Hp. unfold bind, gets. by apply Hk. Qed.

Lemma quiet_of_option {A} P (o : option A) e : e <> Panic -> quiet P (of_option o e).
Proof. intros. destruct o; [apply quiet_ret|by apply quiet_fail]. Qed.

Lemma quiet_try {A} P (m : M A) : quiet P m -> quiet P (try_ m).
Proof.
  intros Hm s Hs Hp. destruct (Hm s Hs Hp) as (Hc & Hpg & Hn). unfold try_.
  by destruct (m s) as [r s1].
Qed.

Lemma quiet_if {A} P (b : bool) (m1 m2 : M A) :
  quiet P m1 -> quiet P m2 -> quiet P (if b then m1 else m2).
Proof. by destruct b. Qed.

(** A plain change of fields outside the core. *)
Lemma quiet_modify P f :
  (forall s, same_core s (f s)) -> (forall s sid, session (f s) sid = session s sid) ->
  quiet P (modify f).
Proof.
  intros Hc Hs s _ Hp. unfold modify. cbn [fst snd]. split; [done|]. split; [|done].
  intros sid. rewrite Hs, (sc_cfg _ _ (Hc s)). apply Hp.
Qed.

Lemma quiet_now P : quiet P now.
Proof. intros s _ Hp. unfold now. cbn [fst snd]. split; [by constructor|by split]. Qed.

Lemma quiet_bump P k n : quiet P (bump k n).
Proof. apply quiet_modify; [|done]. intros s. by constructor. Qed.

Lemma quiet_conn_write P sid what : quiet P (conn_write sid what).
Proof.
  intros s _ Hp. unfold conn_write.
  destruct (write_ok (sv_writes s)); (split; [by constructor|by split]).
Qed.

(** A change of one session that keeps its core fields and its page. *)
Lemma quiet_modify_session P sid f :
  (forall c, cs_assignedID (f c) = cs_assignedID c /\ cs_offeredFiles (f c) = cs_offeredFiles c /\
             cs_remote (f c) = cs_remote c) ->
  (forall s, P s -> page_ok (SearchBatchSize (sv_cfg s)) (session s sid) ->
             page_ok (SearchBatchSize (sv_cfg s)) (f (session s sid))) ->
  quiet P (modify_session sid f).
Proof.
  intros Hc Hp s Hs Hpg. unfold modify_session, modify. cbn [fst snd].
  split; [|split; [intros sid'|done]].
  - constructor; try done; intros sid'; unfold session, upd; cbn [sv_sessions set_sv_sessions];
      destruct (decide (sid' = sid)) as [->|]; try done; apply Hc.
  - unfold session, upd. cbn [sv_sessions set_sv_sessions sv_cfg].
    destruct (decide (sid' = sid)) as [->|]; [by apply Hp|apply Hpg].
Qed.

Lemma quiet_touch P sid t adds : quiet P (modify_session sid (touch t adds)).
Proof. apply quiet_modify_session; [done|]. intros s _ Hp. exact Hp. Qed.

Lemma core_pred_True : core_pred (fun _ => True).
Proof. by intros s s' _ _. Qed.
End frame.

Create HintDb quiet.
#[export] Hint Resolve quiet_ret quiet_gets quiet_now quiet_bump quiet_conn_write quiet_touch
  core_pred_True : quiet.
#[export] Hint Extern 1 (quiet _ (fail _)) => apply quiet_fail; discriminate : quiet.
#[export] Hint Extern 1 (quiet _ (of_option _ _)) => apply quiet_of_option; discriminate : quiet.

(** Walk through a handler. *)
Ltac quiet_step :=
  first
    [ solve [auto with quiet]
    | apply quiet_bind; [solve [auto with quiet]| |intros ?]
    | apply quiet_if
    | apply quiet_try
    | match goal with
      | |- quiet _ (match ?x with _ => _ end) => destruct x
      | |- quiet _ (let '(_, _) := ?x in _) => destruct x
      end ].
Ltac quiet_auto := cbv zeta; repeat (quiet_step; cbv zeta beta).

(** ** Quiet handlers *)

(** What the search handlers need: an index that describes the catalog, a
    batch size in range, and fewer files than an [int] can count. *)
Record search_ready `{Ed2kLib} `{UnicodeTables} (s : Server) : Prop := {
  rd_index : index_ok (sv_catalog s);
  rd_batch : 1 <= SearchBatchSize (sv_cfg s) < 2 ^ 63;
  rd_files : len (cat_files (sv_catalog s)) + Z.of_nat (size (sv_dynamicFiles s)) < 2 ^ 62
}.

Section quiet_handlers.
Context {L : Ed2kLib} {W : Ed2kWire} {U : UnicodeTables} {MI : MapIter} {ML : MapIterLaws}.
Context {D : TextDecoder} {ZL : Zlib} {PC : PacketCombiner} {WD : World}.

Lemma core_pred_ready : core_pred search_ready.
Proof.
  intros s s' [] [Hi Hb Hf]. constructor; unfold index_ok in *; congruence.
Qed.
Hint Resolve core_pred_ready : quiet.

Lemma quiet_send P sid packet : core_pred P -> quiet P (send sid packet).
Proof. intros HP. unfold send, noteOutbound. quiet_auto. Qed.

Lemma quiet_sendRaw P sid opcode body : core_pred P -> quiet P (sendRawEd2k sid opcode body).
Proof. intros HP. unfold sendRawEd2k, noteOutbound. quiet_auto. Qed.
Hint Resolve quiet_send quiet_sendRaw : quiet.

Lemma quiet_send_status P sid : core_pred P -> quiet P (send_status sid).
Proof. intros HP. unfold send_status. quiet_auto. Qed.
Hint Resolve quiet_send_status : quiet.

Lemma quiet_handleGetServerList P sid : core_pred P -> quiet P (handleGetServerList sid).
Proof. intros HP. unfold handleGetServerList. quiet_auto. Qed.

Lemma quiet_handleGetSources P sid h obf : core_pred P -> quiet P (handleGetSources sid h obf).
Proof. intros HP. unfold handleGetSources, sendFoundSourcesObfuscated. quiet_auto. Qed.

Lemma quiet_set_callbackLimiter P l : quiet P (modify (set_sv_callbackLimiter l)).
Proof. apply quiet_modify; [|done]. intros s. by constructor. Qed.
Hint Resolve quiet_set_callbackLimiter : quiet.

Lemma quiet_handleCallback P sid id : core_pred P -> quiet P (handleCallback sid id).
Proof. intros HP. unfold handleCallback, allow_callback. quiet_auto. Qed.

(** The bounds of the next page. *)
Lemma next_page batch c :
  1 <= batch < 2 ^ 63 -> page_ok batch c -> cs_searchOffset c < len (cs_searchResult c) ->
  let fin := to_int (cs_searchOffset c + batch) in
  let fin := if len (cs_searchResult c) <? fin then len (cs_searchResult c) else fin in
  fin = Z.min (cs_searchOffset c + batch) (len (cs_searchResult c)).
Proof.
  intros Hb (Ho & Hcase & Hl) Hlt. cbv zeta.
  assert (cs_searchOffset c + batch < 2 ^ 63).
  { destruct Hcase as [E|[E|E]]; rewrite ?E; lia. }
  rewrite to_int_id by (unfold in_s; lia).
  destruct (Z.ltb_spec (len (cs_searchResult c)) (cs_searchOffset c + batch)); lia.
Qed.

Lemma slice_ok {A} (l : list A) from to :
  0 <= from <= to -> to <= len l ->
  slice l from to = Some (take (Z.to_nat (to - from)) (drop (Z.to_nat from) l)).
Proof.
  intros [H1 H2] H3. unfold slice.
  by rewrite (proj2 (Z.leb_le _ _) H1), (proj2 (Z.leb_le _ _) H2), (proj2 (Z.leb_le _ _) H3).
Qed.

(** The state after a page was taken out. *)
Lemma handleSearchMore_eq s sid :
  1 <= SearchBatchSize (sv_cfg s) < 2 ^ 63 -> pages_ok s ->
  let c := session s sid in
  let fin := Z.min (cs_searchOffset c + SearchBatchSize (sv_cfg s)) (len (cs_searchResult c)) in
  handleSearchMore sid s =
    if len (cs_searchResult c) <=? cs_searchOffset c
    then (bump SearchResultPackets 1 ;;; send sid empty_result) s
    else (modify_session sid (set_search (cs_searchResult c) fin) ;;;
          bump SearchResultPackets 1 ;;;
          send sid (PktSearchResult
            (take (Z.to_nat (fin - cs_searchOffset c))
                  (drop (Z.to_nat (cs_searchOffset c)) (cs_searchResult c)))
            (fin <? len (cs_searchResult c)))) s.
Proof.
  intros Hb Hp. cbv zeta. unfold handleSearchMore. unfold bind at 1. unfold gets at 1.
  destruct (Z.leb_spec (len (cs_searchResult (session s sid))) (cs_searchOffset (session s sid)))
    as [Hle|Hlt]; [by rewrite orb_true_r|].
  pose proof (Hp sid) as Hpage. destruct Hpage as (Ho & _).
  destruct (Z.eqb_spec (len (cs_searchResult (session s sid))) 0); [lia|]. cbn [orb].
  unfold bind at 1. unfold gets at 1. cbv zeta.
  pose proof (next_page _ _ Hb (Hp sid) Hlt) as Hfin. cbv zeta in Hfin. rewrite !Hfin.
  rewrite slice_ok by lia. done.
Qed.

(** Reading a value from the core and using it later. *)
Lemma core_pred_and P Q : core_pred P -> core_pred Q -> core_pred (fun s => P s /\ Q s).
Proof. intros HP HQ s s' Hc [? ?]. split; [by eapply HP|by eapply HQ]. Qed.

Lemma core_pred_cfg cfg : core_pred (fun s => sv_cfg s = cfg).
Proof. intros s s' [] ?. congruence. Qed.
Hint Resolve core_pred_and core_pred_cfg : quiet.

Lemma quiet_handleSearchMore P sid :
  core_pred P -> (forall s, P s -> 1 <= SearchBatchSize (sv_cfg s) < 2 ^ 63) ->
  quiet P (handleSearchMore sid).
Proof.
  intros HP Hb s Hs Hp. rewrite handleSearchMore_eq by auto.
  destruct (_ <=? _).
  { apply (quiet_bind P); [done|auto with quiet..|done|done]. }
  apply (quiet_bind (fun s' => sv_cfg s' = sv_cfg s)); [auto with quiet| |..|done|done].
  - apply quiet_modify_session; [done|]. intros s' -> _.
    specialize (Hb s Hs). destruct (Hp sid) as (Ho & Hc & Hl).
    repeat split; cbn [set_search cs_searchOffset cs_searchResult]; lia.
  - intros _. apply quiet_bind; auto with quiet.
Qed.

(** A search finds at most one entry per file. *)
Lemma searchAll_length s query :
  search_ready s ->
  exists results, searchAll s query = Some results /\ len results < 2 ^ 62.
Proof.
  intros [Hi _ Hf]. unfold searchAll. rewrite Catalog_Search_eq by done.
  eexists. split; [done|]. rewrite len_app.
  assert (forall P : FileRecord -> bool, len (map makeSharedFileEntry (List.filter P (cat_files (sv_catalog s))))
          <= len (cat_files (sv_catalog s))) as Hfil.
  { intros P. unfold len. rewrite length_map. generalize (cat_files (sv_catalog s)) as l.
    intros l. pose proof (List.filter_length_le P l). lia. }
  assert (forall {A B} (f : A -> option B) l, len (omap f l) <= len l) as Homap.
  { intros A B f l. unfold len. induction l as [|x l IH]; [done|]. cbn.
    destruct (f x); simpl; lia. }
  assert (len (range_map (sv_dynamicFiles s)) = Z.of_nat (size (sv_dynamicFiles s))) as Hr.
  { unfold len. rewrite (Permutation_length (range_map_perm _)). by rewrite length_map_to_list. }
  eapply Z.le_lt_trans; [|exact Hf]. apply Z.add_le_mono.
  - destruct (index_key _ _); apply Hfil.
  - rewrite <- Hr. apply Homap.
Qed.

Lemma capSearchResults_length l max : len (capSearchResults l max) <= len l.
Proof.
  unfold capSearchResults. destruct (_ && _); [|lia]. unfold len. rewrite length_take. lia.
Qed.

Lemma quiet_publish sid results :
  len results < 2 ^ 62 -> quiet search_ready (publish_results sid results).
Proof.
  intros Hlen. unfold publish_results. do 5 (apply quiet_bind; [auto with quiet..|intros ?]).
  - apply quiet_modify_session; [done|]. intros s' _ _. pose proof (len_nonneg results).
    repeat split; cbn [set_search cs_searchOffset cs_searchResult]; auto; lia.
  - apply quiet_handleSearchMore; [auto with quiet|]. by intros s' [].
Qed.

Lemma quiet_handleSearch sid query : quiet search_ready (handleSearch sid query).
Proof.
  unfold handleSearch. apply quiet_bind; [auto with quiet..|]. intros c.
  destruct (negb (loggedIn c)); [auto with quiet|].
  apply quiet_bind; [auto with quiet..|]. intros max.
  apply quiet_bind_gets. intros found s (Hs & Hp & ->) _.
  destruct (searchAll_length s query Hs) as (results & -> & Hlen).
  apply (quiet_publish sid); [|done|done].
  eapply Z.le_lt_trans; [apply capSearchResults_length|done].
Qed.
End quiet_handlers.

(** ** Client IDs *)

Lemma to_int32_succ id k :
  to_int32 (to_int32 (id + 1) + k) = to_int32 (id + (1 + k)).
Proof.
  unfold to_int32, wrap_s.
  replace ((id + 1 + 2 ^ (32 - 1)) mod 2 ^ 32 - 2 ^ (32 - 1) + k + 2 ^ (32 - 1))
    with ((id + 1 + 2 ^ (32 - 1)) mod 2 ^ 32 + k) by lia.
  rewrite Zplus_mod_idemp_l. do 2 f_equal. lia.
Qed.

Lemma free_id_none fuel clients id :
  in_s 32 id -> free_id fuel clients id = None ->
  forall k, (k < fuel)%nat -> is_Some (clients !! to_int32 (id + Z.of_nat k)).
Proof.
  revert id; induction fuel as [|fuel IH]; intros id Hid Hf k Hk; [lia|].
  cbn [free_id] in Hf. destruct (clients !! id) eqn:E; [|done].
  destruct k as [|k].
  - rewrite Z.add_0_r, to_int32_id by done. rewrite E. by eexists.
  - specialize (IH _ (wrap_s_range 32 (id + 1) ltac:(lia)) Hf k ltac:(lia)).
    rewrite to_int32_succ in IH. by replace (Z.of_nat (S k)) with (1 + Z.of_nat k) by lia.
Qed.

Lemma to_int32_inj a b : to_int32 a = to_int32 b -> Z.abs (a - b) < 2 ^ 32 -> a = b.
Proof.
  unfold to_int32, wrap_s. intros H Hd.
  assert ((a + 2 ^ (32 - 1)) mod 2 ^ 32 = (b + 2 ^ (32 - 1)) mod 2 ^ 32) as Hm by lia.
  pose proof (Z.div_mod (a + 2 ^ (32 - 1)) (2 ^ 32) ltac:(lia)).
  pose proof (Z.div_mod (b + 2 ^ (32 - 1)) (2 ^ 32) ltac:(lia)). nia.
Qed.

(** The search ends within the fuel, on a number nobody has. *)
Lemma free_id_spec (clients : gmap Z nat) id :
  in_s 32 id -> Z.of_nat (size clients) < 2 ^ 32 ->
  exists id', free_id (S (size clients)) clients id = Some id' /\
    clients !! id' = None /\ in_s 32 id'.
Proof.
  intros Hid Hsize. destruct (free_id (S (size clients)) clients id) as [id'|] eqn:E.
  - exists id'. split; [done|]. clear Hsize. revert id Hid E. generalize (S (size clients)) as fuel.
    induction fuel as [|fuel IH]; intros id Hid E; [done|]. cbn [free_id] in E.
    destruct (clients !! id) eqn:El.
    + apply (IH _ (wrap_s_range 32 (id + 1) ltac:(lia)) E).
    + injection E as <-. done.
  - exfalso. pose proof (free_id_none _ _ _ Hid E) as Hall.
    set (ids := map (fun k => to_int32 (id + Z.of_nat k)) (seq 0 (S (size clients)))).
    assert (NoDup ids) as Hnd.
    { apply NoDup_fmap_2_strong; [|apply NoDup_seq].
      intros x y Hx%elem_of_seq Hy%elem_of_seq Hxy%to_int32_inj; lia. }
    assert ((list_to_set ids : gset Z) ⊆ dom clients) as Hsub.
    { intros x. rewrite elem_of_list_to_set, list_elem_of_In. unfold ids.
      intros (k & <- & Hk%in_seq)%in_map_iff. apply elem_of_dom, Hall. lia. }
    apply subseteq_size in Hsub. rewrite size_list_to_set, size_dom in Hsub by done.
    unfold ids in Hsub. rewrite length_map, length_seq in Hsub. lia.
Qed.

(** ** Shared files *)

Section dynamic.
Context {L : Ed2kLib} {MI : MapIter} {ML : MapIterLaws}.

(** Client [cid] is recorded for the shared file [key]. *)
Definition shares (d : gmap bytes dynamicSharedFile) (cid : Z) (key : bytes) : Prop :=
  exists f, d !! key = Some f /\
    (is_Some (dyn_byClient f !! cid) \/ is_Some (dyn_completes f !! cid)).

(** The source that client [cid] contributes to the file [key]. *)
Definition source_of (d : gmap bytes dynamicSharedFile) (key : bytes) (cid : Z)
    : option SourceEntry :=
  match d !! key with Some f => dyn_byClient f !! cid | None => None end.

Lemma shares_remove cid h d c k :
  shares (removeDynamicLocked cid h d) c k ->
  shares d c k /\ ~ (c = cid /\ k = Hash_String h).
Proof.
  unfold removeDynamicLocked. intros (f & Hf & Hc).
  destruct (d !! Hash_String h) as [g|] eqn:Hg.
  2: { split; [by exists f|]. intros [_ ->]. by rewrite Hg in Hf. }
  destruct (_ =? 0)%nat.
  - apply lookup_delete_Some in Hf as [Hne Hf]. split; [by exists f|]. by intros [_ ->].
  - apply lookup_insert_Some in Hf as [[<- <-]|[Hne Hf]].
    + cbn [dyn_byClient dyn_completes] in Hc. rewrite !lookup_delete_is_Some in Hc.
      split; [exists g; split; [done|tauto]|]. intros [-> _]. tauto.
    + split; [by exists f|]. by intros [_ ->].
Qed.

Lemma shares_add cid r d c k :
  shares (addDynamicLocked cid r d) c k -> shares d c k \/ (c = cid /\ k = key_of r).
Proof.
  unfold addDynamicLocked. fold (key_of r). intros (f & Hf & Hc).
  apply lookup_insert_Some in Hf as [[<- <-]|[Hne Hf]]; [|left; by exists f].
  destruct (decide (c = cid)) as [->|Hne]; [by right|left].
  cbn [dyn_byClient dyn_completes] in Hc. rewrite lookup_insert_ne in Hc by done.
  destruct (d !! key_of r) as [g|] eqn:Hg.
  - exists g. split; [done|]. destruct (fr_Endpoints r); [done|].
    by rewrite lookup_insert_ne in Hc by done.
  - cbn [dyn_byClient dyn_completes] in Hc. exfalso. rewrite lookup_empty in Hc.
    destruct Hc as [[x Hc]|[x Hc]]; [|done]. destruct (fr_Endpoints r).
    + by rewrite lookup_empty in Hc.
    + by rewrite lookup_insert_ne, lookup_empty in Hc.
Qed.

Lemma source_of_remove cid h d k c :
  source_of (removeDynamicLocked cid h d) k c =
  if decide (k = Hash_String h /\ c = cid) then None else source_of d k c.
Proof.
  unfold removeDynamicLocked, source_of.
  destruct (d !! Hash_String h) as [g|] eqn:Hg.
  2: { case_decide as Hd; [|done]. destruct Hd as [-> _]. by rewrite Hg. }
  destruct (Nat.eqb_spec (size (delete cid (dyn_byClient g))) 0) as [Hz|Hz].
  - apply map_size_empty_inv in Hz. rewrite lookup_delete. case_decide as Hk.
    + rewrite <- Hk, Hg. case_decide as Hd; [done|].
      assert (c <> cid) as Hc by (intros Hc; apply Hd; split; congruence).
      rewrite <- (lookup_delete_ne _ cid c) by done. by rewrite Hz, lookup_empty.
    + case_decide as Hd; [|done]. by destruct Hd as [-> _].
  - rewrite lookup_insert. case_decide as Hk.
    + rewrite <- Hk, Hg. cbn [dyn_byClient]. destruct (decide (c = cid)) as [->|Hc].
      * rewrite lookup_delete_eq. by rewrite decide_True by done.
      * rewrite lookup_delete_ne by done. rewrite decide_False; [done|tauto].
    + case_decide as Hd; [|done]. by destruct Hd as [-> _].
Qed.

Lemma source_of_add cid r d k c :
  source_of (addDynamicLocked cid r d) k c =
  if decide (k = key_of r /\ c = cid)
  then match fr_Endpoints r with e :: _ => Some e | [] => source_of d k c end
  else source_of d k c.
Proof.
  unfold addDynamicLocked, source_of. fold (key_of r). rewrite lookup_insert.
  case_decide as Hk.
  - rewrite <- Hk. cbn [dyn_byClient].
    assert (forall x, (match d !! key_of r with Some f => dyn_byClient f !! x | None => None end)
      = dyn_byClient (match d !! key_of r with Some shared => shared
                      | None => mkDynamic _ r ∅ ∅ end) !! x) as Hs.
    { intros x. by destruct (d !! key_of r). }
    rewrite Hs. destruct (fr_Endpoints r) as [|e es]; [by case_decide|].
    destruct (decide (c = cid)) as [->|Hc].
    + rewrite lookup_insert_eq. by rewrite decide_True by done.
    + rewrite lookup_insert_ne by done. rewrite decide_False; [done|tauto].
  - case_decide as Hd; [|done]. by destruct Hd as [-> _].
Qed.

(** Removing, then adding, lists of records. *)
Definition remove_all (cid : Z) (records : list FileRecord) (d : gmap bytes dynamicSharedFile) :=
  foldl (fun d record => removeDynamicLocked cid (fr_Hash record) d) d records.
Definition add_all (cid : Z) (records : list FileRecord) (d : gmap bytes dynamicSharedFile) :=
  foldl (fun d record => addDynamicLocked cid record d) d records.

Lemma shares_remove_all cid records d c k :
  shares (remove_all cid records d) c k ->
  shares d c k /\ ~ (c = cid /\ k ∈ map key_of records).
Proof.
  unfold remove_all. revert d; induction records as [|r rs IH]; intros d; cbn [foldl map].
  - intros H. split; [done|]. rewrite elem_of_nil. tauto.
  - intros [H Hn]%IH. apply shares_remove in H as [H Hn']. split; [done|].
    rewrite elem_of_cons. fold (key_of r) in Hn'. tauto.
Qed.

Lemma shares_add_all cid records d c k :
  shares (add_all cid records d) c k -> shares d c k \/ (c = cid /\ k ∈ map key_of records).
Proof.
  unfold add_all. revert d; induction records as [|r rs IH]; intros d; cbn [foldl map]; [auto|].
  rewrite elem_of_cons. intros [[H|H]%shares_add|H]%IH; tauto.
Qed.

Lemma source_of_remove_all cid records d k c :
  source_of (remove_all cid records d) k c =
  if decide (k ∈ map key_of records /\ c = cid) then None else source_of d k c.
Proof.
  unfold remove_all. revert d; induction records as [|r rs IH]; intros d; cbn [foldl map].
  - case_decide as Hd; [|done]. by destruct Hd as [?%elem_of_nil _].
  - rewrite IH, source_of_remove. fold (key_of r).
    repeat case_decide; try done; exfalso; rewrite elem_of_cons in *; tauto.
Qed.

Lemma source_of_add_other cid records d k c :
  c <> cid -> source_of (add_all cid records d) k c = source_of d k c.
Proof.
  intros Hc. unfold add_all. revert d; induction records as [|r rs IH]; intros d; [done|].
  cbn [foldl]. rewrite IH, source_of_add. case_decide; [tauto|done].
Qed.

(** ** Merging an offer *)

Definition well_keyed (offered : gmap bytes FileRecord) : Prop :=
  forall k r, offered !! k = Some r -> key_of r = k.

Definition within_cap (max : Z) (offered : gmap bytes FileRecord) : Prop :=
  0 < max -> Z.of_nat (size offered) <= max.

(** What the merge loop maintains. *)
Record merge_ok (max : Z) (before : gmap bytes FileRecord) (st : merge_state) : Prop := {
  mg_keyed : well_keyed (mg_offered st);
  mg_cap : within_cap max (mg_offered st);
  mg_grow k : k ∈ dom before -> k ∈ dom (mg_offered st);
  mg_acc k : k ∈ map key_of (mg_accepted st) -> k ∈ dom (mg_offered st)
}.

Lemma merge_record_ok max before st record :
  merge_ok max before st -> merge_ok max before (merge_record max st record).
Proof.
  intros [Hk Hc Hg Ha]. unfold merge_record. fold (key_of record).
  assert (well_keyed (<[key_of record := record]> (mg_offered st))) as Hk'.
  { intros k r [[<- <-]|[_ ?]]%lookup_insert_Some; [done|by apply Hk]. }
  assert (forall l, (forall k, k ∈ map key_of l -> k ∈ dom (mg_offered st)) ->
    forall k, k ∈ map key_of (l ++ [record]) ->
    k ∈ dom (<[key_of record := record]> (mg_offered st))) as Hacc.
  { intros l Hl k. rewrite map_app, elem_of_app. cbn [map].
    rewrite list_elem_of_singleton, dom_insert_L, elem_of_union, elem_of_singleton. intros [?| ->]; [right; by apply Hl|by left]. }
  assert (forall k, k ∈ dom before -> k ∈ dom (<[key_of record := record]> (mg_offered st))) as Hg'.
  { intros k Hin. rewrite dom_insert_L. apply elem_of_union. right. by apply Hg. }
  destruct (mg_offered st !! key_of record) as [old|] eqn:Hold.
  - constructor; cbn; [done| |done|by apply Hacc].
    intros Hmax. rewrite map_size_insert_Some by by eexists. by apply Hc.
  - destruct ((0 <? max) && _) eqn:Hfull; [by constructor|].
    constructor; cbn; [done| |done|by apply Hacc].
    intros Hmax. rewrite map_size_insert_None by done.
    apply andb_false_iff in Hfull as [H%Z.ltb_ge|H%Z.leb_gt]; lia.
Qed.

Lemma merge_records_ok max offered records :
  well_keyed offered -> within_cap max offered ->
  merge_ok max offered (foldl (merge_record max) (mkMerge offered [] [] 0) records).
Proof.
  intros Hk Hc.
  assert (merge_ok max offered (mkMerge offered [] [] 0)) as H0.
  { constructor; cbn; auto. intros k Hn. by apply elem_of_nil in Hn. }
  revert H0. generalize (mkMerge offered [] [] 0) as st.
  induction records as [|r rs IH]; intros st Hst; [done|]. cbn [foldl].
  by apply IH, merge_record_ok.
Qed.
End dynamic.
