(* ===== verification/FrameRule.v ===== *)
(** * What the handlers leave alone

    A view of the server state that does not look at the fields the handlers
    write is the same after every handler: one walk over the code for all such
    cbn [snd]; skip_updates. The instances cover the peers, the configuration and the set of open
    connections. *)

From S2P Require Import StateErr.
From S2P Require Import Prelude GoStrings GoNet Ed2kLib Ed2kWire FileRecord Search Catalog.
From S2P Require Import Config OfferFiles Sources PeerServers Limiter Text Frames Server.

Local Open Scope Z_scope.
Local Open Scope srv_scope.

(** The fields that requests write. *)
Class RequestView `{Ed2kLib} {V : Type} (view : Server -> V) : Prop := {
  rv_sessions x s : view (set_sv_sessions x s) = view s;
  rv_stats x s : view (set_sv_stats x s) = view s;
  rv_sent x s : view (set_sv_sent x s) = view s;
  rv_ticks x s : view (set_sv_ticks x s) = view s;
  rv_writes x s : view (set_sv_writes x s) = view s;
  rv_clients x s : view (set_sv_clients x s) = view s;
  rv_dynamicFiles x s : view (set_sv_dynamicFiles x s) = view s;
  rv_nextID x s : view (set_sv_nextID x s) = view s;
  rv_connLimiter x s : view (set_sv_connLimiter x s) = view s;
  rv_callbackLimiter x s : view (set_sv_callbackLimiter x s) = view s
}.

(** The fields that events write in addition. *)
Class EventView `{Ed2kLib} {V : Type} (view : Server -> V) `{!RequestView view} : Prop := {
  ev_open x s : view (set_sv_open x s) = view s;
  ev_conns x s : view (set_sv_conns x s) = view s;
  ev_catalog x s : view (set_sv_catalog x s) = view s;
  ev_saved x s : view (set_sv_saved x s) = view s
}.

(** Every update of a field that the view does not see is skipped. *)
Ltac skip_updates := repeat case_match; cbn beta;
  repeat first [rewrite rv_sessions|rewrite rv_stats|rewrite rv_sent|rewrite rv_ticks
               |rewrite rv_writes|rewrite rv_clients|rewrite rv_dynamicFiles|rewrite rv_nextID
               |rewrite rv_connLimiter|rewrite rv_callbackLimiter]; try done.

Section frame_rule.
Context {L : Ed2kLib} {W : Ed2kWire} {T : UnicodeTables} {MI : MapIter} {D : TextDecoder}.
Context {ZL : Zlib} {PC : PacketCombiner} {WD : World}.
Context {V : Type} (view : Server -> V) {RV : RequestView view}.

Definition frames {A} (m : M A) : Prop := forall s, view (m s).2 = view s.

Lemma frames_bind {A B} (m : M A) (k : A -> M B) :
  frames m -> (forall a, frames (k a)) -> frames (bind m k).
Proof.
  intros Hm Hk s. specialize (Hm s). unfold bind. destruct (m s) as [[a|e] s1]; [|exact Hm].
  rewrite <- Hm. apply Hk.
Qed.

Lemma frames_try {A} (m : M A) : frames m -> frames (try_ m).
Proof. intros Hm s. specialize (Hm s). unfold try_. by destruct (m s). Qed.

Lemma frames_modify f : (forall s, view (f s) = view s) -> frames (modify f).
Proof. intros Hf s. apply Hf. Qed.

Lemma frames_of_option {A} (o : option A) e : frames (of_option o e).
Proof. by destruct o. Qed.

Lemma frames_allocate addr : frames (allocateClientID addr).
Proof. intros s. unfold allocateClientID. destruct (_ && _); [done|]. destruct (free_id _ _ _); cbn [snd]; skip_updates. Qed.

Lemma frames_write sid what : frames (conn_write sid what).
Proof. intros s. unfold conn_write. destruct (write_ok _); cbn [snd]; skip_updates. Qed.

Lemma frames_ret {A} (a : A) : frames (ret a).
Proof. done. Qed.
Lemma frames_fail {A} e : frames (fail e : M A).
Proof. done. Qed.
Lemma frames_gets {A} (f : Server -> A) : frames (gets f).
Proof. done. Qed.
Lemma frames_now : frames now.
Proof. intros s. unfold now. cbn [snd]; skip_updates. Qed.
Lemma frames_bump k n : frames (bump k n).
Proof. intros s. unfold bump, modify. cbn [snd]; skip_updates. Qed.
Lemma frames_session sid f : frames (modify_session sid f).
Proof. intros s. unfold modify_session, modify. cbn [snd]; skip_updates. Qed.
End frame_rule.

Create HintDb frames.

(** Walk over an operation, by its head, so that no handler is unfolded by
    accident; [upd] skips the field updates of a [modify]. *)
Ltac frame_step upd :=
  match goal with
  | |- RequestView _ => assumption
  | |- frames _ (ret _) => apply frames_ret
  | |- frames _ (fail _) => apply frames_fail
  | |- frames _ (gets _) => apply frames_gets
  | |- frames _ now => apply frames_now
  | |- frames _ (bump _ _) => apply frames_bump
  | |- frames _ (modify_session _ _) => apply frames_session
  | |- frames _ (bind _ _) => apply frames_bind; [|intros ?]
  | |- frames _ (try_ _) => apply frames_try
  | |- frames _ (of_option _ _) => apply frames_of_option
  | |- frames _ (allocateClientID _) => apply frames_allocate
  | |- frames _ (conn_write _ _) => apply frames_write
  | |- frames _ (modify _) => apply frames_modify; intros ?; upd
  | |- frames _ (if ?b then _ else _) => destruct b
  | |- frames _ (match ?x with _ => _ end) => destruct x
  | |- frames _ _ => solve [auto 2 with frames]
  end.
Ltac frame_auto := cbv zeta; repeat (frame_step skip_updates; cbv zeta beta).

Section requests.
Context {L : Ed2kLib} {W : Ed2kWire} {T : UnicodeTables} {MI : MapIter} {D : TextDecoder}.
Context {ZL : Zlib} {PC : PacketCombiner} {WD : World}.
Context {V : Type} (view : Server -> V) {RV : RequestView view}.

Lemma frames_send sid p : frames view (send sid p).
Proof. unfold send, noteOutbound. frame_auto. Qed.
Lemma frames_sendRaw sid op body : frames view (sendRawEd2k sid op body).
Proof. unfold sendRawEd2k, noteOutbound. frame_auto. Qed.
Hint Resolve frames_send frames_sendRaw : frames.

Lemma frames_more_results sid : frames view (handleSearchMore sid).
Proof. unfold handleSearchMore. frame_auto. Qed.
Hint Resolve frames_more_results : frames.

Lemma frames_search sid query : frames view (handleSearch sid query).
Proof. unfold handleSearch, publish_results. frame_auto. Qed.

Lemma frames_remove_offers id : frames view (removeClientOfferedFiles id).
Proof. unfold removeClientOfferedFiles. frame_auto. Qed.
Hint Resolve frames_search frames_remove_offers : frames.

Lemma frames_offer sid req : frames view (handleOfferFiles sid req).
Proof. unfold handleOfferFiles, mergeClientOfferedFiles, send_status. frame_auto. Qed.

Lemma frames_login sid h point properties : frames view (handleLogin sid h point properties).
Proof. unfold handleLogin, login_session, send_status, registerClient. frame_auto. Qed.
Hint Resolve frames_offer frames_login : frames.

Lemma frames_dispatch sid opcode body : frames view (dispatch sid opcode body).
Proof.
  unfold dispatch, handleGetServerList, handleGetSources, sendFoundSourcesObfuscated,
    handleCallback, allow_callback, send_status.
  frame_auto.
Qed.
Hint Resolve frames_dispatch : frames.

Lemma frames_serve_frame sid proto opcode body n : frames view (serve_frame sid proto opcode body n).
Proof. unfold serve_frame, note_inbound. frame_auto. Qed.

Lemma frames_unregister sid : frames view (unregisterClient sid).
Proof. unfold unregisterClient. frame_auto. Qed.

Lemma frames_admit sid remote first handshake : frames view (admit_conn sid remote first handshake).
Proof. unfold admit_conn. frame_auto. Qed.
End requests.

#[export] Hint Resolve frames_send frames_sendRaw frames_serve_frame frames_unregister frames_admit
  : frames.

Section events.
Context {L : Ed2kLib} {W : Ed2kWire} {T : UnicodeTables} {MI : MapIter} {D : TextDecoder}.
Context {ZL : Zlib} {PC : PacketCombiner} {WD : World}.
Context {V : Type} (view : Server -> V) {RV : RequestView view} {EV : EventView view}.

Ltac skip_all := repeat (progress skip_updates
  || rewrite ev_open || rewrite ev_conns || rewrite ev_catalog || rewrite ev_saved); try done.

Lemma frames_persist : frames view persistCatalog.
Proof. intros s. unfold persistCatalog, bump, modify. destruct (write_ok _); cbn [snd]; skip_all. Qed.
Hint Resolve frames_persist : frames.

Lemma frames_Upsert record : frames view (UpsertFile record).
Proof. unfold UpsertFile; cbv zeta; repeat (frame_step skip_all; cbv zeta beta). Qed.

Lemma frames_Delete h : frames view (DeleteFile h).
Proof. unfold DeleteFile; cbv zeta; repeat (frame_step skip_all; cbv zeta beta). Qed.
Hint Resolve frames_Upsert frames_Delete : frames.

(** No TCP event and no administrative change touches such a view. *)
Lemma frames_run_event ev : frames view (run_event ev).
Proof.
  destruct ev; cbn [run_event]; unfold open_session, serve_or_close, close_conn; cbv zeta; repeat (frame_step skip_all; cbv zeta beta).
Qed.
End events.

(** A view that sees the catalog is still left alone by clients. *)
Section connections.
Context {L : Ed2kLib} {W : Ed2kWire} {T : UnicodeTables} {MI : MapIter} {D : TextDecoder}.
Context {ZL : Zlib} {PC : PacketCombiner} {WD : World}.
Context {V : Type} (view : Server -> V) {RV : RequestView view}.
Context (view_open : forall x s, view (set_sv_open x s) = view s).
Context (view_conns : forall x s, view (set_sv_conns x s) = view s).

Ltac skip_conn := repeat (progress skip_updates || rewrite view_open || rewrite view_conns); try done.

Lemma frames_client_event ev :
  match ev with EvUpsert _ | EvDelete _ => False | _ => True end -> frames view (run_event ev).
Proof using All.
  destruct ev; intros Hev; try done; cbn [run_event]; unfold open_session, serve_or_close, close_conn;
    cbv zeta; repeat (frame_step skip_conn; cbv zeta beta).
Qed.
End connections.

(** ** Views *)

#[export] Instance catalog_view_requests `{Ed2kLib} : RequestView sv_catalog.
Proof. by constructor. Qed.

Definition peers_view `{Ed2kLib} (s : Server) : peerRegistry * Config := (sv_peers s, sv_cfg s).

#[export] Instance peers_view_requests `{Ed2kLib} : RequestView peers_view.
Proof. by constructor. Qed.
#[export] Instance peers_view_events `{Ed2kLib} : EventView peers_view.
Proof. by constructor. Qed.

(** Requests neither open nor close connections, and the configuration stays. *)
Definition open_view `{Ed2kLib} (s : Server) : gset nat * Config := (sv_open s, sv_cfg s).

#[export] Instance open_view_requests `{Ed2kLib} : RequestView open_view.
Proof. by constructor. Qed.

(** Only the management interface writes the audit log. *)
#[export] Instance audit_view_requests `{Ed2kLib} : RequestView sv_auditLog.
Proof. by constructor. Qed.
#[export] Instance audit_view_events `{Ed2kLib} : EventView sv_auditLog.
Proof. by constructor. Qed.
