(* ===== verification/ServerInv.v ===== *)
(** * Invariants of the server over all event sequences

    The invariant of the client table, sessions and shared files, its
    preservation by every event, and what follows for reachable states. *)

From S2P Require Import StateErr.
From S2P Require Import Prelude GoStrings GoSort GoNet Ed2kLib Ed2kRef Ed2kWire FileRecord.
From S2P Require Import Search SearchFacts Catalog CatalogFacts Config IdChange OfferFiles.
From S2P Require Import Sources PeerServers Limiter Text Frames AuditLog Server ServerFacts.

Local Open Scope Z_scope.
Local Open Scope srv_scope.

(** The invariant of every reachable state: a live logged-in session is what
    the client table names under its ID, so IDs are not shared; offers are
    filed under their hash and respect the cap; pages are well-formed. *)
Record server_ok `{Ed2kLib} `{UnicodeTables} (s : Server) : Prop := {
  so_catalog : catalog_ok (sv_catalog s);
  so_batch : 1 <= SearchBatchSize (sv_cfg s) < 2 ^ 63;
  so_pages : pages_ok s;
  so_nextID : in_s 32 (sv_nextID s);
  so_open sid : sid ∈ sv_open s -> (sid < sv_conns s)%nat;
  so_assigned sid : sid ∈ sv_open s -> cs_assignedID (session s sid) <> 0 ->
    sv_clients s !! cs_assignedID (session s sid) = Some sid;
  so_zero : sv_clients s !! 0 = None;
  so_keyed sid : well_keyed (cs_offeredFiles (session s sid));
  so_cap sid : within_cap (MaxOfferedFilesPerClient (sv_cfg s)) (cs_offeredFiles (session s sid))
}.

(** In addition, while no session logs in twice: the client table holds exactly
    live sessions under their own ID, and a shared file knows only clients that
    are in the table and still offer it. *)
Record tables_ok `{Ed2kLib} (s : Server) : Prop := {
  tb_clients id sid : sv_clients s !! id = Some sid ->
    sid ∈ sv_open s /\ cs_assignedID (session s sid) = id;
  tb_shared cid key : shares (sv_dynamicFiles s) cid key ->
    exists sid, sv_clients s !! cid = Some sid /\ key ∈ dom (cs_offeredFiles (session s sid))
}.

(** Fewer files and clients than machine integers can count. *)
Definition memory_ok `{Ed2kLib} (s : Server) : Prop :=
  len (cat_files (sv_catalog s)) + Z.of_nat (size (sv_dynamicFiles s)) < 2 ^ 62 /\
  Z.of_nat (size (sv_clients s)) < 2 ^ 32.

Section invariants.
Context {L : Ed2kLib} {HL : Ed2kHashLaws} {W : Ed2kWire} {U : UnicodeTables}.
Context {MI : MapIter} {ML : MapIterLaws}.
Context {D : TextDecoder} {ZL : Zlib} {PC : PacketCombiner} {WD : World}.

Lemma server_ready s : server_ok s -> memory_ok s -> search_ready s.
Proof. intros Hs [Hf _]. constructor; [apply Hs|apply Hs|done]. Qed.

(** Quiet steps keep both invariants. *)
Lemma server_ok_core s s' : same_core s s' -> pages_ok s' -> server_ok s -> server_ok s'.
Proof.
  intros [] Hp [Hc Hb _ Hn Ho Ha Hz Hk Hcap].
  constructor; try done; intros; rewrite ?sc_cfg, ?sc_catalog, ?sc_nextID, ?sc_clients,
    ?sc_offered, ?sc_assigned in *; auto; try congruence.
  - rewrite sc_conns. apply Ho. congruence.
  - apply Ha; congruence.
Qed.

Lemma tables_ok_core s s' : same_core s s' -> tables_ok s -> tables_ok s'.
Proof.
  intros [] [Hc Hd]. constructor.
  - intros id sid. rewrite sc_clients, sc_open, sc_assigned. apply Hc.
  - intros cid key. rewrite sc_dynamic, sc_clients. setoid_rewrite sc_offered. apply Hd.
Qed.

(** [m] keeps the invariants and does not panic; the tables stay exact
    provided [Q]. *)
Definition safe {A} (Q : Server -> Prop) (m : M A) : Prop := forall s,
  server_ok s -> memory_ok s ->
  (m s).1 <> Err Panic /\ server_ok (m s).2 /\ (Q s -> tables_ok s -> tables_ok (m s).2).

Lemma quiet_safe {A} Q (m : M A) : quiet search_ready m -> safe Q m.
Proof.
  intros Hq s Hs Hm. destruct (Hq s (server_ready s Hs Hm) (so_pages s Hs)) as (Hc & Hp & Hn).
  split; [done|]. split; [by eapply server_ok_core|]. intros _. by apply tables_ok_core.
Qed.

(** Composition with a quiet continuation. *)
Lemma safe_bind_quiet {A B} Q (m : M A) (k : A -> M B) :
  safe Q m -> (forall a, quiet (fun _ => True) (k a)) -> safe Q (bind m k).
Proof.
  intros Hm Hk s Hs Hmem. destruct (Hm s Hs Hmem) as (Hn & Hs' & Ht). unfold bind.
  destruct (m s) as [[a|e] s1]; cbn [fst snd] in *; [|by split; [congruence|]].
  destruct (Hk a s1 I (so_pages _ Hs')) as (Hc & Hp & Hn').
  split; [done|]. split; [by eapply server_ok_core|].
  intros HQ Htb. eapply tables_ok_core; [done|]. by apply Ht.
Qed.

(** A session cell after an update. *)
Lemma session_upd s sid c x :
  session (set_sv_sessions (upd (sv_sessions s) sid c) s) x =
  if decide (x = sid) then c else session s x.
Proof. done. Qed.

(** *** Login *)

Definition logged_in_state (s : Server) (sid : nat) (id next : Z) (c : clientSession) : Server :=
  set_sv_clients (if id =? 0 then sv_clients s else <[id := sid]> (sv_clients s))
    (set_sv_sessions (upd (sv_sessions s) sid c) (set_sv_nextID next s)).

(** A login succeeds with an ID that nobody has. *)
Lemma login_session_eq s sid h point properties :
  server_ok s -> memory_ok s ->
  exists id next, sv_clients s !! id = None /\ in_s 32 next /\
    login_session sid h point properties s =
      (Ok id, logged_in_state s sid id next
                (set_login h (extractClientConnectOptions properties) point
                   (extractClientName properties) id (session s sid))).
Proof.
  intros Hs [_ Hmem].
  assert (exists id next, sv_clients s !! id = None /\ in_s 32 next /\
    allocateClientID (cs_remote (session s sid)) s = (Ok id, set_sv_nextID next s))
    as (id & next & Hfree & Hnext & Ha).
  { unfold allocateClientID. set (id0 := clientIDFromRemote _).
    destruct (free_id_spec (sv_clients s) (sv_nextID s) (so_nextID s Hs) Hmem)
      as (id & Hf & Hnone & Hin).
    destruct (negb (id0 =? 0) && _) eqn:E.
    - apply andb_true_iff in E as [_ E]. destruct (sv_clients s !! id0) eqn:E0; [done|].
      exists id0, (sv_nextID s). split; [done|]. split; [apply Hs|]. by destruct s.
    - rewrite Hf. exists id, (to_int32 (id + 1)). split; [done|].
      split; [apply wrap_s_range; lia|done]. }
  exists id, next. split; [done|]. split; [done|].
  unfold login_session. unfold bind at 1. unfold gets at 1.
  unfold bind at 1. rewrite Ha. unfold logged_in_state.
  cbv beta iota delta [bind modify_session modify registerClient ret].
  change (session (set_sv_nextID next s) sid) with (session s sid).
  rewrite session_upd, decide_True by done. cbn [set_login cs_assignedID].
  destruct (id =? 0); by destruct s.
Qed.

Lemma login_session_safe sid h point properties s :
  sid ∈ sv_open s -> server_ok s -> memory_ok s ->
  let r := login_session sid h point properties s in
  r.1 <> Err Panic /\ server_ok r.2 /\
  (cs_assignedID (session s sid) = 0 -> tables_ok s -> tables_ok r.2).
Proof.
  intros Hopen Hs Hmem. cbv zeta.
  destruct (login_session_eq s sid h point properties Hs Hmem) as (id & next & Hfree & Hnext & ->).
  cbn [fst snd]. split; [done|].
  set (c := set_login _ _ _ _ id (session s sid)).
  assert (forall x, session (logged_in_state s sid id next c) x =
                    if decide (x = sid) then c else session s x) as Hsess by done.
  assert (sv_clients (logged_in_state s sid id next c) =
          if id =? 0 then sv_clients s else <[id := sid]> (sv_clients s)) as Hcl by done.
  split.
  - destruct Hs as [Hc Hb Hp Hn Ho Ha Hz Hk Hcap]. constructor; try done.
    + intros x. change (sv_cfg (logged_in_state s sid id next c)) with (sv_cfg s).
      rewrite Hsess. case_decide as Hd; [|apply Hp]. split; [|split; [by left|done]].
      split; done.
    + intros x Hx Hne. rewrite Hsess in *. rewrite Hcl. case_decide as Hd.
      * subst x. change (cs_assignedID c) with id in *.
        destruct (Z.eqb_spec id 0); [done|]. by rewrite lookup_insert_eq.
      * specialize (Ha x Hx Hne). destruct (id =? 0); [done|].
        rewrite lookup_insert_ne; [done|]. intros ->. congruence.
    + rewrite Hcl. destruct (Z.eqb_spec id 0); [done|]. by rewrite lookup_insert_ne.
    + intros x. rewrite Hsess. case_decide; [apply (Hk sid)|apply Hk].
    + intros x. rewrite Hsess. case_decide; [apply (Hcap sid)|apply Hcap].
  - intros H0 [Hc Hd]. constructor.
    + intros i x. rewrite Hcl, Hsess. intros Hi.
      assert (sv_clients s !! i = Some x -> x <> sid /\ x ∈ sv_open s /\
              cs_assignedID (session s x) = i) as Hold.
      { intros Hi'. destruct (Hc _ _ Hi') as [? Hx]. split; [|done]. intros ->.
        rewrite H0 in Hx. subst i. by rewrite (so_zero s Hs) in Hi'. }
      destruct (Z.eqb_spec id 0).
      * destruct (Hold Hi) as (? & ? & ?). by rewrite decide_False.
      * apply lookup_insert_Some in Hi as [[<- <-]|[_ Hi]].
        -- by rewrite decide_True.
        -- destruct (Hold Hi) as (? & ? & ?). by rewrite decide_False.
    + intros cid key Hsh. destruct (Hd cid key Hsh) as (x & Hx & Hkey).
      exists x. rewrite Hcl, Hsess. split.
      * destruct (id =? 0); [done|]. rewrite lookup_insert_ne; [done|]. intros ->. congruence.
      * case_decide; [by subst|done].
Qed.

(** *** Offers *)

(** All of a client's offers withdrawn. *)
Definition clear_offers (s : Server) (id : Z) (sid : nat) : Server :=
  set_sv_dynamicFiles
    (remove_all id (map snd (range_map (cs_offeredFiles (session s sid)))) (sv_dynamicFiles s))
    (set_sv_sessions (upd (sv_sessions s) sid (set_offered ∅ (session s sid))) s).

Lemma removeClientOfferedFiles_eq s id sid :
  sv_clients s !! id = Some sid ->
  removeClientOfferedFiles id s = (Ok tt, clear_offers s id sid).
Proof. intros Hf. unfold removeClientOfferedFiles, modify, findClient. by rewrite Hf. Qed.

(** The keys of the withdrawn records are the keys of the client's map. *)
Lemma offered_keys offered k :
  well_keyed offered ->
  k ∈ map key_of (map snd (range_map offered)) <-> k ∈ dom offered.
Proof.
  intros Hw. rewrite map_map, (Permutation_map _ (range_map_perm offered)).
  rewrite list_elem_of_In, in_map_iff, elem_of_dom. split.
  - intros ([k' r] & <- & Hin). apply list_elem_of_In, elem_of_map_to_list in Hin.
    cbn [snd]. rewrite (Hw _ _ Hin). by eexists.
  - intros [r Hr]. exists (k, r). split; [by apply Hw|].
    by apply list_elem_of_In, elem_of_map_to_list.
Qed.

(** A session's offers changed, in step with the shared files. *)
Definition with_offers (s : Server) (sid : nat) (offered : gmap bytes FileRecord)
    (d : gmap bytes dynamicSharedFile) : Server :=
  set_sv_dynamicFiles d
    (set_sv_sessions (upd (sv_sessions s) sid (set_offered offered (session s sid))) s).

Lemma with_offers_session s sid offered d x :
  session (with_offers s sid offered d) x =
  if decide (x = sid) then set_offered offered (session s sid) else session s x.
Proof. done. Qed.

Lemma with_offers_ok s sid offered d :
  server_ok s -> well_keyed offered ->
  within_cap (MaxOfferedFilesPerClient (sv_cfg s)) offered ->
  server_ok (with_offers s sid offered d).
Proof.
  intros [Hc Hb Hp Hn Ho Ha Hz Hk Hcap] Hw Hcap'.
  constructor; try done; intros x; rewrite ?with_offers_session;
    case_decide as Hd; subst; auto; try apply Hp; try apply Ha.
Qed.

Lemma with_offers_tables s sid id offered d :
  server_ok s -> tables_ok s -> sv_clients s !! id = Some sid ->
  (forall cid key, shares d cid key ->
     if decide (cid = id) then key ∈ dom offered else shares (sv_dynamicFiles s) cid key) ->
  tables_ok (with_offers s sid offered d).
Proof.
  intros Hs [Hc Hd] Hid Hsh. constructor.
  - intros i x Hi. rewrite with_offers_session. destruct (Hc i x Hi) as [? ?].
    split; [done|]. by case_decide; subst.
  - intros cid key H. specialize (Hsh cid key H). change (sv_clients (with_offers s sid offered d))
      with (sv_clients s). case_decide as Hcid.
    + subst cid. exists sid. split; [done|]. rewrite with_offers_session.
      by rewrite decide_True.
    + destruct (Hd cid key Hsh) as (x & Hx & Hkey). exists x. split; [done|].
      rewrite with_offers_session. rewrite decide_False; [done|]. intros ->.
      destruct (Hc _ _ Hx) as [_ E1]. destruct (Hc _ _ Hid) as [_ E2]. congruence.
Qed.

Lemma clear_offers_ok s id sid : server_ok s -> server_ok (clear_offers s id sid).
Proof.
  intros Hs. apply with_offers_ok; [done| |].
  - intros k r. by rewrite lookup_empty.
  - intros H. rewrite map_size_empty. lia.
Qed.

(** Withdrawn: nothing is left under the client's ID. *)
Lemma clear_offers_gone s id sid key :
  server_ok s -> tables_ok s -> sv_clients s !! id = Some sid ->
  ~ shares (sv_dynamicFiles (clear_offers s id sid)) id key.
Proof.
  intros Hs [Hc Hd] Hid H. apply shares_remove_all in H as [H Hn]. apply Hn. split; [done|].
  destruct (Hd _ _ H) as (x & Hx & Hkey). rewrite Hid in Hx. injection Hx as <-.
  apply offered_keys; [apply Hs|done].
Qed.

Lemma clear_offers_tables s id sid :
  server_ok s -> tables_ok s -> sv_clients s !! id = Some sid ->
  tables_ok (clear_offers s id sid).
Proof.
  intros Hs Ht Hid. eapply with_offers_tables; [done|done|done|].
  intros cid key H. case_decide as Hcid.
  - subst cid. by destruct (clear_offers_gone s id sid key Hs Ht Hid).
  - by apply shares_remove_all in H as [H _].
Qed.

Lemma mergeClientOfferedFiles_eq s id sid records :
  sv_clients s !! id = Some sid -> records <> [] ->
  mergeClientOfferedFiles id records s =
    let st := foldl (merge_record (MaxOfferedFilesPerClient (sv_cfg s)))
                    (mkMerge (cs_offeredFiles (session s sid)) [] [] 0) records in
    (Ok (len (mg_accepted st), mg_dropped st),
     with_offers s sid (mg_offered st)
       (add_all id (mg_accepted st) (remove_all id (mg_previous st) (sv_dynamicFiles s)))).
Proof.
  intros Hid Hne. unfold mergeClientOfferedFiles, bind at 1, gets at 1, findClient.
  rewrite Hid. by destruct records.
Qed.

Lemma mergeClientOfferedFiles_nil s id sid :
  sv_clients s !! id = Some sid ->
  mergeClientOfferedFiles id [] s = (Ok (0, 0), clear_offers s id sid).
Proof.
  intros Hid. unfold mergeClientOfferedFiles, bind, gets, findClient. rewrite Hid.
  by rewrite (removeClientOfferedFiles_eq s id sid).
Qed.

Lemma merge_safe s id sid records :
  server_ok s -> sv_clients s !! id = Some sid ->
  let r := mergeClientOfferedFiles id records s in
  r.1 <> Err Panic /\ sv_open r.2 = sv_open s /\ server_ok r.2 /\ (tables_ok s -> tables_ok r.2).
Proof.
  intros Hs Hid. cbv zeta. destruct records as [|r0 rs].
  { rewrite (mergeClientOfferedFiles_nil s id sid) by done. cbn [fst snd].
    do 2 (split; [done|]). split; [by apply clear_offers_ok|]. intros. by apply clear_offers_tables. }
  rewrite (mergeClientOfferedFiles_eq s id sid) by done. cbv zeta. cbn [fst snd].
  pose proof (merge_records_ok (MaxOfferedFilesPerClient (sv_cfg s))
    (cs_offeredFiles (session s sid)) (r0 :: rs) (so_keyed s Hs sid) (so_cap s Hs sid)) as Hmg.
  set (st := foldl _ _ _) in *. destruct Hmg as [Hk Hc Hg Ha].
  do 2 (split; [done|]). split; [by apply with_offers_ok|]. intros Ht.
  eapply with_offers_tables; [done|done|done|]. intros cid key H.
  apply shares_add_all in H as [H|[-> H]]; [|rewrite decide_True by done; by apply Ha].
  apply shares_remove_all in H as [H _]. case_decide as Hcid; [|done]. subst cid.
  destruct Ht as [_ Hd]. destruct (Hd _ _ H) as (x & Hx & Hkey). rewrite Hid in Hx.
  injection Hx as <-. by apply Hg.
Qed.

Lemma handleOfferFiles_safe sid req s :
  sid ∈ sv_open s -> server_ok s -> memory_ok s ->
  let r := handleOfferFiles sid req s in
  r.1 <> Err Panic /\ sv_open r.2 = sv_open s /\ server_ok r.2 /\ (tables_ok s -> tables_ok r.2).
Proof.
  intros Hopen Hs Hmem. cbv zeta. unfold handleOfferFiles. rewrite bind_gets. cbv zeta.
  destruct (Z.eqb_spec (cs_assignedID (session s sid)) 0) as [H0|H0];
    [split; [discriminate|split; [done|split; [exact Hs|intros Ht; exact Ht]]]|].
  pose proof (so_assigned s Hs sid Hopen H0) as Hid. set (id := cs_assignedID _) in *.
  destruct (offer_records _ _ _ _) as [records|e];
    [|split; [discriminate|split; [done|split; [exact Hs|intros Ht; exact Ht]]]].
  pose proof (merge_safe s id sid records Hs Hid) as (Hn & Ho & Hs' & Ht).
  destruct (mergeClientOfferedFiles id records s) as [[[acc dr]|e] s1] eqn:E;
    [rewrite (bind_ok _ _ _ _ _ E)|rewrite (bind_err _ _ _ _ _ E)];
    cbn [fst snd] in *; [|split; [congruence|split; [done|by split]]].
  assert (quiet (fun _ => True) (bump FilesRegistered acc ;;; bump OfferFilesDropped dr ;;;
                                 send_status sid)) as Hq.
  { do 2 (apply quiet_bind; [auto with quiet..|intros ?]). by apply quiet_send_status. }
  destruct (Hq s1 I (so_pages _ Hs')) as (Hc & Hp & Hn').
  split; [done|]. split; [by rewrite (sc_open _ _ Hc)|]. split; [by eapply server_ok_core|].
  intros Htb. eapply tables_ok_core; [done|]. by apply Ht.
Qed.

(** *** Disconnecting *)

(** The state after a client's session is gone. *)
Definition forget_client (s : Server) (id : Z) : Server :=
  set_sv_clients (delete id (sv_clients s)) s.

Lemma unregisterClient_eq s sid :
  server_ok s -> sid ∈ sv_open s ->
  let id := cs_assignedID (session s sid) in
  let s1 := set_sv_stats (upd (sv_stats s) TotalDisconnects
                            (add64 (sv_stats s TotalDisconnects) 1)) s in
  unregisterClient sid s =
    (Ok tt, if id =? 0 then s1 else forget_client (clear_offers s1 id sid) id).
Proof.
  intros Hs Hopen. cbv zeta. unfold unregisterClient, bind at 1, gets at 1.
  unfold bind at 1, bump at 1, modify at 1. set (s1 := set_sv_stats _ s).
  destruct (Z.eqb_spec (cs_assignedID (session s sid)) 0) as [H0|H0]; [done|].
  pose proof (so_assigned s Hs sid Hopen H0) as Hid. cbn [negb].
  unfold bind. rewrite (removeClientOfferedFiles_eq s1 _ sid) by done.
  unfold modify. change (sv_clients (clear_offers s1 _ sid)) with (sv_clients s).
  rewrite Hid, Nat.eqb_refl. done.
Qed.

(** [close_conn] on the core: the session leaves the table and the open set. *)
Definition closed_state (s : Server) (sid : nat) : Server :=
  let id := cs_assignedID (session s sid) in
  let s1 := set_sv_stats (upd (sv_stats s) TotalDisconnects
                            (add64 (sv_stats s TotalDisconnects) 1)) s in
  let s2 := if id =? 0 then s1 else forget_client (clear_offers s1 id sid) id in
  set_sv_open (sv_open s2 ∖ {[sid]}) s2.

Lemma close_conn_eq s sid :
  server_ok s -> sid ∈ sv_open s -> close_conn sid s = (Ok tt, closed_state s sid).
Proof.
  intros Hs Hopen. unfold close_conn, bind.
  pose proof (unregisterClient_eq s sid Hs Hopen) as E. cbv zeta in E. by rewrite E.
Qed.

Lemma stats_same_core s st : same_core s (set_sv_stats st s).
Proof. by constructor. Qed.

Lemma still_open s sid x :
  x ∈ sv_open (set_sv_open (sv_open s ∖ {[sid]}) s) <-> x ∈ sv_open s /\ x <> sid.
Proof.
  change (x ∈ sv_open s ∖ {[sid]} <-> x ∈ sv_open s /\ x <> sid).
  by rewrite elem_of_difference, elem_of_singleton.
Qed.

Lemma closed_state_ok s sid : server_ok s -> sid ∈ sv_open s -> server_ok (closed_state s sid).
Proof.
  intros Hs Hopen. unfold closed_state. set (s1 := set_sv_stats _ s).
  assert (server_ok s1) as Hs1.
  { apply (server_ok_core s); [apply stats_same_core|apply Hs|done]. }
  destruct (Z.eqb_spec (cs_assignedID (session s sid)) 0) as [H0|H0].
  { destruct Hs1 as [Hc Hb Hp Hn Ho Ha Hz Hk Hcap]. constructor; try done.
    - intros x [Hx _]%still_open. by apply Ho.
    - intros x [Hx _]%still_open. by apply Ha. }
  pose proof (so_assigned s Hs sid Hopen H0) as Hid. set (id := cs_assignedID _) in *.
  destruct (clear_offers_ok s1 id sid Hs1) as [Hc Hb Hp Hn Ho Ha Hz Hk Hcap].
  set (s2 := clear_offers s1 id sid) in *.
  assert (forall x, cs_assignedID (session s2 x) = cs_assignedID (session s x)) as Hass.
  { intros x. unfold s2, clear_offers. fold (with_offers s1 sid ∅
      (remove_all id (map snd (range_map (cs_offeredFiles (session s1 sid)))) (sv_dynamicFiles s1))).
    rewrite with_offers_session. by case_decide; subst. }
  constructor; try done.
  - intros x [Hx _]%still_open. by apply Ho.
  - intros x [Hx Hne]%still_open Hnz.
    change (session (set_sv_open _ (forget_client s2 id)) x) with (session s2 x) in *.
    change (sv_clients (set_sv_open _ (forget_client s2 id))) with (delete id (sv_clients s2)).
    specialize (Ha x Hx Hnz). rewrite lookup_delete_ne; [done|]. intros E.
    rewrite <- E in Ha. change (sv_clients s2) with (sv_clients s) in Ha.
    rewrite Hid in Ha. by injection Ha as <-.
  - change (sv_clients (set_sv_open _ (forget_client s2 id))) with (delete id (sv_clients s2)).
    by rewrite lookup_delete_ne by done.
Qed.

Lemma closed_state_tables s sid :
  server_ok s -> sid ∈ sv_open s -> tables_ok s -> tables_ok (closed_state s sid).
Proof.
  intros Hs Hopen Ht. unfold closed_state. set (s1 := set_sv_stats _ s).
  assert (server_ok s1) as Hs1.
  { apply (server_ok_core s); [apply stats_same_core|apply Hs|done]. }
  assert (tables_ok s1) as Ht1 by (apply (tables_ok_core s); [apply stats_same_core|done]).
  destruct (Z.eqb_spec (cs_assignedID (session s sid)) 0) as [H0|H0].
  { destruct Ht1 as [Hc Hd]. constructor; [|done]. intros i x Hi.
    destruct (Hc i x Hi) as [Hx Ha]. split; [|done]. apply still_open.
    split; [done|]. intros ->.
    change (session s1 sid) with (session s sid) in Ha. rewrite H0 in Ha. subst i.
    change (sv_clients s1 !! 0 = Some sid) in Hi. by rewrite (so_zero s1 Hs1) in Hi. }
  pose proof (so_assigned s Hs sid Hopen H0) as Hid. set (id := cs_assignedID _) in *.
  pose proof (clear_offers_tables s1 id sid Hs1 Ht1 Hid) as [Hc Hd].
  pose proof (fun key => clear_offers_gone s1 id sid key Hs1 Ht1 Hid) as Hgone.
  set (s2 := clear_offers s1 id sid) in *. constructor.
  - intros i x. change (sv_clients (set_sv_open _ (forget_client s2 id)))
      with (delete id (sv_clients s2)).
    intros [Hne Hi]%lookup_delete_Some. destruct (Hc i x Hi) as [Hx Ha]. split; [|done].
    apply still_open. split; [done|]. intros ->.
    destruct (Hc id sid Hid) as [_ Hsid]. congruence.
  - intros cid key Hsh. change (sv_dynamicFiles (set_sv_open _ (forget_client s2 id)))
      with (sv_dynamicFiles s2) in Hsh.
    assert (cid <> id) as Hne by (intros ->; by apply (Hgone key)).
    destruct (Hd cid key Hsh) as (x & Hx & Hkey). exists x. split; [|done].
    change (sv_clients (set_sv_open _ (forget_client s2 id))) with (delete id (sv_clients s2)).
    by rewrite lookup_delete_ne by done.
Qed.

(** *** Requests *)

(** What an operation on the live session [sid] must do; [Q] is what keeps the
    tables exact. *)
Definition serves {A} (sid : nat) (Q : Server -> Prop) (m : M A) : Prop := forall s,
  sid ∈ sv_open s -> server_ok s -> memory_ok s ->
  (m s).1 <> Err Panic /\ server_ok (m s).2 /\ sid ∈ sv_open (m s).2 /\
  (Q s -> tables_ok s -> tables_ok (m s).2).

Lemma quiet_serves {A} sid Q (m : M A) : quiet search_ready m -> serves sid Q m.
Proof.
  intros Hq s Hopen Hs Hm. destruct (Hq s (server_ready s Hs Hm) (so_pages s Hs)) as (Hc & Hp & Hn).
  split; [done|]. split; [by eapply server_ok_core|].
  split; [by rewrite (sc_open _ _ Hc)|]. intros _. by apply tables_ok_core.
Qed.

Lemma serves_fail {A} sid Q e : e <> Panic -> serves sid Q (fail e : M A).
Proof. intros He. apply quiet_serves. by apply quiet_fail. Qed.

(** The answers to a login. *)
Definition login_answers (sid : nat) (id : Z) : M unit :=
  send_status sid ;;;
  do! cfg := gets sv_cfg in
  (if negb (bytes_eqb (Message cfg) []) then send sid (PktMessage (Message cfg)) else ret tt) ;;;
  do! port := gets serverTCPPort in
  send sid (PktIdChange (mkIdChange id (TCPFlags cfg) (AuxPort cfg) (reportedIPForIdChange id)
                           (obfuscationTCPPortAdvertised cfg port))).

Lemma quiet_login_answers sid id : quiet (fun _ => True) (login_answers sid id).
Proof.
  unfold login_answers. apply quiet_bind; [auto with quiet|by apply quiet_send_status|intros _].
  apply quiet_bind; [auto with quiet..|intros cfg].
  apply quiet_bind; [auto with quiet| |intros _].
  - apply quiet_if; [by apply quiet_send|auto with quiet].
  - apply quiet_bind; [auto with quiet..|intros port]. by apply quiet_send.
Qed.

Lemma handleLogin_serves sid h point properties :
  serves sid (fun s => cs_assignedID (session s sid) = 0) (handleLogin sid h point properties).
Proof.
  intros s Hopen Hs Hmem. unfold handleLogin.
  destruct (login_session_safe sid h point properties s Hopen Hs Hmem) as (Hn & Hs' & Ht).
  destruct (login_session_eq s sid h point properties Hs Hmem) as (id & next & _ & _ & E).
  rewrite E in Hn, Hs', Ht. rewrite (bind_ok _ _ _ _ _ E). cbn [fst snd] in *.
  set (s1 := logged_in_state _ _ _ _ _) in *. fold (login_answers sid id).
  destruct (quiet_login_answers sid id s1 I (so_pages _ Hs')) as (Hc & Hp & Hn').
  split; [done|]. split; [by eapply server_ok_core|].
  split; [by rewrite (sc_open _ _ Hc)|].
  intros H0 Htb. eapply tables_ok_core; [done|]. by apply Ht.
Qed.

Lemma handleOfferFiles_serves sid req : serves sid (fun _ => True) (handleOfferFiles sid req).
Proof.
  intros s Hopen Hs Hmem.
  destruct (handleOfferFiles_safe sid req s Hopen Hs Hmem) as (Hn & Ho & Hs' & Ht).
  split; [done|]. split; [done|]. split; [by rewrite Ho|by intros _].
Qed.

(** A decoded request goes on to its handler. *)
Lemma serves_of_option {A B} sid Q (o : option A) (k : A -> M B) :
  (forall a, serves sid Q (k a)) -> serves sid Q (bind (of_option o ErrDecode) k).
Proof.
  intros Hk. destruct o as [a|]; [exact (Hk a)|]. by apply (serves_fail sid Q ErrDecode).
Qed.

Lemma serves_weaken {A} sid (P Q : Server -> Prop) (m : M A) :
  (forall s, Q s -> P s) -> serves sid P m -> serves sid Q m.
Proof.
  intros HQ Hm s Hopen Hs Hmem. destruct (Hm s Hopen Hs Hmem) as (? & ? & ? & Ht).
  do 3 (split; [done|]). intros Hq. by apply Ht, HQ.
Qed.

(** Only a second login spoils the tables. *)
Definition fresh_login (sid : nat) (opcode : byte) (s : Server) : Prop :=
  opcode = opLoginRequest -> cs_assignedID (session s sid) = 0.

Lemma dispatch_serves sid opcode body :
  serves sid (fresh_login sid opcode) (dispatch sid opcode body).
Proof.
  unfold dispatch.
  destruct (byte_eqb opcode opLoginRequest) eqn:E1.
  { apply byte_eqb_eq in E1 as ->. apply serves_of_option. intros [[h point] props].
    eapply serves_weaken; [|apply handleLogin_serves]. intros s Hf. by apply Hf. }
  apply (serves_weaken sid (fun _ => True)); [done|].
  destruct (byte_eqb opcode opGetServerList).
  { apply quiet_serves, quiet_handleGetServerList. auto with quiet. apply core_pred_ready. }
  destruct (byte_eqb opcode opOfferFiles).
  { apply serves_of_option. intros [req rest]. apply handleOfferFiles_serves. }
  destruct (byte_eqb opcode opSearchRequest).
  { destruct (ParseSearchRequest body); apply quiet_serves, quiet_handleSearch. }
  destruct (byte_eqb opcode opSearchMore).
  { apply quiet_serves, quiet_handleSearchMore; [apply core_pred_ready|by intros s []]. }
  destruct (byte_eqb opcode opGetSources).
  { apply serves_of_option. intros h. apply quiet_serves, quiet_handleGetSources, core_pred_ready. }
  destruct (byte_eqb opcode opGetSourcesObfu).
  { apply serves_of_option. intros h. apply quiet_serves, quiet_handleGetSources, core_pred_ready. }
  destruct (byte_eqb opcode opCallbackReq).
  { apply serves_of_option. intros id. apply quiet_serves, quiet_handleCallback, core_pred_ready. }
  destruct (byte_eqb opcode opDisconnect); [by apply serves_fail|].
  apply quiet_serves. auto with quiet.
Qed.

Lemma memory_ok_core s s' : same_core s s' -> memory_ok s -> memory_ok s'.
Proof. intros [] [Hf Hc]. unfold memory_ok. by rewrite sc_catalog, sc_dynamic, sc_clients. Qed.

Lemma quiet_note_inbound sid n : quiet (fun _ => True) (note_inbound sid n).
Proof. unfold note_inbound. quiet_auto. Qed.

Lemma serve_frame_serves sid proto opcode body n :
  serves sid (fresh_login sid opcode) (serve_frame sid proto opcode body n).
Proof.
  intros s Hopen Hs Hmem. unfold serve_frame.
  destruct (quiet_note_inbound sid n s I (so_pages s Hs)) as (Hc & Hp & Hn).
  destruct (note_inbound sid n s) as [[[]|e] s1] eqn:E; cbn [fst snd] in *.
  2: { rewrite (bind_err _ _ _ _ _ E). cbn [fst snd]. split; [done|]. split; [by eapply server_ok_core|].
       split; [by rewrite (sc_open _ _ Hc)|]. intros _. by apply tables_ok_core. }
  rewrite (bind_ok _ _ _ _ _ E).
  pose proof (server_ok_core s s1 Hc Hp Hs) as Hs1.
  pose proof (memory_ok_core s s1 Hc Hmem) as Hm1.
  assert (serves sid (fresh_login sid opcode)
    (if negb (byte_eqb proto EdonkeyHeader) then fail ErrEOF else dispatch sid opcode body)) as Hd.
  { destruct (negb _); [by apply serves_fail|apply dispatch_serves]. }
  destruct (Hd s1) as (Hn' & Hs' & Ho' & Ht');
    [by rewrite (sc_open _ _ Hc)|done|done|].
  split; [done|]. split; [done|]. split; [done|]. intros Hf Htb. apply Ht'.
  - intros Hop. rewrite (sc_assigned _ _ Hc). by apply Hf.
  - by eapply tables_ok_core.
Qed.

Lemma serve_or_close_safe sid proto opcode body n s :
  sid ∈ sv_open s -> server_ok s -> memory_ok s ->
  let r := serve_or_close sid proto opcode body n s in
  r.1 <> Err Panic /\ server_ok r.2 /\
  (fresh_login sid opcode s -> tables_ok s -> tables_ok r.2).
Proof.
  intros Hopen Hs Hmem. cbv zeta.
  destruct (serve_frame_serves sid proto opcode body n s Hopen Hs Hmem) as (Hn & Hs' & Ho & Ht).
  unfold serve_or_close. unfold bind, try_.
  destruct (serve_frame sid proto opcode body n s) as [[[]|e] s1]; cbn [fst snd] in *.
  { by split. }
  match goal with
  | |- fst ?x <> _ /\ _ => assert (x = (Ok tt, closed_state s1 sid)) as ->
  end.
  { destruct e; try congruence; by apply close_conn_eq. }
  cbn [fst snd]. split; [done|]. split; [by apply closed_state_ok|].
  intros Hf Htb. apply closed_state_tables; auto.
Qed.

(** *** Events *)

Lemma quiet_set_connLimiter P l : quiet P (modify (set_sv_connLimiter l)).
Proof. apply quiet_modify; [|done]. intros s. by constructor. Qed.
Hint Resolve quiet_set_connLimiter : quiet.

Lemma quiet_admit_conn sid remote first handshake :
  quiet (fun _ => True) (admit_conn sid remote first handshake).
Proof. unfold admit_conn. quiet_auto. Qed.

(** The goal of a handler that left the state alone. *)
Ltac unchanged := unfold fail, ret; cbn [fst snd]; split; [discriminate|split; [assumption|intros; assumption]].

(** A new connection gets a blank session under an unused number. *)
Definition opened_state (s : Server) (sid : nat) (c : clientSession) : Server :=
  set_sv_open ({[sid]} ∪ sv_open s) (set_sv_sessions (upd (sv_sessions s) sid c) s).

Lemma opened_state_ok s sid remote local t1 t2 :
  server_ok s -> sv_conns s = S sid -> sid ∉ sv_open s ->
  server_ok (opened_state s sid (new_session remote local t1 t2)).
Proof.
  intros [Hc Hb Hp Hn Ho Ha Hz Hk Hcap] Hconns Hnew.
  set (c := new_session remote local t1 t2).
  assert (forall x, session (opened_state s sid c) x = if decide (x = sid) then c else session s x)
    as Hsess by done.
  assert (forall x, x ∈ sv_open (opened_state s sid c) <-> x = sid \/ x ∈ sv_open s) as Hop.
  { intros x. change (x ∈ {[sid]} ∪ sv_open s <-> x = sid \/ x ∈ sv_open s).
    by rewrite elem_of_union, elem_of_singleton. }
  constructor; try done.
  - intros x. rewrite Hsess. case_decide; [|apply Hp]. split; [done|]. split; [by left|done].
  - intros x [->|Hx]%Hop; change (sv_conns (opened_state s sid c)) with (sv_conns s);
      [lia|by apply Ho].
  - intros x Hx. rewrite Hsess. case_decide as Hd; [done|]. apply Ha.
    apply Hop in Hx as [?|?]; done.
  - intros x. rewrite Hsess. case_decide; [|apply Hk]. intros k r.
    change (cs_offeredFiles c) with (∅ : gmap bytes FileRecord). by rewrite lookup_empty.
  - intros x. rewrite Hsess. case_decide; [|apply Hcap]. unfold within_cap.
    change (sv_cfg (opened_state s sid c)) with (sv_cfg s).
    change (cs_offeredFiles c) with (∅ : gmap bytes FileRecord).
    rewrite map_size_empty. lia.
Qed.

Lemma opened_state_tables s sid c :
  sid ∉ sv_open s -> tables_ok s -> tables_ok (opened_state s sid c).
Proof.
  intros Hnew [Hc Hd].
  assert (forall x, x ∈ sv_open s -> session (opened_state s sid c) x = session s x) as Hsess.
  { intros x Hx. change (session (opened_state s sid c) x) with
      (if decide (x = sid) then c else session s x). by rewrite decide_False by (intros ->; done). }
  constructor.
  - intros i x Hi. destruct (Hc i x Hi) as [Hx Hass]. rewrite Hsess by done. split; [|done].
    change (x ∈ {[sid]} ∪ sv_open s). apply elem_of_union. by right.
  - intros cid key Hsh. destruct (Hd cid key Hsh) as (x & Hx & Hkey). exists x.
    destruct (Hc _ _ Hx) as [Hopen _]. by rewrite Hsess.
Qed.

Lemma open_session_eq s sid remote local :
  exists t1 t2 s1, same_core (opened_state s sid (new_session remote local t1 t2)) s1 /\
    (forall x, session s1 x = session (opened_state s sid (new_session remote local t1 t2)) x) /\
    open_session sid remote local s = (Ok tt, s1).
Proof.
  exists (clock (sv_ticks s)), (clock (S (sv_ticks s))). eexists. split; [|split].
  3: unfold open_session, bind, now, modify, bump; reflexivity.
  - by constructor.
  - done.
Qed.

Lemma connect_safe remote local first handshake s :
  server_ok s ->
  let r := run_event (EvConnect remote local first handshake) s in
  r.1 <> Err Panic /\ server_ok r.2 /\ (tables_ok s -> tables_ok r.2).
Proof.
  intros Hs. cbv zeta. unfold run_event. rewrite bind_gets.
  set (sid := sv_conns s). set (s0 := set_sv_conns (S sid) s).
  assert (server_ok s0) as Hs0.
  { destruct Hs as [Hc Hb Hp Hn Ho Ha Hz Hk Hcap]. constructor; try done.
    intros x Hx. specialize (Ho x Hx). change (sv_conns s0) with (S sid). unfold sid. lia. }
  assert (sid ∉ sv_open s0) as Hnew.
  { intros Hx. pose proof (so_open s Hs sid Hx). unfold sid in *. lia. }
  rewrite (bind_ok (modify (set_sv_conns (S sid))) _ s tt s0) by done.
  destruct (quiet_admit_conn sid remote first handshake s0 I (so_pages _ Hs0)) as (Hc & Hp & Hn).
  assert (tables_ok s -> tables_ok s0) as Ht0 by (intros []; by constructor).
  destruct (admit_conn sid remote first handshake s0) as [[[|]|e] s1] eqn:E; cbn [fst snd] in *.
  - rewrite (bind_ok _ _ _ _ _ E).
    destruct (open_session_eq s1 sid (Some remote) local) as (t1 & t2 & s2 & Hc2 & Hsess & ->).
    cbn [fst snd]. split; [done|].
    assert (server_ok (opened_state s1 sid (new_session (Some remote) local t1 t2))) as Hs2.
    { apply opened_state_ok; [by eapply server_ok_core| |].
      - by rewrite (sc_conns _ _ Hc).
      - by rewrite (sc_open _ _ Hc). }
    split.
    + eapply server_ok_core; [done| |done]. intros x. rewrite Hsess, (sc_cfg _ _ Hc2). apply Hs2.
    + intros Ht. eapply tables_ok_core; [done|]. apply opened_state_tables.
      * by rewrite (sc_open _ _ Hc).
      * eapply tables_ok_core; [done|]. by apply Ht0.
  - rewrite (bind_ok _ _ _ _ _ E). cbn [ret fst snd]. split; [done|].
    split; [by eapply server_ok_core|]. intros Ht. eapply tables_ok_core; [done|]. by apply Ht0.
  - rewrite (bind_err _ _ _ _ _ E). cbn [fst snd]. split; [intros [= ->]; by apply Hn|].
    split; [by eapply server_ok_core|]. intros Ht. eapply tables_ok_core; [done|]. by apply Ht0.
Qed.

(** The catalog replaced by a valid one; counters and store changed. *)
Lemma set_catalog_ok c s : catalog_ok c -> server_ok s -> server_ok (set_sv_catalog c s).
Proof. intros Hc []. by constructor. Qed.

Lemma persist_core s :
  same_core s (persistCatalog s).2 /\ (forall x, session (persistCatalog s).2 x = session s x) /\
  (persistCatalog s).1 <> Err Panic.
Proof.
  unfold persistCatalog, bump, modify. destruct (write_ok (sv_writes s)); cbn [fst snd];
    (split; [by constructor|by split]).
Qed.

Lemma UpsertFile_safe record s :
  server_ok s ->
  let r := UpsertFile record s in
  r.1 <> Err Panic /\ server_ok r.2 /\ (tables_ok s -> tables_ok r.2).
Proof.
  intros Hs. cbv zeta. unfold UpsertFile. rewrite bind_gets.
  destruct (Catalog_Upsert (sv_catalog s) record) as [c'|e] eqn:E; [|unchanged].
  apply Upsert_invariant in E; [|apply Hs].
  set (s1 := set_sv_stats (upd (sv_stats s) FilesRegistered (add64 (sv_stats s FilesRegistered) 1))
               (set_sv_catalog c' s)).
  assert (server_ok s1) as Hs1.
  { apply (server_ok_core (set_sv_catalog c' s)); [by constructor|apply Hs|by apply set_catalog_ok]. }
  change ((modify (set_sv_catalog c') ;;; bump FilesRegistered 1 ;;; persistCatalog) s)
    with (persistCatalog s1).
  destruct (persist_core s1) as (Hc & Hx & Hn). split; [done|]. split.
  - eapply server_ok_core; [done| |done]. intros x. rewrite Hx, (sc_cfg _ _ Hc). apply Hs1.
  - intros []. eapply tables_ok_core; [done|]. by constructor.
Qed.

Lemma DeleteFile_safe h s :
  server_ok s ->
  let r := DeleteFile h s in
  r.1 <> Err Panic /\ server_ok r.2 /\ (tables_ok s -> tables_ok r.2).
Proof.
  intros Hs. cbv zeta. unfold DeleteFile. rewrite bind_gets.
  pose proof (Delete_invariant (sv_catalog s) h (so_catalog s Hs)) as Hcat.
  destruct (Catalog_Delete (sv_catalog s) h) as [c' deleted]. cbn [fst] in Hcat.
  destruct deleted; cbn [negb]; [|unchanged].
  set (s1 := set_sv_stats (upd (sv_stats s) FilesRemoved (add64 (sv_stats s FilesRemoved) 1))
               (set_sv_catalog c' s)).
  assert (server_ok s1) as Hs1.
  { apply (server_ok_core (set_sv_catalog c' s)); [by constructor|apply Hs|by apply set_catalog_ok]. }
  change ((modify (set_sv_catalog c') ;;; bump FilesRemoved 1 ;;; persistCatalog ;;; ret true) s)
    with ((persistCatalog ;;; ret true) s1).
  destruct (persist_core s1) as (Hc & Hx & Hn).
  assert ((persistCatalog ;;; ret true) s1 =
    (match (persistCatalog s1).1 with Ok _ => Ok true | Err e => Err e end, (persistCatalog s1).2)) as ->.
  { unfold bind. by destruct (persistCatalog s1) as [[]]. }
  cbn [fst snd]. split; [by destruct (persistCatalog s1).1; congruence|]. split.
  - eapply server_ok_core; [done| |done]. intros x. rewrite Hx, (sc_cfg _ _ Hc). apply Hs1.
  - intros []. eapply tables_ok_core; [done|]. by constructor.
Qed.

(** What keeps the tables exact: no session logs in twice. *)
Definition disciplined (s : Server) (ev : event) : Prop :=
  match ev with
  | EvFrame sid _ opcode _ _ => fresh_login sid opcode s
  | _ => True
  end.

Lemma run_event_safe ev s :
  server_ok s -> memory_ok s ->
  let r := run_event ev s in
  r.1 <> Err Panic /\ server_ok r.2 /\ (disciplined s ev -> tables_ok s -> tables_ok r.2).
Proof.
  intros Hs Hmem. cbv zeta. destruct ev as [remote local first hs|sid proto op body n|sid|record|h].
  - destruct (connect_safe remote local first hs s Hs) as (? & ? & ?). split; [done|]. split; [done|]. by intros _.
  - unfold run_event. rewrite bind_gets. case_bool_decide as Hopen; [|unchanged].
    apply (serve_or_close_safe sid proto op body n s Hopen Hs Hmem).
  - unfold run_event. rewrite bind_gets. case_bool_decide as Hopen; [|unchanged].
    rewrite close_conn_eq by done. split; [done|]. split; [by apply closed_state_ok|].
    intros _. by apply closed_state_tables.
  - destruct (UpsertFile_safe record s Hs) as (Hn & Hs' & Ht). unfold run_event, bind, try_.
    destruct (UpsertFile record s) as [r s1]. cbn [fst snd ret] in *.
    split; [done|]. split; [done|]. by intros _.
  - destruct (DeleteFile_safe h s Hs) as (Hn & Hs' & Ht). unfold run_event, bind, try_.
    destruct (DeleteFile h s) as [r s1]. cbn [fst snd ret] in *.
    split; [done|]. split; [done|]. by intros _.
Qed.
End invariants.
