(* ===== verification/ServerDemo.v ===== *)
(** * A concrete server

    A small world in which the definitions of [Server] evaluate: every packet
    can be encoded, every write succeeds, the clock ticks once per reading. The
    witnesses and the concrete runs of the development use it. *)

From S2P Require Import StateErr.
From S2P Require Import Prelude GoStrings GoSort GoNet Ed2kLib Ed2kRef Ed2kWire FileRecord.
From S2P Require Import Search SearchFacts Catalog CatalogFacts Config IdChange OfferFiles.
From S2P Require Import Sources PeerServers Limiter Text Frames AuditLog Server ServerFacts.
From S2P Require Import ServerInv.

Local Open Scope Z_scope.

#[export] Instance demo_combiner : @PacketCombiner ed2k_ref | 100 := { Pack := fun _ => Some [xe3] }.

#[export] Instance demo_world : World | 100 :=
  { clock := Z.of_nat; write_ok := fun _ => true; ResolveTCPPort := fun _ => Some 4661 }.

Definition demo_config : Config := apply_defaults DefaultConfig.

Definition demo_server : Server :=
  match NewServer demo_config (catalog_of demo_files) with
  | Ok s => s
  | Err _ => mkServer _ demo_config (catalog_of demo_files) None None (newPeerRegistry [])
               None (fun _ => new_session None None 0 0) 0 ∅ ∅ ∅ [] None 0 (fun _ => 0) [] 0 0 0
  end.

(** A client at 10.0.0.[n]. *)
Definition demo_addr (n : byte) : NetAddr := mkAddr [x0a; x00; x00; n] 5000.

Definition demo_connect (n : byte) : event :=
  EvConnect (demo_addr n) (Some (demo_addr xfe)) (Some xe3) false.

(** The body of a login request: the reference encoding starts with the hash
    and the endpoint. *)
Definition demo_login_body (n : byte) : bytes :=
  replicate 16 n ++ [x00; x00; x00; x00; x36; x12; x00; x00; x00; x00].

Definition demo_login (sid : nat) (n : byte) : event :=
  EvFrame sid EdonkeyHeader opLoginRequest (demo_login_body n) 30.

(** An offer of the file with hash [n...n], announced with [ip] and [port]. *)
Definition demo_entry (n : byte) (ip port : Z) : SharedFileEntry :=
  mkEntry _ (replicate 16 n) ip port
    [NewStringTag FTFilename (lit "Shared.avi"); NewUInt32Tag FTFileSize 700].

Definition demo_offer (sid : nat) (entries : list SharedFileEntry) : event :=
  EvFrame sid EdonkeyHeader opOfferFiles
    (match OfferFiles_Put (mkOffer _ entries) with Some b => b | None => [] end) 80.

(** The state after some events. *)
Definition demo_run (evs : list event) : Server := (run_events evs demo_server).2.

(** Two clients log in, and the first shares a file. *)
Definition demo_two : list event :=
  [demo_connect x01; demo_login 0 xa1; demo_connect x02; demo_login 1 xb2;
   demo_offer 0 [demo_entry x77 0 0]].
