(* ===== verification/Locks.v ===== *)
(** * The handlers with their locks (ed2ksrv/server.go, catalog.go, audit.go)

    Every request as the goroutine that serves it: which locks it takes and
    releases, and what it reads and writes of the shared state in between. The
    handlers of [Server] are what these programs do when nobody else runs. *)

From S2P Require Import StateErr Threads.
From S2P Require Import Prelude GoStrings GoSort GoNet Ed2kLib Ed2kWire FileRecord Search Catalog.
From S2P Require Import Config IdChange OfferFiles Sources PeerServers Limiter Text Frames AuditLog.
From S2P Require Import Server Snapshots.

Local Open Scope Z_scope.
Local Open Scope srv_scope.

(** The locks: [Server.mu], [Catalog.mu], [clientSession.mu] and
    [clientSession.writeMu] of each connection, those of the tracer, of the
    limiters and of the peer registry. *)
Inductive mutex :=
| MuServer
| MuCatalog
| MuClient (sid : nat)
| MuWrite (sid : nat)
| MuTracer
| MuConnLimiter
| MuCallbackLimiter
| MuPeers.

#[export] Instance mutex_eq_dec : EqDecision mutex.
Proof. solve_decision. Defined.

Section locks.
Context {L : Ed2kLib} {W : Ed2kWire} {U : UnicodeTables} {MI : MapIter} {D : TextDecoder}.
Context {ZL : Zlib} {PC : PacketCombiner} {WD : World} {SS : SliceSort}.

(** Whether frames are traced to a file. *)
Context (tracing : bool).

Definition P (A : Type) : Type := prog Server srvErr mutex A.

(** ** Counters and writing *)

(** [bumpCounter] *)
Definition bumpCounter (m : M unit) : P unit := locked MuServer (atomically m).

(** [tracer.record]: the lock of the trace file. *)
Definition trace_record : P unit := if tracing then locked MuTracer (pret tt) else pret tt.

Definition noteOutbound_l (sid : nat) (frameBytes : Z) : P unit :=
  locked (MuClient sid) (atomically (noteOutbound sid frameBytes)).

Definition count_outbound (n : Z) : P unit :=
  bumpCounter (bump OutboundPackets 1 ;;; bump OutboundBytes n).

Definition sendLocked (sid : nat) (packet : Packet) : P unit :=
  do* raw := pof_option (Pack packet) ErrPack in
  (if 6 <=? len raw then trace_record else pret tt) ;*
  let wire := maybePackFrame raw in
  noteOutbound_l sid (len wire) ;*
  count_outbound (len wire) ;*
  atomically (conn_write sid (SentPacket packet)).

Definition send_l (sid : nat) (packet : Packet) : P unit := locked (MuWrite sid) (sendLocked sid packet).

Definition sendRawEd2k_l (sid : nat) (opcode : byte) (body : bytes) : P unit :=
  locked (MuWrite sid) (
    let raw := PacketHeader_Put EdonkeyHeader opcode (to_int32 (len body + 1)) ++ body in
    noteOutbound_l sid (len raw) ;*
    count_outbound (len raw) ;*
    trace_record ;*
    atomically (conn_write sid (SentRaw opcode body))).

Definition sendFoundSourcesObfuscated_l (sid : nat) (h : Hash) (sources : list foundSourceEntry)
    : P unit :=
  sendRawEd2k_l sid opFoundSourcesObfu
    (WriteHash h ++ [byte_of_Z (len sources)] ++ flat_map source_block sources).

(** ** Counting and finding *)

Definition clientCount_l : P Z := rlocked MuServer (atomically (gets clientCount)).

(** The catalog counts its files under its own lock, inside the server's. *)
Definition Catalog_Count_l : P Z :=
  rlocked MuCatalog (atomically (gets (fun s => Catalog_Count (sv_catalog s)))).

Definition currentFilesCount_l : P Z :=
  rlocked MuServer (
    do* files := Catalog_Count_l in
    do* shared := atomically (gets (fun s => Z.of_nat (size (sv_dynamicFiles s)))) in
    pret (to_int (files + shared))).

Definition findClient_l (clientID : Z) : P (option nat) :=
  rlocked MuServer (atomically (gets (fun s => findClient s clientID))).

Definition send_status_l (sid : nat) : P unit :=
  do* users := clientCount_l in
  do* files := currentFilesCount_l in
  send_l sid (PktStatus (to_int32 users) (to_int32 files)).

Definition serverTCPPort_l : P Z := rlocked MuServer (atomically (gets serverTCPPort)).

(** The configuration does not change: it has no lock. *)
Definition config_l : P Config := atomically (gets sv_cfg).

(** ** Login *)

(** The first free ID from [nextID] on. *)
Definition next_free_id : M Z := fun s =>
  match free_id (S (size (sv_clients s))) (sv_clients s) (sv_nextID s) with
  | Some id => (Ok id, set_sv_nextID (to_int32 (id + 1)) s)
  | None => (Err Panic, s)
  end.

Definition id_is_free (clientID : Z) (s : Server) : bool :=
  match sv_clients s !! clientID with None => true | Some _ => false end.

Definition allocateClientID_l (addr : option NetAddr) : P Z :=
  let clientID := clientIDFromRemote addr in
  do* free := (if clientID =? 0 then pret false
               else rlocked MuServer (atomically (gets (id_is_free clientID)))) in
  if free : bool then pret clientID else locked MuServer (atomically next_free_id).

Definition registerClient_l (sid : nat) : P unit :=
  do* assignedID := locked (MuClient sid) (atomically (gets (fun s => cs_assignedID (session s sid)))) in
  if assignedID =? 0 then pret tt else
  locked MuServer (atomically (modify (fun s => set_sv_clients (<[assignedID := sid]> (sv_clients s)) s))).

(** The ID is allocated while the session is locked: the lock of the server is
    taken inside the lock of a session. The fields, which nobody can see before
    the lock is released, are written together. *)
Definition login_fields (sid : nat) (h : Hash) (point : Endpoint) (properties : list Tag) : P Z :=
  locked (MuClient sid) (
    do* remote := atomically (gets (fun s => cs_remote (session s sid))) in
    do* id := allocateClientID_l remote in
    atomically (modify_session sid (set_login h (extractClientConnectOptions properties) point
                                      (extractClientName properties) id)) ;*
    pret id).

Definition handleLogin_l (sid : nat) (h : Hash) (point : Endpoint) (properties : list Tag) : P unit :=
  do* id := login_fields sid h point properties in
  registerClient_l sid ;*
  send_status_l sid ;*
  do* cfg := config_l in
  (if negb (bytes_eqb (Message cfg) []) then send_l sid (PktMessage (Message cfg)) else pret tt) ;*
  do* port := serverTCPPort_l in
  send_l sid (PktIdChange (mkIdChange id (TCPFlags cfg) (AuxPort cfg) (reportedIPForIdChange id)
                             (obfuscationTCPPortAdvertised cfg port))).

Definition handleGetServerList_l (sid : nat) : P unit :=
  send_status_l sid ;*
  do* cfg := config_l in
  (if negb (bytes_eqb (ServerDescription cfg) [])
   then send_l sid (PktMessage (ServerDescription cfg)) else pret tt) ;*
  do* local := atomically (gets (fun s => cs_local (session s sid))) in
  match local with
  | None => pret tt
  | Some addr =>
    do* port := serverTCPPort_l in
    match buildServerListBody (addr_IP addr) port (PeerServers cfg) with
    | Some body => sendRawEd2k_l sid opServerList body
    | None => pret tt
    end
  end.

(** ** Offers *)

(** The offers of a session are taken out under its lock, and withdrawn from the
    table of files under the server's. *)
Definition take_offers (sid : nat) : M (list FileRecord) :=
  do! records := gets (fun s => map snd (range_map (cs_offeredFiles (session s sid)))) in
  modify_session sid (set_offered ∅) ;;;
  ret records.

Definition remove_dynamic (clientID : Z) (records : list FileRecord) : M unit :=
  modify (fun s => set_sv_dynamicFiles
    (foldl (fun d record => removeDynamicLocked clientID (fr_Hash record) d)
           (sv_dynamicFiles s) records) s).

Definition removeClientOfferedFiles_l (clientID : Z) : P unit :=
  do* client := findClient_l clientID in
  match client with
  | None => pret tt
  | Some sid =>
    do* records := locked (MuClient sid) (atomically (take_offers sid)) in
    locked MuServer (atomically (remove_dynamic clientID records))
  end.

Definition merge_offers (sid : nat) (records : list FileRecord) : M merge_state :=
  do! offered := gets (fun s => cs_offeredFiles (session s sid)) in
  do! max := gets (fun s => MaxOfferedFilesPerClient (sv_cfg s)) in
  let st := foldl (merge_record max) (mkMerge offered [] [] 0) records in
  modify_session sid (set_offered (mg_offered st)) ;;;
  ret st.

Definition publish_offers (clientID : Z) (st : merge_state) : M unit :=
  modify (fun s =>
    let d := foldl (fun d record => removeDynamicLocked clientID (fr_Hash record) d)
                   (sv_dynamicFiles s) (mg_previous st) in
    set_sv_dynamicFiles
      (foldl (fun d record => addDynamicLocked clientID record d) d (mg_accepted st)) s).

Definition mergeClientOfferedFiles_l (clientID : Z) (records : list FileRecord) : P (Z * Z) :=
  do* client := findClient_l clientID in
  match client with
  | None => pret (0, 0)
  | Some sid =>
    match records with
    | [] => removeClientOfferedFiles_l clientID ;* pret (0, 0)
    | _ =>
      do* st := locked (MuClient sid) (atomically (merge_offers sid records)) in
      locked MuServer (atomically (publish_offers clientID st)) ;*
      pret (len (mg_accepted st), mg_dropped st)
    end
  end.

Definition handleOfferFiles_l (sid : nat) (req : OfferFiles) : P unit :=
  do* c := locked (MuClient sid) (atomically (gets (fun s => session s sid))) in
  let clientID := cs_assignedID c in
  if clientID =? 0 then pfail ErrNotLoggedIn else
  match offer_records clientID (Endpoint_Port (cs_loginPoint c)) (offer_remote_host c)
          (of_Entries req) with
  | Err e => pfail (ErrOffer e)
  | Ok records =>
    do* (accepted, dropped) := mergeClientOfferedFiles_l clientID records in
    bumpCounter (bump FilesRegistered accepted ;;; bump OfferFilesDropped dropped) ;*
    send_status_l sid
  end.

(** ** Search *)

Definition shared_results (query : SearchQuery) (s : Server) : list SharedFileEntry :=
  omap (fun '(_, shared) =>
          let record := materialize shared in
          if matchesRecord record query then Some (makeSharedFileEntry record) else None)
       (range_map (sv_dynamicFiles s)).

(** The catalog's results, then those of the shared files, under two locks. *)
Definition searchAll_l (query : SearchQuery) : P (list SharedFileEntry) :=
  do* found := rlocked MuCatalog (atomically (gets (fun s => Catalog_Search (sv_catalog s) query))) in
  do* results := pof_option found Panic in
  do* shared := rlocked MuServer (atomically (gets (shared_results query))) in
  pret (results ++ shared).

(** The page that [handleSearchMore] sends next. *)
Definition next_page (sid : nat) : M Packet :=
  do! c := gets (fun s => session s sid) in
  if (len (cs_searchResult c) =? 0) || (len (cs_searchResult c) <=? cs_searchOffset c)
  then ret empty_result else
  do! batch := gets (fun s => SearchBatchSize (sv_cfg s)) in
  let fin := to_int (cs_searchOffset c + batch) in
  let fin := if len (cs_searchResult c) <? fin then len (cs_searchResult c) else fin in
  do! results := of_option (slice (cs_searchResult c) (cs_searchOffset c) fin) Panic in
  modify_session sid (set_search (cs_searchResult c) fin) ;;;
  ret (PktSearchResult results (fin <? len (cs_searchResult c))).

Definition handleSearchMore_l (sid : nat) : P unit :=
  do* packet := locked (MuClient sid) (atomically (next_page sid)) in
  bumpCounter (bump SearchResultPackets 1) ;*
  send_l sid packet.

Definition note_l (sid : nat) (k : session_counter) : P unit :=
  locked (MuClient sid) (atomically (do! t := now in modify_session sid (touch t [(k, 1)]))).

Definition handleSearch_l (sid : nat) (query : SearchQuery) : P unit :=
  do* logged := locked (MuClient sid) (atomically (gets (fun s => loggedIn (session s sid)))) in
  if negb logged then send_l sid empty_result else
  do* found := searchAll_l query in
  do* cfg := config_l in
  let results := capSearchResults found (MaxTCPSearchResults cfg) in
  note_l sid ses_searchRequests ;*
  bumpCounter (bump SearchRequests 1 ;;; bump SearchResultEntries (len results)) ;*
  locked (MuClient sid) (atomically (modify_session sid (set_search results 0))) ;*
  handleSearchMore_l sid.

(** ** Sources *)

(** The loop over the clients that share a file: it runs with the lock of the
    server, and takes the lock of each client whose obfuscation is asked for. *)
Fixpoint dynamic_sources_l (obfuscated : bool) (sources : list (Z * SourceEntry))
    : P (list foundSourceEntry) :=
  match sources with
  | [] => pret []
  | (clientID, source) :: sources' =>
    match EndpointFromString (se_Host source) (se_Port source) with
    | None => dynamic_sources_l obfuscated sources'
    | Some endpoint =>
      do* client := (if obfuscated then atomically (gets (fun s => findClient s clientID))
                     else pret None) in
      do* (options, userHash) := match client with
        | Some sid => locked (MuClient sid)
                        (atomically (gets (fun s => sourceObfuscationMetadata (session s sid))))
        | None => pret (0, None)
        end in
      do* found := dynamic_sources_l obfuscated sources' in
      pret (mkFound _ (Endpoint_IP endpoint) (Endpoint_Port endpoint) options userHash :: found)
    end
  end.

Definition sourcesAll_l (h : Hash) (obfuscated : bool) : P (list foundSourceEntry) :=
  do* record := rlocked MuCatalog (atomically (gets (fun s => Catalog_Get (sv_catalog s) h))) in
  let static := match record with
    | Some record => omap (static_source obfuscated) (fr_Endpoints record)
    | None => []
    end in
  do* dynamic := rlocked MuServer (
    do* shared := atomically (gets (fun s => sv_dynamicFiles s !! Hash_String h)) in
    match shared with
    | Some shared => dynamic_sources_l obfuscated (range_map (dyn_byClient shared))
    | None => pret []
    end) in
  pret (static ++ dynamic).

Definition handleGetSources_l (sid : nat) (h : Hash) (obfuscatedReply : bool) : P unit :=
  do* all := sourcesAll_l h obfuscatedReply in
  do* cfg := config_l in
  let sources := orderAndCapSources all (MaxSourcesPerReply cfg) in
  note_l sid ses_sourceRequests ;*
  bumpCounter (bump SourceRequests 1) ;*
  if obfuscatedReply then sendFoundSourcesObfuscated_l sid h sources
  else send_l sid (PktFoundFileSources h
         (map (fun source => NewEndpoint (fs_ClientID source) (fs_Port source)) sources)).

(** ** Callbacks *)

Definition take_token (t : Z) (ip : bytes) : M bool :=
  do! limiter := gets sv_callbackLimiter in
  match limiter with
  | None => ret true
  | Some l =>
    let '(l', ok) := allow l t ip in
    modify (set_sv_callbackLimiter (Some l')) ;;;
    ret ok
  end.

(** The limiter is there or not from the start; it reads the clock before it
    takes its lock. *)
Definition allow_callback_l (ip : bytes) : P bool :=
  do* limiter := atomically (gets sv_callbackLimiter) in
  match limiter with
  | None => pret true
  | Some _ =>
    do* t := atomically now in
    locked MuCallbackLimiter (atomically (take_token t ip))
  end.

(** The request is relayed with the lock of the target's connection. *)
Definition handleCallback_l (sid : nat) (clientID : Z) : P unit :=
  do* remote := atomically (gets (fun s => remote_host (session s sid))) in
  do* ok := allow_callback_l remote in
  if negb ok then
    bumpCounter (bump CallbackRateLimited 1) ;*
    send_l sid PktCallbackRequestFailed
  else
    note_l sid ses_callbackRequests ;*
    bumpCounter (bump CallbackRequests 1) ;*
    do* target := findClient_l clientID in
    match target with
    | None => send_l sid PktCallbackRequestFailed
    | Some target =>
      do* c := locked (MuClient sid) (atomically (gets (fun s => session s sid))) in
      let origin := NewEndpoint (cs_assignedID c) (Endpoint_Port (cs_loginPoint c)) in
      do* r := ptry (send_l target (PktCallbackRequestIncoming origin)) in
      match r with
      | Ok _ => pret tt
      | Err _ => send_l sid PktCallbackRequestFailed
      end
    end.

(** ** Connections *)

Definition dispatch_l (sid : nat) (packet : byte) (body : bytes) : P unit :=
  if byte_eqb packet opLoginRequest then
    do* (h, point, properties) := pof_option (LoginRequest_Get body) ErrDecode in
    handleLogin_l sid h point properties
  else if byte_eqb packet opGetServerList then handleGetServerList_l sid
  else if byte_eqb packet opOfferFiles then
    do* (req, _) := pof_option (OfferFiles_Get body) ErrDecode in
    handleOfferFiles_l sid req
  else if byte_eqb packet opSearchRequest then
    match ParseSearchRequest body with
    | Ok query => handleSearch_l sid query
    | Err _ => handleSearch_l sid (query_of_root searchMatchNoneExpr)
    end
  else if byte_eqb packet opSearchMore then handleSearchMore_l sid
  else if byte_eqb packet opGetSources then
    do* h := pof_option (GetFileSources_Get body) ErrDecode in
    handleGetSources_l sid h false
  else if byte_eqb packet opGetSourcesObfu then
    do* h := pof_option (GetFileSources_Get body) ErrDecode in
    handleGetSources_l sid h true
  else if byte_eqb packet opCallbackReq then
    do* id := pof_option (CallbackRequest_Get body) ErrDecode in
    handleCallback_l sid id
  else if byte_eqb packet opDisconnect then pfail ErrEOF
  else pret tt.

Definition noteInbound_l (sid : nat) (frameBytes : Z) : P unit :=
  locked (MuClient sid) (atomically (
    do! t := now in
    modify_session sid (touch t [(ses_inboundPackets, 1); (ses_inboundBytes, frameBytes)]))).

Definition serve_frame_l (sid : nat) (proto opcode : byte) (body : bytes) (frameBytes : Z) : P unit :=
  noteInbound_l sid frameBytes ;*
  bumpCounter (bump InboundPackets 1 ;;; bump InboundBytes frameBytes) ;*
  trace_record ;*
  if negb (byte_eqb proto EdonkeyHeader) then pfail ErrEOF
  else dispatch_l sid opcode body.

Definition unregisterClient_l (sid : nat) : P unit :=
  do* assignedID := locked (MuClient sid) (atomically (gets (fun s => cs_assignedID (session s sid)))) in
  bumpCounter (bump TotalDisconnects 1) ;*
  (if negb (assignedID =? 0) then removeClientOfferedFiles_l assignedID else pret tt) ;*
  if assignedID =? 0 then pret tt else
  locked MuServer (atomically (modify (fun s =>
    match sv_clients s !! assignedID with
    | Some existing => if (existing =? sid)%nat
                       then set_sv_clients (delete assignedID (sv_clients s)) s else s
    | None => s
    end))).

Definition close_conn_l (sid : nat) : P unit :=
  unregisterClient_l sid ;*
  atomically (modify (fun s => set_sv_open (sv_open s ∖ {[sid]}) s)).

Definition take_conn_token (t : Z) (ip : bytes) : M bool :=
  do! limiter := gets sv_connLimiter in
  match limiter with
  | None => ret true
  | Some l =>
    let '(l', ok) := allow l t ip in
    modify (set_sv_connLimiter (Some l')) ;;;
    ret ok
  end.

Definition admit_conn_l (sid : nat) (remote : NetAddr) (first : option byte) (handshake : bool)
    : P bool :=
  do* limiter := atomically (gets sv_connLimiter) in
  do* ok := match limiter with
            | None => pret true
            | Some _ =>
              do* t := atomically now in
              locked MuConnLimiter (atomically (take_conn_token t (IP_String (addr_IP remote))))
            end in
  if negb ok then bumpCounter (bump ConnRateLimited 1) ;* pret false else
  match first with
  | None => pret false
  | Some b =>
    do* cfg := config_l in
    if ProtocolObfuscation cfg && negb (isPlainEd2kFirstByte b) then pret handshake
    else if negb (isPlainEd2kFirstByte b) then
      (if isHTTPMethodStart b then
         bumpCounter (bump HTTPProbes 1) ;*
         do* _ := ptry (atomically (conn_write sid (SentBytes http_reply))) in pret tt
       else pret tt) ;*
      pret false
    else pret true
  end.

(** A session that nobody else knows yet. *)
Definition make_session (sid : nat) (remote local : option NetAddr) : M unit :=
  do! t1 := now in
  do! t2 := now in
  modify (fun s =>
    set_sv_open ({[sid]} ∪ sv_open s)
      (set_sv_sessions (upd (sv_sessions s) sid (new_session remote local t1 t2)) s)).

Definition open_session_l (sid : nat) (remote local : option NetAddr) : P unit :=
  atomically (make_session sid remote local) ;*
  bumpCounter (bump TotalConnections 1).

(** A frame as it is read: protocol, opcode, body, and its length on the wire. *)
Definition frame : Type := byte * byte * bytes * Z.

(** The loop of [handleConn] until the stream ends or a request fails; a panic
    ends the process. *)
Fixpoint serve_frames_l (sid : nat) (frames : list frame) : P unit :=
  match frames with
  | [] => close_conn_l sid
  | (proto, opcode, body, frameBytes) :: frames' =>
    do* r := ptry (serve_frame_l sid proto opcode body frameBytes) in
    match r with
    | Ok _ => serve_frames_l sid frames'
    | Err Panic => pfail Panic
    | Err _ => close_conn_l sid
    end
  end.

Definition handleConn_l (sid : nat) (remote : NetAddr) (local : option NetAddr) (first : option byte)
    (handshake : bool) (frames : list frame) : P unit :=
  do* ok := admit_conn_l sid remote first handshake in
  if ok then open_session_l sid (Some remote) local ;* serve_frames_l sid frames else pret tt.

(** ** Administration *)

(** [store.Save]: the copy of the files is written without a lock. *)
Definition store_write (files : list FileRecord) : M unit := fun s =>
  let ok := write_ok (sv_writes s) in
  let s := set_sv_writes (S (sv_writes s)) s in
  if ok then (Ok tt, set_sv_saved (Some files) s) else (Err ErrSave, s).

Definition Catalog_Save_l : P unit :=
  do* files := rlocked MuCatalog (atomically (gets (fun s => Catalog_Snapshot (sv_catalog s)))) in
  atomically (store_write files).

Definition persistCatalog_l : P unit := Catalog_Save_l ;* bumpCounter (bump PersistWrites 1).

(** The fields of the catalog, each written by a step of its own. *)
Definition set_cat_files (files : list FileRecord) (c : Catalog) : Catalog :=
  mkCatalog _ (cat_path c) (cat_store c) files (cat_byHash c) (cat_triIndex c).
Definition set_cat_byHash (byHash : gmap bytes FileRecord) (c : Catalog) : Catalog :=
  mkCatalog _ (cat_path c) (cat_store c) (cat_files c) byHash (cat_triIndex c).
Definition set_cat_triIndex (index : gmap bytes (list nat)) (c : Catalog) : Catalog :=
  mkCatalog _ (cat_path c) (cat_store c) (cat_files c) (cat_byHash c) index.

Definition read_catalog {A} (f : Catalog -> A) : P A := atomically (gets (fun s => f (sv_catalog s))).

Definition write_catalog (f : Catalog -> Catalog) : P unit :=
  atomically (modify (fun s => set_sv_catalog (f (sv_catalog s)) s)).

(** The index is computed from the files, then it replaces the old one. *)
Definition rebuildSearchIndexLocked_l : P unit :=
  do* files := read_catalog cat_files in
  write_catalog (set_cat_triIndex (build_index 0 files ∅)).

Definition has_key (key : bytes) (c : Catalog) : bool :=
  match cat_byHash c !! key with Some _ => true | None => false end.

(** [Catalog.Upsert] once the record is normalised. *)
Definition Catalog_Upsert_l (normalized : FileRecord) : P unit :=
  let key := Hash_String (fr_Hash normalized) in
  locked MuCatalog (
    do* known := read_catalog (has_key key) in
    (if known : bool
     then write_catalog (fun c => set_cat_files (replace_first (cat_files c) normalized) c)
     else write_catalog (fun c => set_cat_files (cat_files c ++ [normalized]) c)) ;*
    write_catalog (fun c => set_cat_byHash (<[key := normalized]> (cat_byHash c)) c) ;*
    rebuildSearchIndexLocked_l).

(** The record is normalised before the catalog is locked. *)
Definition UpsertFile_l (record : FileRecord) : P unit :=
  match normalizeFileRecord record with
  | Err e => pfail (ErrUpsert e)
  | Ok normalized =>
    Catalog_Upsert_l normalized ;*
    bumpCounter (bump FilesRegistered 1) ;*
    persistCatalog_l
  end.

Definition Catalog_Delete_l (hash : Hash) : P bool :=
  let key := Hash_String hash in
  locked MuCatalog (
    do* known := read_catalog (has_key key) in
    if negb known then pret false else
    write_catalog (fun c => set_cat_byHash (delete key (cat_byHash c)) c) ;*
    write_catalog (fun c => set_cat_files (delete_first (cat_files c) hash) c) ;*
    rebuildSearchIndexLocked_l ;*
    pret true).

Definition DeleteFile_l (h : Hash) : P bool :=
  do* deleted := Catalog_Delete_l h in
  if negb deleted then pret false else
  bumpCounter (bump FilesRemoved 1) ;*
  persistCatalog_l ;*
  pret true.

Definition appendAudit_l (entry : AuditEntry) : P unit :=
  do* t := atomically now in
  locked MuServer (atomically (modify (fun s =>
    set_sv_auditLog (appendAudit (sv_auditLog s) t entry) s))).

(** ** Views *)

Definition StatsSnapshot_l : P ServerStats :=
  rlocked MuServer (
    do* files := Catalog_Count_l in
    do* stats := atomically (gets (fun s => mkStats (sv_startedAt s) (clientCount s)
      (to_int (files + Z.of_nat (size (sv_dynamicFiles s)))) (sv_stats s) 0)) in
    do* peers := locked MuPeers (atomically (gets (fun s => registry_len (sv_peers s)))) in
    pret (mkStats (st_StartedAt stats) (st_CurrentClients stats) (st_CurrentFiles stats)
            (st_Counters stats) peers)).

Definition snapshot_l (sid : nat) : P ClientSnapshot :=
  locked (MuClient sid) (atomically (gets (fun s => snapshot (session s sid)))).

(** The sessions are locked one by one, after the server's lock is released. *)
Fixpoint snapshots_l (clients : list nat) : P (list ClientSnapshot) :=
  match clients with
  | [] => pret []
  | sid :: clients' =>
    do* snap := snapshot_l sid in
    do* snaps := snapshots_l clients' in
    pret (snap :: snaps)
  end.

Definition ClientsSnapshot_l : P (list ClientSnapshot) :=
  do* clients := rlocked MuServer (atomically (gets (fun s => map snd (range_map (sv_clients s))))) in
  do* snaps := snapshots_l clients in
  pret (Slice (fun a b => sn_ClientID a <? sn_ClientID b) snaps).

Definition FilesSnapshot_l : P (list FileRecord) :=
  do* files := rlocked MuCatalog (atomically (gets (fun s => Catalog_Snapshot (sv_catalog s)))) in
  do* shared := rlocked MuServer (atomically (gets (fun s =>
    map (fun e => materialize e.2) (range_map (sv_dynamicFiles s))))) in
  pret (files ++ shared).

Definition FileSnapshot_l (hash : Hash) : P (option FileRecord) :=
  do* record := rlocked MuCatalog (atomically (gets (fun s => Catalog_Get (sv_catalog s) hash))) in
  match record with
  | Some record => pret (Some record)
  | None => rlocked MuServer (atomically (gets (fun s =>
              materialize <$> sv_dynamicFiles s !! Hash_String hash)))
  end.

Definition ClientSnapshotByID_l (clientID : Z) : P (option ClientSnapshot) :=
  do* client := findClient_l clientID in
  match client with
  | None => pret None
  | Some sid => do* snap := snapshot_l sid in pret (Some snap)
  end.

Definition AuditSnapshot_l : P (list AuditEntry) :=
  do* entries := rlocked MuServer (atomically (gets sv_auditLog)) in
  pret (AuditSnapshot entries).

(** ** Goroutines *)

Inductive goroutine :=
| GoConn (sid : nat) (remote : NetAddr) (local : option NetAddr) (first : option byte)
    (handshake : bool) (frames : list frame)
| GoUpsert (record : FileRecord)
| GoDelete (h : Hash)
| GoPersist
| GoAudit (entry : AuditEntry)
| GoStats
| GoClients
| GoClient (clientID : Z)
| GoFiles
| GoFile (h : Hash)
| GoAuditLog
| GoSearch (query : SearchQuery)
| GoSources (h : Hash).

(** What a goroutine leaves: whether a deletion found its file. *)
Definition ended {A} (p : P A) : P bool := do* _ := p in pret true.

(** [GoSearch] and [GoSources] are what the UDP service asks of the server. *)
Definition program (g : goroutine) : P bool :=
  match g with
  | GoConn sid remote local first handshake frames =>
    ended (handleConn_l sid remote local first handshake frames)
  | GoUpsert record => ended (UpsertFile_l record)
  | GoDelete h => DeleteFile_l h
  | GoPersist => ended persistCatalog_l
  | GoAudit entry => ended (appendAudit_l entry)
  | GoStats => ended StatsSnapshot_l
  | GoClients => ended ClientsSnapshot_l
  | GoClient clientID => ended (ClientSnapshotByID_l clientID)
  | GoFiles => ended FilesSnapshot_l
  | GoFile h => ended (FileSnapshot_l h)
  | GoAuditLog => ended AuditSnapshot_l
  | GoSearch query => ended (searchAll_l query)
  | GoSources h => ended (sourcesAll_l h false)
  end.

Definition pool (gs : list goroutine) : list (thread Server srvErr mutex bool) :=
  map (fun g => start (program g)) gs.
End locks.
