(* ===== verification/LocksFacts.v ===== *)
(** * The handlers with their locks do what the handlers do

    Every program of [Locks] that runs alone is the operation of [Server] it was
    made from, and the goroutine of a connection is its events. *)

From S2P Require Import StateErr Threads.
From S2P Require Import Prelude GoStrings GoSort GoNet Ed2kLib Ed2kRef Ed2kWire FileRecord Search Catalog.
From S2P Require Import Config IdChange OfferFiles Sources PeerServers Limiter Text Frames AuditLog.
From S2P Require Import Server Snapshots FrameRule ServerDemo Locks.

Local Open Scope Z_scope.
Local Open Scope srv_scope.

Section implementation.
Context {L : Ed2kLib} {W : Ed2kWire} {U : UnicodeTables} {MI : MapIter} {D : TextDecoder}.
Context {ZL : Zlib} {PC : PacketCombiner} {WD : World} {SS : SliceSort}.
Context (tracing : bool).

Lemma implements_if {A} (b : bool) (p q : P A) m n :
  implements p m -> implements q n -> implements (if b then p else q) (if b then m else n).
Proof. by destruct b. Qed.

(** The programs whose operations are known. *)
Ltac impl_known := fail.

(** Follows the program, with the lemmas for its parts. *)
Ltac impl_step :=
  lazymatch goal with
  | |- implements (let _ := _ in _) _ => cbv zeta
  | |- implements (if _ then _ else _) _ => apply implements_if
  | |- implements (pbind _ _) _ => apply implements_bind; [|intros]
  | |- implements (locked _ _) _ => apply implements_locked
  | |- implements (rlocked _ _) _ => apply implements_rlocked
  | |- implements (ptry _) _ => apply implements_try
  | |- implements (atomically _) _ => apply implements_atomically
  | |- implements (pret _) _ => apply implements_ret
  | |- implements (pfail _) _ => apply implements_fail
  | |- implements (pof_option _ _) _ => apply implements_of_option
  | |- implements _ _ => impl_known
  end.

Ltac impl := repeat impl_step.

(** What the program does, up to the grouping of its steps. *)
Ltac follow := eapply implements_ext; [impl|].

(** Runs both sides to the next operation whose outcome is open. *)
Ltac same_run := cbv beta iota zeta delta [bind ret fail gets modify of_option try_];
  repeat first
    [ reflexivity
    | match goal with |- context [match ?x with _ => _ end] =>
        lazymatch x with
        | context [match _ with _ => _ end] => fail
        | _ => destruct x; cbv beta iota
        end
      end ].

Lemma trace_record_impl : implements (trace_record tracing) (ret tt).
Proof. unfold trace_record. destruct tracing; auto with locks. Qed.
Ltac impl_known ::= first [ apply trace_record_impl ].

Lemma bumpCounter_impl m : implements (bumpCounter m) m.
Proof. unfold bumpCounter. auto with locks. Qed.
Ltac impl_known ::= first [ apply trace_record_impl | apply bumpCounter_impl ].

Lemma config_impl : implements config_l (gets sv_cfg).
Proof. unfold config_l. auto with locks. Qed.
Ltac impl_known ::= first [ apply trace_record_impl | apply bumpCounter_impl | apply config_impl ].

Lemma findClient_impl id : implements (findClient_l id) (gets (fun s => findClient s id)).
Proof. unfold findClient_l. auto with locks. Qed.
Ltac impl_known ::= first [ apply trace_record_impl | apply bumpCounter_impl | apply config_impl | apply findClient_impl ].

Lemma serverTCPPort_impl : implements serverTCPPort_l (gets serverTCPPort).
Proof. unfold serverTCPPort_l. auto with locks. Qed.
Ltac impl_known ::= first [ apply trace_record_impl | apply bumpCounter_impl | apply config_impl | apply findClient_impl | apply serverTCPPort_impl ].

Lemma send_impl sid packet : implements (send_l tracing sid packet) (send sid packet).
Proof.
  unfold send_l, sendLocked, noteOutbound_l, count_outbound. follow. intros s. unfold send.
  destruct (Pack packet) as [raw|]; [|done]. unfold bind, of_option, ret.
  by destruct (6 <=? len raw).
Qed.
Ltac impl_known ::= first [ apply trace_record_impl | apply bumpCounter_impl | apply config_impl | apply findClient_impl | apply serverTCPPort_impl | apply send_impl ].

Lemma sendRawEd2k_impl sid opcode body :
  implements (sendRawEd2k_l tracing sid opcode body) (sendRawEd2k sid opcode body).
Proof. unfold sendRawEd2k_l, noteOutbound_l, count_outbound. follow. done. Qed.
Ltac impl_known ::= first [ apply trace_record_impl | apply bumpCounter_impl | apply config_impl | apply findClient_impl | apply serverTCPPort_impl | apply send_impl | apply sendRawEd2k_impl ].

Lemma send_status_impl sid : implements (send_status_l tracing sid) (send_status sid).
Proof.
  unfold send_status_l, clientCount_l, currentFilesCount_l, Catalog_Count_l. follow. done.
Qed.
Ltac impl_known ::= first [ apply trace_record_impl | apply bumpCounter_impl | apply config_impl | apply findClient_impl | apply serverTCPPort_impl | apply send_impl | apply sendRawEd2k_impl | apply send_status_impl ].

Lemma allocateClientID_impl addr : implements (allocateClientID_l addr) (allocateClientID addr).
Proof.
  unfold allocateClientID_l. follow. intros s. unfold allocateClientID, id_is_free, next_free_id.
  destruct (clientIDFromRemote addr =? 0); cbn [negb andb]; [done|].
  unfold bind, gets. by destruct (sv_clients s !! clientIDFromRemote addr).
Qed.
Ltac impl_known ::= first [ apply trace_record_impl | apply bumpCounter_impl | apply config_impl | apply findClient_impl | apply serverTCPPort_impl | apply send_impl | apply sendRawEd2k_impl | apply send_status_impl | apply allocateClientID_impl ].

Lemma registerClient_impl sid : implements (registerClient_l sid) (registerClient sid).
Proof.
  unfold registerClient_l. follow. intros s. unfold registerClient. rewrite bind_gets. unfold modify.
  by destruct (cs_assignedID (session s sid) =? 0).
Qed.
Ltac impl_known ::= first [ apply trace_record_impl | apply bumpCounter_impl | apply config_impl | apply findClient_impl | apply serverTCPPort_impl | apply send_impl | apply sendRawEd2k_impl | apply send_status_impl | apply allocateClientID_impl | apply registerClient_impl ].

Lemma handleLogin_impl sid h point properties :
  implements (handleLogin_l tracing sid h point properties) (handleLogin sid h point properties).
Proof.
  unfold handleLogin_l, login_fields. follow. intros s.
  unfold handleLogin, login_session. same_run.
Qed.
Ltac impl_known ::= first [ apply trace_record_impl | apply bumpCounter_impl | apply config_impl
  | apply findClient_impl | apply serverTCPPort_impl | apply send_impl | apply sendRawEd2k_impl
  | apply send_status_impl | apply handleLogin_impl ].

Lemma handleGetServerList_impl sid :
  implements (handleGetServerList_l tracing sid) (handleGetServerList sid).
Proof.
  unfold handleGetServerList_l, handleGetServerList.
  apply implements_bind; [impl|intros _]. apply implements_bind; [impl|intros cfg].
  apply implements_bind; [impl|intros _]. apply implements_bind; [impl|intros [addr|]]; [|by intros s].
  eapply implements_ext; [apply implements_bind; [impl|intros port]|].
  - instantiate (1 := fun port => match buildServerListBody (addr_IP addr) port (PeerServers cfg) with
      | Some body => sendRawEd2k sid opServerList body | None => ret tt end). cbv beta.
    destruct (buildServerListBody _ _ _); impl.
  - done.
Qed.

(** ** Offers *)

Lemma removeClientOfferedFiles_impl id :
  implements (removeClientOfferedFiles_l id) (removeClientOfferedFiles id).
Proof.
  intros s. unfold removeClientOfferedFiles_l. rewrite (implements_run _ _ _ _ (findClient_impl id)), bind_gets.
  unfold removeClientOfferedFiles, modify. destruct (findClient s id) as [sid|]; [|done].
  rewrite alone_bind. unfold bind. rewrite alone_locked, alone_atomically. cbn. done.
Qed.

Lemma mergeClientOfferedFiles_impl id records :
  implements (mergeClientOfferedFiles_l id records) (mergeClientOfferedFiles id records).
Proof.
  unfold mergeClientOfferedFiles_l, mergeClientOfferedFiles.
  apply implements_bind; [impl|intros [sid|]]; [|impl].
  destruct records as [|r records]; [apply implements_bind; [apply removeClientOfferedFiles_impl|intros; impl]|].
  follow. done.
Qed.

Lemma handleOfferFiles_impl sid req :
  implements (handleOfferFiles_l tracing sid req) (handleOfferFiles sid req).
Proof.
  unfold handleOfferFiles_l, handleOfferFiles. apply implements_bind; [impl|intros c]. cbv zeta.
  apply implements_if; [impl|]. destruct (offer_records _ _ _ _) as [records|e]; [|impl].
  apply implements_bind; [apply mergeClientOfferedFiles_impl|intros [accepted dropped]].
  follow. intros s. by rewrite bind_assoc.
Qed.

(** ** Search *)

Lemma searchAll_impl query : implements (searchAll_l query)
  (do! found := gets (fun s => searchAll s query) in of_option found Panic).
Proof.
  intros s. unfold searchAll_l. rewrite alone_bind. unfold bind.
  rewrite alone_rlocked, alone_atomically. unfold gets, searchAll.
  by destruct (Catalog_Search (sv_catalog s) query).
Qed.

Lemma handleSearchMore_impl sid : implements (handleSearchMore_l tracing sid) (handleSearchMore sid).
Proof.
  unfold handleSearchMore_l. follow. intros s. unfold next_page, handleSearchMore.
  rewrite bind_assoc, !bind_gets.
  destruct (_ || _); [done|]. rewrite bind_assoc, !bind_gets. cbv zeta.
  by destruct (slice _ _ _).
Qed.

Lemma note_impl sid k :
  implements (note_l sid k) (do! t := now in modify_session sid (touch t [(k, 1)])).
Proof. unfold note_l. impl. Qed.

Ltac impl_known ::= first [ apply trace_record_impl | apply bumpCounter_impl | apply config_impl
  | apply findClient_impl | apply serverTCPPort_impl | apply send_impl | apply sendRawEd2k_impl
  | apply send_status_impl | apply handleLogin_impl | apply handleSearchMore_impl | apply note_impl
  | apply removeClientOfferedFiles_impl | apply handleGetServerList_impl | apply handleOfferFiles_impl ].

Lemma handleSearch_impl sid query :
  implements (handleSearch_l tracing sid query) (handleSearch sid query).
Proof.
  intros s. unfold handleSearch_l, handleSearch. rewrite alone_bind, bind_gets.
  unfold bind at 1. rewrite alone_locked, alone_atomically. unfold gets at 1.
  destruct (negb (loggedIn (session s sid))); [apply send_impl|].
  rewrite alone_bind. unfold bind at 1. rewrite searchAll_impl, !bind_gets.
  destruct (searchAll s query) as [found|]; [|done]. cbn [of_option ret].
  unfold publish_results. revert s. follow. done.
Qed.

(** ** Sources *)

Lemma dynamic_sources_impl obfuscated sources : implements (dynamic_sources_l obfuscated sources)
  (gets (fun s => omap (dynamic_source s obfuscated) sources)).
Proof.
  induction sources as [|[clientID source] sources IH]; intros s; [done|].
  cbn [dynamic_sources_l]. unfold gets. cbn [omap list_omap dynamic_source].
  destruct (EndpointFromString (se_Host source) (se_Port source)) as [endpoint|]; [|apply IH].
  destruct obfuscated.
  - rewrite alone_bind. unfold bind. rewrite alone_atomically. unfold gets, findClient.
    destruct (sv_clients s !! clientID) as [sid|]; cbn [pret].
    + rewrite alone_bind. unfold bind. rewrite alone_locked, alone_atomically. unfold gets.
      destruct (sourceObfuscationMetadata (session s sid)) as [options userHash].
      by rewrite (implements_run _ _ _ _ IH).
    + cbn [pbind pret]. by rewrite (implements_run _ _ _ _ IH).
  - cbn [pbind pret]. by rewrite (implements_run _ _ _ _ IH).
Qed.

Lemma sourcesAll_impl h obfuscated :
  implements (sourcesAll_l h obfuscated) (gets (fun s => sourcesAll s h obfuscated)).
Proof.
  intros s. unfold sourcesAll_l. rewrite alone_bind. unfold bind at 1.
  rewrite alone_rlocked, alone_atomically. unfold gets at 1. rewrite alone_bind. unfold bind at 1.
  rewrite alone_rlocked, alone_bind. unfold bind at 1. rewrite alone_atomically.
  unfold gets. unfold sourcesAll. destruct (sv_dynamicFiles s !! Hash_String h) as [shared|]; [|done].
  by rewrite dynamic_sources_impl.
Qed.

Lemma handleGetSources_impl sid h obfuscated :
  implements (handleGetSources_l tracing sid h obfuscated) (handleGetSources sid h obfuscated).
Proof.
  intros s. unfold handleGetSources_l, handleGetSources.
  rewrite (implements_run _ _ _ _ (sourcesAll_impl h obfuscated)), !bind_gets.
  rewrite (implements_run _ _ _ _ config_impl), bind_gets. cbv zeta.
  generalize (orderAndCapSources (sourcesAll s h obfuscated) (MaxSourcesPerReply (sv_cfg s))).
  intros sources. revert s. eapply implements_ext; [apply implements_bind; [impl|intros ?];
    apply implements_bind; [impl|intros ?]; apply implements_if|].
  - unfold sendFoundSourcesObfuscated_l. impl.
  - impl.
  - done.
Qed.

(** ** Callbacks *)

Lemma allow_callback_impl ip : implements (allow_callback_l ip) (allow_callback ip).
Proof.
  intros s. unfold allow_callback_l, allow_callback. rewrite alone_bind, bind_gets. unfold bind at 1.
  rewrite alone_atomically. unfold gets at 1. destruct (sv_callbackLimiter s) as [l|] eqn:El; [|done].
  rewrite alone_bind. unfold bind at 1. rewrite alone_atomically. unfold now at 1.
  rewrite alone_locked, alone_atomically. unfold take_token. rewrite bind_gets.
  change (sv_callbackLimiter (set_sv_ticks _ s)) with (sv_callbackLimiter s). rewrite El. done.
Qed.

Lemma allow_callback_sessions ip s r s1 :
  allow_callback ip s = (r, s1) -> forall sid, session s1 sid = session s sid.
Proof.
  unfold allow_callback. rewrite bind_gets. destruct (sv_callbackLimiter s) as [l|]; [|by intros [= _ <-]].
  unfold bind at 1, now at 1. destruct (allow l _ _) as [l' ok]. by intros [= _ <-].
Qed.

Lemma handleCallback_impl sid id :
  implements (handleCallback_l tracing sid id) (handleCallback sid id).
Proof.
  intros s. unfold handleCallback_l, handleCallback. rewrite alone_bind, bind_gets. unfold bind at 1.
  rewrite alone_atomically. unfold gets at 1. set (c := session s sid).
  rewrite (implements_run _ _ _ _ (allow_callback_impl (remote_host c))).
  apply bind_ext. intros ok s1 Ha. pose proof (allow_callback_sessions _ _ _ _ Ha sid) as Hc. clear Ha.
  destruct (negb ok); [clear Hc; revert s1; follow; done|].
  rewrite (implements_run _ _ _ _ (note_impl sid ses_callbackRequests)), !bind_assoc.
  apply bind_ext. intros t s2 [= <- <-]. apply bind_ext. intros [] s3 [= <-].
  rewrite (implements_run _ _ _ _ (bumpCounter_impl _)). apply bind_ext. intros [] s4 [= <-].
  rewrite (implements_run _ _ _ _ (findClient_impl id)), !bind_gets.
  set (s4 := set_sv_stats _ _). destruct (findClient s4 id) as [target|]; [|apply send_impl].
  rewrite alone_bind. unfold bind at 1. rewrite alone_locked, alone_atomically. unfold gets at 1.
  assert (cs_assignedID (session s4 sid) = cs_assignedID c /\
          cs_loginPoint (session s4 sid) = cs_loginPoint c) as [-> ->].
  { unfold c. rewrite <- Hc. unfold s4. unfold session. cbn. unfold upd. by rewrite decide_True. }
  rewrite (implements_run _ _ _ _ (implements_try _ _ (send_impl target _))).
  apply bind_ext. intros [[]|e] s5 _; [done|apply send_impl].
Qed.

(** ** Connections *)

Lemma dispatch_impl sid packet body :
  implements (dispatch_l tracing sid packet body) (dispatch sid packet body).
Proof.
  unfold dispatch_l, dispatch. repeat (apply implements_if).
  - apply implements_bind; [impl|intros [[h point] properties]; impl].
  - impl.
  - apply implements_bind; [impl|intros [req rest]; impl].
  - destruct (ParseSearchRequest body); apply handleSearch_impl.
  - impl.
  - apply implements_bind; [impl|intros h; apply handleGetSources_impl].
  - apply implements_bind; [impl|intros h; apply handleGetSources_impl].
  - apply implements_bind; [impl|intros id; apply handleCallback_impl].
  - impl.
  - impl.
Qed.

Lemma serve_frame_impl sid proto opcode body n :
  implements (serve_frame_l tracing sid proto opcode body n) (serve_frame sid proto opcode body n).
Proof.
  unfold serve_frame_l, noteInbound_l.
  eapply implements_ext; [apply implements_bind; [impl|intros]; apply implements_bind; [impl|intros];
    apply implements_bind; [impl|intros]; apply implements_if; [impl|apply dispatch_impl]|]. done.
Qed.

Lemma unregisterClient_impl sid : implements (unregisterClient_l sid) (unregisterClient sid).
Proof. unfold unregisterClient_l, unregisterClient. impl. Qed.

Lemma close_conn_impl sid : implements (close_conn_l sid) (close_conn sid).
Proof. unfold close_conn_l, close_conn. apply implements_bind; [apply unregisterClient_impl|intros; impl]. Qed.

Lemma open_session_impl sid remote local :
  implements (open_session_l sid remote local) (open_session sid remote local).
Proof. unfold open_session_l. follow. done. Qed.

(** The limiter is the same when the token is taken. *)
Lemma take_conn_token_impl l ip s :
  sv_connLimiter s = Some l ->
  alone (do* t := atomically now in locked MuConnLimiter (atomically (take_conn_token t ip))) s =
  (do! t := now in let '(l', ok) := allow l t ip in modify (set_sv_connLimiter (Some l')) ;;; ret ok) s.
Proof.
  intros El. rewrite alone_bind. unfold bind at 1 2. rewrite alone_atomically. unfold now at 1 2.
  rewrite alone_locked, alone_atomically. unfold take_conn_token. rewrite bind_gets.
  change (sv_connLimiter (set_sv_ticks _ s)) with (sv_connLimiter s). by rewrite El.
Qed.

Lemma admit_conn_impl sid remote first handshake :
  implements (admit_conn_l sid remote first handshake) (admit_conn sid remote first handshake).
Proof.
  intros s. unfold admit_conn_l, admit_conn. rewrite alone_bind, bind_gets. unfold bind at 1.
  rewrite alone_atomically. unfold gets at 1.
  match goal with |- alone (pbind ?p ?k) _ = bind _ ?l _ =>
    rewrite alone_bind; transitivity (bind (alone p) l s);
    [apply bind_ext; intros ok s' _; revert s'; change (implements (k ok) (l ok))|] end.
  - apply implements_if; [impl|]. destruct first as [b|]; [|impl].
    apply implements_bind; [impl|intros cfg]. apply implements_if; [impl|]. apply implements_if; impl.
  - unfold bind at 1. destruct (sv_connLimiter s) as [l|] eqn:El; [|done].
    by rewrite (take_conn_token_impl l).
Qed.

(** ** A whole connection *)

Definition frame_event (sid : nat) (f : frame) : event :=
  let '(proto, opcode, body, frameBytes) := f in EvFrame sid proto opcode body frameBytes.

(** Nothing happens any more on a connection that is closed. *)
Lemma closed_conn_events sid frames s :
  sid ∉ sv_open s -> run_events (map (frame_event sid) frames ++ [EvClose sid]) s = (Ok tt, s).
Proof.
  intros Hs. assert (forall m : M unit, (do! served := gets (fun s => bool_decide (sid ∈ sv_open s)) in
    if served then m else ret tt) s = (Ok tt, s)) as Hn.
  { intros m. rewrite bind_gets. by rewrite bool_decide_eq_false_2. }
  induction frames as [|[[[proto opcode] body] n] frames IH].
  - cbn [map app run_events run_event]. by rewrite Hn.
  - cbn [map app frame_event run_events run_event]. by rewrite Hn.
Qed.

Lemma close_conn_open sid s : sid ∉ sv_open (close_conn sid s).2 \/ (close_conn sid s).1 <> Ok tt.
Proof.
  unfold close_conn, bind. destruct (unregisterClient sid s) as [[[]|e] s1]; [left|by right].
  cbn [snd modify sv_open set_sv_open]. apply not_elem_of_difference. right. by apply elem_of_singleton.
Qed.

Lemma serve_frames_impl sid frames s :
  sid ∈ sv_open s -> alone (serve_frames_l tracing sid frames) s =
    run_events (map (frame_event sid) frames ++ [EvClose sid]) s.
Proof.
  revert s; induction frames as [|[[[proto opcode] body] n] frames IH]; intros s Hs.
  - cbn [serve_frames_l map app run_events run_event]. rewrite close_conn_impl, bind_gets.
    rewrite bool_decide_eq_true_2 by done. by destruct (close_conn sid s) as [[[]|e] s'].
  - cbn [serve_frames_l map app frame_event run_events run_event].
    rewrite (implements_run _ _ _ _ (implements_try _ _ (serve_frame_impl sid proto opcode body n))).
    rewrite bind_gets, bool_decide_eq_true_2 by done. unfold serve_or_close, try_, bind.
    pose proof (frames_serve_frame open_view sid proto opcode body n s) as Hf.
    destruct (serve_frame sid proto opcode body n s) as [[[]|e] s1] eqn:Es; cbn [snd] in Hf.
    + apply IH. injection Hf as Ho _. by rewrite Ho.
    + pose proof (close_conn_open sid s1) as Hc.
      destruct e; try done; rewrite close_conn_impl;
        (destruct (close_conn sid s1) as [[[]|e'] s2]; [|done];
         destruct Hc as [Hc|Hc]; [by rewrite closed_conn_events|done]).
Qed.

(** C9: the locks do not change what a connection does: the goroutine of a
    connection, with every lock it takes and releases, ends in the state that the
    events of the connection lead to when nobody else runs, whatever the frames
    are and wherever the stream ends. *)
Theorem goroutine_refines_events sid remote local first handshake frames s :
  sv_conns s = sid -> sid ∉ sv_open s ->
  alone (handleConn_l tracing sid remote local first handshake frames) (set_sv_conns (S sid) s) =
  run_events (EvConnect remote local first handshake :: map (frame_event sid) frames ++ [EvClose sid]) s.
Proof.
  intros Hsid Hopen. cbn [run_events run_event]. rewrite bind_gets, Hsid.
  rewrite (bind_ok _ _ _ tt (set_sv_conns (S sid) s)) by done.
  unfold handleConn_l. rewrite (implements_run _ _ _ _ (admit_conn_impl sid remote first handshake)).
  set (s0 := set_sv_conns (S sid) s). unfold bind.
  pose proof (frames_admit open_view sid remote first handshake s0) as Hf.
  destruct (admit_conn sid remote first handshake s0) as [[ok|e] s1]; [|done]. cbn [snd] in Hf.
  injection Hf as Ho _. change (sv_open s0) with (sv_open s) in Ho.
  destruct ok; [|cbn [alone pret ret]; by rewrite closed_conn_events by (by rewrite Ho)].
  rewrite (implements_run _ _ _ _ (open_session_impl sid (Some remote) local)).
  unfold open_session, bind, now, modify, bump. cbn [sv_ticks set_sv_ticks]. apply serve_frames_impl.
  cbn [sv_open set_sv_open set_sv_stats set_sv_sessions]. by apply elem_of_union_l, elem_of_singleton.
Qed.

(** ** Administration *)

Lemma persistCatalog_impl : implements persistCatalog_l persistCatalog.
Proof.
  unfold persistCatalog_l, Catalog_Save_l. follow. intros s. unfold persistCatalog, store_write, bind, gets.
  by destruct (write_ok (sv_writes s)).
Qed.

(** The steps under the lock make the change. *)
Lemma Catalog_Upsert_l_alone record n c' s :
  normalizeFileRecord record = Ok n -> Catalog_Upsert (sv_catalog s) record = Ok c' ->
  alone (Catalog_Upsert_l n) s = (Ok tt, set_sv_catalog c' s).
Proof.
  intros En. unfold Catalog_Upsert. rewrite En. cbn [rbind]. intros [= <-].
  unfold Catalog_Upsert_l. rewrite alone_locked. unfold has_key. cbn.
  by destruct (cat_byHash (sv_catalog s) !! Hash_String (fr_Hash n)).
Qed.

Lemma Catalog_Delete_l_alone h s :
  alone (Catalog_Delete_l h) s =
    let '(c', deleted) := Catalog_Delete (sv_catalog s) h in (Ok deleted, set_sv_catalog c' s).
Proof.
  unfold Catalog_Delete_l, Catalog_Delete. rewrite alone_locked. unfold has_key. cbn.
  destruct (cat_byHash (sv_catalog s) !! Hash_String h); [done|]. by destruct s.
Qed.

Lemma UpsertFile_impl record : implements (UpsertFile_l record) (UpsertFile record).
Proof.
  intros s. unfold UpsertFile_l, UpsertFile. rewrite bind_gets.
  destruct (Catalog_Upsert (sv_catalog s) record) as [c'|e] eqn:Ec.
  - destruct (normalizeFileRecord record) as [n|e] eqn:En;
      [|unfold Catalog_Upsert in Ec; rewrite En in Ec; discriminate Ec].
    rewrite alone_bind. unfold bind at 1. rewrite (Catalog_Upsert_l_alone record n c') by done.
    rewrite (implements_run _ _ _ _ (bumpCounter_impl _)). unfold bind at 1, bump, modify at 1.
    by rewrite persistCatalog_impl.
  - unfold Catalog_Upsert in Ec. destruct (normalizeFileRecord record); [discriminate Ec|]. by injection Ec as ->.
Qed.

Lemma DeleteFile_impl h : implements (DeleteFile_l h) (DeleteFile h).
Proof.
  intros s. unfold DeleteFile_l, DeleteFile. rewrite bind_gets, alone_bind. unfold bind at 1.
  rewrite Catalog_Delete_l_alone. unfold Catalog_Delete.
  destruct (cat_byHash (sv_catalog s) !! Hash_String h); cbn [negb]; [|by destruct s].
  rewrite (implements_run _ _ _ _ (bumpCounter_impl _)). unfold bind at 1, bump, modify at 1.
  by rewrite (implements_run _ _ _ _ persistCatalog_impl).
Qed.

(** ** Views *)

Lemma StatsSnapshot_impl : implements StatsSnapshot_l (gets StatsSnapshot).
Proof. unfold StatsSnapshot_l, Catalog_Count_l. follow. done. Qed.

Lemma snapshots_impl clients :
  implements (snapshots_l clients) (gets (fun s => map (fun sid => snapshot (session s sid)) clients)).
Proof.
  induction clients as [|sid clients IH]; intros s; [done|]. cbn [snapshots_l].
  unfold snapshot_l. rewrite alone_bind. unfold bind at 1. rewrite alone_locked, alone_atomically.
  unfold gets at 1. by rewrite (implements_run _ _ _ _ IH).
Qed.

Lemma ClientsSnapshot_impl : implements ClientsSnapshot_l (gets ClientsSnapshot).
Proof.
  intros s. unfold ClientsSnapshot_l. rewrite alone_bind. unfold bind at 1.
  rewrite alone_rlocked, alone_atomically. unfold gets at 1.
  by rewrite (implements_run _ _ _ _ (snapshots_impl _)).
Qed.

Lemma FilesSnapshot_impl : implements FilesSnapshot_l (gets FilesSnapshot).
Proof. unfold FilesSnapshot_l. follow. done. Qed.

Lemma FileSnapshot_impl h : implements (FileSnapshot_l h) (gets (fun s => FileSnapshot s h)).
Proof.
  intros s. unfold FileSnapshot_l. rewrite alone_bind. unfold bind at 1.
  rewrite alone_rlocked, alone_atomically. unfold gets at 1. unfold gets at 2, FileSnapshot.
  by destruct (Catalog_Get (sv_catalog s) h).
Qed.

Lemma ClientSnapshotByID_impl id :
  implements (ClientSnapshotByID_l id) (gets (fun s => ClientSnapshotByID s id)).
Proof.
  intros s. unfold ClientSnapshotByID_l. rewrite (implements_run _ _ _ _ (findClient_impl id)), bind_gets.
  unfold gets, ClientSnapshotByID, findClient. by destruct (sv_clients s !! id).
Qed.

Lemma AuditSnapshot_impl : implements AuditSnapshot_l (gets (fun s => AuditSnapshot (sv_auditLog s))).
Proof. unfold AuditSnapshot_l. follow. done. Qed.
End implementation.

(** ** Witness *)

(** A client logs in, shares a file, asks for its sources and leaves. *)
Definition demo_frames : list frame :=
  [(EdonkeyHeader, opLoginRequest, demo_login_body xa1, 30);
   (EdonkeyHeader, opOfferFiles,
     match OfferFiles_Put (mkOffer _ [demo_entry x77 0 0]) with Some b => b | None => [] end, 80);
   (EdonkeyHeader, opGetSourcesObfu, replicate 16 x77, 22)].

Lemma goroutine_refines_events_witness :
  alone (handleConn_l (PC := demo_combiner) true 0 (demo_addr x01) (Some (demo_addr xfe)) (Some xe3) false demo_frames)
    (set_sv_conns 1 demo_server) =
  run_events (EvConnect (demo_addr x01) (Some (demo_addr xfe)) (Some xe3) false ::
              map (frame_event 0) demo_frames ++ [EvClose 0]) demo_server /\
  is_ok (run_events (EvConnect (demo_addr x01) (Some (demo_addr xfe)) (Some xe3) false ::
                     map (frame_event 0) demo_frames) demo_server).1 = true.
Proof.
  split; [|vm_compute; reflexivity].
  apply (goroutine_refines_events (PC := demo_combiner) true 0).
  - reflexivity.
  - apply (bool_decide_unpack _). vm_compute. exact I.
Defined.
