(* ===== verification/Discipline.v ===== *)
(** * What the locks are good for

    A discipline for the programs of [Locks], and what it gives to a pool of
    goroutines that follow it: nobody waits for ever, and data that a lock
    protects does not change under a goroutine that holds the lock.

    The locks are ordered: the write lock of a connection, the lock of the server,
    the lock of a session, the others. The one exception is a login, which takes
    the lock of the server inside the lock of its own session; it is harmless as
    long as nobody else can reach the session, that is, until it is registered. *)

From S2P Require Import StateErr Threads.
From S2P Require Import Prelude Ed2kLib Ed2kWire FileRecord Catalog Config Server Locks.

Local Open Scope Z_scope.
Local Open Scope srv_scope.

Section discipline.
Context {L : Ed2kLib}.

Local Abbreviation P A := (prog Server srvErr mutex A).
Local Abbreviation token := (mutex * mode)%type.

Definition rank (m : mutex) : nat :=
  match m with
  | MuWrite _ => 0
  | MuServer => 1
  | MuClient _ => 2
  | _ => 3
  end.

(** The sessions that the client table leads to. *)
Definition registered (s : Server) (sid : nat) : Prop := exists id, sv_clients s !! id = Some sid.

(** What a goroutine knows: the locks it holds, whether it has registered its own
    session, and the sessions that it has seen in the client table. *)
Record ghost := mkGhost {
  gh_held : list token;
  gh_registered : bool;
  gh_known : nat -> Prop
}.

Definition with_held (held : list token) (g : ghost) : ghost :=
  mkGhost held (gh_registered g) (gh_known g).

Section goroutine.
(** The connection that the goroutine serves. *)
Context (own : option nat).

(** A goroutine locks its own session or one it knows, and inside the server's
    lock only one it knows. *)
Definition reaches (g : ghost) (m : mutex) : Prop :=
  match m with
  | MuClient y => gh_known g y \/ (own = Some y /\ forall k, (MuServer, k) ∉ gh_held g)
  | _ => True
  end.

Definition in_order (g : ghost) (m : mutex) : Prop :=
  (forall x, x ∈ gh_held g -> (rank x.1 < rank m)%nat) /\ reaches g m.

Definition logging_in (g : ghost) (m : mutex) : Prop :=
  m = MuServer /\ exists x, own = Some x /\ gh_registered g = false /\
                            gh_held g = [(MuClient x, Exclusive)].

Definition may_take (g : ghost) (m : mutex) : Prop := in_order g m \/ logging_in g m.

Definition allowed {A} (g : ghost) (a : sync mutex) (p : P A) : Prop :=
  match a with
  | Announce m => may_take g m /\ match p with Sync (Await m') _ => m' = m | _ => False end
  | Await m => exists rest, gh_held g = (m, Exclusive) :: rest /\ may_take (with_held rest g) m
  | RAcquire m => may_take g m
  | Release _ | RRelease _ => True
  end.

(** What the locks protect. *)
Record guarded (g : ghost) (s s' : Server) : Prop := {
  gd_server : (MuServer, Exclusive) ∈ gh_held g \/
    (sv_clients s' = sv_clients s /\ sv_dynamicFiles s' = sv_dynamicFiles s /\
     sv_stats s' = sv_stats s /\ sv_nextID s' = sv_nextID s /\ sv_auditLog s' = sv_auditLog s);
  gd_catalog : (MuCatalog, Exclusive) ∈ gh_held g \/ sv_catalog s' = sv_catalog s;
  gd_session y : (MuClient y, Exclusive) ∈ gh_held g \/ session s' y = session s y \/
    (own = Some y /\ gh_registered g = false);
  gd_conns : (MuConnLimiter, Exclusive) ∈ gh_held g \/ sv_connLimiter s' = sv_connLimiter s;
  gd_callbacks : (MuCallbackLimiter, Exclusive) ∈ gh_held g \/
    sv_callbackLimiter s' = sv_callbackLimiter s
}.

(** A disciplined program ends with [Q]. *)
Fixpoint disciplined {A} (p : P A) (Q : result srvErr A -> ghost -> Prop) (g : ghost) : Prop :=
  match p with
  | Done r => Q r g
  | Sync a p' => allowed g a p' /\
      exists held, after a (gh_held g) = Some held /\ disciplined p' Q (with_held held g)
  | Atomic f k => exists reg,
      (gh_registered g = true -> reg = true) /\
      forall s, guarded g s (f s) /\
        (forall y, registered (f s) y -> registered s y \/ (own = Some y /\ reg = true)) /\
        disciplined (k s) Q (mkGhost (gh_held g) reg (fun y => gh_known g y \/ registered s y))
  end.

Lemma disciplined_mono {A} (p : P A) (Q Q' : result srvErr A -> ghost -> Prop) g :
  (forall r g', Q r g' -> Q' r g') -> disciplined p Q g -> disciplined p Q' g.
Proof.
  intros HQ. revert g; induction p as [r|a p IH|f k IH]; intros g; cbn [disciplined]; [apply HQ| |].
  - intros (Ha & held & Hh & Hp). split; [done|]. exists held. split; [done|by apply IH].
  - intros (reg & Hr & Hs). exists reg. split; [done|]. intros s. destruct (Hs s) as (H1 & H2 & H3).
    do 2 (split; [done|]). by apply IH.
Qed.

Lemma allowed_bind {A B} g a (p : P A) (k : A -> P B) : allowed g a p -> allowed g a (pbind p k).
Proof.
  destruct a as [m|m|m|m|m]; cbn [allowed]; try done. intros [H1 H2]. split; [done|].
  by destruct p as [|[]|].
Qed.

Lemma disciplined_bind {A B} (p : P A) (k : A -> P B) Q g :
  disciplined p (fun r g' => match r with
                             | Ok a => disciplined (k a) Q g'
                             | Err e => Q (Err e) g'
                             end) g ->
  disciplined (pbind p k) Q g.
Proof.
  revert g; induction p as [[a|e]|a p IH|f c IH]; intros g; cbn [disciplined pbind]; [done..| |].
  - intros (Ha & held & Hh & Hp). split; [by apply allowed_bind|]. exists held. split; [done|by apply IH].
  - intros (reg & Hr & Hs). exists reg. split; [done|]. intros s. destruct (Hs s) as (H1 & H2 & H3).
    do 2 (split; [done|]). by apply IH.
Qed.

Lemma disciplined_try {A} (p : P A) Q g :
  disciplined p (fun r g' => Q (Ok r) g') g -> disciplined (ptry p) Q g.
Proof.
  revert g; induction p as [r|a p IH|f c IH]; intros g; cbn [disciplined ptry]; [done| |].
  - intros (Ha & held & Hh & Hp). split; [|exists held; split; [done|by apply IH]].
    revert Ha. destruct a; cbn [allowed]; try done. intros [H1 H2]. split; [done|]. by destruct p as [|[]|].
  - intros (reg & Hr & Hs). exists reg. split; [done|]. intros s. destruct (Hs s) as (H1 & H2 & H3).
    do 2 (split; [done|]). by apply IH.
Qed.
End goroutine.

(** ** Pools of disciplined goroutines *)

Local Abbreviation thr := (thread Server srvErr mutex bool).

(** [seen] are the sessions that have ever been in the client table. *)
Record thread_ok (seen : nat -> Prop) (own : option nat) (g : ghost) (t : thr) : Prop := {
  to_disciplined : disciplined own (th_prog t) (fun _ g' => gh_held g' = []) g;
  to_held : th_held t = gh_held g;
  to_known y : gh_known g y -> seen y;
  to_own x : own = Some x -> (seen x <-> gh_registered g = true);
  to_client y k : (MuClient y, k) ∈ gh_held g -> own = Some y \/ gh_known g y
}.

(** A lock is held once, but for readers that a writer waits for. *)
Definition exclusive (ths : list thr) : Prop := forall i j ti tj m k,
  i <> j -> ths !! i = Some ti -> ths !! j = Some tj ->
  (m, Exclusive) ∈ th_held ti -> (m, k) ∈ th_held tj ->
  k = Shared /\ exists p, th_prog ti = Sync (Await m) p.

Definition pool_ok (owns : nat -> option nat) (c : config) : Prop :=
  exclusive c.2 /\
  exists seen gs, (forall y, registered c.1 y -> seen y) /\
    forall i t, c.2 !! i = Some t -> thread_ok seen (owns i) (gs i) t.

Lemma holders_spec (ths : list thr) x : x ∈ holders ths <-> exists i t, ths !! i = Some t /\ x ∈ th_held t.
Proof.
  unfold holders. rewrite list_elem_of_In, in_flat_map. split.
  - intros (t & Ht & Hx). apply list_elem_of_In, list_elem_of_lookup in Ht as [i Hi].
    exists i, t. split; [done|by apply list_elem_of_In].
  - intros (i & t & Ht & Hx). exists t. split; [|by apply list_elem_of_In].
    apply list_elem_of_In. by eapply list_elem_of_lookup_2.
Qed.

Lemma ready_false (held : list token) a : ready held a = false ->
  match a with
  | Announce m | RAcquire m => (m, Exclusive) ∈ held
  | Await m => (m, Shared) ∈ held
  | _ => False
  end.
Proof.
  destruct a; cbn [ready]; try done; intros (x & Hx & E%bool_decide_eq_true)%negb_false_iff%existsb_exists;
    subst; by apply list_elem_of_In.
Qed.

Lemma ready_true (held : list token) a : ready held a = true ->
  match a with
  | Announce m | RAcquire m => (m, Exclusive) ∉ held
  | Await m => (m, Shared) ∉ held
  | _ => True
  end.
Proof.
  assert (forall x, existsb (fun y => bool_decide (y = x)) held = false -> x ∉ held) as Hx.
  { intros x H Hin. assert (existsb (fun y => bool_decide (y = x)) held = true) as E; [|congruence].
    apply existsb_exists. exists x. split; [by apply list_elem_of_In|by apply bool_decide_eq_true]. }
  destruct a; cbn [ready]; try done; intros H%negb_true_iff; by apply Hx.
Qed.

Lemma drop_lock_elem (x : token) held held' y : drop_lock x held = Some held' -> y ∈ held' -> y ∈ held.
Proof.
  revert held'; induction held as [|z held IH]; intros held'; cbn [drop_lock]; [done|].
  destruct (decide (x = z)); [intros [= <-]; by right|].
  destruct (drop_lock x held) as [h|]; [|done]. intros [= <-] [->|Hy]%elem_of_cons; [by left|].
  right. by apply (IH h).
Qed.

(** Only the locking operations add a lock. *)
Lemma after_elem (a : sync mutex) held held' x : after a held = Some held' -> x ∈ held' ->
  x ∈ held \/ (exists m, a = Announce m /\ x = (m, Exclusive)) \/ (exists m, a = RAcquire m /\ x = (m, Shared)).
Proof.
  destruct a as [m|m|m|m|m]; cbn [after].
  - intros [= <-] [->|]%elem_of_cons; [|by left]. right; left. by exists m.
  - intros [= <-]. by left.
  - intros [= <-] [->|]%elem_of_cons; [|by left]. right; right. by exists m.
  - intros H Hx. left. by eapply drop_lock_elem.
  - intros H Hx. left. by eapply drop_lock_elem.
Qed.

Lemma exclusive_insert ths i (t t' : thr) :
  exclusive ths -> ths !! i = Some t ->
  (forall j u m k, i <> j -> ths !! j = Some u -> (m, Exclusive) ∈ th_held t' -> (m, k) ∈ th_held u ->
     k = Shared /\ exists p, th_prog t' = Sync (Await m) p) ->
  (forall j u m k, i <> j -> ths !! j = Some u -> (m, Exclusive) ∈ th_held u -> (m, k) ∈ th_held t' ->
     k = Shared /\ exists p, th_prog u = Sync (Await m) p) ->
  exclusive (<[i := t']> ths).
Proof.
  intros Hex Ht H1 H2 a b ta tb m k Hne Ha Hb.
  destruct (decide (a = i)) as [->|], (decide (b = i)) as [->|]; [done| | |].
  - rewrite list_lookup_insert_eq in Ha by (by eapply lookup_lt_Some).
    rewrite list_lookup_insert_ne in Hb by done. injection Ha as <-. by apply (H1 b).
  - rewrite list_lookup_insert_ne in Ha by done.
    rewrite list_lookup_insert_eq in Hb by (by eapply lookup_lt_Some). injection Hb as <-.
    by apply (H2 a).
  - rewrite list_lookup_insert_ne in Ha, Hb by done. by apply (Hex a b).
Qed.

Lemma exclusive_step ths i own (t : thr) a p held g :
  exclusive ths -> ths !! i = Some t -> th_prog t = Sync a p -> allowed own g a p ->
  ready (holders ths) a = true -> after a (th_held t) = Some held ->
  exclusive (<[i := mkThread held p]> ths).
Proof.
  intros Hex Ht Hp Ha Hr%ready_true Haf.
  assert (forall j u m k, i <> j -> ths !! j = Some u -> (m, Exclusive) ∈ th_held t ->
    (m, k) ∈ th_held u -> a = Await m /\ k = Shared) as Hold.
  { intros j u m k Hne Hu H1 H2. destruct (Hex i j t u m k Hne Ht Hu H1 H2) as (-> & p' & E).
    rewrite Hp in E. by injection E as -> _. }
  assert (forall j u x, ths !! j = Some u -> x ∈ th_held u -> x ∈ holders ths) as Hin.
  { intros j u x Hu Hx. apply holders_spec. by exists j, u. }
  apply (exclusive_insert _ _ t); [done|done| |]; intros j u m k Hne Hu Hx Hk; cbn [th_held th_prog] in *.
  - destruct (after_elem _ _ _ _ Haf Hx) as [Hx'|[(m' & -> & E)|(m' & -> & E)]].
    + destruct (Hold j u m k Hne Hu Hx' Hk) as [-> ->]. destruct Hr. by eapply Hin.
    + injection E as <-. destruct Ha as [_ Ha]. split.
      * destruct k; [|done]. destruct Hr. by eapply Hin.
      * destruct p as [|[]|]; try done. subst. by eexists.
    + by injection E.
  - destruct (after_elem _ _ _ _ Haf Hk) as [Hk'|[(m' & -> & E)|(m' & -> & E)]].
    + by apply (Hex j i u t m k).
    + injection E as <- ->. destruct Hr. by eapply Hin.
    + injection E as <- ->. destruct Hr. by eapply Hin.
Qed.

Lemma exclusive_atomic ths i (t : thr) f k p :
  exclusive ths -> ths !! i = Some t -> th_prog t = Atomic f k ->
  exclusive (<[i := mkThread (th_held t) p]> ths).
Proof.
  intros Hex Ht Hp.
  apply (exclusive_insert _ _ t); [done|done| |]; intros j u m k' Hne Hu Hx Hk; cbn [th_held th_prog] in *.
  - destruct (Hex i j t u m k' Hne Ht Hu Hx Hk) as (_ & p' & E). by rewrite Hp in E.
  - by apply (Hex j i u t m k').
Qed.

(** A goroutine may write what a lock protects only when nobody else has it. *)
Lemma exclusive_free ths i (t : thr) f p m :
  exclusive ths -> ths !! i = Some t -> th_prog t = Atomic f p -> (m, Exclusive) ∈ th_held t ->
  forall j u k, i <> j -> ths !! j = Some u -> (m, k) ∉ th_held u.
Proof.
  intros Hex Ht Hp Hm j u k Hne Hu Hk.
  destruct (Hex i j t u m k Hne Ht Hu Hm Hk) as (_ & p' & E). by rewrite Hp in E.
Qed.

(** The sessions of different goroutines are different. *)
Definition separate (owns : nat -> option nat) : Prop :=
  forall i j x, owns i = Some x -> owns j = Some x -> i = j.

Lemma client_taken own g a (p : P bool) held y k :
  allowed own g a p -> after a (gh_held g) = Some held -> (MuClient y, k) ∈ held ->
  (MuClient y, k) ∈ gh_held g \/ own = Some y \/ gh_known g y.
Proof.
  assert (forall m, may_take own g m -> m = MuClient y -> own = Some y \/ gh_known g y) as Hm.
  { intros m [[_ Hr]|[-> _]] E; [|done]. subst m. destruct Hr as [?|[? _]]; auto. }
  intros Ha Haf [Hx|[(m & -> & [= E _])|(m & -> & [= E _])]]%(after_elem _ _ _ _ Haf); [by left| |];
    right; apply (Hm m); try done; by destruct Ha.
Qed.

Lemma pool_step owns c i c' : separate owns -> pool_ok owns c -> step i c = Some c' -> pool_ok owns c'.
Proof.
  intros Hsep (Hex & seen & gs & Hreg & Hth). destruct c as [s ths]. cbn [fst snd] in *.
  intros (t & Ht & H)%step_spec. destruct (Hth i t Ht) as [Hd Hh Hk Ho Hcl].
  destruct H as [(f & k & Hp & ->)|(a & p & held & Hp & Hr & Ha & ->)]; rewrite Hp in Hd; cbn [disciplined] in Hd.
  - destruct Hd as (reg & Hmono & Hs). destruct (Hs s) as (_ & Hnew & Hd).
    split; [by eapply exclusive_atomic|].
    exists (fun y => seen y \/ (owns i = Some y /\ reg = true)),
      (upd gs i (mkGhost (gh_held (gs i)) reg (fun y => gh_known (gs i) y \/ registered s y))).
    cbn [fst snd]. split; [intros y [Hy|Hy]%Hnew; auto|]. intros j u Hu. unfold upd.
    destruct (decide (j = i)) as [->|Hne].
    + rewrite list_lookup_insert_eq in Hu by (by eapply lookup_lt_Some). injection Hu as <-.
      constructor; cbn [th_prog th_held gh_held gh_known gh_registered];
        [done|done| | |by intros y k' [?|?]%Hcl; auto].
      * intros y [Hy|Hy]; auto.
      * intros x Hx. specialize (Ho x Hx). split; [|by auto].
        intros [Hy|[_ ?]]; [|done]. apply Hmono. by apply Ho.
    + rewrite list_lookup_insert_ne in Hu by done. destruct (Hth j u Hu) as [H1 H2 H3 H4 H5].
      constructor; [done|done|by auto| |done]. intros x Hx. rewrite <- (H4 x Hx). split; [|by auto].
      intros [?|[Hi _]]; [done|]. destruct Hne. by apply (Hsep j i x).
  - destruct Hd as (Hal & held' & Haf & Hd). rewrite Hh in Ha. assert (held' = held) as -> by congruence.
    split; [eapply exclusive_step; try done; by rewrite Hh|].
    exists seen, (upd gs i (with_held held (gs i))). split; [done|]. intros j u Hu. unfold upd.
    destruct (decide (j = i)) as [->|Hne].
    + cbn [fst snd] in Hu. rewrite list_lookup_insert_eq in Hu by (by eapply lookup_lt_Some).
      injection Hu as <-. constructor; [done..|].
      intros y k [Hy|Hy]%(client_taken (owns i) (gs i) a p); [by apply (Hcl y k)|done..].
    + cbn [fst snd] in Hu. rewrite list_lookup_insert_ne in Hu by done. by apply Hth.
Qed.

Lemma pool_reach owns c0 c : separate owns -> pool_ok owns c0 -> reach c0 c -> pool_ok owns c.
Proof. intros Hsep H0. apply (reach_invariant (pool_ok owns)); [|done]. intros ???. by apply pool_step. Qed.

(** ** Nobody waits for ever *)

(** The lock that a goroutine waits for. *)
Definition waits (t : thr) (m : mutex) : Prop :=
  exists a p, th_prog t = Sync a p /\ (a = Announce m \/ a = RAcquire m \/ a = Await m).

(** It has the lock, and does not just wait for the readers to leave. *)
Definition has (t : thr) (m : mutex) : Prop :=
  (exists k, (m, k) ∈ th_held t) /\ forall p, th_prog t <> Sync (Await m) p.

(** Some goroutine that holds a lock can run. *)
Definition holder_runs (c : config) : Prop :=
  exists j (u : thr), c.2 !! j = Some u /\ th_held u <> [] /\ can_step j c.

Lemma has_order own seen g t m m2 : thread_ok seen own g t -> has t m -> waits t m2 ->
  (rank m < rank m2)%nat \/
  (m2 = MuServer /\ exists x, m = MuClient x /\ own = Some x /\ gh_registered g = false).
Proof.
  intros [Hd Hh _ _ _] [[k Hk] Hna] (a & p & Hp & Ha). rewrite Hp in Hd. rewrite Hh in Hk.
  assert (forall g', (m, k) ∈ gh_held g' -> gh_registered g' = gh_registered g -> may_take own g' m2 ->
    (rank m < rank m2)%nat \/
    (m2 = MuServer /\ exists x, m = MuClient x /\ own = Some x /\ gh_registered g = false)) as Hm.
  { intros g' Hin Hreg [[Ho _]|(-> & x & Hx & Hr & E)]; [left; by apply (Ho (m, k))|right].
    split; [done|]. exists x. rewrite E in Hin. apply list_elem_of_singleton in Hin. injection Hin as -> ->.
    split; [done|]. split; [done|congruence]. }
  destruct Hd as [Hal _]. destruct Ha as [-> | [-> | ->]]; cbn [allowed] in Hal.
  - destruct Hal. by apply (Hm g).
  - by apply (Hm g).
  - destruct Hal as (rest & E & Hmt). rewrite E in Hk. apply elem_of_cons in Hk as [[= -> _]|Hk].
    + by destruct (Hna p).
    + by apply (Hm (with_held rest g)).
Qed.

Lemma has_known own seen g t y :
  thread_ok seen own g t -> has t MuServer -> waits t (MuClient y) -> gh_known g y.
Proof.
  intros [Hd Hh _ _ _] [[k Hk] Hna] (a & p & Hp & Ha). rewrite Hp in Hd. rewrite Hh in Hk.
  assert (forall g', (MuServer, k) ∈ gh_held g' -> gh_known g' = gh_known g ->
    may_take own g' (MuClient y) -> gh_known g y) as Hm.
  { intros g' Hin <- [[_ [?|[_ Hn]]]|[? _]]; [done| |done]. by destruct (Hn k). }
  destruct Hd as [Hal _]. destruct Ha as [-> | [-> | ->]]; cbn [allowed] in Hal.
  - destruct Hal. by apply (Hm g).
  - by apply (Hm g).
  - destruct Hal as (rest & E & Hmt). rewrite E in Hk. apply elem_of_cons in Hk as [ [=] | Hk].
    by apply (Hm (with_held rest g)).
Qed.

Section progress.
Context (owns : nat -> option nat) (s : Server) (ths : list thr) (seen : nat -> Prop) (gs : nat -> ghost).
Context (Hth : forall i t, ths !! i = Some t -> thread_ok seen (owns i) (gs i) t).

Lemma step_or_wait i t :
  ths !! i = Some t -> finished t = false ->
  can_step i (s, ths) \/ exists a p, th_prog t = Sync a p /\ ready (holders ths) a = false.
Proof.
  intros Ht Hf. destruct (Hth i t Ht) as [Hd Hh _ _ _]. unfold can_step. cbn [step]. rewrite Ht.
  unfold finished in Hf. destruct (th_prog t) as [r|a p|f k] eqn:Hp; [done| |left; by eexists].
  destruct Hd as (_ & held & Ha & _). rewrite Hh, Ha.
  destruct (ready (holders ths) a) eqn:Hr; [left; by eexists|right]. by exists a, p.
Qed.

Lemma held_unfinished i t x : ths !! i = Some t -> x ∈ th_held t -> finished t = false.
Proof.
  intros Ht Hx. destruct (Hth i t Ht) as [Hd Hh _ _ _]. unfold finished.
  destruct (th_prog t); [|done..]. cbn in Hd. rewrite Hh, Hd in Hx. by apply not_elem_of_nil in Hx.
Qed.

Lemma reader_has j u m : ths !! j = Some u -> (m, Shared) ∈ th_held u -> has u m.
Proof.
  intros Hu Hin. split; [by eexists|]. intros p Hp. destruct (Hth j u Hu) as [Hd Hh _ _ _].
  rewrite Hp in Hd. destruct Hd as [(rest & E & Hm) _]. rewrite Hh, E in Hin.
  apply elem_of_cons in Hin as [ [=] | Hin]. destruct Hm as [[Ho _]|(-> & x & _ & _ & E')].
  - specialize (Ho _ Hin). cbn in Ho. lia.
  - cbn in E'. rewrite E' in Hin. by apply list_elem_of_singleton in Hin.
Qed.

Lemma holder_can_step j u x :
  ths !! j = Some u -> x ∈ th_held u -> can_step j (s, ths) -> holder_runs (s, ths).
Proof.
  intros Hu Hx Hs. exists j, u. split; [done|]. split; [|done]. intros E. rewrite E in Hx.
  by apply not_elem_of_nil in Hx.
Qed.

(** Who is in the way: a goroutine that can run, or one that has the lock. *)
Lemma in_the_way i t :
  ths !! i = Some t -> finished t = false ->
  can_step i (s, ths) \/ holder_runs (s, ths) \/
  exists m, waits t m /\ exists j u, ths !! j = Some u /\ has u m.
Proof.
  intros Ht Hf. destruct (step_or_wait i t Ht Hf) as [?|(a & p & Hp & Hr%ready_false)]; [by left|right].
  assert (forall m, (m, Shared) ∈ holders ths -> exists j u, ths !! j = Some u /\ has u m) as Hsh.
  { intros m (j & u & Hu & Hin)%holders_spec. exists j, u. split; [done|]. by eapply reader_has. }
  assert (forall m, waits t m -> (m, Exclusive) ∈ holders ths -> holder_runs (s, ths) \/
    exists m, waits t m /\ exists j u, ths !! j = Some u /\ has u m) as Hex.
  { intros m Hw (j & u & Hu & Hin)%holders_spec.
    destruct (step_or_wait j u Hu (held_unfinished _ _ _ Hu Hin)) as [Hs|(a' & p' & Hp' & Hr')].
    { left. by eapply holder_can_step. }
    right. exists m. split; [done|]. destruct (decide (a' = Await m)) as [->|Hne].
    - apply Hsh. by apply ready_false in Hr'.
    - exists j, u. split; [done|]. split; [by eexists|]. intros p2 E. congruence. }
  destruct a as [m|m|m|m|m]; try done.
  - apply (Hex m); [exists (Announce m), p; auto|done].
  - right. exists m. split; [exists (Await m), p; auto|by apply Hsh].
  - apply (Hex m); [exists (RAcquire m), p; auto|done].
Qed.

(** From the innermost lock outwards: who has a lock can run, or somebody else
    who holds one can. *)
Lemma has_runs j u m : ths !! j = Some u -> has u m ->
  (forall m2, waits u m2 -> (exists j' u', ths !! j' = Some u' /\ has u' m2) ->
     (rank m < rank m2)%nat \/
     (m2 = MuServer /\ exists x, m = MuClient x /\ owns j = Some x /\ gh_registered (gs j) = false) ->
     holder_runs (s, ths)) ->
  holder_runs (s, ths).
Proof.
  intros Hu Hm Hw. assert (Hm' := Hm). destruct Hm' as [[k Hk] _].
  destruct (in_the_way j u Hu (held_unfinished _ _ _ Hu Hk)) as [Hs|[?|(m2 & Hw2 & Hj)]]; [|done|].
  - by eapply holder_can_step.
  - apply (Hw m2); [done|done|]. exact (has_order _ _ _ _ _ _ (Hth j u Hu) Hm Hw2).
Qed.

Lemma leaf_runs j u m : ths !! j = Some u -> has u m -> rank m = 3%nat -> holder_runs (s, ths).
Proof.
  intros Hu Hm Hr. apply (has_runs j u m); [done|done|].
  intros m2 _ _ [H|(_ & x & -> & _)]; [|done]. destruct m2; cbn in H; lia.
Qed.

(** The lock of a registered session: its login is over. *)
Lemma registered_runs j u y :
  ths !! j = Some u -> has u (MuClient y) -> seen y -> holder_runs (s, ths).
Proof.
  intros Hu Hm Hy. apply (has_runs j u (MuClient y)); [done|done|].
  intros m2 _ (j' & u' & Hu' & Hm') [H|(_ & x & [= <-] & Ho & Hr)].
  - apply (leaf_runs j' u' m2); [done|done|]. destruct m2; cbn in *; lia.
  - pose proof (proj1 (to_own _ _ _ _ (Hth j u Hu) y Ho) Hy). congruence.
Qed.

Lemma server_runs j u : ths !! j = Some u -> has u MuServer -> holder_runs (s, ths).
Proof.
  intros Hu Hm. apply (has_runs j u MuServer); [done|done|].
  intros m2 Hw (j' & u' & Hu' & Hm') [H|(_ & x & ? & _)]; [|done].
  destruct m2 as [| |y|x| | | |]; cbn in H; try lia; try (by eapply leaf_runs).
  apply (registered_runs j' u' y); [done|done|].
  apply (to_known _ _ _ _ (Hth j u Hu)). exact (has_known _ _ _ _ _ (Hth j u Hu) Hm Hw).
Qed.

Lemma anyone_runs j u m : ths !! j = Some u -> has u m -> holder_runs (s, ths).
Proof.
  intros Hu Hm. apply (has_runs j u m); [done|done|]. intros m2 Hw (j' & u' & Hu' & Hm') H.
  destruct m2 as [| |y|x| | | |]; try (by eapply server_runs); try (by eapply leaf_runs).
  - apply (has_runs j' u' (MuClient y)); [done|done|].
    intros m3 _ (j2 & u2 & Hu2 & Hm2) [H2|(-> & _)]; [|by eapply server_runs].
    apply (leaf_runs j2 u2 m3); [done|done|]. destruct m3; cbn in *; lia.
  - destruct H as [H|[? _]]; [|done]. cbn in H. lia.
Qed.

Lemma pool_progress i t : ths !! i = Some t -> finished t = false ->
  can_step i (s, ths) \/ holder_runs (s, ths).
Proof.
  intros Ht Hf. destruct (in_the_way i t Ht Hf) as [?|[?|(m & _ & j & u & Hu & Hm)]]; [by left|by right|].
  right. by eapply anyone_runs.
Qed.
End progress.

(** A goroutine that is blocked waits for one that runs. *)
Lemma pool_ok_progress owns c i t :
  pool_ok owns c -> c.2 !! i = Some t -> finished t = false -> can_step i c \/ holder_runs c.
Proof.
  destruct c as [s ths]. intros (_ & seen & gs & _ & Hth). cbn [snd] in *. by apply (pool_progress owns s ths seen gs).
Qed.

Lemma pool_ok_inevitable owns c : separate owns -> pool_ok owns c -> inevitable c.
Proof.
  intros Hsep. apply progress_inevitable; [intros ???; by apply pool_step|].
  intros [s ths] Hp Hf. unfold all_finished in Hf. cbn [snd] in Hf.
  assert (exists t, t ∈ ths /\ finished t = false) as (t & Ht & Hft).
  { clear Hp. induction ths as [|u ths IH]; [done|]. cbn [forallb] in Hf.
    destruct (finished u) eqn:E; [|exists u; split; [by left|done]].
    destruct (IH Hf) as (t & Ht & ?). exists t. split; [by right|done]. }
  apply list_elem_of_lookup in Ht as [i Hi].
  destruct (pool_ok_progress owns (s, ths) i t Hp Hi Hft) as [?|(j & u & _ & _ & ?)]; by eexists.
Qed.

(** ** Data that does not change under a lock *)

Lemma pool_protects owns c i j t c' m k :
  separate owns -> pool_ok owns c -> i <> j -> c.2 !! i = Some t -> (m, k) ∈ th_held t -> step j c = Some c' ->
  match m with
  | MuServer => sv_clients c'.1 = sv_clients c.1 /\ sv_dynamicFiles c'.1 = sv_dynamicFiles c.1 /\
      sv_stats c'.1 = sv_stats c.1 /\ sv_nextID c'.1 = sv_nextID c.1 /\ sv_auditLog c'.1 = sv_auditLog c.1
  | MuCatalog => sv_catalog c'.1 = sv_catalog c.1
  | MuClient y => session c'.1 y = session c.1 y
  | MuConnLimiter => sv_connLimiter c'.1 = sv_connLimiter c.1
  | MuCallbackLimiter => sv_callbackLimiter c'.1 = sv_callbackLimiter c.1
  | _ => True
  end.
Proof.
  intros Hsep (Hex & seen & gs & Hreg & Hth). destruct c as [s ths]. cbn [fst snd] in *.
  intros Hne Ht Hm (u & Hu & H)%step_spec. destruct (Hth j u Hu) as [Hd Hh Hk Ho _].
  destruct H as [(f & p & Hp & ->)|(a & p & held & Hp & _ & _ & ->)]; [|by destruct m].
  rewrite Hp in Hd. destruct Hd as (reg & Hmono & Hs). destruct (Hs s) as (Hg & _). cbn [fst].
  assert ((m, Exclusive) ∉ gh_held (gs j)) as Hn.
  { rewrite <- Hh. intros Hin. by apply (exclusive_free ths j u f p m Hex Hu Hp Hin i t k). }
  destruct Hg as [G1 G2 G3 G4 G5]. destruct m as [| |y|x| | | |]; try done.
  - by destruct G1.
  - by destruct G2.
  - destruct (G3 y) as [?|[?|[Hown Hun]]]; [done|done|].
    destruct (Hth i t Ht) as [_ Hh' Hk' _ Hcl]. rewrite Hh' in Hm. apply Hcl in Hm as [Hy|Hy].
    + destruct Hne. by apply (Hsep i j y).
    + apply Hk' in Hy. apply (Ho y Hown) in Hy. congruence.
  - by destruct G4.
  - by destruct G5.
Qed.
End discipline.
