(* ===== verification/DisciplineFacts.v ===== *)
(** * The handlers follow the discipline

    Every goroutine of [Locks] takes its locks in order and writes only what the
    locks it holds protect. A connection does so as long as it logs in once. *)

From S2P Require Import StateErr Threads.
From S2P Require Import Prelude GoStrings GoSort GoNet Ed2kLib Ed2kWire FileRecord Search Catalog.
From S2P Require Import Config IdChange OfferFiles Sources PeerServers Limiter Text Frames AuditLog.
From S2P Require Import Server Snapshots Locks Discipline.

Local Open Scope Z_scope.
Local Open Scope srv_scope.

Section steady.
Context {L : Ed2kLib}.
Context (own : option nat).

Local Abbreviation P A := (prog Server srvErr mutex A).
Local Abbreviation token := (mutex * mode)%type.

(** ** Accesses to the state *)

(** With the locks [held], [m] may write what it writes, and registers nobody. *)
Definition writes {A} (held : list token) (m : M A) : Prop := forall g s,
  gh_held g = held ->
  guarded own g s (m s).2 /\ forall y, registered (m s).2 y -> registered s y.

Lemma guarded_refl g s : guarded own g s s.
Proof. constructor; intros; right; try done; by left. Qed.

Lemma guarded_trans g s1 s2 s3 : guarded own g s1 s2 -> guarded own g s2 s3 -> guarded own g s1 s3.
Proof.
  intros [A1 A2 A3 A4 A5] [B1 B2 B3 B4 B5]. constructor.
  - destruct A1 as [?|(-> & -> & -> & -> & ->)] in B1 |- *; auto.
  - destruct A2 as [?|E], B2 as [?|E']; auto. right. congruence.
  - intros y. destruct (A3 y) as [?|[E|?]]; auto. rewrite <- E. apply B3.
  - destruct A4 as [?|E], B4 as [?|E']; auto. right. congruence.
  - destruct A5 as [?|E], B5 as [?|E']; auto. right. congruence.
Qed.

Lemma writes_bind {A B} held (m : M A) (k : A -> M B) :
  writes held m -> (forall a, writes held (k a)) -> writes held (bind m k).
Proof.
  intros Hm Hk g s Hg. destruct (Hm g s Hg) as [H1 H2]. unfold bind.
  destruct (m s) as [[a|e] s1]; cbn [snd] in *; [|done].
  destruct (Hk a g s1 Hg) as [H3 H4]. split; [by eapply guarded_trans|auto].
Qed.

Lemma writes_same {A} held (m : M A) :
  (forall s, sv_clients (m s).2 = sv_clients s /\ sv_dynamicFiles (m s).2 = sv_dynamicFiles s /\
     sv_stats (m s).2 = sv_stats s /\ sv_nextID (m s).2 = sv_nextID s /\
     sv_auditLog (m s).2 = sv_auditLog s /\ sv_catalog (m s).2 = sv_catalog s /\
     sv_sessions (m s).2 = sv_sessions s /\ sv_connLimiter (m s).2 = sv_connLimiter s /\
     sv_callbackLimiter (m s).2 = sv_callbackLimiter s) -> writes held m.
Proof.
  intros Hm g s _. destruct (Hm s) as (H1 & H2 & H3 & H4 & H5 & H6 & H7 & H8 & H9). split.
  - constructor; intros; right; auto. left. unfold session. by rewrite H7.
  - intros y. unfold registered. by rewrite H1.
Qed.

Lemma writes_gets {A} held (f : Server -> A) : writes held (gets f).
Proof. by apply writes_same. Qed.

Lemma writes_ret {A} held (a : A) : writes held (ret a).
Proof. by apply writes_same. Qed.

Lemma writes_fail {A} held e : writes held (fail e : M A).
Proof. by apply writes_same. Qed.

Lemma writes_of_option {A} held (o : option A) e : writes held (of_option o e).
Proof. destruct o; [apply writes_ret|apply writes_fail]. Qed.

(** Under the lock of the server. *)
Lemma writes_server held (f : Server -> Server) : (MuServer, Exclusive) ∈ held ->
  (forall s, sv_catalog (f s) = sv_catalog s /\ sv_sessions (f s) = sv_sessions s /\
     sv_connLimiter (f s) = sv_connLimiter s /\ sv_callbackLimiter (f s) = sv_callbackLimiter s /\
     forall y, registered (f s) y -> registered s y) -> writes held (modify f).
Proof.
  intros Hin Hf g s <-. destruct (Hf s) as (H1 & H2 & H3 & H4 & H5). split; [|done].
  constructor; intros; auto. right; left. unfold session. cbn [modify snd]. by rewrite H2.
Qed.

(** Under the lock of a session. *)
Lemma writes_session held sid f : (MuClient sid, Exclusive) ∈ held -> writes held (modify_session sid f).
Proof.
  intros Hin g s <-. split; [|done]. constructor; try by right. intros y.
  unfold modify_session, modify, session. cbn. unfold upd.
  destruct (decide (y = sid)) as [->|]; auto.
Qed.

Lemma writes_now `{World} held : writes held now.
Proof. by apply writes_same. Qed.

Lemma writes_bump held k n : (MuServer, Exclusive) ∈ held -> writes held (bump k n).
Proof. intros Hin. apply writes_server; [done|]. intros s. done. Qed.

Lemma writes_write `{World} held sid what : writes held (conn_write sid what).
Proof. apply writes_same. intros s. unfold conn_write. by destruct (write_ok _). Qed.

(** ** Programs *)

Definition grows (g g' : ghost) : Prop :=
  gh_held g' = gh_held g /\ gh_registered g' = gh_registered g /\
  forall y, gh_known g y -> gh_known g' y.

(** With the locks [held] and the sessions [known], [p] is disciplined and leaves
    the locks as they were. *)
Definition steady {A} (held : list token) (known : nat -> Prop) (p : P A) : Prop := forall g,
  gh_held g = held -> (forall y, known y -> gh_known g y) ->
  disciplined own p (fun _ => grows g) g.

Definition takes (held : list token) (known : nat -> Prop) (m : mutex) : Prop :=
  (forall x, x ∈ held -> (rank x.1 < rank m)%nat) /\
  match m with
  | MuClient y => known y \/ (own = Some y /\ forall k, (MuServer, k) ∉ held)
  | _ => True
  end.

Lemma takes_may_take held known m g :
  takes held known m -> gh_held g = held -> (forall y, known y -> gh_known g y) -> may_take own g m.
Proof.
  intros [H1 H2] <- Hk. left. split; [done|]. destruct m; try done. cbn. destruct H2; auto.
Qed.

Lemma grows_refl g : grows g g.
Proof. done. Qed.

Lemma grows_trans g1 g2 g3 : grows g1 g2 -> grows g2 g3 -> grows g1 g3.
Proof. intros (? & ? & ?) (? & ? & ?). split; [congruence|]. split; [congruence|auto]. Qed.

Lemma steady_done {A} held known (r : result srvErr A) : steady held known (Done r).
Proof. intros g _ _. apply grows_refl. Qed.

Lemma steady_ret {A} held known (a : A) : steady held known (pret a).
Proof. apply steady_done. Qed.

Lemma steady_fail {A} held known e : steady held known (pfail e : P A).
Proof. apply steady_done. Qed.

Lemma steady_of_option {A} held known (o : option A) e : steady held known (pof_option o e).
Proof. destruct o; apply steady_done. Qed.

Lemma steady_bind {A B} held known (p : P A) (k : A -> P B) :
  steady held known p -> (forall a, steady held known (k a)) -> steady held known (pbind p k).
Proof.
  intros Hp Hk g Hg Hkn. apply disciplined_bind. eapply disciplined_mono; [|by apply Hp].
  intros [a|e] g' Hgr; [|done]. assert (Hgr' := Hgr). destruct Hgr' as (H1 & H2 & H3).
  eapply disciplined_mono; [|apply Hk; [congruence|auto]]. intros r g'' H4. by eapply grows_trans.
Qed.

Lemma steady_try {A} held known (p : P A) : steady held known p -> steady held known (ptry p).
Proof. intros Hp g Hg Hkn. apply disciplined_try. by apply Hp. Qed.

Lemma steady_if {A} held known (b : bool) (p q : P A) :
  steady held known p -> steady held known q -> steady held known (if b then p else q).
Proof. by destruct b. Qed.

Lemma steady_mono {A} held (known known' : nat -> Prop) (p : P A) :
  (forall y, known y -> known' y) -> steady held known p -> steady held known' p.
Proof. intros Hy Hp g Hg Hk. apply Hp; auto. Qed.

Lemma steady_atomically {A} held known (m : M A) : writes held m -> steady held known (atomically m).
Proof.
  intros Hm g Hg _. exists (gh_registered g). split; [done|]. intros s.
  destruct (Hm g s Hg) as [H1 H2]. split; [done|]. split; [auto|]. split; [done|]. cbn. auto.
Qed.

(** What is read tells which sessions are registered. *)
Lemma steady_gets {A B} held known (f : Server -> A) (k : A -> P B) :
  (forall s, steady held (fun y => known y \/ registered s y) (k (f s))) ->
  steady held known (pbind (atomically (gets f)) k).
Proof.
  intros Hk g Hg Hkn. exists (gh_registered g). split; [done|]. intros s. cbn [gets snd].
  split; [apply guarded_refl|]. split; [auto|].
  eapply disciplined_mono; [|apply Hk; [exact Hg|]].
  - intros r g' H. eapply grows_trans; [|exact H]. split; [done|]. split; [done|]. cbn. auto.
  - cbn. intros y [?|?]; auto.
Qed.

Lemma steady_locked {A} held known m (p : P A) :
  takes held known m -> steady ((m, Exclusive) :: held) known p -> steady held known (locked m p).
Proof.
  intros Hm Hp g Hg Hkn. unfold locked. cbn [disciplined].
  split; [split; [by eapply takes_may_take|done]|]. eexists. split; [reflexivity|].
  split; [exists (gh_held g); split; [done|by eapply takes_may_take]|]. eexists. split; [reflexivity|].
  apply disciplined_bind, disciplined_try.
  eapply disciplined_mono; [|apply Hp; [cbn; by rewrite Hg|done]].
  intros r g' (H1 & H2 & H3). cbn [disciplined]. split; [done|]. exists (gh_held g).
  rewrite H1. cbn [with_held gh_held gh_registered gh_known] in *. split; [|done].
  cbn [after drop_lock]. by rewrite decide_True.
Qed.

Lemma steady_rlocked {A} held known m (p : P A) :
  takes held known m -> steady ((m, Shared) :: held) known p -> steady held known (rlocked m p).
Proof.
  intros Hm Hp g Hg Hkn. unfold rlocked. cbn [disciplined].
  split; [by eapply takes_may_take|]. eexists. split; [reflexivity|].
  apply disciplined_bind, disciplined_try.
  eapply disciplined_mono; [|apply Hp; [cbn; by rewrite Hg|done]].
  intros r g' (H1 & H2 & H3). cbn [disciplined]. split; [done|]. exists (gh_held g).
  rewrite H1. cbn [with_held gh_held gh_registered gh_known] in *. split; [|done].
  cbn [after drop_lock]. by rewrite decide_True.
Qed.

(** A reading critical section that ends with what it read. *)
Lemma steady_rlocked_gets {A B} held known m (f : Server -> A) (k : A -> P B) :
  takes held known m ->
  (forall s, steady held (fun y => known y \/ registered s y) (k (f s))) ->
  steady held known (pbind (rlocked m (atomically (gets f))) k).
Proof.
  intros Hm Hk g Hg Hkn. unfold rlocked. cbn [pbind disciplined].
  split; [by eapply takes_may_take|]. eexists. split; [reflexivity|].
  exists (gh_registered g). split; [done|]. intros s. cbn [gets snd]. split; [apply guarded_refl|].
  split; [auto|]. cbn [fst ptry pbind disciplined]. split; [done|]. exists (gh_held g). split.
  { cbn [after with_held gh_held drop_lock]. by rewrite decide_True. }
  cbn [with_held gh_held gh_registered gh_known].
  eapply disciplined_mono; [|apply Hk; [exact Hg|]].
  - intros r g' H. eapply grows_trans; [|exact H]. split; [done|]. split; [done|]. cbn. auto.
  - cbn. intros y [?|?]; auto.
Qed.
End steady.

(** ** Automation *)

(** A lock is in the list that is held. *)
Ltac in_held := solve [repeat first [apply elem_of_cons; left; reflexivity | apply elem_of_cons; right]].

Ltac in_concrete H :=
  repeat (apply elem_of_cons in H as [H|H]; [try discriminate H; try (injection H as ->); subst|]);
  try (exfalso; exact (not_elem_of_nil _ H)).

(** The order of the locks, and whose session is locked. *)
Ltac takes :=
  split; [intros ? Hin; in_concrete Hin; cbn; lia|];
  lazymatch goal with
  | |- True => exact I
  | |- _ \/ _ => first [ solve [left; auto]
      | solve [right; split; [first [assumption|reflexivity]|intros ? Hin; in_concrete Hin]]
      | match goal with H : _ \/ _ |- _ => destruct H as [H|H]; takes_client end ]
  | _ => idtac
  end
with takes_client := first [ solve [left; auto] | solve [right; split; [first [assumption|reflexivity]|intros ? Hin; in_concrete Hin]] ].

Ltac writes_step :=
  lazymatch goal with
  | |- writes _ _ (bind _ _) => apply writes_bind; [|intros]
  | |- writes _ _ (gets _) => apply writes_gets
  | |- writes _ _ (ret _) => apply writes_ret
  | |- writes _ _ (fail _) => apply writes_fail
  | |- writes _ _ (of_option _ _) => apply writes_of_option
  | |- writes _ _ now => apply writes_now
  | |- writes _ _ (bump _ _) => apply writes_bump; in_held
  | |- writes _ _ (modify_session _ _) => apply writes_session; in_held
  | |- writes _ _ (conn_write _ _) => apply writes_write
  | |- writes _ _ (modify _) => apply writes_server; [in_held|try done]
  | |- writes _ _ (let _ := _ in _) => cbv zeta
  | |- writes _ _ (match ?x with _ => _ end) => destruct x
  end.
Ltac writes := repeat writes_step.

(** The programs that are known to be steady. *)
Ltac steady_known := fail.

Ltac steady_step :=
  lazymatch goal with
  | |- steady _ _ _ (let _ := _ in _) => cbv zeta
  | |- steady _ _ _ (pbind (findClient_l _) _) => fail
  | |- steady _ _ _ (pbind _ _) => apply steady_bind; [|intros]
  | |- steady _ _ _ (ptry _) => apply steady_try
  | |- steady _ _ _ (locked _ _) => apply steady_locked; [takes|]
  | |- steady _ _ _ (rlocked _ _) => apply steady_rlocked; [takes|]
  | |- steady _ _ _ (pret _) => apply steady_ret
  | |- steady _ _ _ (pfail _) => apply steady_fail
  | |- steady _ _ _ (pof_option _ _) => apply steady_of_option
  | |- steady _ _ _ (atomically _) => apply steady_atomically; writes
  | |- steady _ _ _ (match ?x with _ => _ end) => destruct x
  | _ => steady_known
  end.
Ltac steady := repeat steady_step.

Section handlers.
Context {L : Ed2kLib} {W : Ed2kWire} {U : UnicodeTables} {MI : MapIter} {D : TextDecoder}.
Context {ZL : Zlib} {PC : PacketCombiner} {WD : World} {SS : SliceSort}.
Context (tracing : bool) (own : option nat).

(** Sessions that the goroutine may lock. *)
Local Abbreviation sees known sid := (known sid \/ own = Some sid).

Lemma steady_trace held known :
  (forall x, x ∈ held -> (rank x.1 < 3)%nat) -> steady own held known (trace_record tracing).
Proof. intros H. unfold trace_record. destruct tracing; [apply steady_locked; [by split|]|]; steady. Qed.

Lemma steady_send known sid packet :
  sees known sid -> steady own [] known (send_l tracing sid packet).
Proof.
  intros Hs. unfold send_l, sendLocked, noteOutbound_l, count_outbound, bumpCounter, noteOutbound. steady.
  all: apply steady_trace; intros ? Hin; in_concrete Hin; cbn; lia.
Qed.

Lemma steady_sendRaw known sid opcode body :
  sees known sid -> steady own [] known (sendRawEd2k_l tracing sid opcode body).
Proof.
  intros Hs. unfold sendRawEd2k_l, noteOutbound_l, count_outbound, bumpCounter, noteOutbound. steady.
  all: apply steady_trace; intros ? Hin; in_concrete Hin; cbn; lia.
Qed.

Lemma steady_bumpCounter held known m :
  (forall x, x ∈ held -> (rank x.1 < 1)%nat) -> writes own ((MuServer, Exclusive) :: held) m ->
  steady own held known (bumpCounter m).
Proof. intros H Hm. apply steady_locked; [by split|]. by apply steady_atomically. Qed.

Lemma steady_findClient {A} known id (k : option nat -> P A) :
  steady own [] known (k None) ->
  (forall target, steady own [] (fun y => known y \/ y = target) (k (Some target))) ->
  steady own [] known (pbind (findClient_l id) k).
Proof.
  intros Hn Hk. apply steady_rlocked_gets; [takes|]. intros s.
  destruct (findClient s id) as [target|] eqn:E.
  - apply (steady_mono _ _ (fun y => known y \/ y = target)); [|apply Hk].
    intros y [?| ->]; [by left|right]. by exists id.
  - by apply (steady_mono _ _ known); [auto|].
Qed.

Lemma steady_status known sid : sees known sid -> steady own [] known (send_status_l tracing sid).
Proof.
  intros Hs. unfold send_status_l, clientCount_l, currentFilesCount_l, Catalog_Count_l. steady.
  by apply steady_send.
Qed.

Lemma steady_remove known id : steady own [] known (removeClientOfferedFiles_l id).
Proof.
  apply steady_findClient; [steady|]. intros target. unfold take_offers, remove_dynamic. steady.
Qed.

Lemma steady_merge known id records : steady own [] known (mergeClientOfferedFiles_l id records).
Proof.
  apply steady_findClient; [steady|]. intros target. unfold merge_offers, publish_offers. steady.
  apply steady_remove.
Qed.

Lemma steady_offer known sid req : sees known sid -> steady own [] known (handleOfferFiles_l tracing sid req).
Proof.
  intros Hs. unfold handleOfferFiles_l. steady; [apply steady_merge| |by apply steady_status].
  apply steady_bumpCounter; [intros ? Hin; in_concrete Hin|writes].
Qed.

Lemma steady_serverList known sid : sees known sid -> steady own [] known (handleGetServerList_l tracing sid).
Proof.
  intros Hs. unfold handleGetServerList_l, config_l, serverTCPPort_l.
  steady; first [by apply steady_status|by apply steady_send|by apply steady_sendRaw].
Qed.

Lemma steady_searchAll known query : steady own [] known (searchAll_l query).
Proof. unfold searchAll_l. steady. Qed.

Lemma steady_searchMore known sid : sees known sid -> steady own [] known (handleSearchMore_l tracing sid).
Proof.
  intros Hs. unfold handleSearchMore_l, next_page, bumpCounter. steady. by apply steady_send.
Qed.

Lemma steady_note known sid k : sees known sid -> steady own [] known (note_l sid k).
Proof. intros Hs. unfold note_l. steady. Qed.

Lemma steady_search known sid query : sees known sid -> steady own [] known (handleSearch_l tracing sid query).
Proof.
  intros Hs. unfold handleSearch_l, config_l, bumpCounter.
  steady; first [by apply steady_send|apply steady_searchAll|by apply steady_note|by apply steady_searchMore].
Qed.

(** The loop over the sources locks only sessions that the table leads to. *)
Lemma steady_dynamic_sources known obfuscated sources :
  steady own [(MuServer, Shared)] known (dynamic_sources_l obfuscated sources).
Proof.
  revert known; induction sources as [|[clientID source] sources IH]; intros known; [apply steady_ret|].
  cbn [dynamic_sources_l]. destruct (EndpointFromString _ _) as [endpoint|]; [|apply IH].
  destruct obfuscated; cbn [pbind pret]; [|steady; apply IH].
  apply steady_gets. intros s. destruct (findClient s clientID) as [sid|] eqn:E; [|steady; apply IH].
  assert (registered s sid) by by exists clientID. steady; apply IH.
Qed.

Lemma steady_sourcesAll known h obfuscated : steady own [] known (sourcesAll_l h obfuscated).
Proof. unfold sourcesAll_l. steady. apply steady_dynamic_sources. Qed.

Lemma steady_sources known sid h obfuscated :
  sees known sid -> steady own [] known (handleGetSources_l tracing sid h obfuscated).
Proof.
  intros Hs. unfold handleGetSources_l, config_l, bumpCounter, sendFoundSourcesObfuscated_l.
  steady; first [apply steady_sourcesAll|by apply steady_note|by apply steady_sendRaw|by apply steady_send].
Qed.

Lemma writes_take_token held t ip :
  (MuCallbackLimiter, Exclusive) ∈ held -> writes own held (take_token t ip).
Proof.
  intros Hin g s <-. unfold take_token. rewrite bind_gets. destruct (sv_callbackLimiter s) as [l|].
  - destruct (allow l t ip) as [l' ok]. split; [|done].
    constructor; intros; first [by left|by right|right; by left].
  - split; [apply guarded_refl|done].
Qed.

Lemma steady_callback known sid id : sees known sid -> steady own [] known (handleCallback_l tracing sid id).
Proof.
  intros Hs. unfold handleCallback_l, allow_callback_l, bumpCounter.
  steady; try (by apply steady_send); try (by apply steady_note).
  - apply writes_take_token. in_held.
  - apply steady_findClient; [by apply steady_send|]. intros target.
    assert (sees (fun y => known y \/ y = target) sid) as Hs' by (destruct Hs; auto).
    steady; apply steady_send; auto.
Qed.

(** ** Connections *)

(** A frame that is served as a login. *)
Definition login_frame (f : frame) : bool :=
  let '(proto, opcode, _, _) := f in byte_eqb proto EdonkeyHeader && byte_eqb opcode opLoginRequest.

Lemma steady_dispatch known sid packet body :
  sees known sid -> byte_eqb packet opLoginRequest = false ->
  steady own [] known (dispatch_l tracing sid packet body).
Proof.
  intros Hs Hl. unfold dispatch_l. rewrite Hl.
  steady; first [by apply steady_serverList|by apply steady_offer|by apply steady_search
    |by apply steady_searchMore|by apply steady_sources|by apply steady_callback].
Qed.

Lemma steady_serve_frame known sid proto opcode body n :
  sees known sid -> login_frame (proto, opcode, body, n) = false ->
  steady own [] known (serve_frame_l tracing sid proto opcode body n).
Proof.
  intros Hs Hl. unfold serve_frame_l, noteInbound_l, bumpCounter. unfold login_frame in Hl.
  destruct (byte_eqb proto EdonkeyHeader); cbn [negb andb] in *; steady;
    first [by apply steady_dispatch|apply steady_trace; intros ? Hin; in_concrete Hin].
Qed.

Lemma steady_close known sid : sees known sid -> steady own [] known (close_conn_l sid).
Proof.
  intros Hs. unfold close_conn_l, unregisterClient_l, bumpCounter. steady; try apply steady_remove.
  - intros s. destruct (sv_clients s !! _) as [existing|]; [|done].
    destruct (existing =? sid)%nat; [|done]. do 4 (split; [done|]).
    intros y [id Hid]. unfold registered. cbn in Hid. apply lookup_delete_Some in Hid as [_ Hid]. by exists id.
  - by apply writes_same.
Qed.

Lemma writes_take_conn held t ip : (MuConnLimiter, Exclusive) ∈ held -> writes own held (take_conn_token t ip).
Proof.
  intros Hin g s <-. unfold take_conn_token. rewrite bind_gets. destruct (sv_connLimiter s) as [l|].
  - destruct (allow l t ip) as [l' ok]. split; [|done].
    constructor; intros; first [by left|by right|right; by left].
  - split; [apply guarded_refl|done].
Qed.

Lemma steady_admit known sid remote first handshake :
  steady own [] known (admit_conn_l sid remote first handshake).
Proof.
  unfold admit_conn_l, config_l, bumpCounter. steady. apply writes_take_conn. in_held.
Qed.
End handlers.

(** ** The goroutine of a connection *)

Section connection.
Context {L : Ed2kLib} {W : Ed2kWire} {U : UnicodeTables} {MI : MapIter} {D : TextDecoder}.
Context {ZL : Zlib} {PC : PacketCombiner} {WD : World} {SS : SliceSort}.
Context (tracing : bool) (sid : nat).

Local Abbreviation own := (Some sid).

Lemma disciplined_seq {A B} (p : P A) (k : A -> P B) (R : ghost -> Prop) Q g :
  disciplined own p (fun _ => R) g -> (forall a g', R g' -> disciplined own (k a) Q g') ->
  (forall e g', R g' -> Q (Err e) g') -> disciplined own (pbind p k) Q g.
Proof.
  intros Hp Hk He. apply disciplined_bind. eapply disciplined_mono; [|exact Hp].
  intros [a|e] g' HR; [by apply Hk|by apply He].
Qed.

Lemma steady_at {A} (p : P A) g : steady own (gh_held g) (fun _ => False) p -> disciplined own p (fun _ => grows g) g.
Proof. intros Hp. by apply Hp. Qed.

(** A section whose lock may be taken for a reason of its own. *)
Lemma disciplined_locked {A} m (p : P A) g :
  may_take own g m -> disciplined own p (fun _ => grows (with_held ((m, Exclusive) :: gh_held g) g))
                        (with_held ((m, Exclusive) :: gh_held g) g) ->
  disciplined own (locked m p) (fun _ => grows g) g.
Proof.
  intros Hm Hp. unfold locked. cbn [disciplined]. split; [done|]. eexists. split; [reflexivity|].
  split; [exists (gh_held g); split; [done|by destruct g]|]. eexists. split; [reflexivity|].
  apply disciplined_bind, disciplined_try. eapply disciplined_mono; [|exact Hp].
  intros r g' (H1 & H2 & H3). cbn [disciplined]. split; [done|]. exists (gh_held g).
  rewrite H1. cbn [with_held gh_held gh_registered gh_known after drop_lock] in *. split; [|done].
  by rewrite decide_True.
Qed.

Lemma disciplined_rlocked {A} m (p : P A) g :
  may_take own g m -> disciplined own p (fun _ => grows (with_held ((m, Shared) :: gh_held g) g))
                        (with_held ((m, Shared) :: gh_held g) g) ->
  disciplined own (rlocked m p) (fun _ => grows g) g.
Proof.
  intros Hm Hp. unfold rlocked. cbn [disciplined]. split; [done|]. eexists. split; [reflexivity|].
  apply disciplined_bind, disciplined_try. eapply disciplined_mono; [|exact Hp].
  intros r g' (H1 & H2 & H3). cbn [disciplined]. split; [done|]. exists (gh_held g).
  rewrite H1. cbn [with_held gh_held gh_registered gh_known after drop_lock] in *. split; [|done].
  by rewrite decide_True.
Qed.

(** The server's lock inside the session's, before the session is registered. *)
Lemma allocate_disciplined addr g :
  gh_held g = [(MuClient sid, Exclusive)] -> gh_registered g = false ->
  disciplined own (allocateClientID_l addr) (fun _ => grows g) g.
Proof.
  intros Hg Hr. assert (may_take own g MuServer) as Hm.
  { right. split; [done|]. by exists sid. }
  assert (forall g', grows g g' -> may_take own g' MuServer) as Hm'.
  { intros g' (E1 & E2 & _). right. split; [done|]. exists sid. split; [done|]. split; congruence. }
  unfold allocateClientID_l.
  apply (disciplined_seq _ _ (grows g)); [|intros free g' Hgr|done].
  - destruct (_ =? 0); [apply grows_refl|]. apply disciplined_rlocked; [done|].
    apply steady_at, steady_atomically, writes_gets.
  - destruct free; [done|].
    apply (disciplined_mono _ _ (fun _ => grows g')); [intros r g'' H; by eapply grows_trans|].
    apply disciplined_locked; [by apply Hm'|]. apply steady_at, steady_atomically.
    intros g0 s Hg0. unfold next_free_id. destruct (free_id _ _ _) as [id|]; [|split; [apply guarded_refl|done]].
    split; [|done]. cbn [with_held gh_held] in Hg0. constructor; intros; first [by right|right; by left|left].
    rewrite Hg0. by left.
Qed.

Lemma login_fields_disciplined h point properties g :
  gh_held g = [] -> gh_registered g = false ->
  disciplined own (login_fields sid h point properties) (fun _ => grows g) g.
Proof.
  intros Hg Hr. unfold login_fields. apply disciplined_locked.
  { left. split; [by rewrite Hg; intros x Hx%elem_of_nil|]. right. split; [done|].
    intros k. rewrite Hg. apply not_elem_of_nil. }
  set (g1 := with_held _ g). assert (gh_held g1 = [(MuClient sid, Exclusive)]) as Hg1 by (cbn; by rewrite Hg).
  apply (disciplined_seq _ _ (grows g1)); [apply steady_at, steady_atomically, writes_gets| |done].
  intros remote g2 Hg2. apply (disciplined_seq _ _ (grows g1)); [| |done].
  - assert (Hg2' := Hg2). destruct Hg2' as (E1 & E2 & _).
    apply (disciplined_mono _ _ (fun _ => grows g2)); [intros r g3 H; by eapply grows_trans|].
    apply (allocate_disciplined remote g2); [congruence|]. rewrite E2. exact Hr.
  - intros id g3 Hg3. apply (disciplined_mono _ _ (fun _ => grows g3)); [intros r g4 H; by eapply grows_trans|].
    apply steady_at. destruct Hg3 as (E & _). rewrite E, Hg1. steady.
Qed.

(** The client table leads to the session from now on. *)
Lemma register_disciplined g :
  gh_held g = [] -> disciplined own (registerClient_l sid) (fun _ g' => gh_held g' = []) g.
Proof.
  intros Hg. unfold registerClient_l. apply (disciplined_seq _ _ (grows g)).
  - apply steady_at. rewrite Hg. apply steady_locked; [takes|]. steady.
  - intros id g1 (E1 & E2 & _). rewrite Hg in E1. destruct (id =? 0); [done|].
    unfold locked. cbn [disciplined]. split; [split; [|done]|].
    { left. split; [by rewrite E1; intros x Hx%elem_of_nil|done]. }
    eexists. split; [reflexivity|]. split.
    { exists []. split; [cbn; by rewrite E1|]. left. by split; [intros x Hx%elem_of_nil|]. }
    eexists. split; [reflexivity|]. cbn [pbind ptry atomically disciplined].
    exists true. split; [done|]. intros s. split; [|split].
    + constructor; intros; first [by right|right; by left|left]. cbn. by left.
    + intros y [i Hi]. cbn in Hi. destruct (decide (i = id)) as [->|Hne].
      * rewrite lookup_insert_eq in Hi. injection Hi as <-. by right.
      * rewrite lookup_insert_ne in Hi by done. left. by exists i.
    + split; [done|]. exists []. split; [|done]. cbn. rewrite E1. by rewrite decide_True.
  - intros e g' (E & _). congruence.
Qed.

Lemma steady_quiet {A} (p : P A) g :
  steady own [] (fun _ => False) p -> gh_held g = [] ->
  disciplined own p (fun _ g' => gh_held g' = [] /\ gh_registered g' = gh_registered g) g.
Proof.
  intros Hp Hg. eapply disciplined_mono; [|by apply (Hp g)]. intros _ g' (E1 & E2 & _). split; congruence.
Qed.

(** Between two requests. *)
Definition idle (r : bool) (g : ghost) : Prop := gh_held g = [] /\ gh_registered g = r.

Lemma quiet_seq {A B} r (p : P A) (k : A -> P B) g :
  steady own [] (fun _ => False) p -> idle r g ->
  (forall a g', idle r g' -> disciplined own (k a) (fun _ g' => gh_held g' = []) g') ->
  disciplined own (pbind p k) (fun _ g' => gh_held g' = []) g.
Proof.
  intros Hp [Hg <-] Hk. apply (disciplined_seq _ _ (idle (gh_registered g))); [by apply steady_quiet|exact Hk|].
  by intros e g' [].
Qed.

Lemma quiet_end {A} (p : P A) g :
  steady own [] (fun _ => False) p -> gh_held g = [] -> disciplined own p (fun _ g' => gh_held g' = []) g.
Proof. intros Hp Hg. eapply disciplined_mono; [|by apply steady_quiet]. by intros _ g' []. Qed.

Lemma login_disciplined h point properties g :
  idle false g -> disciplined own (handleLogin_l tracing sid h point properties) (fun _ g' => gh_held g' = []) g.
Proof.
  intros [Hg Hr]. unfold handleLogin_l.
  apply (disciplined_seq _ _ (fun g' => gh_held g' = [])); [|intros id g1 Hg1|done].
  { eapply disciplined_mono; [|by apply login_fields_disciplined]. intros _ g' (E & _). congruence. }
  apply (disciplined_seq _ _ (fun g' => gh_held g' = [])); [by apply register_disciplined|intros [] g2 Hg2|done].
  apply quiet_end; [|exact Hg2].
  unfold config_l, serverTCPPort_l. steady; first [apply steady_status|apply steady_send]; by right.
Qed.

(** [sid] may still log in. *)
Definition fresh_enough (frames : list frame) (g : ghost) : Prop :=
  (length (List.filter login_frame frames) <= if gh_registered g then 0 else 1)%nat.

Lemma serve_frame_disciplined proto opcode body n frames g :
  fresh_enough ((proto, opcode, body, n) :: frames) g -> gh_held g = [] ->
  disciplined own (serve_frame_l tracing sid proto opcode body n)
    (fun _ g' => gh_held g' = [] /\ fresh_enough frames g') g.
Proof.
  unfold fresh_enough. cbn [List.filter]. destruct (login_frame (proto, opcode, body, n)) eqn:El; intros Hf Hg.
  - cbn [length] in Hf. destruct (gh_registered g) eqn:Er; [lia|].
    assert (length (List.filter login_frame frames) = 0)%nat as -> by lia.
    apply (disciplined_mono _ _ (fun _ g' => gh_held g' = [])); [intros _ g' Hg'; split; [exact Hg'|lia]|].
    unfold serve_frame_l. apply andb_true_iff in El as [Hp Hl]. rewrite Hp. cbn [negb].
    unfold noteInbound_l, bumpCounter.
    apply (quiet_seq false); [steady|done|intros [] g1 Hg1].
    apply (quiet_seq false); [steady|done|intros [] g2 Hg2].
    apply (quiet_seq false); [apply steady_trace; intros ? Hin; in_concrete Hin|done|intros [] g3 Hg3].
    unfold dispatch_l. rewrite Hl. destruct (LoginRequest_Get body) as [[[h point] properties]|]; [|by destruct Hg3].
    by apply login_disciplined.
  - eapply disciplined_mono; [|apply steady_quiet; [|exact Hg]].
    + intros _ g' [? E]. split; [done|]. by rewrite E.
    + apply steady_serve_frame; [by right|done].
Qed.

Lemma serve_frames_disciplined frames g :
  fresh_enough frames g -> gh_held g = [] ->
  disciplined own (serve_frames_l tracing sid frames) (fun _ g' => gh_held g' = []) g.
Proof.
  assert (forall g', gh_held g' = [] ->
    disciplined own (close_conn_l sid) (fun _ g' => gh_held g' = []) g') as Hclose.
  { intros g' Hg'. apply quiet_end; [|exact Hg']. apply steady_close. by right. }
  revert g; induction frames as [|[[[proto opcode] body] n] frames IH]; intros g Hf Hg; [by apply Hclose|].
  cbn [serve_frames_l]. apply disciplined_bind, disciplined_try.
  eapply disciplined_mono; [|by apply (serve_frame_disciplined _ _ _ _ frames)].
  intros r g' [Hg' Hf']. destruct r as [[]|[]]; try (by apply Hclose); [by apply IH|done].
Qed.

Lemma handleConn_disciplined remote local first handshake frames g :
  (length (List.filter login_frame frames) <= 1)%nat -> idle false g ->
  disciplined own (handleConn_l tracing sid remote local first handshake frames)
    (fun _ g' => gh_held g' = []) g.
Proof.
  intros Hf Hg. unfold handleConn_l. apply (quiet_seq false); [apply steady_admit|done|].
  intros ok g1 Hg1. destruct ok; [|by destruct Hg1]. unfold open_session_l.
  apply (disciplined_seq _ _ (idle false)); [| |by intros e g' []].
  - apply (disciplined_seq _ _ (idle false)); [| |done].
    + destruct Hg1 as [H1 H2]. exists false. rewrite H2. split; [done|]. intros s.
      split; [|split; [auto|done]]. constructor; intros; try by right.
      cbn. unfold session. cbn. unfold upd.
      destruct (decide (y = sid)) as [->|]; [by right; right|by right; left].
    + intros [] g2 [Hg2 <-]. apply steady_quiet; [|exact Hg2]. unfold bumpCounter. steady.
  - intros [] g2 [Hg2 Hr2]. apply serve_frames_disciplined; [|done]. unfold fresh_enough. by rewrite Hr2.
Qed.
End connection.

(** ** All goroutines *)

Section goroutines.
Context {L : Ed2kLib} {W : Ed2kWire} {U : UnicodeTables} {MI : MapIter} {D : TextDecoder}.
Context {ZL : Zlib} {PC : PacketCombiner} {WD : World} {SS : SliceSort}.
Context {ML : MapIterLaws} (tracing : bool).

Definition conn_of (g : goroutine) : option nat :=
  match g with GoConn sid _ _ _ _ _ => Some sid | _ => None end.

(** A connection logs in at most once. *)
Definition logs_in_once (g : goroutine) : Prop :=
  match g with
  | GoConn _ _ _ _ _ frames => (length (List.filter login_frame frames) <= 1)%nat
  | _ => True
  end.

Lemma steady_persist own known : steady own [] known persistCatalog_l.
Proof.
  unfold persistCatalog_l, Catalog_Save_l, bumpCounter. steady.
  apply writes_same. intros s. unfold store_write. by destruct (write_ok _).
Qed.

(** Under the lock of the catalog. *)
Lemma writes_catalog {A} own held (m : M A) : (MuCatalog, Exclusive) ∈ held ->
  (forall s, exists c, (m s).2 = set_sv_catalog c s) -> writes own held m.
Proof.
  intros Hin Hm g s <-. destruct (Hm s) as [c ->]. split; [|done].
  constructor; intros; first [by left|by right|right; by left].
Qed.

Lemma steady_write_catalog own known f : steady own [(MuCatalog, Exclusive)] known (write_catalog f).
Proof. apply steady_atomically, writes_catalog; [in_held|]. intros s. by eexists. Qed.

Lemma steady_upsert own known normalized : steady own [] known (Catalog_Upsert_l normalized).
Proof.
  unfold Catalog_Upsert_l, rebuildSearchIndexLocked_l, read_catalog. steady; apply steady_write_catalog.
Qed.

Lemma steady_delete own known h : steady own [] known (Catalog_Delete_l h).
Proof.
  unfold Catalog_Delete_l, rebuildSearchIndexLocked_l, read_catalog. steady; apply steady_write_catalog.
Qed.

Lemma steady_snapshots own (known : nat -> Prop) clients :
  Forall known clients -> steady own [] known (snapshots_l clients).
Proof.
  induction 1 as [|sid clients Hk _ IH]; [apply steady_ret|]. cbn [snapshots_l]. unfold snapshot_l.
  steady; apply IH.
Qed.

Lemma steady_clients own known : steady own [] known ClientsSnapshot_l.
Proof.
  apply steady_rlocked_gets; [takes|]. intros s. steady. apply steady_snapshots.
  apply Forall_forall. intros sid Hsid. right. apply list_elem_of_fmap in Hsid as ([id sid'] & -> & Hin).
  exists id.
  rewrite range_map_perm in Hin. by apply elem_of_map_to_list in Hin.
Qed.

Lemma steady_client own known id : steady own [] known (ClientSnapshotByID_l id).
Proof. apply steady_findClient; [steady|]. intros target. unfold snapshot_l. steady. Qed.

Lemma program_disciplined g gh :
  logs_in_once g -> gh_held gh = [] -> gh_registered gh = false ->
  disciplined (conn_of g) (program tracing g) (fun _ g' => gh_held g' = []) gh.
Proof.
  intros Hl Hg Hr.
  assert (forall A (p : P A), steady None [] (fun _ => False) p ->
    disciplined None (ended p) (fun _ g' => gh_held g' = []) gh) as Hp.
  { intros A p Hs. eapply disciplined_mono; [|apply (steady_bind None [] (fun _ => False) p _ Hs); [|exact Hg|done]].
    - intros _ g' (E & _). congruence.
    - intros a. apply steady_ret. }
  destruct g as [sid remote local first handshake frames|record|h| |entry| | |id| |h| |query|h];
    cbn [program conn_of].
  - apply disciplined_bind. eapply disciplined_mono; [|by apply handleConn_disciplined].
    by intros [a|e] g' Hg'.
  - apply Hp. unfold UpsertFile_l, bumpCounter. steady; first [apply steady_upsert|apply steady_persist].
  - eapply disciplined_mono; [|assert (steady None [] (fun _ => False) (DeleteFile_l h)) as Hs;
      [|exact (Hs gh Hg ltac:(done))]].
    + intros _ g' (E & _). congruence.
    + unfold DeleteFile_l, bumpCounter. steady; first [apply steady_delete|apply steady_persist].
  - apply Hp, steady_persist.
  - apply Hp. unfold appendAudit_l. steady.
  - apply Hp. unfold StatsSnapshot_l, Catalog_Count_l. steady.
  - apply Hp, steady_clients.
  - apply Hp, steady_client.
  - apply Hp. unfold FilesSnapshot_l. steady.
  - apply Hp. unfold FileSnapshot_l. steady.
  - apply Hp. unfold AuditSnapshot_l. steady.
  - apply Hp, steady_searchAll.
  - apply Hp, steady_sourcesAll.
Qed.
End goroutines.
