(* ===== verification/Concurrency.v ===== *)
(** * What happens when requests interleave

    Any number of connections and administrative requests at a time: all of them
    end, unless a client logs in twice; what a lock protects does not change under
    it. *)

From S2P Require Import StateErr Threads.
From S2P Require Import Prelude GoStrings GoSort GoNet Ed2kLib Ed2kRef Ed2kWire FileRecord Search.
From S2P Require Import Catalog CatalogFacts Config IdChange OfferFiles Sources PeerServers Limiter.
From S2P Require Import Text Frames AuditLog Server ServerInv ServerDemo Snapshots Locks Discipline.
From S2P Require Import DisciplineFacts.

Local Open Scope Z_scope.
Local Open Scope srv_scope.

Section pools.
Context {L : Ed2kLib} {W : Ed2kWire} {U : UnicodeTables} {MI : MapIter} {ML : MapIterLaws} {D : TextDecoder}.
Context {ZL : Zlib} {PC : PacketCombiner} {WD : World} {SS : SliceSort}.
Context (tracing : bool).

(** The connections that goroutines serve: each has one, and none is in the
    client table yet. *)
Record new_connections (s : Server) (gs : list goroutine) : Prop := {
  nc_distinct : NoDup (omap conn_of gs);
  nc_new : Forall (fun sid => ~ registered s sid) (omap conn_of gs);
  nc_once : Forall logs_in_once gs
}.

Definition owner (gs : list goroutine) (i : nat) : option nat := gs !! i ≫= conn_of.

Lemma owner_in gs i sid : owner gs i = Some sid -> sid ∈ omap conn_of gs.
Proof.
  unfold owner. destruct (gs !! i) as [g|] eqn:Eg; [|done]. cbn. intros Hg.
  apply list_elem_of_omap. exists g. split; [by eapply list_elem_of_lookup_2|done].
Qed.

Lemma owner_separate gs : NoDup (omap conn_of gs) -> separate (owner gs).
Proof.
  induction gs as [|g gs IH]; [done|]. intros Hnd.
  assert (NoDup (omap conn_of gs) /\ forall sid, conn_of g = Some sid -> sid ∉ omap conn_of gs) as [Hgs Hg].
  { cbn [omap list_omap] in Hnd. destruct (conn_of g) as [sid|]; [|by split].
    apply NoDup_cons in Hnd as [Hn Hnd]. split; [done|]. by intros sid' [= <-]. }
  intros [|i] [|j] sid Hi Hj; [done| | |].
  - by apply Hg in Hi as []; apply (owner_in gs j).
  - by apply Hg in Hj as []; apply (owner_in gs i).
  - f_equal. by apply (IH Hgs i j sid).
Qed.

Lemma pool_start s gs : new_connections s gs -> pool_ok (owner gs) (s, pool tracing gs).
Proof.
  intros [Hnd Hnew Honce]. split.
  - intros i j ti tj m k _ Hi _ Hm. unfold pool in Hi. cbn [snd] in Hi.
    rewrite list_lookup_fmap in Hi. destruct (gs !! i); [|done]. injection Hi as <-.
    by apply not_elem_of_nil in Hm.
  - exists (registered s), (fun _ => mkGhost [] false (fun _ => False)). split; [done|].
    intros i t Hi. unfold pool in Hi. cbn [snd] in Hi. rewrite list_lookup_fmap in Hi.
    destruct (gs !! i) as [g|] eqn:Eg; [|done]. injection Hi as <-.
    assert (owner gs i = conn_of g) as -> by (unfold owner; by rewrite Eg).
    constructor; [|done|done| |by intros y k ?%not_elem_of_nil].
    + apply program_disciplined; [by eapply Forall_lookup_1|done|done].
    + intros sid Hsid. split; [|done]. intros Hr.
      assert (sid ∈ omap conn_of gs) as Hin by (apply (owner_in gs i); unfold owner; by rewrite Eg).
      by destruct (proj1 (Forall_forall _ _) Hnew sid Hin).
Qed.

(** C10: every request is answered: any number of connections, each of which logs
    in at most once, and administrative requests run at the same time. However
    they are scheduled, all of them end; and at any time a goroutine that is
    blocked waits for one that holds a lock and can run. *)
Theorem requests_end s gs :
  new_connections s gs ->
  inevitable (s, pool tracing gs) /\
  forall c i t, reach (s, pool tracing gs) c -> c.2 !! i = Some t -> finished t = false ->
    can_step i c \/ holder_runs c.
Proof.
  intros Hn. pose proof (owner_separate gs (nc_distinct _ _ Hn)) as Hsep. pose proof (pool_start s gs Hn) as H0.
  split; [by apply (pool_ok_inevitable (owner gs))|]. intros c i t Hr Hi Hf.
  apply (pool_ok_progress (owner gs) c i t); [by eapply pool_reach|done|done].
Qed.

End pools.

(** ** A deadlock *)

Local Abbreviation demo_pool gs := (pool (PC := demo_combiner) (WD := demo_world) false gs).

Definition demo_frame (opcode : byte) (body : bytes) : frame := (EdonkeyHeader, opcode, body, 30).

Definition demo_conn (sid : nat) (n : byte) (frames : list frame) : goroutine :=
  GoConn sid (demo_addr n) (Some (demo_addr xfe)) (Some xe3) false frames.

Definition demo_offer_body (n : byte) : bytes :=
  match OfferFiles_Put (mkOffer _ [demo_entry n 0 0]) with Some b => b | None => [] end.

(** A client that shares a file logs in again, while another one asks for the
    sources of the file and the administrator for the statistics. *)
Definition relogin : list goroutine :=
  [demo_conn 0 x01 [demo_frame opLoginRequest (demo_login_body xa1);
                    demo_frame opOfferFiles (demo_offer_body x77);
                    demo_frame opLoginRequest (demo_login_body xa1)];
   demo_conn 1 x02 [demo_frame opGetSourcesObfu (replicate 16 x77)];
   GoStats].

Definition blocked_b (c : @config Server srvErr mutex bool) : bool :=
  negb (all_finished c) &&
  forallb (fun i => match step i c with None => true | Some _ => false end) (seq 0 (length c.2)).

Lemma blocked_b_ok c : blocked_b c = true -> deadlocked c.
Proof.
  intros [Hf Hs]%andb_true_iff. split; [by apply negb_true_iff|]. intros i.
  destruct (decide (i < length c.2)%nat) as [Hi|Hi].
  - pose proof (proj1 (forallb_forall _ _) Hs i) as H. cbv beta in H.
    destruct (step i c); [|done]. discriminate H. apply in_seq. lia.
  - destruct c as [s ths]. cbn [step]. by rewrite lookup_ge_None_2 by (cbn [snd] in Hi; lia).
Qed.

(** C12: logging in twice can stop the whole server. The second login holds the
    lock of its session and waits for the lock of the server, to allocate an ID;
    a request for the sources of a file that the client shares holds the lock of
    the server and waits for the session. No goroutine can take a step, and every
    later one that needs the server's lock is blocked too. *)
Theorem relogin_deadlocks : exists c,
  reach (demo_server, demo_pool relogin) c /\ deadlocked c /\
  option_map th_held (c.2 !! 0%nat) = Some [(MuServer, Exclusive); (MuClient 0, Exclusive)] /\
  option_map th_held (c.2 !! 1%nat) = Some [(MuServer, Shared)].
Proof.
  set (schedule := replicate 137 0%nat ++ replicate 21 1%nat ++ replicate 6 0%nat).
  assert (match run schedule (demo_server, demo_pool relogin) with
    | Some c => blocked_b c &&
        bool_decide (map th_held c.2 = [[(MuServer, Exclusive); (MuClient 0, Exclusive)]; [(MuServer, Shared)]; []])
    | None => false end = true) as Hrun by (vm_compute; reflexivity).
  destruct (run schedule _) as [c|] eqn:Ec; [|discriminate Hrun].
  apply andb_true_iff in Hrun as [Hb Hh%bool_decide_eq_true]. exists c.
  split; [eapply reach_run; [constructor|exact Ec]|]. split; [by apply blocked_b_ok|].
  clear Ec Hb schedule. destruct c as [s ths]. cbn [snd] in *.
  destruct ths as [|t0 [|t1 ths]]; [discriminate Hh..|]. injection Hh as H0 H1 _.
  cbn [lookup list_lookup option_map]. rewrite H0, H1. split; reflexivity.
Qed.

(** ** Witnesses *)

(** Two clients log in, one shares a file that the other asks for, while the
    administrator works. *)
Definition demo_gs : list goroutine :=
  [demo_conn 0 x01 [demo_frame opLoginRequest (demo_login_body xa1);
                    demo_frame opOfferFiles (demo_offer_body x77)];
   demo_conn 1 x02 [demo_frame opLoginRequest (demo_login_body xb2);
                    demo_frame opGetSourcesObfu (replicate 16 x77)];
   GoStats; GoUpsert (demo_file xef (lit "New.mp3") 5); GoClients].

Lemma demo_new : new_connections demo_server demo_gs.
Proof.
  constructor.
  - apply (bool_decide_unpack _). vm_compute. exact I.
  - repeat constructor; intros [id H]; vm_compute in H; discriminate H.
  - repeat constructor; vm_compute; lia.
Qed.

Lemma requests_end_witness :
  new_connections demo_server demo_gs /\ inevitable (demo_server, demo_pool demo_gs).
Proof. split; [exact demo_new|]. exact (proj1 (requests_end false demo_server demo_gs demo_new)). Defined.

