(* ===== verification/Linear.v ===== *)
(** * Administrative changes that interleave

    Whatever requests run at the same time, the catalog in memory is what the
    changes give one after the other, in the order of their critical sections,
    and each is answered accordingly. The store is another matter: it always
    holds a catalog that the memory had, but perhaps not the last one. *)

From S2P Require Import StateErr Threads.
From S2P Require Import Prelude GoStrings GoSort GoNet Ed2kLib Ed2kRef Ed2kWire FileRecord Search.
From S2P Require Import Catalog CatalogFacts Config IdChange OfferFiles Sources PeerServers Limiter.
From S2P Require Import Text Frames AuditLog Server ServerDemo Snapshots Locks Discipline.

Local Open Scope Z_scope.
Local Open Scope srv_scope.

Section linear.
Context {L : Ed2kLib} {W : Ed2kWire} {U : UnicodeTables} {MI : MapIter} {D : TextDecoder}.
Context {ZL : Zlib} {PC : PacketCombiner} {WD : World} {SS : SliceSort}.
Context (tracing : bool).

(** ** What a goroutine does to the catalog *)

Definition op_of (g : goroutine) : option catalog_op :=
  match g with
  | GoUpsert record => Some (OpUpsert record)
  | GoDelete h => Some (OpDelete h)
  | _ => None
  end.

(** The answer to a change of [c]. *)
Definition answer (c : Catalog) (op : catalog_op) : bool :=
  match op with OpDelete h => (Catalog_Delete c h).2 | _ => true end.

(** It changes nothing, it has a change to make, or it made it and found [c]. *)
Inductive phase :=
| Inert
| Pending (op : catalog_op)
| Applied (op : catalog_op) (c : Catalog).

(** Where it is with the lock of the catalog: outside, waiting to write, reading
    [c], or writing, with the catalog it found and what it has made of it. *)
Inductive access :=
| Outside
| Waiting
| Reading (c : Catalog)
| Writing (base cur : Catalog).

(** The copies of the catalog's files that the goroutine may have made are what
    it may store. *)
Record progress := mkProgress {
  pg_phase : phase;
  pg_lock : access;
  pg_seen : list FileRecord -> Prop
}.

Definition with_lock (a : access) (g : progress) : progress := mkProgress (pg_phase g) a (pg_seen g).

Definition reads (c : Catalog) (g : progress) : progress :=
  mkProgress (pg_phase g) (Reading c) (fun files => pg_seen g files \/ files = Catalog_Snapshot c).

(** Only with the lock is it known what the catalog is. *)
Definition knows (a : access) (s : Server) : Prop :=
  match a with Reading c => sv_catalog s = c | Writing _ cur => sv_catalog s = cur | _ => True end.

(** A critical section leaves the catalog alone, or it makes the whole change. *)
Definition concludes (p : phase) (base cur : Catalog) (p' : phase) : Prop :=
  (cur = base /\ p' = p) \/
  exists op, p = Pending op /\ cur = run_op base op /\ p' = Applied op base.

Definition store_step (seen : list FileRecord -> Prop) (s s' : Server) : Prop :=
  sv_saved s' = sv_saved s \/ exists files, seen files /\ sv_saved s' = Some files.

Definition awaits {A} (p : P A) : Prop := exists p', p = Sync (Await MuCatalog) p'.

(** A program that writes the catalog only with its lock, and relies on what it
    read there only as long as it holds the lock. *)
Fixpoint makes {A} (p : P A) (Q : result srvErr A -> progress -> Prop) (g : progress) : Prop :=
  match p with
  | Done r => Q r g
  | Sync a p' =>
    match a with
    | Announce MuCatalog => pg_lock g = Outside /\ awaits p' /\ makes p' Q (with_lock Waiting g)
    | Await MuCatalog => pg_lock g = Waiting /\ forall c, makes p' Q (with_lock (Writing c c) g)
    | Release MuCatalog => exists base cur ph, pg_lock g = Writing base cur /\
        concludes (pg_phase g) base cur ph /\ makes p' Q (mkProgress ph Outside (pg_seen g))
    | RAcquire MuCatalog => pg_lock g = Outside /\ forall c, makes p' Q (reads c g)
    | RRelease MuCatalog => (exists c, pg_lock g = Reading c) /\ makes p' Q (with_lock Outside g)
    | _ => makes p' Q g
    end
  | Atomic f k => forall s, knows (pg_lock g) s -> store_step (pg_seen g) s (f s) /\
      match pg_lock g with
      | Writing base _ => makes (k s) Q (with_lock (Writing base (sv_catalog (f s))) g)
      | _ => sv_catalog (f s) = sv_catalog s /\ makes (k s) Q g
      end
  end.

Lemma makes_mono {A} (p : P A) (Q Q' : result srvErr A -> progress -> Prop) g :
  (forall r g', Q r g' -> Q' r g') -> makes p Q g -> makes p Q' g.
Proof.
  intros HQ. revert g; induction p as [r|a p IH|f k IH]; intros g; cbn [makes]; [apply HQ| |].
  - destruct a as [[]|[]|[]|[]|[]]; naive_solver.
  - intros H s Hs. destruct (H s Hs) as [H1 H2]. split; [done|].
    destruct (pg_lock g); try (destruct H2; split; [done|]); by apply IH.
Qed.

Lemma makes_bind {A B} (p : P A) (k : A -> P B) Q g :
  makes p (fun r g' => match r with Ok a => makes (k a) Q g' | Err e => Q (Err e) g' end) g ->
  makes (pbind p k) Q g.
Proof.
  revert g; induction p as [[a|e]|a p IH|f c IH]; intros g; cbn [makes pbind]; [done..| |].
  - destruct a as [[]|[]|[]|[]|[]]; try apply IH; try (by naive_solver).
    intros (H1 & (p' & ->) & H2). split; [done|]. split; [by eexists|by apply IH].
  - intros H s Hs. destruct (H s Hs) as [H1 H2]. split; [done|].
    destruct (pg_lock g); try (destruct H2; split; [done|]); by apply IH.
Qed.

Lemma makes_try {A} (p : P A) Q g : makes p (fun r g' => Q (Ok r) g') g -> makes (ptry p) Q g.
Proof.
  revert g; induction p as [r|a p IH|f c IH]; intros g; cbn [makes ptry]; [done| |].
  - destruct a as [[]|[]|[]|[]|[]]; try apply IH; try (by naive_solver).
    intros (H1 & (p' & ->) & H2). split; [done|]. split; [by eexists|by apply IH].
  - intros H s Hs. destruct (H s Hs) as [H1 H2]. split; [done|].
    destruct (pg_lock g); try (destruct H2; split; [done|]); by apply IH.
Qed.

(** Other locks do not matter. *)
Lemma makes_locked {A} m (p : P A) Q g : m <> MuCatalog -> makes p Q g -> makes (locked m p) Q g.
Proof.
  intros Hm H. unfold locked. assert (makes (pbind (ptry p) (fun r => Sync (Release m) (Done r))) Q g) as H'.
  { apply makes_bind, makes_try. eapply makes_mono; [|exact H]. intros r g'. cbn [makes]. by destruct m. }
  cbn [makes]. by destruct m.
Qed.

Lemma makes_rlocked {A} m (p : P A) Q g : m <> MuCatalog -> makes p Q g -> makes (rlocked m p) Q g.
Proof.
  intros Hm H. unfold rlocked. assert (makes (pbind (ptry p) (fun r => Sync (RRelease m) (Done r))) Q g) as H'.
  { apply makes_bind, makes_try. eapply makes_mono; [|exact H]. intros r g'. cbn [makes]. by destruct m. }
  cbn [makes]. by destruct m.
Qed.

(** A critical section of the catalog. *)
Lemma makes_writing {A} (p : P A) Q g :
  pg_lock g = Outside ->
  (forall c, makes p (fun r g' => exists base cur ph, pg_lock g' = Writing base cur /\
     concludes (pg_phase g') base cur ph /\ Q r (mkProgress ph Outside (pg_seen g'))) (with_lock (Writing c c) g)) ->
  makes (locked MuCatalog p) Q g.
Proof.
  intros Hg Hp. unfold locked. cbn [makes]. split; [done|]. split; [by eexists|]. split; [done|]. intros c.
  apply makes_bind, makes_try. exact (Hp c).
Qed.

Lemma makes_reading {A} (p : P A) Q g :
  pg_lock g = Outside ->
  (forall c, makes p (fun r g' => (exists c', pg_lock g' = Reading c') /\ Q r (with_lock Outside g')) (reads c g)) ->
  makes (rlocked MuCatalog p) Q g.
Proof.
  intros Hg Hp. unfold rlocked. cbn [makes]. split; [done|]. intros c. apply makes_bind, makes_try. exact (Hp c).
Qed.

(** ** Requests that leave the catalog and its store alone *)

Definition inert {A} (m : M A) : Prop := forall s,
  sv_catalog (m s).2 = sv_catalog s /\ sv_saved (m s).2 = sv_saved s.

Definition passive {A} (p : P A) : Prop := forall g, pg_lock g = Outside ->
  makes p (fun _ g' => pg_phase g' = pg_phase g /\ pg_lock g' = Outside /\
    forall files, pg_seen g files -> pg_seen g' files) g.

Lemma inert_bind {A B} (m : M A) (k : A -> M B) : inert m -> (forall a, inert (k a)) -> inert (bind m k).
Proof.
  intros Hm Hk s. destruct (Hm s) as [H1 H2]. unfold bind. destruct (m s) as [[a|e] s1]; [|done].
  cbn [snd] in *. destruct (Hk a s1). split; congruence.
Qed.

Lemma passive_done {A} (r : result srvErr A) : passive (Done r).
Proof. by intros g. Qed.

Lemma passive_bind {A B} (p : P A) (k : A -> P B) : passive p -> (forall a, passive (k a)) -> passive (pbind p k).
Proof.
  intros Hp Hk g Hg. apply makes_bind. eapply makes_mono; [|by apply Hp]. intros [a|e] g1 (H1 & H2 & H3); [|done].
  eapply makes_mono; [|by apply Hk]. intros _ g2 (H4 & H5 & H6). split; [congruence|auto].
Qed.

Lemma passive_try {A} (p : P A) : passive p -> passive (ptry p).
Proof. intros Hp g Hg. by apply makes_try, Hp. Qed.

Lemma passive_locked {A} m (p : P A) : m <> MuCatalog -> passive p -> passive (locked m p).
Proof. intros Hm Hp g Hg. by apply makes_locked, Hp. Qed.

Lemma passive_rlocked {A} m (p : P A) : m <> MuCatalog -> passive p -> passive (rlocked m p).
Proof. intros Hm Hp g Hg. by apply makes_rlocked, Hp. Qed.

Lemma passive_atomically {A} (m : M A) : inert m -> passive (atomically m).
Proof.
  intros Hm g Hg. cbn [atomically makes]. rewrite Hg. intros s _. destruct (Hm s) as [H1 H2].
  split; [by left|]. by split.
Qed.

(** Reading the catalog. *)
Lemma passive_reading {A} (f : Server -> A) : passive (rlocked MuCatalog (atomically (gets f))).
Proof.
  intros g Hg. apply makes_reading; [done|]. intros c s Hs. split; [by left|]. cbn [pg_lock reads].
  split; [done|]. cbn [makes gets fst]. split; [by eexists|]. split; [done|]. split; [done|]. cbn. auto.
Qed.
End linear.

Ltac inert_step :=
  lazymatch goal with
  | |- inert (bind _ _) => apply inert_bind; [|intros]
  | |- inert (let _ := _ in _) => cbv zeta
  | |- inert (match ?x with _ => _ end) => destruct x
  | |- inert (of_option ?o _) => destruct o; done
  | |- inert _ => done
  end.

Ltac passive_step :=
  lazymatch goal with
  | |- passive (let _ := _ in _) => cbv zeta
  | |- passive (pbind _ _) => apply passive_bind; [|intros]
  | |- passive (ptry _) => apply passive_try
  | |- passive (locked _ _) => apply passive_locked; [discriminate|]
  | |- passive (rlocked MuCatalog _) => apply passive_reading
  | |- passive (rlocked _ _) => apply passive_rlocked; [discriminate|]
  | |- passive (pret _) => apply passive_done
  | |- passive (pfail _) => apply passive_done
  | |- passive (Done _) => apply passive_done
  | |- passive (pof_option ?o _) => destruct o; apply passive_done
  | |- passive (atomically _) => apply passive_atomically; repeat inert_step
  | |- passive (match ?x with _ => _ end) => destruct x
  end.
Ltac passive := repeat passive_step.

Section handlers.
Context {L : Ed2kLib} {W : Ed2kWire} {U : UnicodeTables} {MI : MapIter} {D : TextDecoder}.
Context {ZL : Zlib} {PC : PacketCombiner} {WD : World} {SS : SliceSort}.
Context (tracing : bool).

Lemma passive_trace : passive (trace_record tracing).
Proof. unfold trace_record. passive. Qed.

Lemma inert_write sid what : inert (conn_write sid what).
Proof. intros s. unfold conn_write. by destruct (write_ok _). Qed.

Lemma passive_send sid packet : passive (send_l tracing sid packet).
Proof.
  unfold send_l, sendLocked, noteOutbound_l, count_outbound, bumpCounter, noteOutbound.
  passive; try apply passive_trace; apply inert_write.
Qed.

Lemma passive_sendRaw sid opcode body : passive (sendRawEd2k_l tracing sid opcode body).
Proof.
  unfold sendRawEd2k_l, noteOutbound_l, count_outbound, bumpCounter, noteOutbound.
  passive; try apply passive_trace; apply inert_write.
Qed.

Lemma passive_status sid : passive (send_status_l tracing sid).
Proof.
  unfold send_status_l, clientCount_l, currentFilesCount_l, Catalog_Count_l. passive. apply passive_send.
Qed.

Lemma passive_login sid h point properties : passive (handleLogin_l tracing sid h point properties).
Proof.
  unfold handleLogin_l, login_fields, allocateClientID_l, registerClient_l, config_l, serverTCPPort_l.
  passive; first [apply passive_send|apply passive_status|idtac].
  intros s. unfold next_free_id. by destruct (free_id _ _ _).
Qed.

Lemma passive_remove id : passive (removeClientOfferedFiles_l id).
Proof. unfold removeClientOfferedFiles_l, findClient_l, take_offers, remove_dynamic. passive. Qed.

Lemma passive_offer sid req : passive (handleOfferFiles_l tracing sid req).
Proof.
  unfold handleOfferFiles_l, mergeClientOfferedFiles_l, findClient_l, merge_offers, publish_offers, bumpCounter.
  passive; first [apply passive_remove|apply passive_status].
Qed.

Lemma passive_serverList sid : passive (handleGetServerList_l tracing sid).
Proof.
  unfold handleGetServerList_l, config_l, serverTCPPort_l.
  passive; first [apply passive_status|apply passive_send|apply passive_sendRaw].
Qed.

Lemma passive_searchAll query : passive (searchAll_l query).
Proof. unfold searchAll_l. passive. Qed.

Lemma passive_searchMore sid : passive (handleSearchMore_l tracing sid).
Proof. unfold handleSearchMore_l, next_page, bumpCounter. passive. apply passive_send. Qed.

Lemma passive_search sid query : passive (handleSearch_l tracing sid query).
Proof.
  unfold handleSearch_l, config_l, bumpCounter, note_l.
  passive; first [apply passive_send|apply passive_searchAll|apply passive_searchMore].
Qed.

Lemma passive_dynamic_sources obfuscated sources : passive (dynamic_sources_l obfuscated sources).
Proof.
  induction sources as [|[clientID source] sources IH]; cbn [dynamic_sources_l]; passive; apply IH.
Qed.

Lemma passive_sourcesAll h obfuscated : passive (sourcesAll_l h obfuscated).
Proof. unfold sourcesAll_l. passive. apply passive_dynamic_sources. Qed.

Lemma passive_sources sid h obfuscated : passive (handleGetSources_l tracing sid h obfuscated).
Proof.
  unfold handleGetSources_l, config_l, bumpCounter, note_l, sendFoundSourcesObfuscated_l.
  passive; first [apply passive_sourcesAll|apply passive_sendRaw|apply passive_send].
Qed.

Lemma passive_callback sid id : passive (handleCallback_l tracing sid id).
Proof.
  unfold handleCallback_l, allow_callback_l, bumpCounter, findClient_l, note_l.
  passive; try apply passive_send. intros s. unfold take_token. rewrite bind_gets.
  destruct (sv_callbackLimiter s) as [l|]; [|done]. by destruct (allow l _ _).
Qed.

Lemma passive_dispatch sid packet body : passive (dispatch_l tracing sid packet body).
Proof.
  unfold dispatch_l. passive; first [apply passive_login|apply passive_serverList|apply passive_offer
    |apply passive_search|apply passive_searchMore|apply passive_sources|apply passive_callback].
Qed.

Lemma passive_close sid : passive (close_conn_l sid).
Proof.
  unfold close_conn_l, unregisterClient_l, bumpCounter. passive; try apply passive_remove.
  intros s. cbn. destruct (sv_clients s !! _) as [x|]; [|done]. by destruct (x =? sid)%nat.
Qed.

Lemma passive_frames sid frames : passive (serve_frames_l tracing sid frames).
Proof.
  induction frames as [|[[[proto opcode] body] n] frames IH]; [apply passive_close|].
  cbn [serve_frames_l]. apply passive_bind.
  - unfold serve_frame_l, noteInbound_l, bumpCounter.
    passive; first [apply passive_trace|apply passive_dispatch].
  - intros [[]|[]]; passive; first [apply IH|apply passive_close].
Qed.

Lemma passive_conn sid remote local first handshake frames :
  passive (handleConn_l tracing sid remote local first handshake frames).
Proof.
  unfold handleConn_l, admit_conn_l, open_session_l, make_session, config_l, bumpCounter.
  passive; try apply passive_frames; try apply inert_write.
  intros s. unfold take_conn_token. rewrite bind_gets.
  destruct (sv_connLimiter s) as [l|]; [|done]. by destruct (allow l _ _).
Qed.

Lemma passive_snapshots clients : passive (snapshots_l clients).
Proof. induction clients as [|sid clients IH]; cbn [snapshots_l]; unfold snapshot_l; passive; apply IH. Qed.

(** ** Administrative requests *)

(** The copy that is written is one that was read. *)
Lemma passive_persist : passive persistCatalog_l.
Proof.
  unfold persistCatalog_l, bumpCounter. apply passive_bind; [|intros; passive]. intros g Hg.
  unfold Catalog_Save_l. apply makes_bind, makes_reading; [done|]. intros c s Hs. split; [by left|].
  cbn [pg_lock reads]. split; [done|]. cbn [makes gets fst]. split; [by eexists|].
  cbn [atomically makes with_lock pg_lock pg_seen pg_phase reads]. intros s2 _. unfold store_write, store_step.
  split; [|by split_and!; [destruct (write_ok _)|..|auto]].
  destruct (write_ok _); [right|by left]. eexists. split; [|done]. right. cbn in Hs. by rewrite Hs.
Qed.

(** How a goroutine may end. *)
Definition ends (r : result srvErr bool) (g : progress) : Prop :=
  match pg_phase g with
  | Inert => True
  | Pending _ => forall b, r <> Ok b
  | Applied op c => forall b, r = Ok b -> b = answer c op
  end.

Lemma passive_ended {A} (p : P A) g :
  passive p -> pg_phase g = Inert -> pg_lock g = Outside -> makes (ended p) ends g.
Proof.
  intros Hp Hg Hl. apply makes_bind. eapply makes_mono; [|by apply Hp].
  intros [a|e] g' [E _]; cbn [makes pret]; unfold ends; by rewrite E, Hg.
Qed.

(** The steps of [Catalog.Upsert] make the change. *)
Lemma upsert_critical record n (Q : result srvErr unit -> progress -> Prop) g :
  normalizeFileRecord record = Ok n -> pg_lock g = Outside -> pg_phase g = Pending (OpUpsert record) ->
  (forall c, Q (Ok tt) (mkProgress (Applied (OpUpsert record) c) Outside (pg_seen g))) ->
  makes (Catalog_Upsert_l n) Q g.
Proof.
  intros En Hg Hp HQ. apply makes_writing; [done|]. intros c s <-.
  split; [by left|]. cbn [with_lock pg_lock makes pbind gets fst snd].
  assert (run_op (sv_catalog s) (OpUpsert record) =
    rebuildSearchIndexLocked (mkCatalog _ (cat_path (sv_catalog s)) (cat_store (sv_catalog s))
      (if has_key (Hash_String (fr_Hash n)) (sv_catalog s) then replace_first (cat_files (sv_catalog s)) n
       else cat_files (sv_catalog s) ++ [n])
      (<[Hash_String (fr_Hash n) := n]> (cat_byHash (sv_catalog s))) (cat_triIndex (sv_catalog s)))) as Hop.
  { cbn [run_op]. unfold Catalog_Upsert, has_key. rewrite En. cbn [rbind]. by destruct (cat_byHash _ !! _). }
  destruct (has_key _ _); (intros s1 Hs1; split; [by left|]);
    (intros s2 Hs2; split; [by left|]); (intros s3 Hs3; split; [by left|]);
    (intros s4 Hs4; split; [by left|]);
    (do 3 eexists; split; [reflexivity|]; split; [right; eexists; split; [exact Hp|]; split; [|reflexivity]|apply HQ]);
    rewrite Hop; cbn in Hs1, Hs2, Hs3, Hs4 |- *; rewrite Hs4, Hs3, Hs2, Hs1; reflexivity.
Qed.

Lemma upsert_makes record g :
  pg_phase g = Pending (OpUpsert record) -> pg_lock g = Outside -> makes (ended (UpsertFile_l record)) ends g.
Proof.
  intros Hg Hl. unfold ended, UpsertFile_l. apply makes_bind.
  destruct (normalizeFileRecord record) as [n|e] eqn:En.
  2: { cbn [makes pfail]. unfold ends. by rewrite Hg. }
  apply makes_bind, (upsert_critical record); [done..|]. intros c.
  eapply makes_mono; [|apply passive_bind; [|intros; apply passive_persist|done]].
  - intros r g' [E _]. cbn [pg_phase] in E.
    assert (ends (Ok true) g') as H by (unfold ends; rewrite E; by intros b [= <-]).
    destruct r as [[]|e]; [exact H|]. unfold ends. by rewrite E.
  - unfold bumpCounter. passive.
Qed.

Lemma delete_critical h (Q : result srvErr bool -> progress -> Prop) g :
  pg_lock g = Outside -> pg_phase g = Pending (OpDelete h) ->
  (forall c, Q (Ok (answer c (OpDelete h))) (mkProgress (Applied (OpDelete h) c) Outside (pg_seen g))) ->
  makes (Catalog_Delete_l h) Q g.
Proof.
  intros Hg Hp HQ. apply makes_writing; [done|]. intros c s <-. specialize (HQ (sv_catalog s)). revert HQ.
  cbn [answer]. assert (run_op (sv_catalog s) (OpDelete h) = (Catalog_Delete (sv_catalog s) h).1) as Hop by done.
  revert Hop. unfold Catalog_Delete, has_key. cbn [with_lock pg_lock makes pbind gets fst snd].
  destruct (cat_byHash (sv_catalog s) !! Hash_String h) eqn:Ek; intros Hop HQ; (split; [by left|]); rewrite ?Ek; cbn [negb].
  - intros s1 Hs1. split; [by left|]. intros s2 Hs2. split; [by left|]. intros s3 Hs3. split; [by left|].
    intros s4 Hs4. split; [by left|].
    do 3 eexists. split; [reflexivity|]. split; [right; eexists; split; [exact Hp|]; split; [|reflexivity]|exact HQ].
    rewrite Hop. cbn in Hs1, Hs2, Hs3, Hs4 |- *. rewrite Hs4, Hs3, Hs2, Hs1. reflexivity.
  - do 3 eexists. split; [reflexivity|]. split; [right; eexists; split; [exact Hp|]; split; [|reflexivity]|exact HQ].
    by rewrite Hop.
Qed.

Lemma delete_makes h g : pg_phase g = Pending (OpDelete h) -> pg_lock g = Outside -> makes (DeleteFile_l h) ends g.
Proof.
  intros Hg Hl. unfold DeleteFile_l. apply makes_bind, delete_critical; [done..|]. intros c.
  assert (forall r g', pg_phase g' = Applied (OpDelete h) c -> (forall b, r = Ok b -> b = answer c (OpDelete h)) ->
    ends r g') as Hends by (intros r g' E Hr; unfold ends; by rewrite E).
  destruct (answer c (OpDelete h)) eqn:Ea; cbn [negb]; [|apply Hends; [done|]; by intros b [= <-]].
  apply makes_bind. eapply makes_mono; [|apply (passive_locked MuServer); [discriminate|passive|done]].
  intros [[]|e] g2 (E2 & L2 & _); [|by apply Hends].
  apply makes_bind. eapply makes_mono; [|by apply passive_persist].
  intros [[]|e] g3 (E3 & _); apply Hends; try congruence; by rewrite E3.
Qed.

Lemma program_makes g pg :
  pg_phase pg = match op_of g with Some op => Pending op | None => Inert end -> pg_lock pg = Outside ->
  makes (program tracing g) ends pg.
Proof.
  intros Hg Hl. destruct g; cbn [op_of] in Hg; cbn [program]; try (by apply upsert_makes); try (by apply delete_makes);
    (apply passive_ended; [|exact Hg|exact Hl]).
  - apply passive_conn.
  - apply passive_persist.
  - unfold appendAudit_l. passive.
  - unfold StatsSnapshot_l, Catalog_Count_l. passive.
  - unfold ClientsSnapshot_l. passive. apply passive_snapshots.
  - unfold ClientSnapshotByID_l, findClient_l, snapshot_l. passive.
  - unfold FilesSnapshot_l. passive.
  - unfold FileSnapshot_l. passive.
  - unfold AuditSnapshot_l. passive.
  - apply passive_searchAll.
  - apply passive_sourcesAll.
Qed.

(** ** Pools *)

Context (s0 : Server) (gs : list goroutine).

(** The catalog after the changes of the goroutines in [order]. *)
Definition catalog_after (order : list nat) : Catalog :=
  foldl run_op (sv_catalog s0) (omap (fun i => gs !! i ≫= op_of) order).

Definition in_phase (order : list nat) (i : nat) (p : phase) : Prop :=
  match p with
  | Inert => gs !! i ≫= op_of = None
  | Pending op => gs !! i ≫= op_of = Some op /\ i ∉ order
  | Applied op c => gs !! i ≫= op_of = Some op /\
      exists before after, order = before ++ i :: after /\ c = catalog_after before
  end.

Definition was_stored (order : list nat) (files : list FileRecord) : Prop :=
  exists before, before `prefix_of` order /\ files = Catalog_Snapshot (catalog_after before).

(** The locks of a goroutine, as far as the catalog's is concerned. *)
Definition catalog_tokens (held : list (mutex * mode)) : list (mutex * mode) :=
  filter (fun x => x.1 = MuCatalog) held.

Definition tokens_of (a : access) : list (mutex * mode) :=
  match a with
  | Outside => []
  | Waiting | Writing _ _ => [(MuCatalog, Exclusive)]
  | Reading _ => [(MuCatalog, Shared)]
  end.

(** What a goroutine with the lock relies on. *)
Definition relies (order : list nat) (s : Server) (a : access) : Prop :=
  match a with
  | Reading c => c = catalog_after order
  | Writing base cur => base = catalog_after order /\ sv_catalog s = cur
  | _ => True
  end.

Definition writing (a : access) : Prop := match a with Writing _ _ => True | _ => False end.

(** Two goroutines that may have the lock at the same time. *)
Definition compatible (a b : access) : Prop :=
  match a, b with
  | Outside, _ | _, Outside | Reading _, Reading _ | Waiting, Reading _ | Reading _, Waiting => True
  | _, _ => False
  end.

Record goroutine_ok (order : list nat) (s : Server) (i : nat) (t : thread Server srvErr mutex bool)
    (pg : progress) : Prop := {
  go_makes : makes (th_prog t) ends pg;
  go_phase : in_phase order i (pg_phase pg);
  go_seen files : pg_seen pg files -> was_stored order files;
  go_tokens : catalog_tokens (th_held t) = tokens_of (pg_lock pg);
  go_waits : pg_lock pg = Waiting -> awaits (th_prog t);
  go_relies : relies order s (pg_lock pg)
}.

Record linear (order : list nat) (c : @config Server srvErr mutex bool) (pgs : nat -> progress) : Prop := {
  li_nodup : NoDup order;
  li_ops i : i ∈ order -> is_Some (gs !! i ≫= op_of);
  li_catalog : (forall i, (i < length c.2)%nat -> ~ writing (pg_lock (pgs i))) -> sv_catalog c.1 = catalog_after order;
  li_saved : sv_saved c.1 = sv_saved s0 \/ exists files, was_stored order files /\ sv_saved c.1 = Some files;
  li_compatible i j : i <> j -> (i < length c.2)%nat -> (j < length c.2)%nat ->
    compatible (pg_lock (pgs i)) (pg_lock (pgs j));
  li_threads i t : c.2 !! i = Some t -> goroutine_ok order c.1 i t (pgs i)
}.

Lemma linear_start : exists pgs, linear [] (s0, pool tracing gs) pgs.
Proof.
  exists (fun i => mkProgress match gs !! i ≫= op_of with Some op => Pending op | None => Inert end
                     Outside (fun _ => False)).
  constructor; cbn [fst snd]; [constructor|by intros i ?%not_elem_of_nil|done|by left|done|].
  intros i t Hi. unfold pool in Hi. rewrite list_lookup_fmap in Hi.
  destruct (gs !! i) as [g|] eqn:Eg; [|done]. injection Hi as <-. cbn [mbind option_bind].
  constructor; cbn [pg_phase pg_lock pg_seen th_prog start]; [by apply program_makes| |done..].
  unfold in_phase. destruct (op_of g) as [op|] eqn:Eo; rewrite Eg; cbn; [|done].
  split; [done|apply not_elem_of_nil].
Qed.

Lemma was_stored_more order i files : was_stored order files -> was_stored (order ++ [i]) files.
Proof. intros (before & Hb & ->). exists before. split; [by apply prefix_app_r|done]. Qed.

Lemma in_phase_more order i j p : i <> j -> in_phase order j p -> in_phase (order ++ [i]) j p.
Proof.
  intros Hne. destruct p as [|op|op c]; cbn [in_phase]; [done| |].
  - intros [H Hn]. split; [done|]. rewrite elem_of_app, list_elem_of_singleton. intros [?|?]; congruence.
  - intros (H & before & after & -> & Hc). split; [done|]. exists before, (after ++ [i]).
    split; [|done]. by rewrite <- app_assoc.
Qed.

(** One goroutine moves on; what the others rely on stays. *)
Lemma linear_update order order' s ths pgs i t t' pg' s' :
  linear order (s, ths) pgs -> ths !! i = Some t ->
  NoDup order' -> (forall j, j ∈ order' -> is_Some (gs !! j ≫= op_of)) ->
  goroutine_ok order' s' i t' pg' ->
  (forall j u, j <> i -> ths !! j = Some u -> goroutine_ok order' s' j u (pgs j)) ->
  (forall j u, j <> i -> ths !! j = Some u -> compatible (pg_lock pg') (pg_lock (pgs j))) ->
  (sv_saved s' = sv_saved s0 \/ exists files, was_stored order' files /\ sv_saved s' = Some files) ->
  (~ writing (pg_lock pg') -> (forall j u, j <> i -> ths !! j = Some u -> ~ writing (pg_lock (pgs j))) ->
     sv_catalog s' = catalog_after order') ->
  linear order' (s', <[i := t']> ths) (upd pgs i pg').
Proof.
  intros [_ _ _ _ H5 H6] Ht Hnd Hops Hok Hothers Hcomp Hsv Hcat. cbn [fst snd] in *.
  assert (i < length ths)%nat as Hi by (by eapply lookup_lt_Some).
  constructor; cbn [fst snd]; rewrite ?length_insert; [done|done| |done| |].
  - intros Hw. apply Hcat; [specialize (Hw i Hi); unfold upd in Hw; by rewrite decide_True in Hw|].
    intros j u Hj Hu. specialize (Hw j ltac:(by eapply lookup_lt_Some)). unfold upd in Hw. by rewrite decide_False in Hw.
  - intros j k Hne Hj Hk. unfold upd. destruct (decide (j = i)) as [->|], (decide (k = i)) as [->|]; [done| | |by apply H5].
    + apply lookup_lt_is_Some_2 in Hk as [u Hu]. by apply (Hcomp k u).
    + apply lookup_lt_is_Some_2 in Hj as [u Hu]. pose proof (Hcomp j u ltac:(done) Hu) as Hc. revert Hc.
      by destruct (pg_lock pg'), (pg_lock (pgs j)).
  - intros j u Hu. unfold upd. destruct (decide (j = i)) as [->|Hne].
    + rewrite list_lookup_insert_eq in Hu by done. by injection Hu as <-.
    + rewrite list_lookup_insert_ne in Hu by done. by apply Hothers.
Qed.

Lemma goroutine_ok_state order s s' i t pg :
  (writing (pg_lock pg) -> sv_catalog s' = sv_catalog s) ->
  goroutine_ok order s i t pg -> goroutine_ok order s' i t pg.
Proof.
  intros Hs [G1 G2 G3 G4 G5 G6]. constructor; try done. destruct (pg_lock pg); try done.
  destruct G6. split; [done|]. by rewrite Hs.
Qed.

(** The lock of the catalog among the locks that are held. *)
Lemma tokens_drop x held held' :
  drop_lock x held = Some held' ->
  if decide (x.1 = MuCatalog) then drop_lock x (catalog_tokens held) = Some (catalog_tokens held')
  else catalog_tokens held' = catalog_tokens held.
Proof.
  revert held'; induction held as [|y held IH]; intros held'; cbn [drop_lock]; [done|].
  unfold catalog_tokens in *. rewrite filter_cons. destruct (decide (x = y)) as [<-|Hne].
  - intros [= <-]. destruct (decide (x.1 = MuCatalog)); [|done]. cbn [drop_lock]. by rewrite decide_True.
  - destruct (drop_lock x held) as [h|]; [|done]. intros [= <-]. specialize (IH h eq_refl).
    rewrite filter_cons. destruct (decide (x.1 = MuCatalog)), (decide (y.1 = MuCatalog)); cbn [drop_lock];
      rewrite ?decide_False by done; rewrite ?IH; done.
Qed.

Definition lock_of (a : sync mutex) : mutex :=
  match a with Announce m | Await m | RAcquire m | Release m | RRelease m => m end.

Lemma tokens_other a held held' :
  lock_of a <> MuCatalog -> after a held = Some held' -> catalog_tokens held' = catalog_tokens held.
Proof.
  intros Hm. destruct a as [m|m|m|m|m]; cbn [after lock_of] in *.
  - intros [= <-]. unfold catalog_tokens. by rewrite filter_cons_False.
  - by intros [= <-].
  - intros [= <-]. unfold catalog_tokens. by rewrite filter_cons_False.
  - intros H%tokens_drop. by rewrite decide_False in H.
  - intros H%tokens_drop. by rewrite decide_False in H.
Qed.

Lemma token_held held a x : catalog_tokens held = tokens_of a -> x ∈ tokens_of a -> x ∈ held.
Proof. intros <- [_ H]%list_elem_of_filter. done. Qed.

(** Another goroutine that a locking operation would have met. *)
Lemma others_free a s ths order pgs m j u :
  linear order (s, ths) pgs -> ready (holders ths) a = true -> ths !! j = Some u -> m = MuCatalog ->
  match a with
  | Announce m' | RAcquire m' => m' = m -> match pg_lock (pgs j) with Waiting | Writing _ _ => False | _ => True end
  | Await m' => m' = m -> match pg_lock (pgs j) with Reading _ => False | _ => True end
  | _ => True
  end.
Proof.
  intros Hl Hr%ready_true Hu ->. pose proof (go_tokens _ _ _ _ _ (li_threads _ _ _ Hl j u Hu)) as Htk. cbn [snd] in Htk.
  assert (forall x, x ∈ tokens_of (pg_lock (pgs j)) -> x ∈ holders ths) as Hin.
  { intros x Hx. apply holders_spec. exists j, u. split; [done|]. by eapply token_held. }
  destruct a as [m|m|m|m|m]; try done; intros ->; destruct (pg_lock (pgs j)) eqn:El; try done;
    apply Hr, Hin; cbn [tokens_of]; by left.
Qed.

(** *** One step *)

Section move.
Context (order : list nat) (s : Server) (ths : list (thread Server srvErr mutex bool)) (pgs : nat -> progress).
Context (i : nat) (t : thread Server srvErr mutex bool).
Context (Hl : linear order (s, ths) pgs) (Ht : ths !! i = Some t).

Definition moves_on (c' : @config Server srvErr mutex bool) : Prop :=
  (exists pgs', linear order c' pgs') \/ exists pgs', linear (order ++ [i]) c' pgs'.

Lemma move_compatible j u : j <> i -> ths !! j = Some u -> compatible (pg_lock (pgs i)) (pg_lock (pgs j)).
Proof. intros Hj Hu. apply (li_compatible _ _ _ Hl); [done|by eapply lookup_lt_Some..]. Qed.

Lemma move_catalog :
  ~ writing (pg_lock (pgs i)) -> (forall j u, j <> i -> ths !! j = Some u -> ~ writing (pg_lock (pgs j))) ->
  sv_catalog s = catalog_after order.
Proof.
  intros H1 H2. apply (li_catalog _ _ _ Hl). intros j Hj. destruct (decide (j = i)) as [->|]; [done|].
  apply lookup_lt_is_Some_2 in Hj as [u Hu]. by apply (H2 j u).
Qed.

(** The state stays: the goroutine changes what it holds. *)
Lemma move_lock t' pg' :
  goroutine_ok order s i t' pg' ->
  (forall j u, j <> i -> ths !! j = Some u -> compatible (pg_lock pg') (pg_lock (pgs j))) ->
  (~ writing (pg_lock pg') -> (forall j u, j <> i -> ths !! j = Some u -> ~ writing (pg_lock (pgs j))) ->
     sv_catalog s = catalog_after order) ->
  moves_on (s, <[i := t']> ths).
Proof.
  intros Hok Hc Hcat. left. exists (upd pgs i pg'). eapply linear_update; try done; [apply Hl|apply Hl| |apply Hl].
  intros j u _ Hu. by apply Hl.
Qed.

(** An access to the state. *)
Lemma move_knows : ~ awaits (th_prog t) -> knows (pg_lock (pgs i)) s.
Proof.
  intros Ha. pose proof (li_threads _ _ _ Hl i t Ht) as [_ _ _ _ _ Hrel]. cbn [fst] in Hrel.
  pose proof move_compatible as Hc. pose proof move_catalog as Hcat.
  destruct (pg_lock (pgs i)); cbn [knows relies] in *; [done|done| |by destruct Hrel].
  rewrite Hrel. apply Hcat; [by intros []|]. intros j u Hj Hu Hwr. specialize (Hc j u Hj Hu).
  by destruct (pg_lock (pgs j)).
Qed.

Lemma move_atomic f k : th_prog t = Atomic f k -> moves_on (f s, <[i := mkThread (th_held t) (k s)]> ths).
Proof.
  intros Hpr. assert (~ awaits (th_prog t)) as Hna by (rewrite Hpr; by intros [p' Hp']).
  pose proof (move_knows Hna) as Hk. pose proof move_compatible as Hc. pose proof move_catalog as Hcat.
  pose proof (li_threads _ _ _ Hl i t Ht) as [Hm Hp Hseen Htk Hw Hrel]. cbn [fst] in *.
  rewrite Hpr in Hm. cbn [makes] in Hm. destruct (Hm s Hk) as [Hst Hk']. clear Hm. left.
  assert (sv_saved (f s) = sv_saved s0 \/ exists files, was_stored order files /\ sv_saved (f s) = Some files) as Hsv.
  { destruct Hst as [->|(files & Hf & ->)]; [apply Hl|]. right. exists files. split; [by apply Hseen|done]. }
  assert (writing (pg_lock (pgs i)) \/ sv_catalog (f s) = sv_catalog s /\ makes (k s) ends (pgs i)) as [Hwr|[Hs Hm]]
    by (destruct (pg_lock (pgs i)); auto; by left).
  - destruct (pg_lock (pgs i)) as [| | |base cur] eqn:El; try done. destruct Hrel as [Hb _].
    exists (upd pgs i (with_lock (Writing base (sv_catalog (f s))) (pgs i))).
    eapply linear_update; [exact Hl|exact Ht|apply Hl|apply Hl|by constructor| | |exact Hsv|by intros []].
    + intros j u Hj Hu. apply (goroutine_ok_state order s); [|by apply Hl]. intros Hj'.
      specialize (Hc j u Hj Hu). by destruct (pg_lock (pgs j)).
    + intros j u Hj Hu. by apply (Hc j u).
  - exists (upd pgs i (pgs i)).
    eapply linear_update; [exact Hl|exact Ht|apply Hl|apply Hl| | |exact Hc|exact Hsv|by rewrite Hs].
    + constructor; try done; [intros E; by destruct Hna; apply Hw|]. cbn [th_held].
      destruct (pg_lock (pgs i)); try done. cbn [relies] in *. by rewrite Hs.
    + intros j u _ Hu. apply (goroutine_ok_state order s); [done|by apply Hl].
Qed.

(** Locking operations; [after] and [ready] as in a step. *)
Context (a : sync mutex) (p : P bool) (held : list (mutex * mode)).
Context (Hpr : th_prog t = Sync a p) (Hr : ready (holders ths) a = true) (Ha : after a (th_held t) = Some held).

Lemma move_free m j u :
  ths !! j = Some u -> m = MuCatalog ->
  match a with
  | Announce m' | RAcquire m' => m' = m -> match pg_lock (pgs j) with Waiting | Writing _ _ => False | _ => True end
  | Await m' => m' = m -> match pg_lock (pgs j) with Reading _ => False | _ => True end
  | _ => True
  end.
Proof. intros Hu Hm. by eapply others_free. Qed.

Lemma move_other : lock_of a <> MuCatalog -> moves_on (s, <[i := mkThread held p]> ths).
Proof.
  intros Hm. pose proof (li_threads _ _ _ Hl i t Ht) as [Hmk Hp Hseen Htk Hw Hrel]. rewrite Hpr in Hmk, Hw.
  apply (move_lock _ (pgs i)); [|apply move_compatible|apply move_catalog].
  constructor; try done; cbn [th_held th_prog].
  - by destruct a as [[]|[]|[]|[]|[]].
  - by rewrite (tokens_other a (th_held t)).
  - intros [p' E]%Hw. by injection E as -> _.
Qed.

Ltac in_step E :=
  let H1 := fresh "Hpr'" in let H2 := fresh "Ha'" in
  pose proof Hpr as H1; pose proof Ha as H2; rewrite E in *; cbn [after] in H2.

Lemma move_announce : a = Announce MuCatalog -> moves_on (s, <[i := mkThread held p]> ths).
Proof.
  intros Ea. pose proof (fun j u Hu => move_free MuCatalog j u Hu eq_refl) as Hfree. in_step Ea.
  pose proof (fun j u Hu => Hfree j u Hu eq_refl) as Hfree'. clear Hfree. rename Hfree' into Hfree.
  pose proof (li_threads _ _ _ Hl i t Ht) as [Hm Hp Hseen Htk Hw Hrel]. rewrite Hpr' in Hm.
  destruct Hm as (El & Haw & Hm). injection Ha' as <-.
  apply (move_lock _ (with_lock Waiting (pgs i))).
  - constructor; try done. cbn [th_held with_lock pg_lock tokens_of]. unfold catalog_tokens in *.
    rewrite filter_cons_True by done. by rewrite Htk, El.
  - intros j u _ Hu. specialize (Hfree j u Hu). cbn. by destruct (pg_lock (pgs j)).
  - intros _. apply move_catalog. rewrite El. by intros [].
Qed.

Lemma move_await : a = Await MuCatalog -> moves_on (s, <[i := mkThread held p]> ths).
Proof.
  intros Ea. pose proof (fun j u Hu => move_free MuCatalog j u Hu eq_refl) as Hfree. in_step Ea.
  pose proof (fun j u Hu => Hfree j u Hu eq_refl) as Hfree'. clear Hfree. rename Hfree' into Hfree.
  pose proof (li_threads _ _ _ Hl i t Ht) as [Hm Hp Hseen Htk Hw Hrel]. rewrite Hpr' in Hm.
  destruct Hm as (El & Hm). injection Ha' as <-. rewrite El in Htk.
  assert (forall j u, j <> i -> ths !! j = Some u -> pg_lock (pgs j) = Outside) as Hout.
  { intros j u Hj Hu. specialize (Hfree j u Hu). pose proof (move_compatible j u Hj Hu) as Hc. rewrite El in Hc.
    by destruct (pg_lock (pgs j)). }
  apply (move_lock _ (with_lock (Writing (sv_catalog s) (sv_catalog s)) (pgs i))); [|intros j u Hj Hu; by rewrite (Hout j u)|by intros []].
  constructor; try done. split; [|done]. apply move_catalog; [rewrite El; by intros []|].
  intros j u Hj Hu. rewrite (Hout j u) by done. by intros [].
Qed.

Lemma move_racquire : a = RAcquire MuCatalog -> moves_on (s, <[i := mkThread held p]> ths).
Proof.
  intros Ea. pose proof (fun j u Hu => move_free MuCatalog j u Hu eq_refl) as Hfree. in_step Ea.
  pose proof (fun j u Hu => Hfree j u Hu eq_refl) as Hfree'. clear Hfree. rename Hfree' into Hfree.
  pose proof (li_threads _ _ _ Hl i t Ht) as [Hm Hp Hseen Htk Hw Hrel]. rewrite Hpr' in Hm.
  destruct Hm as (El & Hm). injection Ha' as <-.
  assert (sv_catalog s = catalog_after order) as Hnow.
  { apply move_catalog; [rewrite El; by intros []|]. intros j u _ Hu. specialize (Hfree j u Hu). destruct (pg_lock (pgs j)); try done; by intros []. }
  apply (move_lock _ (reads (sv_catalog s) (pgs i))); [|intros j u _ Hu; specialize (Hfree j u Hu); by destruct (pg_lock (pgs j))|done].
  constructor; try done.
  - intros files [Hf| ->]; [by apply Hseen|]. exists order. split; [done|by rewrite Hnow].
  - cbn [th_held reads pg_lock tokens_of]. unfold catalog_tokens in *. rewrite filter_cons_True by done. by rewrite Htk, El.
Qed.

(** The last token of the catalog's lock is given back. *)
Lemma move_given_back k : catalog_tokens (th_held t) = [(MuCatalog, k)] ->
  drop_lock (MuCatalog, k) (th_held t) = Some held -> catalog_tokens held = [].
Proof.
  intros Htk Hd%tokens_drop. cbn [fst] in Hd. rewrite decide_True in Hd by done. rewrite Htk in Hd.
  cbn [drop_lock] in Hd. rewrite decide_True in Hd by done. by injection Hd.
Qed.

Lemma move_rrelease : a = RRelease MuCatalog -> moves_on (s, <[i := mkThread held p]> ths).
Proof.
  intros Ea. in_step Ea. pose proof (li_threads _ _ _ Hl i t Ht) as [Hm Hp Hseen Htk Hw Hrel]. rewrite Hpr' in Hm.
  destruct Hm as ((c & El) & Hm). rewrite El in Htk. apply (move_lock _ (with_lock Outside (pgs i))).
  - constructor; try done. by apply (move_given_back Shared).
  - intros j u _ _. cbn. by destruct (pg_lock (pgs j)).
  - intros _. apply move_catalog. rewrite El. by intros [].
Qed.

(** A change is made when its goroutine gives the lock back. *)
Lemma move_release : a = Release MuCatalog -> moves_on (s, <[i := mkThread held p]> ths).
Proof.
  intros Ea. in_step Ea. pose proof (li_threads _ _ _ Hl i t Ht) as [Hm Hp Hseen Htk Hw Hrel]. rewrite Hpr' in Hm.
  destruct Hm as (base & cur & ph & El & Hcon & Hm). rewrite El in Htk, Hrel. destruct Hrel as [-> Hcur].
  assert (forall j u, j <> i -> ths !! j = Some u -> pg_lock (pgs j) = Outside) as Hout.
  { intros j u Hj Hu. pose proof (move_compatible j u Hj Hu) as Hc. rewrite El in Hc. by destruct (pg_lock (pgs j)). }
  pose proof (move_given_back Exclusive Htk Ha') as Hno. destruct Hcon as [[-> ->]|(op & Hph & -> & ->)].
  - apply (move_lock _ (mkProgress (pg_phase (pgs i)) Outside (pg_seen (pgs i)))); [by constructor|done|done].
  - right. rewrite Hph in Hp. destruct Hp as [Hop Hi].
    exists (upd pgs i (mkProgress (Applied op (catalog_after order)) Outside (pg_seen (pgs i)))).
    eapply linear_update; [exact Hl|exact Ht| | | | |done| |].
    + apply NoDup_app. split; [apply Hl|]. split; [|apply NoDup_singleton]. intros x Hx ->%list_elem_of_singleton. done.
    + intros j [Hj| ->%list_elem_of_singleton]%elem_of_app; [by apply (li_ops _ _ _ Hl)|by eexists].
    + constructor; try done; [|intros; by apply was_stored_more, Hseen].
      split; [done|]. exists order, []. by split.
    + intros j u Hj Hu. destruct (li_threads _ _ _ Hl j u Hu) as [G1 G2 G3 G4 G5 G6].
      constructor; try done; [by apply in_phase_more|intros; by apply was_stored_more, G3|]. by rewrite (Hout j u).
    + destruct (li_saved _ _ _ Hl) as [?|(files & Hf & ?)]; [by left|right].
      exists files. split; [by apply was_stored_more|done].
    + intros _ _. unfold catalog_after. rewrite omap_app, foldl_app. cbn [omap list_omap]. by rewrite Hop.
Qed.
End move.

Lemma linear_step order c pgs i c' :
  linear order c pgs -> step i c = Some c' ->
  (exists pgs', linear order c' pgs') \/ exists pgs', linear (order ++ [i]) c' pgs'.
Proof.
  intros Hl. destruct c as [s ths].
  intros (t & Ht & [(f & k & Hpr & ->)|(a & p & held & Hpr & Hr & Ha & ->)])%step_spec; [by eapply move_atomic|].
  destruct (decide (lock_of a = MuCatalog)) as [Hc|Hc]; [|by eapply move_other].
  destruct a as [m|m|m|m|m]; cbn [lock_of] in Hc; subst m;
    [by eapply move_announce|by eapply move_await|by eapply move_racquire|by eapply move_release|by eapply move_rrelease].
Qed.

(** *** Runs *)

Lemma run_app l1 l2 (c c' : @config Server srvErr mutex bool) :
  run (l1 ++ l2) c = Some c' <-> exists c1, run l1 c = Some c1 /\ run l2 c1 = Some c'.
Proof.
  revert c; induction l1 as [|i l1 IH]; intros c; cbn [app run].
  - split; [by eexists|]. by intros (c1 & [= <-] & ?).
  - destruct (step i c) as [c1|]; [apply IH|]. split; [done|]. by intros (? & ? & _).
Qed.

(** A goroutine that has ended does not move. *)
Lemma run_finished l (c c' : @config Server srvErr mutex bool) i t :
  c.2 !! i = Some t -> finished t = true -> run l c = Some c' -> i ∉ l.
Proof.
  revert c; induction l as [|j l IH]; intros c Hi Hf; [by intros _ ?%not_elem_of_nil|]. cbn [run].
  destruct (step j c) as [c1|] eqn:Ej; [|done]. destruct c as [s ths]. cbn [snd] in Hi.
  assert (j <> i) as Hj.
  { intros ->. cbn [step] in Ej. rewrite Hi in Ej. unfold finished in Hf. by destruct (th_prog t). }
  intros Hl. rewrite elem_of_cons. intros [->|Hin]; [done|]. revert Hin. apply (IH c1); [|done|done].
  apply step_spec in Ej as (u & Hu & [(f & k & _ & ->)|(a & p & held & _ & _ & _ & ->)]); cbn [snd];
    by rewrite list_lookup_insert_ne.
Qed.

(** The order grows with the run, by goroutines that move. *)
Lemma linear_run schedule c :
  run schedule (s0, pool tracing gs) = Some c ->
  exists order pgs, linear order c pgs /\
    forall before rest c1, schedule = before ++ rest -> run before (s0, pool tracing gs) = Some c1 ->
      exists o1 o2, order = o1 ++ o2 /\ (forall i, i ∈ o1 -> i ∈ before) /\ forall i, i ∈ o2 -> i ∈ rest.
Proof.
  revert c; induction schedule as [|x schedule IH] using rev_ind; intros c.
  - intros [= <-]. destruct linear_start as [pgs Hl]. exists [], pgs. split; [done|].
    intros before rest c1 [-> ->]%eq_sym%app_eq_nil _. exists [], []. split; [done|]. by split.
  - intros (c0 & Hc0 & Hx)%run_app. destruct (IH c0 Hc0) as (order & pgs & Hl & Hsp).
    cbn [run] in Hx. destruct (step x c0) as [c2|] eqn:Ex; [|done]. injection Hx as ->.
    assert (exists extra pgs', linear (order ++ extra) c pgs' /\ forall i, i ∈ extra -> i = x)
      as (extra & pgs' & Hl' & Hex).
    { destruct (linear_step _ _ _ _ _ Hl Ex) as [[pgs' H]|[pgs' H]].
      - exists [], pgs'. rewrite app_nil_r. split; [done|]. by intros i ?%not_elem_of_nil.
      - exists [x], pgs'. split; [done|]. by intros i ?%list_elem_of_singleton. }
    exists (order ++ extra), pgs'. split; [done|]. intros before rest c1 E Hb.
    destruct rest as [|y rest _] using rev_ind.
    + rewrite app_nil_r in E. subst before. exists (order ++ extra), []. rewrite app_nil_r.
      split; [done|]. split; [|done]. destruct (Hsp schedule [] c0) as (o1 & o2 & -> & H1 & H2); [by rewrite app_nil_r|done|].
      intros i. rewrite !elem_of_app. intros [[Hi|Hi]|Hi]; [left; by apply H1|by apply H2, not_elem_of_nil in Hi|].
      right. apply list_elem_of_singleton. by apply Hex.
    + rewrite app_assoc in E. apply app_inj_tail in E as [-> <-].
      destruct (Hsp before rest c1 eq_refl Hb) as (o1 & o2 & -> & H1 & H2).
      exists o1, (o2 ++ extra). split; [by rewrite app_assoc|]. split; [done|].
      intros i. rewrite !elem_of_app. intros [Hi|Hi]; [left; by apply H2|]. right. apply list_elem_of_singleton. by apply Hex.
Qed.

Definition precedes (order : list nat) (i j : nat) : Prop :=
  exists l1 l2 l3, order = l1 ++ i :: l2 ++ j :: l3.

(** No goroutine is between getting the catalog's lock for writing and giving it
    back. *)
Definition nobody_writes (c : @config Server srvErr mutex bool) : Prop :=
  forall i t, c.2 !! i = Some t -> (MuCatalog, Exclusive) ∈ th_held t -> awaits (th_prog t).

End handlers.

(** ** Two uploads at the same time *)

Local Abbreviation demo_pool gs := (pool (PC := demo_combiner) (WD := demo_world) false gs).

Definition two_uploads : list goroutine :=
  [GoUpsert (demo_file xee (lit "First.mp3") 5); GoUpsert (demo_file xef (lit "Second.mp3") 5)].

(** The first request reads the catalog, then the second one runs from beginning
    to end, then the first one writes. *)
Definition uploads_schedule : list nat :=
  replicate 15 0%nat ++ replicate 20 1%nat ++ replicate 5 0%nat.

Definition names (files : list (@FileRecord ed2k_ref)) : list bytes := map fr_Name files.

Lemma uploads_run :
  match run uploads_schedule (demo_server, demo_pool two_uploads) with
  | Some c =>
    forallb (fun t => match th_prog t with Done (Ok true) => true | _ => false end) c.2 &&
    match sv_saved c.1 with
    | Some files => bool_decide (names (cat_files (sv_catalog c.1)) = names files ++ [lit "Second.mp3"])
    | None => false
    end
  | None => false
  end = true.
Proof. vm_compute. reflexivity. Qed.

(** C14: but an upload that succeeded can be missing in the store: two uploads run
    at the same time, both report success, and both files are in the catalog, but
    the catalog's copies are written in the wrong order, so that the store keeps
    the one without the second file, until something else is saved. *)
Theorem concurrent_uploads_lose : exists c files,
  reach (demo_server, demo_pool two_uploads) c /\
  Forall (fun t => th_prog t = Done (Ok true)) c.2 /\
  sv_saved c.1 = Some files /\
  names (cat_files (sv_catalog c.1)) = names files ++ [lit "Second.mp3"].
Proof.
  pose proof uploads_run as H. destruct (run uploads_schedule _) as [c|] eqn:Ec; [|discriminate H].
  apply andb_true_iff in H as [Hd Hs]. destruct (sv_saved c.1) as [files|] eqn:Es; [|discriminate Hs].
  exists c, files. split; [eapply reach_run; [constructor|exact Ec]|]. clear Ec. split; [|split].
  - apply Forall_forall. intros t Ht. apply list_elem_of_In in Ht.
    pose proof (proj1 (forallb_forall _ _) Hd t Ht) as H. cbv beta in H.
    destruct (th_prog t) as [[[]|]| |]; (reflexivity || discriminate H).
  - exact Es.
  - by apply bool_decide_eq_true in Hs.
Qed.

(** The second request starts when the first one is inside its critical section,
    and has to wait for it. *)
Definition changes_schedule : list nat :=
  replicate 4 0%nat ++ replicate 4 0%nat ++ replicate 20 1%nat ++ replicate 12 0%nat.

Lemma changes_run :
  match run (replicate 4 0%nat) (demo_server, demo_pool two_uploads) with
  | Some c => match step 1 c with Some _ => false | None => true end
  | None => false
  end &&
  match run changes_schedule (demo_server, demo_pool two_uploads) with
  | Some c => forallb (fun t => bool_decide (th_held t = []) &&
                match th_prog t with Done (Ok b) => b | _ => false end) c.2
  | None => false
  end = true.
Proof. vm_compute. reflexivity. Qed.

