(* ===== verification/ServerProps.v ===== *)
(** * What holds of the running server

    The theorems about reachable states, client IDs, offers and disconnects. *)

From S2P Require Import StateErr.
From S2P Require Import Prelude GoStrings GoSort GoNet Ed2kLib Ed2kRef Ed2kWire FileRecord.
From S2P Require Import Search SearchFacts Catalog CatalogFacts Config IdChange OfferFiles.
From S2P Require Import Sources PeerServers Limiter Text Frames AuditLog Server ServerFacts.
From S2P Require Import ServerInv ServerDemo.

Local Open Scope Z_scope.
Local Open Scope srv_scope.

Section reachable.
Context {L : Ed2kLib} {HL : Ed2kHashLaws} {W : Ed2kWire} {U : UnicodeTables}.
Context {MI : MapIter} {ML : MapIterLaws}.
Context {D : TextDecoder} {ZL : Zlib} {PC : PacketCombiner} {WD : World}.

(** The states reached from [s0] by events that satisfy [P]. *)
Inductive reach (P : Server -> event -> Prop) (s0 : Server) : Server -> Prop :=
| reach_init : reach P s0 s0
| reach_step s ev :
    reach P s0 s -> memory_ok s -> P s ev -> reach P s0 (run_event ev s).2.

(** A server as it starts. *)
Record initial (s : Server) : Prop := {
  in_new : exists cfg catalog, NewServer cfg catalog = Ok s /\ catalog_ok catalog;
  in_batch : SearchBatchSize (sv_cfg s) < 2 ^ 63
}.

Lemma initial_ok s : initial s -> server_ok s /\ tables_ok s.
Proof.
  intros [(cfg & catalog & Hn & Hc) Hb]. unfold NewServer in Hn.
  destruct (Normalize cfg) as [n|e] eqn:En; [|done]. cbn [rbind] in Hn.
  apply Normalize_config_ok in En. injection Hn as <-. split.
  - constructor; try done.
    + split; [apply En|done].
    + intros sid. split; [done|]. split; [by left|done].
    + intros sid Hm. change (0 < MaxOfferedFilesPerClient n) in Hm.
      change (Z.of_nat (size (∅ : gmap bytes FileRecord)) <=
        MaxOfferedFilesPerClient n). rewrite map_size_empty. lia.
  - constructor; [done|]. intros cid key (f & Hf & _).
    change ((∅ : gmap bytes dynamicSharedFile) !! key = Some f) in Hf.
    by rewrite lookup_empty in Hf.
Qed.

Lemma reach_ok P s0 s : initial s0 -> reach P s0 s -> server_ok s.
Proof.
  intros H0. induction 1 as [|s ev _ IH Hm _]; [by apply initial_ok|].
  by apply run_event_safe.
Qed.

Lemma reach_tables s0 s : initial s0 -> reach disciplined s0 s -> tables_ok s.
Proof.
  intros H0. induction 1 as [|s ev Hr IH Hm Hd]; [by apply initial_ok|].
  apply run_event_safe; [by eapply reach_ok|done..].
Qed.

(** C15: while no session logs in twice, the client table is exactly the live
    logged-in sessions under their IDs, and every source a shared file lists
    belongs to a client in the table that still offers that file. *)
Theorem server_tables_exact s0 s :
  initial s0 -> reach disciplined s0 s ->
  (forall id sid, findClient s id = Some sid <->
     sid ∈ sv_open s /\ cs_assignedID (session s sid) = id /\ id <> 0) /\
  (forall key cid e, source_of (sv_dynamicFiles s) key cid = Some e ->
     exists sid, findClient s cid = Some sid /\ key ∈ dom (cs_offeredFiles (session s sid))).
Proof.
  intros H0 Hr. pose proof (reach_ok _ _ _ H0 Hr) as Hs. pose proof (reach_tables _ _ H0 Hr) as [Hc Hd].
  split.
  - intros id sid. unfold findClient. split.
    + intros Hi. destruct (Hc _ _ Hi) as [? ?]. split; [done|]. split; [done|].
      intros ->. by rewrite (so_zero s Hs) in Hi.
    + intros (Ho & <- & Hne). by apply Hs.
  - intros key cid e He. apply Hd. unfold source_of in He.
    destruct (sv_dynamicFiles s !! key) as [f|] eqn:Hf; [|done].
    exists f. split; [done|]. left. by exists e.
Qed.

(** C17: in a run that starts with a catalog of pairwise distinct hashes and in
    which no session logs in twice (a second login leaves the ID and the files of
    the first behind), one event after the other, nothing of a client stays behind when it
    disconnects: its ID is free again, no shared file lists it as a source or
    counts it as complete, and the sources of all other clients are as before. *)
Theorem disconnect_forgets s0 s sid :
  initial s0 -> reach disciplined s0 s -> sid ∈ sv_open s ->
  let id := cs_assignedID (session s sid) in
  let s' := (run_event (EvClose sid) s).2 in
  (id <> 0 -> findClient s' id = None /\ forall key, ~ shares (sv_dynamicFiles s') id key) /\
  (forall key cid, cid <> id ->
     source_of (sv_dynamicFiles s') key cid = source_of (sv_dynamicFiles s) key cid).
Proof.
  intros H0 Hr Hopen. pose proof (reach_ok _ _ _ H0 Hr) as Hs.
  pose proof (reach_tables _ _ H0 Hr) as Ht. cbv zeta.
  unfold run_event. rewrite bind_gets, bool_decide_eq_true_2 by done.
  rewrite close_conn_eq by done. cbn [snd]. unfold closed_state.
  set (s1 := set_sv_stats _ s). set (id := cs_assignedID (session s sid)).
  assert (server_ok s1) as Hs1 by (apply (server_ok_core s); [apply stats_same_core|apply Hs|done]).
  assert (tables_ok s1) as Ht1 by (apply (tables_ok_core s); [apply stats_same_core|done]).
  destruct (Z.eqb_spec id 0) as [Hz|Hz].
  { split; [done|]. done. }
  pose proof (so_assigned s Hs sid Hopen Hz) as Hid. fold id in Hid. split.
  - intros _. split.
    + unfold findClient. change (delete id (sv_clients s1) !! id = None). apply lookup_delete_eq.
    + intros key. by apply (clear_offers_gone s1 id sid key).
  - intros key cid Hne.
    change (source_of (remove_all id (map snd (range_map (cs_offeredFiles (session s1 sid))))
                         (sv_dynamicFiles s1)) key cid = source_of (sv_dynamicFiles s) key cid).
    rewrite source_of_remove_all. case_decide as Hd; [by destruct Hd|done].
Qed.

(** An ID is always found (the search for a free number ends), it is not
    in use, and a client whose own address is free gets its address as ID. *)
Theorem allocateClientID_spec addr s :
  in_s 32 (sv_nextID s) -> Z.of_nat (size (sv_clients s)) < 2 ^ 32 ->
  exists id s', allocateClientID addr s = (Ok id, s') /\ findClient s id = None /\
    sv_clients s' = sv_clients s /\
    (clientIDFromRemote addr <> 0 -> findClient s (clientIDFromRemote addr) = None ->
     id = clientIDFromRemote addr).
Proof.
  intros Hn Hm. unfold allocateClientID, findClient. set (id0 := clientIDFromRemote addr).
  destruct (free_id_spec (sv_clients s) (sv_nextID s) Hn Hm) as (id & Hf & Hnone & _).
  destruct (negb (id0 =? 0) && _) eqn:E.
  - exists id0, s. apply andb_true_iff in E as [_ E]. split; [done|].
    by destruct (sv_clients s !! id0).
  - rewrite Hf. eexists id, _. split; [done|]. split; [done|]. split; [done|].
    intros Hne H0. rewrite H0 in E. apply Z.eqb_neq in Hne. by rewrite Hne in E.
Qed.

(** *** Offers *)

Lemma source_of_add_all cid records d r :
  NoDup (map key_of records) -> r ∈ records ->
  source_of (add_all cid records d) (key_of r) cid =
  match fr_Endpoints r with e :: _ => Some e | [] => source_of d (key_of r) cid end.
Proof.
  unfold add_all. revert d; induction records as [|x rs IH]; intros d Hnd Hin;
    [by apply elem_of_nil in Hin|].
  cbn [map foldl] in *. apply NoDup_cons in Hnd as [Hx Hnd].
  destruct (decide (key_of r = key_of x)) as [E|Hne].
  - assert (r = x) as ->.
    { apply elem_of_cons in Hin as [->|Hin]; [done|]. exfalso. apply Hx. rewrite <- E.
      apply elem_of_keys. by exists r. }
    assert (forall d', source_of (foldl (fun d record => addDynamicLocked cid record d) d' rs)
                         (key_of x) cid = source_of d' (key_of x) cid) as Hskip.
    { clear - Hx. induction rs as [|y rs IH]; intros d'; [done|]. cbn [map foldl] in *.
      rewrite not_elem_of_cons in Hx. destruct Hx as [Hy Hx]. rewrite IH by done.
      rewrite source_of_add. case_decide as Hd; [|done]. by destruct Hd. }
    rewrite Hskip, source_of_add. by rewrite decide_True by done.
  - apply elem_of_cons in Hin as [->|Hin]; [done|]. rewrite IH by done.
    rewrite source_of_add. by rewrite decide_False by (intros [? _]; done).
Qed.

(** The cap leaves room for the whole offer. *)
Definition room (max : Z) (offered : gmap bytes FileRecord) (records : list FileRecord) : Prop :=
  0 < max -> Z.of_nat (size offered) + len records <= max.

(** Then every record is taken. *)
Lemma merge_room max offered records :
  room max offered records ->
  let st := foldl (merge_record max) (mkMerge offered [] [] 0) records in
  mg_accepted st = records /\ mg_dropped st = 0 /\
  dom (mg_offered st) = dom offered ∪ list_to_set (map key_of records).
Proof.
  assert (forall st, room max (mg_offered st) records ->
    let st' := foldl (merge_record max) st records in
    mg_accepted st' = mg_accepted st ++ records /\ mg_dropped st' = mg_dropped st /\
    dom (mg_offered st') = dom (mg_offered st) ∪ list_to_set (map key_of records)) as H.
  { induction records as [|r rs IH]; intros st Hroom; cbn [foldl map list_to_set].
    - rewrite app_nil_r. split; [done|]. split; [done|]. by rewrite union_empty_r_L.
    - unfold room in Hroom. rewrite len_cons in Hroom. pose proof (len_nonneg rs).
      assert (mg_accepted (merge_record max st r) = mg_accepted st ++ [r] /\
        mg_dropped (merge_record max st r) = mg_dropped st /\
        mg_offered (merge_record max st r) = <[key_of r := r]> (mg_offered st))
        as (Ha & Hd & Ho).
      { unfold merge_record. fold (key_of r).
        destruct (mg_offered st !! key_of r) as [old|] eqn:Hold; [done|].
        destruct (Z.ltb_spec 0 max), (Z.leb_spec max (Z.of_nat (size (mg_offered st))));
          cbn [andb]; try done. lia. }
      destruct (IH (merge_record max st r)) as (-> & -> & ->).
      + intros Hmax. rewrite Ho. specialize (Hroom Hmax).
        destruct (mg_offered st !! key_of r) eqn:Hold.
        * rewrite map_size_insert_Some by by eexists. lia.
        * rewrite map_size_insert_None by done. lia.
      + rewrite Ha, Hd, Ho, <- app_assoc, dom_insert_L, (union_comm_L {[key_of r]}), union_assoc_L.
        done. }
  intros Hroom. by apply (H (mkMerge offered [] [] 0)).
Qed.

(** C18: an offer within the cap publishes what it announces: every record is
    accepted and filed under its hash with the sender's source, the client's
    earlier offers stay, and the sources of the other clients do not change. *)
Theorem offer_publishes s id sid records :
  findClient s id = Some sid ->
  room (MaxOfferedFilesPerClient (sv_cfg s)) (cs_offeredFiles (session s sid)) records ->
  records <> [] -> NoDup (map key_of records) ->
  exists s', mergeClientOfferedFiles id records s = (Ok (len records, 0), s') /\
    (forall r e es, r ∈ records -> fr_Endpoints r = e :: es ->
       source_of (sv_dynamicFiles s') (key_of r) id = Some e) /\
    dom (cs_offeredFiles (session s' sid)) =
      dom (cs_offeredFiles (session s sid)) ∪ list_to_set (map key_of records) /\
    (forall key cid, cid <> id ->
       source_of (sv_dynamicFiles s') key cid = source_of (sv_dynamicFiles s) key cid).
Proof.
  intros Hid Hmax Hne Hnd. rewrite (mergeClientOfferedFiles_eq s id sid records Hid Hne).
  cbv zeta.
  pose proof (merge_room _ (cs_offeredFiles (session s sid)) records Hmax) as Hu. cbv zeta in Hu.
  set (st := foldl _ _ _) in *. destruct Hu as (Ha & Hd & Ho). rewrite Ha, Hd.
  eexists. split; [done|]. cbn [with_offers]. split; [|split].
  - intros r e es Hr He. change (source_of (add_all id records
      (remove_all id (mg_previous st) (sv_dynamicFiles s))) (key_of r) id = Some e).
    by rewrite source_of_add_all, He.
  - rewrite with_offers_session, decide_True by done. exact Ho.
  - intros key cid Hc. change (source_of (add_all id records
      (remove_all id (mg_previous st) (sv_dynamicFiles s))) key cid =
      source_of (sv_dynamicFiles s) key cid).
    rewrite source_of_add_other by done. rewrite source_of_remove_all.
    case_decide as Hdec; [by destruct Hdec|done].
Qed.
End reachable.


(** ** Witnesses *)

(** A run whose every step is possible, disciplined and within memory. *)
Definition disciplined_b (s : Server) (ev : event) : bool :=
  match ev with
  | EvFrame sid _ opcode _ _ =>
    negb (byte_eqb opcode opLoginRequest) || (cs_assignedID (session s sid) =? 0)
  | _ => true
  end.

Definition memory_b (s : Server) : bool :=
  (len (cat_files (sv_catalog s)) + Z.of_nat (size (sv_dynamicFiles s)) <? 2 ^ 62) &&
  (Z.of_nat (size (sv_clients s)) <? 2 ^ 32).

Fixpoint good_run (evs : list event) (s : Server) : bool :=
  match evs with
  | [] => true
  | ev :: evs' =>
    memory_b s && disciplined_b s ev && is_ok (run_event ev s).1 && good_run evs' (run_event ev s).2
  end.

Lemma memory_b_ok s : memory_b s = true -> memory_ok s.
Proof. unfold memory_b. by intros [?%Z.ltb_lt ?%Z.ltb_lt]%andb_true_iff. Qed.

Lemma disciplined_b_ok s ev : disciplined_b s ev = true -> disciplined s ev.
Proof.
  destruct ev; try done. cbn [disciplined_b disciplined]. intros H ->.
  assert (byte_eqb opLoginRequest opLoginRequest = true) as E by reflexivity.
  rewrite E in H. by apply Z.eqb_eq.
Qed.

Lemma good_run_reach evs s0 s :
  reach disciplined s0 s -> good_run evs s = true -> reach disciplined s0 (run_events evs s).2.
Proof.
  revert s; induction evs as [|ev evs IH]; intros s Hr; [done|]. cbn [good_run run_events].
  rewrite !andb_true_iff. intros [[[Hm Hd] Hok] Hg].
  assert (reach disciplined s0 (run_event ev s).2) as Hr'.
  { apply reach_step; [done|by apply memory_b_ok|by apply disciplined_b_ok]. }
  destruct (run_event ev s) as [[[]|e] s1]; [|done]. by apply IH.
Qed.

Lemma reach_any P s0 s : reach P s0 s -> reach (fun _ _ => True) s0 s.
Proof. induction 1; [apply reach_init|by apply reach_step]. Qed.

Lemma demo_initial : initial demo_server.
Proof.
  split; [|reflexivity]. exists demo_config, (catalog_of demo_files). split; [|apply demo_catalog_ok].
  assert (is_ok (NewServer demo_config (catalog_of demo_files)) = true) as H by (vm_compute; reflexivity).
  unfold demo_server. destruct (NewServer _ _); [reflexivity|discriminate H].
Qed.

Lemma demo_two_reach : reach disciplined demo_server (demo_run demo_two).
Proof. apply good_run_reach; [apply reach_init|vm_compute; done]. Qed.

(** The client at 10.0.0.1 and the file it shares. *)
Definition demo_id : Z := 16777226.
Definition demo_key : bytes := Hash_String (replicate 16 x77).

Lemma server_tables_exact_witness :
  is_Some (source_of (sv_dynamicFiles (demo_run demo_two)) demo_key demo_id) /\
  exists sid, findClient (demo_run demo_two) demo_id = Some sid /\
    demo_key ∈ dom (cs_offeredFiles (session (demo_run demo_two) sid)).
Proof.
  destruct (source_of (sv_dynamicFiles (demo_run demo_two)) demo_key demo_id) as [e|] eqn:E.
  2: { exfalso. vm_compute in E. discriminate E. }
  split; [by eexists|].
  apply (proj2 (server_tables_exact demo_server (demo_run demo_two) demo_initial demo_two_reach) _ _ _ E).
Defined.

Lemma disconnect_forgets_witness :
  is_Some (source_of (sv_dynamicFiles (demo_run demo_two)) demo_key demo_id) /\
  ~ shares (sv_dynamicFiles (run_event (EvClose 0) (demo_run demo_two)).2) demo_id demo_key.
Proof.
  split; [apply (bool_decide_unpack _); vm_compute; done|].
  refine (proj2 (proj1 (disconnect_forgets demo_server (demo_run demo_two) 0
                          demo_initial demo_two_reach _) _) demo_key).
  - apply (bool_decide_unpack _). vm_compute. done.
  - vm_compute. discriminate.
Defined.

Lemma allocateClientID_spec_witness :
  exists id s', allocateClientID (Some (demo_addr x01)) (demo_run demo_two) = (Ok id, s') /\
    findClient (demo_run demo_two) id = None.
Proof.
  destruct (allocateClientID_spec (Some (demo_addr x01)) (demo_run demo_two)) as (id & s' & H & Hn & _).
  - unfold in_s. split; by vm_compute.
  - by vm_compute.
  - exists id, s'. by split.
Defined.

Lemma offer_publishes_witness :
  exists s', mergeClientOfferedFiles demo_id
      (map (set_endpoints [mkSource (lit "10.0.0.1") 4662 0 []]) demo_files)
      (demo_run demo_two) = (Ok (2, 0), s') /\
    Forall (fun r => is_Some (source_of (sv_dynamicFiles s') (key_of r) demo_id)) demo_files.
Proof.
  destruct (offer_publishes (demo_run demo_two) demo_id 0
    (map (set_endpoints [mkSource (lit "10.0.0.1") 4662 0 []]) demo_files))
    as (s' & E & Hsrc & _).
  - by vm_compute.
  - intros H. vm_compute in H. discriminate H.
  - intros H. apply (f_equal length) in H. discriminate H.
  - apply (bool_decide_unpack _). vm_compute. done.
  - exists s'. split; [exact E|]. apply Forall_forall. intros r Hr. eexists.
    apply (Hsrc (set_endpoints [mkSource (lit "10.0.0.1") 4662 0 []] r) _ []); [|done].
    apply list_elem_of_fmap_2. exact Hr.
Defined.
