(* ===== verification/ServerOutput.v ===== *)
(** * What the server sends and stores

    The theorems about search pages, callbacks and the write-through of
    administrative changes. *)

From S2P Require Import StateErr.
From S2P Require Import Prelude GoStrings GoSort GoNet Ed2kLib Ed2kRef Ed2kWire FileRecord.
From S2P Require Import Search SearchFacts Catalog CatalogFacts Config IdChange OfferFiles.
From S2P Require Import Sources PeerServers Limiter Text Frames AuditLog Server ServerFacts.
From S2P Require Import ServerInv ServerDemo ServerProps.

Local Open Scope Z_scope.
Local Open Scope srv_scope.

(** ** What goes out on the wire *)

Section output.
Context {L : Ed2kLib} {HL : Ed2kHashLaws} {W : Ed2kWire} {U : UnicodeTables}.
Context {MI : MapIter} {ML : MapIterLaws}.
Context {D : TextDecoder} {ZL : Zlib} {PC : PacketCombiner} {WD : World}.

(** Every packet can be encoded. *)
Definition packs : Prop := forall p, is_Some (Pack p).

(** What a write changes besides counters and clocks: the log. *)
Record wrote (l : list (nat * sent)) (s s' : Server) : Prop := {
  wr_sent : sv_sent s' = sv_sent s ++ l;
  wr_cfg : sv_cfg s' = sv_cfg s;
  wr_clients : sv_clients s' = sv_clients s;
  wr_result sid : cs_searchResult (session s' sid) = cs_searchResult (session s sid);
  wr_offset sid : cs_searchOffset (session s' sid) = cs_searchOffset (session s sid)
}.

Lemma wrote_refl s : wrote [] s s.
Proof. constructor; [by rewrite app_nil_r|done..]. Qed.

Lemma wrote_trans l1 l2 s1 s2 s3 :
  wrote l1 s1 s2 -> wrote l2 s2 s3 -> wrote (l1 ++ l2) s1 s3.
Proof.
  intros [] []. constructor; [|congruence|congruence|congruence|congruence].
  rewrite wr_sent1, wr_sent0. by rewrite app_assoc.
Qed.

Lemma touch_wrote s sid t adds :
  wrote [] s (set_sv_sessions (upd (sv_sessions s) sid (touch t adds (session s sid))) s).
Proof.
  constructor; [by rewrite app_nil_r|done|done|..]; intros sid'; rewrite session_upd;
    by case_decide; subst.
Qed.

(** One packet goes out, whether the write succeeds or not. *)
Lemma send_wrote sid p s :
  packs ->
  exists s', send sid p s = (if write_ok (sv_writes s) then Ok tt else Err ErrWrite, s') /\
    wrote [(sid, SentPacket p)] s s' /\ sv_writes s' = S (sv_writes s).
Proof.
  intros HP. destruct (HP p) as [raw Hraw]. unfold send. rewrite Hraw.
  cbv beta iota zeta delta [of_option ret bind noteOutbound now modify_session modify bump conn_write].
  cbn [sv_writes set_sv_sessions set_sv_stats set_sv_ticks].
  destruct (write_ok (sv_writes s)); (eexists; split; [done|]; split; [|done]);
    constructor; try done; intros sid'; unfold session;
    cbn [sv_sessions set_sv_sessions set_sv_stats set_sv_ticks set_sv_writes set_sv_sent]; unfold upd;
    by case_decide; subst.
Qed.

(** *** Search pages *)

(** The [i]-th page of a result list. *)
Definition page (batch : Z) (results : list SharedFileEntry) (i : nat) : list SharedFileEntry :=
  take (Z.to_nat batch) (drop (Z.to_nat batch * i) results).

(** The packet that carries it: the flag announces further pages. *)
Definition page_packet (batch : Z) (results : list SharedFileEntry) (i : nat) : Packet :=
  PktSearchResult (page batch results i) (batch * Z.of_nat (S i) <? len results).

(** The requests for [n] further pages. *)
Fixpoint more (n : nat) (sid : nat) : M unit :=
  match n with
  | O => ret tt
  | S n' => handleSearchMore sid ;;; more n' sid
  end.

Lemma concat_pages batch results n :
  concat (map (page batch results) (seq 0 n)) = take (Z.to_nat batch * n) results.
Proof.
  induction n as [|n IH]; [by rewrite Nat.mul_0_r|].
  rewrite seq_S, map_app, concat_app, IH. cbn [map concat Nat.add]. rewrite app_nil_r.
  unfold page. replace (Z.to_nat batch * S n)%nat with (Z.to_nat batch * n + Z.to_nat batch)%nat by lia.
  by rewrite <- take_take_drop.
Qed.

(** The session shows [results], with [i] pages taken out. *)
Record paged (batch : Z) (results : list SharedFileEntry) (i sid : nat) (s : Server) : Prop := {
  pg_batch : SearchBatchSize (sv_cfg s) = batch;
  pg_results : cs_searchResult (session s sid) = results;
  pg_offset : cs_searchOffset (session s sid) = Z.min (batch * Z.of_nat i) (len results);
  pg_ok : pages_ok s
}.

Lemma next_page_sent batch results i sid s :
  packs -> (forall n, write_ok n = true) -> 1 <= batch < 2 ^ 63 -> paged batch results i sid s ->
  exists s', handleSearchMore sid s = (Ok tt, s') /\ paged batch results (S i) sid s' /\
    sv_sent s' = sv_sent s ++ [(sid, SentPacket (page_packet batch results i))].
Proof.
  intros HP HW Hb [Hbatch Hres Hoff Hok].
  destruct (quiet_handleSearchMore (fun s' => sv_cfg s' = sv_cfg s) sid) with (s := s)
    as (_ & Hok' & _); [apply core_pred_cfg|intros s' ->; by rewrite Hbatch|done|done|].
  rewrite handleSearchMore_eq in * by (try rewrite Hbatch; done).
  cbv zeta in *. rewrite Hres, Hoff, Hbatch in *.
  destruct (Z.leb_spec (len results) (Z.min (batch * Z.of_nat i) (len results))) as [Hle|Hlt].
  - unfold bind, bump, modify in *.
    set (s1 := set_sv_stats _ s) in *.
    destruct (send_wrote sid empty_result s1 HP) as (s' & E & [] & _). rewrite HW in E. rewrite E in *.
    eexists. split; [done|]. cbn [snd] in Hok'. split.
    + constructor; [by rewrite wr_cfg0|by rewrite wr_result0| |done].
      rewrite wr_offset0. change (session s1 sid) with (session s sid). rewrite Hoff. lia.
    + rewrite wr_sent0. change (sv_sent s1) with (sv_sent s). do 4 f_equal.
      unfold page_packet, page, empty_result, len in *. rewrite drop_ge, take_nil by lia.
      f_equal. symmetry. apply Z.ltb_ge. lia.
  - unfold bind, bump, modify_session, modify in *.
    set (s1 := set_sv_stats _ _) in *.
    set (pkt := PktSearchResult _ _) in *.
    destruct (send_wrote sid pkt s1 HP) as (s' & E & [] & _). rewrite HW in E. rewrite E in *.
    eexists. split; [done|]. cbn [snd] in Hok'.
    assert (session s1 sid = set_search results
      (Z.min (Z.min (batch * Z.of_nat i) (len results) + batch) (len results)) (session s sid)) as Hs1.
    { unfold s1, session, upd. cbn [sv_sessions set_sv_stats set_sv_sessions].
      by rewrite decide_True by done. }
    split.
    + constructor; [by rewrite wr_cfg0| | |done].
      * by rewrite wr_result0, Hs1.
      * rewrite wr_offset0, Hs1. cbn [set_search cs_searchOffset]. lia.
    + rewrite wr_sent0. change (sv_sent s1) with (sv_sent s). do 4 f_equal.
      unfold pkt, page_packet, page, len in *. f_equal.
      * replace (Z.to_nat (Z.min _ _)) with (Z.to_nat batch * i)%nat by lia.
        set (m := (Z.to_nat batch * i)%nat).
        destruct (decide (Z.min (batch * Z.of_nat i) (Z.of_nat (length results)) + batch
                          <= Z.of_nat (length results))).
        -- f_equal. lia.
        -- rewrite !take_ge; [done|rewrite length_drop; lia..].
      * rewrite eq_iff_eq_true, !Z.ltb_lt. lia.
Qed.

Lemma more_sent batch results n i sid s :
  packs -> (forall n, write_ok n = true) -> 1 <= batch < 2 ^ 63 -> paged batch results i sid s ->
  exists s', more n sid s = (Ok tt, s') /\
    sv_sent s' = sv_sent s ++
      map (fun j => (sid, SentPacket (page_packet batch results j))) (seq i n).
Proof.
  intros HP HW Hb. revert i s; induction n as [|n IH]; intros i s Hp.
  { exists s. by rewrite app_nil_r. }
  destruct (next_page_sent batch results i sid s HP HW Hb Hp) as (s1 & E & Hp1 & Hsent).
  destruct (IH (S i) s1 Hp1) as (s' & E' & Hsent'). exists s'. split.
  - cbn [more]. by rewrite (bind_ok _ _ _ _ _ E).
  - rewrite Hsent', Hsent, <- app_assoc. done.
Qed.

(** The results of a search are installed as the page source. *)
Lemma publish_paged sid results s :
  len results < 2 ^ 62 -> pages_ok s ->
  exists s1, publish_results sid results s = handleSearchMore sid s1 /\
    paged (SearchBatchSize (sv_cfg s)) results 0 sid s1 /\ sv_sent s1 = sv_sent s.
Proof.
  intros Hlen Hok. unfold publish_results, bind, now, modify_session, bump, modify.
  eexists. split; [done|]. split; [|done].
  constructor; [done|..].
  - unfold session, upd. cbn [sv_sessions set_sv_sessions]. by rewrite decide_True by done.
  - unfold session, upd. cbn [sv_sessions set_sv_sessions]. rewrite decide_True by done.
    cbn [set_search cs_searchOffset]. pose proof (len_nonneg results). lia.
  - intros x. unfold session, upd. cbn [sv_sessions set_sv_sessions set_sv_stats set_sv_ticks sv_cfg].
    pose proof (len_nonneg results). case_decide; [|apply Hok].
    repeat split; cbn [set_search cs_searchOffset cs_searchResult]; auto; lia.
Qed.

(** C16: a search and the requests for more results that follow it send exactly
    the pages of the capped result list, in order, each flagged with whether
    more is to come; together the pages are the result list, and requests past
    its end get empty pages. *)
Theorem search_pages s sid query n :
  packs -> (forall n, write_ok n = true) -> search_ready s -> pages_ok s ->
  loggedIn (session s sid) = true ->
  let batch := SearchBatchSize (sv_cfg s) in
  exists found s', searchAll s query = Some found /\
    let results := capSearchResults found (MaxTCPSearchResults (sv_cfg s)) in
    (handleSearch sid query ;;; more n sid) s = (Ok tt, s') /\
    sv_sent s' = sv_sent s ++
      map (fun i => (sid, SentPacket (page_packet batch results i))) (seq 0 (S n)) /\
    concat (map (page batch results) (seq 0 (S n))) = take (Z.to_nat batch * S n) results /\
    (len results <= batch * Z.of_nat (S n) ->
     concat (map (page batch results) (seq 0 (S n))) = results).
Proof.
  intros HP HW Hready Hok Hlog. cbv zeta.
  destruct (searchAll_length s query Hready) as (found & Hfound & Hlen).
  set (results := capSearchResults found (MaxTCPSearchResults (sv_cfg s))).
  set (batch := SearchBatchSize (sv_cfg s)).
  assert (len results < 2 ^ 62) as Hlen'.
  { eapply Z.le_lt_trans; [apply capSearchResults_length|done]. }
  destruct (publish_paged sid results s Hlen' Hok) as (s1 & E & Hp & Hs1).
  destruct (more_sent batch results (S n) 0 sid s1 HP HW (rd_batch s Hready) Hp) as (s' & E' & Hsent).
  exists found, s'. split; [done|]. split; [|split; [by rewrite Hsent, Hs1|]].
  - assert (handleSearch sid query s = handleSearchMore sid s1) as Hh.
    { unfold handleSearch. rewrite bind_gets, Hlog. cbn [negb].
      rewrite !bind_gets, Hfound. exact E. }
    rewrite <- E'. unfold bind. rewrite Hh. done.
  - rewrite concat_pages. split; [done|]. intros Hall. apply take_ge. unfold len in *. lia.
Qed.
(** *** Callbacks *)

(** Whether the limiter lets a callback request from [host] through. *)
Definition callback_allowed (s : Server) (host : bytes) : bool :=
  match sv_callbackLimiter s with
  | None => true
  | Some l => (allow l (clock (sv_ticks s)) host).2
  end.

Lemma allow_callback_wrote host s :
  exists s', allow_callback host s = (Ok (callback_allowed s host), s') /\ wrote [] s s' /\
    sv_writes s' = sv_writes s.
Proof.
  unfold allow_callback, callback_allowed, bind, gets, now, modify, ret.
  destruct (sv_callbackLimiter s) as [l|].
  - destruct (allow l (clock (sv_ticks s)) host) as [l' ok]. eexists. split; [done|].
    split; [|done]. constructor; [by rewrite app_nil_r|done..].
  - exists s. split; [done|]. split; [apply wrote_refl|done].
Qed.

(** C19: a callback request that the limiter lets through reaches the client
    with the requested ID, and nobody else: it is told the requester's ID and
    port. When there is no such client, or the limiter refuses, or that client
    cannot be written to, the requester is told that the request failed. *)
Theorem callback_relay s sid id :
  packs ->
  let c := session s sid in
  let incoming := SentPacket (PktCallbackRequestIncoming
        (NewEndpoint (cs_assignedID c) (Endpoint_Port (cs_loginPoint c)))) in
  sv_sent (handleCallback sid id s).2 = sv_sent s ++
    match callback_allowed s (remote_host c), findClient s id with
    | true, Some target =>
        (target, incoming) ::
        (if write_ok (sv_writes s) then [] else [(sid, SentPacket PktCallbackRequestFailed)])
    | _, _ => [(sid, SentPacket PktCallbackRequestFailed)]
    end.
Proof.
  intros HP c incoming. unfold handleCallback. rewrite bind_gets. fold c.
  destruct (allow_callback_wrote (remote_host c) s) as (s1 & E & Hw & Hn).
  rewrite (bind_ok _ _ _ _ _ E). destruct (callback_allowed s (remote_host c)); cbn [negb].
  - cbv beta iota zeta delta [bind now modify_session modify bump gets].
    set (s2 := set_sv_stats _ _).
    assert (wrote [] s s2 /\ sv_writes s2 = sv_writes s) as [Hw2 Hn2].
    { split; [|done]. apply (wrote_trans [] [] s s1 s2 Hw).
      destruct (touch_wrote (set_sv_ticks (S (sv_ticks s1)) s1) sid (clock (sv_ticks s1))
                  [(ses_callbackRequests, 1)]).
      by constructor. }
    assert (findClient s2 id = findClient s id) as ->
      by (unfold findClient; by rewrite (wr_clients _ _ _ Hw2)).
    destruct (findClient s id) as [target|].
    + destruct (send_wrote target (PktCallbackRequestIncoming (NewEndpoint (cs_assignedID c)
        (Endpoint_Port (cs_loginPoint c)))) s2 HP) as (s3 & E3 & Hw3 & Hn3).
      rewrite Hn2 in *. unfold try_. rewrite E3.
      pose proof (wr_sent _ _ _ (wrote_trans _ _ _ _ _ Hw2 Hw3)) as Hs3.
      destruct (write_ok (sv_writes s)); [exact Hs3|].
      destruct (send_wrote sid PktCallbackRequestFailed s3 HP) as (s4 & E4 & Hw4 & _). rewrite E4.
      cbn [snd]. rewrite (wr_sent _ _ _ Hw4), Hs3, <- app_assoc. done.
    + destruct (send_wrote sid PktCallbackRequestFailed s2 HP) as (s3 & E3 & Hw3 & _). rewrite E3.
      exact (wr_sent _ _ _ (wrote_trans _ _ _ _ _ Hw2 Hw3)).
  - cbv beta iota zeta delta [bind modify bump]. set (s2 := set_sv_stats _ _).
    destruct (send_wrote sid PktCallbackRequestFailed s2 HP) as (s3 & E3 & Hw3 & _). rewrite E3.
    cbn [snd]. rewrite (wr_sent _ _ _ Hw3). change (sv_sent s2) with (sv_sent s1).
    by rewrite (wr_sent _ _ _ Hw), app_nil_r.
Qed.
End output.

(** ** The catalog and its store *)

Section store.
Context {L : Ed2kLib} {HL : Ed2kHashLaws} {W : Ed2kWire} {U : UnicodeTables}.
Context {MI : MapIter} {ML : MapIterLaws}.
Context {D : TextDecoder} {ZL : Zlib} {PC : PacketCombiner} {WD : World}.

(** The store holds the catalog. *)
Definition stored (s : Server) : Prop := sv_saved s = Some (Catalog_Snapshot (sv_catalog s)).

(** An administrative change writes through: when it reports success, the
    store holds exactly the catalog that is now in memory, and a deletion that
    finds nothing or a record that is refused changes nothing at all. When the
    store fails, the last save stays the one that succeeded before, and the change
    stays in memory. *)
Theorem admin_write_through s record h :
  let '(r, s') := UpsertFile record s in
  let '(d, s'') := DeleteFile h s in
  (r = Ok tt -> stored s') /\ (d = Ok true -> stored s'') /\ (d = Ok false -> s'' = s) /\
  (forall e, r = Err (ErrUpsert e) -> s' = s) /\
  (r = Err ErrSave -> sv_saved s' = sv_saved s /\ Catalog_Upsert (sv_catalog s) record = Ok (sv_catalog s')) /\
  (d = Err ErrSave -> sv_saved s'' = sv_saved s /\ Catalog_Delete (sv_catalog s) h = (sv_catalog s'', true)).
Proof.
  destruct (UpsertFile record s) as [r s'] eqn:Eu. destruct (DeleteFile h s) as [d s''] eqn:Ed.
  unfold UpsertFile in Eu. unfold DeleteFile in Ed.
  rewrite bind_gets in Eu. rewrite bind_gets in Ed.
  assert (Hp : forall st, persistCatalog st =
    if write_ok (sv_writes st)
    then bump PersistWrites 1 (set_sv_saved (Some (Catalog_Snapshot (sv_catalog st)))
                                 (set_sv_writes (S (sv_writes st)) st))
    else (Err ErrSave, set_sv_writes (S (sv_writes st)) st)) by done.
  assert (((r = Ok tt -> stored s') /\ (forall e, r = Err (ErrUpsert e) -> s' = s) /\
    (r = Err ErrSave -> sv_saved s' = sv_saved s /\
       Catalog_Upsert (sv_catalog s) record = Ok (sv_catalog s')))) as (? & ? & ?).
  { destruct (Catalog_Upsert (sv_catalog s) record) as [c'|e].
    - cbv beta iota delta [bind modify bump] in Eu.
      rewrite Hp in Eu.
      destruct (write_ok _); injection Eu as <- <-; (split; [done|]); by split.
    - injection Eu as <- <-. split; [done|]. by split. }
  assert ((d = Ok true -> stored s'') /\ (d = Ok false -> s'' = s) /\
    (d = Err ErrSave -> sv_saved s'' = sv_saved s /\
       Catalog_Delete (sv_catalog s) h = (sv_catalog s'', true))) as (? & ? & ?).
  { destruct (Catalog_Delete (sv_catalog s) h) as [c' [|]]; cbn [negb] in Ed.
    - cbv beta iota delta [bind modify bump] in Ed. rewrite Hp in Ed.
      destruct (write_ok _); injection Ed as <- <-; (split; [done|]); by split.
    - injection Ed as <- <-. split; [done|]. by split. }
  done.
Qed.
End store.

(** ** Witnesses *)

Lemma demo_packs : packs.
Proof. by eexists. Qed.

Lemma demo_two_ok : server_ok (demo_run demo_two).
Proof. exact (reach_ok _ _ _ demo_initial demo_two_reach). Qed.

Lemma search_pages_witness :
  exists found s', searchAll (demo_run demo_two) (makeSearchQuery (searchKeywordExpr (lit "song")))
      = Some found /\ length found = 2%nat /\
    (handleSearch 0 (makeSearchQuery (searchKeywordExpr (lit "song"))) ;;; more 1 0)
      (demo_run demo_two) = (Ok tt, s').
Proof.
  destruct (search_pages (demo_run demo_two) 0 (makeSearchQuery (searchKeywordExpr (lit "song"))) 1
              demo_packs) as (found & s' & Hf & E & _).
  - done.
  - apply server_ready; [apply demo_two_ok|]. apply memory_b_ok. vm_compute. done.
  - apply demo_two_ok.
  - by vm_compute.
  - exists found, s'. split; [exact Hf|]. split; [|exact E].
    assert (option_map (@length _) (searchAll (demo_run demo_two)
      (makeSearchQuery (searchKeywordExpr (lit "song")))) = Some 2%nat) as Hl by by vm_compute.
    rewrite Hf in Hl. by injection Hl.
Defined.

Lemma callback_relay_witness :
  sv_sent (handleCallback 1 16777226 (demo_run demo_two)).2 = sv_sent (demo_run demo_two) ++
    [(0%nat, SentPacket (PktCallbackRequestIncoming (33554442, 4662)))].
Proof.
  rewrite (callback_relay (demo_run demo_two) 1 16777226 demo_packs). f_equal; by vm_compute.
Defined.
