(* ===== verification/ServerRuns.v ===== *)
(** * Where the server departs from its intent

    Three schedules that leave the tables of the server in a state its code
    does not mean to have: a second login on one connection, two logins that
    interleave, and an offer that carries no source. *)

From S2P Require Import StateErr.
From S2P Require Import Prelude GoStrings GoSort GoNet Ed2kLib Ed2kRef Ed2kWire FileRecord.
From S2P Require Import Search SearchFacts Catalog CatalogFacts Config IdChange OfferFiles.
From S2P Require Import Sources PeerServers Limiter Text Frames AuditLog Server ServerFacts.
From S2P Require Import ServerInv ServerDemo ServerProps.

Local Open Scope Z_scope.
Local Open Scope srv_scope.

Section departures.
Context {L : Ed2kLib} {HL : Ed2kHashLaws} {W : Ed2kWire} {U : UnicodeTables}.
Context {MI : MapIter} {ML : MapIterLaws}.
Context {D : TextDecoder} {ZL : Zlib} {PC : PacketCombiner} {WD : World}.

(** *** A second login *)

Lemma session_logged_in s sid id next c x :
  session (logged_in_state s sid id next c) x = if decide (x = sid) then c else session s x.
Proof. done. Qed.

(** What a login request leaves: the state of [login_session] up to counters,
    clocks and output; the connection is closed if an answer cannot be sent. *)
Lemma login_frame_eq s sid body n h point properties :
  server_ok s -> memory_ok s -> sid ∈ sv_open s ->
  LoginRequest_Get body = Some (h, point, properties) ->
  exists id next c s1, sv_clients s !! id = None /\ cs_assignedID c = id /\
    same_core (logged_in_state s sid id next c) s1 /\ server_ok s1 /\
    ((run_event (EvFrame sid EdonkeyHeader opLoginRequest body n) s).2 = s1 \/
     (run_event (EvFrame sid EdonkeyHeader opLoginRequest body n) s).2 = closed_state s1 sid).
Proof.
  intros Hs Hm Hopen Hbody.
  destruct (quiet_note_inbound sid n s I (so_pages s Hs)) as (Hc0 & Hp0 & _).
  destruct (note_inbound sid n s) as [r s0] eqn:E0. cbn [fst snd] in *.
  assert (r = Ok tt) as -> by (unfold note_inbound, bind, now, modify_session, bump, modify in E0;
    by injection E0).
  pose proof (server_ok_core s s0 Hc0 Hp0 Hs) as Hs0. pose proof (memory_ok_core s s0 Hc0 Hm) as Hm0.
  destruct (login_session_eq s0 sid h point properties Hs0 Hm0) as (id & next & Hfree & Hnext & El).
  set (c := set_login _ _ _ _ _ _) in El.
  pose proof (handleLogin_serves sid h point properties s0) as Hserve.
  destruct Hserve as (Hn & Hs1 & Hopen1 & _); [by rewrite (sc_open _ _ Hc0)|done|done|].
  assert (same_core (logged_in_state s0 sid id next c) (handleLogin sid h point properties s0).2)
    as Hcore.
  { destruct (login_session_safe sid h point properties s0) as (_ & Hs' & _);
      [by rewrite (sc_open _ _ Hc0)|done|done|]. rewrite El in Hs'.
    unfold handleLogin. rewrite (bind_ok _ _ _ _ _ El). fold (login_answers sid id).
    by apply (quiet_login_answers sid id _ I (so_pages _ Hs')). }
  exists id, next, c, (handleLogin sid h point properties s0).2.
  split; [by rewrite <- (sc_clients _ _ Hc0)|]. split; [done|].
  split; [|split; [done|]].
  - etransitivity; [|exact Hcore].
    destruct Hc0. constructor; try done; first
      [ intros x; rewrite !session_logged_in; by case_decide
      | unfold logged_in_state; cbn; by rewrite sc_clients ].
  - unfold run_event. rewrite bind_gets, bool_decide_eq_true_2 by done.
    assert (serve_frame sid EdonkeyHeader opLoginRequest body n s = handleLogin sid h point properties s0)
      as Hf.
    { unfold serve_frame. rewrite (bind_ok _ _ _ _ _ E0), byte_eqb_refl. unfold dispatch.
      rewrite byte_eqb_refl, Hbody. done. }
    unfold serve_or_close, bind, try_. rewrite Hf.
    destruct (handleLogin sid h point properties s0) as [[[]|e] s1]; [by left|right].
    cbn [fst snd] in *.
    assert (close_conn sid s1 = (Ok tt, closed_state s1 sid)) as Hcl by (by apply close_conn_eq).
    destruct e; try congruence; by rewrite Hcl.
Qed.

(** A session's place after its connection is closed. *)
Lemma closed_state_core s sid id0 :
  id0 <> cs_assignedID (session s sid) ->
  sv_clients (closed_state s sid) !! id0 = sv_clients s !! id0 /\
  (forall key, source_of (sv_dynamicFiles (closed_state s sid)) key id0 =
               source_of (sv_dynamicFiles s) key id0) /\
  sid ∉ sv_open (closed_state s sid).
Proof.
  intros Hne. unfold closed_state. set (s1 := set_sv_stats _ s).
  destruct (_ =? 0).
  - split; [done|]. split; [done|]. intros [_ ?]%still_open. done.
  - split; [|split].
    + change (delete (cs_assignedID (session s sid)) (sv_clients s) !! id0 = sv_clients s !! id0).
      by rewrite lookup_delete_ne.
    + intros key. change (source_of (remove_all (cs_assignedID (session s sid))
        (map snd (range_map (cs_offeredFiles (session s1 sid)))) (sv_dynamicFiles s)) key id0 = 
        source_of (sv_dynamicFiles s) key id0).
      rewrite source_of_remove_all. rewrite decide_False; [done|]. intros [_ ?]. done.
    + intros [_ ?]%still_open. done.
Qed.

(** A second login on one connection leaks: the session gets a new ID, its
    old ID stays in the client table, and when the connection closes the old
    entry still names the dead session and its files stay listed under it. *)
Theorem second_login_leaks s sid body n h point properties :
  server_ok s -> memory_ok s -> sid ∈ sv_open s -> cs_assignedID (session s sid) <> 0 ->
  LoginRequest_Get body = Some (h, point, properties) ->
  let id := cs_assignedID (session s sid) in
  let s' := (run_event (EvClose sid)
               (run_event (EvFrame sid EdonkeyHeader opLoginRequest body n) s).2).2 in
  sid ∉ sv_open s' /\ findClient s' id = Some sid /\
  forall key, source_of (sv_dynamicFiles s') key id = source_of (sv_dynamicFiles s) key id.
Proof.
  intros Hs Hm Hopen Hid Hbody. cbv zeta.
  destruct (login_frame_eq s sid body n h point properties Hs Hm Hopen Hbody)
    as (id & next & c & s1 & Hfree & Hcid & Hcore & Hs1 & Hev).
  pose proof (so_assigned s Hs sid Hopen Hid) as Hin. set (id0 := cs_assignedID _) in *.
  assert (id0 <> id) as Hne by congruence.
  assert ((run_event (EvClose sid)
    (run_event (EvFrame sid EdonkeyHeader opLoginRequest body n) s).2).2 = closed_state s1 sid) as ->.
  { unfold run_event at 1. rewrite bind_gets. destruct Hev as [-> | ->].
    - rewrite bool_decide_eq_true_2 by by rewrite (sc_open _ _ Hcore).
      by rewrite close_conn_eq by (done || by rewrite (sc_open _ _ Hcore)).
    - rewrite bool_decide_eq_false_2; [done|]. unfold closed_state. by intros [_ ?]%still_open. }
  destruct (closed_state_core s1 sid id0) as (Hc & Hd & Ho).
  { rewrite (sc_assigned _ _ Hcore), session_logged_in. by rewrite decide_True, Hcid by done. }
  split; [done|]. split.
  - unfold findClient. rewrite Hc, (sc_clients _ _ Hcore). cbn [logged_in_state sv_clients set_sv_clients].
    destruct (id =? 0); [done|]. by rewrite lookup_insert_ne.
  - intros key. by rewrite Hd, (sc_dynamic _ _ Hcore).
Qed.
(** *** Two logins that interleave *)

(** The two halves of a login: [handleLogin] allocates an ID under the server's
    lock, releases it, and [registerClient] takes the lock again. *)
Definition login_allocates (sid : nat) (h : Hash) (point : Endpoint) (properties : list Tag)
    : M unit :=
  do! remote := gets (fun s => cs_remote (session s sid)) in
  do! id := allocateClientID remote in
  modify_session sid (set_login h (extractClientConnectOptions properties) point
                        (extractClientName properties) id).

(** The first halves of two logins run before the second halves. *)
Definition login_race (sid1 sid2 : nat) (h1 h2 : Hash) (point1 point2 : Endpoint)
    (properties1 properties2 : list Tag) : M unit :=
  login_allocates sid1 h1 point1 properties1 ;;;
  login_allocates sid2 h2 point2 properties2 ;;;
  registerClient sid1 ;;;
  registerClient sid2.

(** A login is its two halves in a row. *)
Lemma login_session_halves sid h point properties s :
  (login_session sid h point properties s).2 =
  ((login_allocates sid h point properties ;;; registerClient sid) s).2.
Proof.
  unfold login_session, login_allocates. unfold bind, gets.
  by destruct (allocateClientID _ s) as [[id|e] s1].
Qed.

(** An ID is not reserved when it is allocated: two clients behind one
    address that log in at the same time both get the address as their ID, and
    only the second can be found under it. When the first one leaves, the files
    that the second one offers are withdrawn. *)
Theorem login_race_shares_id s sid1 sid2 h1 h2 point1 point2 properties1 properties2 addr :
  sid1 <> sid2 -> cs_remote (session s sid1) = addr -> cs_remote (session s sid2) = addr ->
  clientIDFromRemote addr <> 0 -> findClient s (clientIDFromRemote addr) = None ->
  let id := clientIDFromRemote addr in
  let s' := (login_race sid1 sid2 h1 h2 point1 point2 properties1 properties2 s).2 in
  cs_assignedID (session s' sid1) = id /\ cs_assignedID (session s' sid2) = id /\
  findClient s' id = Some sid2 /\
  forall s2, findClient s2 id = Some sid2 -> cs_assignedID (session s2 sid1) = id ->
    cs_offeredFiles (session (unregisterClient sid1 s2).2 sid2) = ∅ /\
    findClient (unregisterClient sid1 s2).2 id = Some sid2.
Proof.
  intros Hne Hr1 Hr2 Hid Hfree. cbv zeta. set (id := clientIDFromRemote addr) in *.
  assert (Ha : forall s' sid h point props, sv_clients s' = sv_clients s ->
    cs_remote (session s' sid) = addr ->
    login_allocates sid h point props s' =
      (Ok tt, set_sv_sessions (upd (sv_sessions s') sid
         (set_login h (extractClientConnectOptions props) point (extractClientName props) id
            (session s' sid))) s')).
  { intros s' sid h point props Hc Hr. unfold login_allocates. rewrite bind_gets, Hr.
    assert (allocateClientID addr s' = (Ok id, s')) as E; [|by rewrite (bind_ok _ _ _ _ _ E)].
    unfold allocateClientID. fold id. unfold findClient in Hfree. rewrite Hc, Hfree.
    by destruct (Z.eqb_spec id 0). }
  unfold login_race. rewrite (bind_ok _ _ _ _ _ (Ha s sid1 h1 point1 properties1 eq_refl Hr1)).
  set (s1 := set_sv_sessions _ s).
  assert (session s1 sid2 = session s sid2) as Hs2.
  { unfold s1. rewrite session_upd. by rewrite decide_False by done. }
  rewrite (bind_ok _ _ _ _ _ (Ha s1 sid2 h2 point2 properties2 eq_refl ltac:(by rewrite Hs2))).
  set (s3 := set_sv_sessions _ s1).
  assert (cs_assignedID (session s3 sid1) = id /\ cs_assignedID (session s3 sid2) = id) as [H1 H2].
  { unfold s3, s1. rewrite !session_upd. rewrite decide_False by done.
    by rewrite !decide_True by done. }
  assert ((registerClient sid1 ;;; registerClient sid2) s3 =
    (Ok tt, set_sv_clients (<[id := sid2]> (<[id := sid1]> (sv_clients s3))) s3)) as ->.
  { unfold registerClient, bind, modify. rewrite H1. destruct (Z.eqb_spec id 0); [done|].
    change (session (set_sv_clients _ s3) sid2) with (session s3 sid2). rewrite H2.
    by destruct (Z.eqb_spec id 0). }
  split; [exact H1|]. split; [exact H2|]. split; [by apply lookup_insert_eq|].
  intros s4 Hf Hass. set (s5 := set_sv_stats (upd (sv_stats s4) TotalDisconnects
                                   (add64 (sv_stats s4 TotalDisconnects) 1)) s4).
  assert (unregisterClient sid1 s4 = (Ok tt, clear_offers s5 id sid2)) as ->.
  { unfold unregisterClient. rewrite bind_gets, Hass.
    unfold bind at 1, bump, modify at 1. fold s5.
    destruct (Z.eqb_spec id 0) as [|_]; [done|]. cbn [negb].
    unfold bind. rewrite (removeClientOfferedFiles_eq s5 id sid2) by exact Hf.
    unfold modify. change (sv_clients (clear_offers s5 id sid2)) with (sv_clients s4).
    unfold findClient in Hf. rewrite Hf. by destruct (Nat.eqb_spec sid2 sid1); [subst|]. }
  cbn [snd].
  split; [|exact Hf]. unfold clear_offers. fold (with_offers s5 sid2 ∅
      (remove_all id (map snd (range_map (cs_offeredFiles (session s5 sid2)))) (sv_dynamicFiles s5))).
  rewrite with_offers_session. by rewrite decide_True by done.
Qed.
End departures.

(** *** An offer without a source *)

(** A client whose login names no port cannot be a source. *)
Definition demo_login_portless (sid : nat) (n : byte) : event :=
  EvFrame sid EdonkeyHeader opLoginRequest
    (replicate 16 n ++ [x00; x00; x00; x00; x00; x00; x00; x00; x00; x00]) 30.

Definition demo_portless_offer : list event :=
  [demo_connect x01; demo_login_portless 0 xa1; demo_offer 0 [demo_entry x77 0 0];
   demo_connect x02; demo_login 1 xb2].

Lemma present_is_Some {A} (o : option A) :
  match o with Some _ => true | None => false end = true -> is_Some o.
Proof. by destruct o; [eexists|]. Qed.

Lemma absent_None {A} (o : option A) :
  match o with Some _ => false | None => true end = true -> o = None.
Proof. by destruct o. Qed.

(** A client without a source of its own may share a file, and the file is
    then listed; but when another client that offered the same file leaves, the
    file vanishes, though the first client still offers it. *)
Theorem shared_file_vanishes :
  let before := demo_run demo_portless_offer in
  let after := demo_run (demo_portless_offer ++
                 [demo_offer 1 [demo_entry x77 0 0]; EvClose 1]) in
  is_Some (sv_dynamicFiles before !! demo_key) /\
  is_Some (cs_offeredFiles (session before 0) !! demo_key) /\
  sv_dynamicFiles after !! demo_key = None /\
  is_Some (cs_offeredFiles (session after 0) !! demo_key).
Proof.
  cbv zeta. split; [|split; [|split]].
  - apply present_is_Some. vm_compute. reflexivity.
  - apply present_is_Some. vm_compute. reflexivity.
  - apply absent_None. vm_compute. reflexivity.
  - apply present_is_Some. vm_compute. reflexivity.
Qed.

(** ** Witnesses *)

Lemma second_login_leaks_witness :
  let s' := (run_event (EvClose 0)
               (run_event (demo_login 0 xa1) (demo_run demo_two)).2).2 in
  0%nat ∉ sv_open s' /\ findClient s' demo_id = Some 0%nat /\
  is_Some (source_of (sv_dynamicFiles s') demo_key demo_id).
Proof.
  destruct (second_login_leaks (demo_run demo_two) 0 (demo_login_body xa1) 30
    (replicate 16 xa1) (0, 4662) []) as (Ho & Hf & Hd).
  - exact (reach_ok _ _ _ demo_initial demo_two_reach).
  - apply memory_b_ok. vm_compute. done.
  - apply (bool_decide_unpack _). vm_compute. done.
  - vm_compute. discriminate.
  - vm_compute. reflexivity.
  - assert (is_Some (source_of (sv_dynamicFiles (demo_run demo_two)) demo_key demo_id)) as Hi
      by (apply present_is_Some; vm_compute; reflexivity).
    exact (conj Ho (conj Hf (eq_ind_r is_Some Hi (Hd demo_key)))).
Defined.

(** Two connections from one address, not logged in yet. *)
Definition demo_pair : list event := [demo_connect x01; demo_connect x01].

Lemma login_race_shares_id_witness :
  let s' := (login_race 0 1 (replicate 16 xa1) (replicate 16 xb2) (0, 4662) (0, 4663) [] []
               (demo_run demo_pair)).2 in
  cs_assignedID (session s' 0) = demo_id /\ cs_assignedID (session s' 1) = demo_id /\
  findClient s' demo_id = Some 1%nat.
Proof.
  destruct (login_race_shares_id (demo_run demo_pair) 0 1 (replicate 16 xa1) (replicate 16 xb2)
    (0, 4662) (0, 4663) [] [] (Some (demo_addr x01))) as (H1 & H2 & H3 & _).
  - done.
  - vm_compute. reflexivity.
  - vm_compute. reflexivity.
  - vm_compute. discriminate.
  - vm_compute. reflexivity.
  - split; [exact H1|]. split; [exact H2|exact H3].
Defined.
