(* ===== verification/Udp.v ===== *)
(** * The UDP service (ed2ksrv/server_udp.go, ed2ksrv/udp_search.go)

    Status and description requests, global searches and source lookups,
    callbacks, and the exchange of server lists with peer servers. Datagrams are
    handled one at a time by the read loop; searches go through a bounded queue
    and are executed later by the workers, so a worker step is an event of its
    own. *)

From S2P Require Import StateErr.
From S2P Require Import Prelude GoStrings GoNet Ed2kLib Ed2kRef Ed2kWire FileRecord Search.
From S2P Require Import Catalog Config Sources PeerServers Limiter Text Frames Server.

Local Open Scope Z_scope.
Local Open Scope srv_scope.

(** ** Opcodes *)

Definition opGlobServStatReq : byte := x96.
Definition opGlobServStatRes : byte := x97.
Definition globServStatResSize : Z := 24.
Definition udpOpGlobSearchReq3 : byte := x90.
Definition udpOpGlobSearchReq2 : byte := x92.
Definition udpOpGlobGetSources2 : byte := x94.
Definition udpOpGlobSearchReq : byte := x98.
Definition udpOpGlobSearchRes : byte := x99.
Definition udpOpGlobGetSources : byte := x9a.
Definition udpOpGlobFoundSources : byte := x9b.
Definition udpOpServerDescReq : byte := xa2.
Definition udpOpServerDescRes : byte := xa3.
Definition udpOpGlobCallbackReq : byte := x9c.
Definition udpOpServerListReq : byte := xa0.
Definition udpOpServerListReq2 : byte := xa4.

(** ** State *)

Record udpCallbackRequest := mkCallback {
  cb_requesterIP : Z;
  cb_requesterPort : Z;
  cb_targetID : Z
}.

Record udpSearchJob := mkJob {
  job_addr : NetAddr;
  job_query : SearchQuery;
  job_packMany : bool
}.

(** The server with its UDP fields: whether [udpConn] is open, the limiter, the
    search queue ([None] before the workers start), and the datagrams that were
    written. *)
Record UdpService `{Ed2kLib} := mkUdp {
  us_server : Server;
  us_conn : bool;
  us_limiter : option udpLimiter;
  us_queue : option (list udpSearchJob);
  us_out : list (NetAddr * bytes)
}.

(** [udpDatagramWriter]. *)
Record udpDatagramWriter := mkWriter {
  uw_addr : NetAddr;
  uw_op : byte;
  uw_max : Z;
  uw_buf : bytes
}.

Definition U `{Ed2kLib} (A : Type) := ST UdpService srvErr A.

Section udp.
Context {L : Ed2kLib} {W : Ed2kWire} {T : UnicodeTables} {MI : MapIter} {D : TextDecoder}.
Context {ZL : Zlib} {PC : PacketCombiner} {WD : World}.

Definition set_us_server (s : Server) (u : UdpService) : UdpService :=
  mkUdp _ s (us_conn u) (us_limiter u) (us_queue u) (us_out u).
Definition set_us_conn (open : bool) (u : UdpService) : UdpService :=
  mkUdp _ (us_server u) open (us_limiter u) (us_queue u) (us_out u).
Definition set_us_limiter (l : option udpLimiter) (u : UdpService) : UdpService :=
  mkUdp _ (us_server u) (us_conn u) l (us_queue u) (us_out u).
Definition set_us_queue (q : option (list udpSearchJob)) (u : UdpService) : UdpService :=
  mkUdp _ (us_server u) (us_conn u) (us_limiter u) q (us_out u).
Definition set_us_out (out : list (NetAddr * bytes)) (u : UdpService) : UdpService :=
  mkUdp _ (us_server u) (us_conn u) (us_limiter u) (us_queue u) out.

(** An operation of the server core. *)
Definition srv {A} (m : M A) : U A := zoom us_server set_us_server m.
Definition sgets {A} (f : Server -> A) : U A := gets (fun u => f (us_server u)).

(** ** Writing *)

(** The outcome of [pc.WriteToUDP]. *)
Definition udp_write : M bool := fun s =>
  (Ok (write_ok (sv_writes s)), set_sv_writes (S (sv_writes s)) s).

Definition writeUDP (addr : NetAddr) (op : byte) (datagram : bytes) : U unit :=
  do! conn := gets us_conn in
  if negb conn then ret tt else
  modify (fun u => set_us_out (us_out u ++ [(addr, datagram)]) u) ;;;
  do! ok := srv udp_write in
  if negb ok then ret tt else
  srv (bump OutboundPackets 1 ;;; bump OutboundBytes (len datagram)).

Definition newUDPDatagramWriter (addr : NetAddr) (op : byte) : U udpDatagramWriter :=
  do! cfg := sgets sv_cfg in
  let max := udp_MaxPayloadBytes (UDP cfg) in
  ret (mkWriter addr op (if max <=? 0 then 1300 else max) []).

Definition writer_flush (w : udpDatagramWriter) : U udpDatagramWriter :=
  if len (uw_buf w) =? 0 then ret w else
  writeUDP (uw_addr w) (uw_op w) (uw_buf w) ;;;
  ret (mkWriter (uw_addr w) (uw_op w) (uw_max w) []).

Definition writer_add (w : udpDatagramWriter) (block : bytes) : U udpDatagramWriter :=
  do! w := if (0 <? len (uw_buf w)) && (uw_max w <? to_int (len (uw_buf w) + len block))
           then writer_flush w else ret w in
  ret (mkWriter (uw_addr w) (uw_op w) (uw_max w) (uw_buf w ++ block)).

(** ** Status and description *)

(** [binary.LittleEndian.PutUint32] of a converted value. *)
Definition put32 (z : Z) : bytes := le_encode 4 (to_uint32 z).

Definition buildGlobServStatRes (s : Server) (challenge : Z) : bytes :=
  [ed2kUDPHeader; opGlobServStatRes] ++
  put32 challenge ++ put32 (clientCount s) ++ put32 (currentFilesCount s) ++
  put32 (MaxUsersAdvertised (sv_cfg s)) ++ put32 (SoftFilesLimit (sv_cfg s)) ++
  put32 (HardFilesLimit (sv_cfg s)).

(** A 16-bit length, low byte first, and the bytes. *)
Definition put_text (text : bytes) : bytes :=
  [byte_of_Z (len text); byte_of_Z (Z.shiftr (len text) 8)] ++ text.

Definition buildServerDescRes (s : Server) : bytes :=
  [ed2kUDPHeader; udpOpServerDescRes] ++ put_text (ServerName (sv_cfg s)) ++
  put_text (ServerDescription (sv_cfg s)).

(** ** Callbacks *)

Definition parseUDPCallback (body : bytes) : option udpCallbackRequest :=
  if len body <? 10 then None
  else Some (mkCallback (to_int32 (le_decode (take 4 body)))
               (le_decode (take 2 (drop 4 body)))
               (to_int32 (le_decode (take 4 (drop 6 body))))).

(** False when the request is malformed or its source is forged. *)
Definition handleUDPCallback (addr : NetAddr) (body : bytes) : U bool :=
  match parseUDPCallback body with
  | None => ret false
  | Some cb =>
    match To4 (addr_IP addr) with
    | None => ret false
    | Some v4 =>
      if negb (to_int32 (le_decode (take 4 v4)) =? cb_requesterIP cb) then ret false else
      do! ok := srv (allow_callback (IP_String (addr_IP addr))) in
      if negb ok then srv (bump CallbackRateLimited 1) ;;; ret true else
      do! target := sgets (fun s => findClient s (cb_targetID cb)) in
      match target with
      | None => ret true
      | Some target =>
        let origin := NewEndpoint (cb_requesterIP cb) (cb_requesterPort cb) in
        do! _ := srv (try_ (send target (PktCallbackRequestIncoming origin))) in
        srv (bump CallbackRequests 1) ;;;
        ret true
      end
    end
  end.

(** ** Searches *)

(** One tag; its value is dropped. *)
Definition skipED2KTag (reader : bytes) : option bytes := SimpleTag_Get reader.

(** The tag block of a REQ3 search: the unread rest, or a decoding error. *)
Fixpoint skip_tags (count : nat) (reader : bytes) : option bytes :=
  match count with
  | O => Some reader
  | S count' => match skipED2KTag reader with
                | Some reader => skip_tags count' reader
                | None => None
                end
  end.

(** Where the search tree starts. *)
Definition search_tree (opcode : byte) (body : bytes) : option bytes :=
  if byte_eqb opcode udpOpGlobSearchReq3 then
    if len body <? 4 then None
    else skip_tags (Z.to_nat (le_decode (take 4 body))) (drop 4 body)
  else Some body.

(** [select] on the queue: a full queue, or none, drops the job. *)
Definition enqueue (job : udpSearchJob) : U unit :=
  do! queue := gets us_queue in
  do! cfg := sgets sv_cfg in
  match queue with
  | Some jobs =>
    if len jobs <? udp_SearchQueueSize (UDP cfg) then
      modify (set_us_queue (Some (jobs ++ [job]))) ;;;
      srv (bump UDPSearchRequests 1)
    else srv (bump UDPDropped 1)
  | None => srv (bump UDPDropped 1)
  end.

Definition handleUDPSearchRequest (addr : NetAddr) (opcode : byte) (body : bytes) : U bool :=
  do! cfg := sgets sv_cfg in
  if negb (udp_SearchEnabled (UDP cfg)) then ret true else
  match search_tree opcode body with
  | None => ret false
  | Some tree =>
    match ParseSearchRequestLimited tree (udp_MaxASTDepth (UDP cfg)) with
    | Err _ => ret false
    | Ok query =>
      enqueue (mkJob addr query (negb (byte_eqb opcode udpOpGlobSearchReq))) ;;;
      ret true
    end
  end.

(** The number of results a searcher gets. *)
Definition search_limit (cfg : UDPConfig) (packMany : bool) : Z :=
  let limit := udp_MaxResults cfg in
  let limit := if negb packMany && (8 <? limit) then limit / 8 else limit in
  if limit <? 1 then 1 else limit.

(** A header and one entry; [None] is an encoding error. *)
Definition result_block (e : SharedFileEntry) : option bytes :=
  option_map (fun raw => ed2kUDPHeader :: udpOpGlobSearchRes :: raw) (Entry_Put e).

(** [writer.add] for every block. *)
Fixpoint add_blocks (w : udpDatagramWriter) (blocks : list bytes) : U udpDatagramWriter :=
  match blocks with
  | [] => ret w
  | block :: blocks' => do! w := writer_add w block in add_blocks w blocks'
  end.

Definition runUDPSearch (job : udpSearchJob) : U unit :=
  do! found := sgets (fun s => searchAll s (job_query job)) in
  do! cfg := sgets sv_cfg in
  match found with
  | None => fail Panic
  | Some results =>
    let limit := search_limit (UDP cfg) (job_packMany job) in
    let results := if limit <? len results then take (Z.to_nat limit) results else results in
    do! w := newUDPDatagramWriter (job_addr job) udpOpGlobSearchRes in
    do! w := add_blocks w (omap result_block results) in
    do! _ := writer_flush w in
    srv (bump SearchResultEntries (len results))
  end.

(** ** Source lookups *)

(** The file size behind a hash: 4 bytes, and 8 more when these are zero. *)
Definition skip_size (withSize : bool) (reader : bytes) : option bytes :=
  if withSize then
    match read_le 4 reader with
    | None => None
    | Some (size32, reader) =>
      if size32 =? 0 then option_map snd (read_le 8 reader) else Some reader
    end
  else Some reader.

(** The answer for one file; [None] when there is none or it cannot be encoded. *)
Definition sources_block (s : Server) (hash : Hash) : option bytes :=
  let sources := orderAndCapSources (sourcesAll s hash false) (MaxSourcesPerReply (sv_cfg s)) in
  if len sources =? 0 then None
  else option_map (fun raw => ed2kUDPHeader :: udpOpGlobFoundSources :: raw)
         (FoundFileSources_Put hash
            (map (fun src => NewEndpoint (fs_ClientID src) (fs_Port src)) sources)).

(** The loop of [handleUDPGetSources]: the writer and the number of requested
    files, or [None] for a malformed request. A round reads at least 16 bytes. *)
Fixpoint sources_loop (fuel : nat) (withSize : bool) (reader : bytes) (w : udpDatagramWriter)
    (requested : Z) : U (option (udpDatagramWriter * Z)) :=
  match fuel with
  | O => fail Panic
  | S fuel' =>
    if len reader <? 16 then ret (Some (w, requested)) else
    match ReadHash reader with
    | None => ret None
    | Some (hash, reader) =>
      match skip_size withSize reader with
      | None => ret None
      | Some reader =>
        let requested := to_int (requested + 1) in
        do! block := sgets (fun s => sources_block s hash) in
        do! w := match block with
                 | None => ret w
                 | Some block => writer_add w block
                 end in
        sources_loop fuel' withSize reader w requested
      end
    end
  end.

Definition handleUDPGetSources (addr : NetAddr) (body : bytes) (withSize : bool) : U bool :=
  do! cfg := sgets sv_cfg in
  if negb (udp_SourcesEnabled (UDP cfg)) then ret true else
  do! w := newUDPDatagramWriter addr udpOpGlobFoundSources in
  do! r := sources_loop (S (length body)) withSize body w 0 in
  match r with
  | None => ret false
  | Some (w, requested) =>
    do! _ := writer_flush w in
    if requested =? 0 then ret false else
    srv (bump UDPSourceRequests 1) ;;;
    ret true
  end.

(** ** Peers *)

(** [s.peers.markSeen]. *)
Definition peers_markSeen (addr : NetAddr) : M bool :=
  do! r := gets sv_peers in
  match pr_peers r !! NetAddr_String addr with
  | None => ret false
  | Some _ =>
    do! t := now in
    let '(r', ok) := markSeen r t addr in
    modify (set_sv_peers r') ;;;
    ret ok
  end.

(** [s.peers.add] for every address: how many are new. *)
Fixpoint learn_peers (addrs : list NetAddr) (learned : Z) : M Z :=
  match addrs with
  | [] => ret learned
  | p :: addrs' =>
    do! r := gets sv_peers in
    let '(r', ok) := registry_add r p in
    modify (set_sv_peers r') ;;;
    learn_peers addrs' (if ok then to_int (learned + 1) else learned)
  end.

Definition handleServerListRes (addr : NetAddr) (body : bytes) : M unit :=
  do! known := peers_markSeen addr in
  if negb known then ret tt else
  do! learned := learn_peers (parseServerListBody body) 0 in
  if 0 <? learned then bump PeersLearned learned else ret tt.

(** The pings of one round; [None] of the address list is a nil dereference. *)
Fixpoint ping_all (addrs : list NetAddr) (req : bytes) : U unit :=
  match addrs with
  | [] => ret tt
  | addr :: addrs' => writeUDP addr opGlobServStatReq req ;;; ping_all addrs' req
  end.

Definition sendPeerPings : U unit :=
  do! t := srv now in
  let req := [ed2kUDPHeader; opGlobServStatReq] ++ put32 t in
  do! addrs := sgets (fun s => registry_addrs (sv_peers s)) in
  match addrs with
  | None => fail Panic
  | Some addrs => ping_all addrs req
  end.

(** What wakes [pingPeers]: the ticker, or the end of the server. *)
Inductive ping_wake := WakeTick | WakeClosed.

Fixpoint ping_rounds (wakes : list ping_wake) : U unit :=
  match wakes with
  | [] | WakeClosed :: _ => ret tt
  | WakeTick :: wakes => sendPeerPings ;;; ping_rounds wakes
  end.

Definition pingPeers (wakes : list ping_wake) : U unit := sendPeerPings ;;; ping_rounds wakes.

(** ** Dispatch *)

(** [s.udpLimiter.allow(ip)]; the clock is read only by a limiter that exists. *)
Definition udp_allow (ip : bytes) : U bool :=
  do! limiter := gets us_limiter in
  match limiter with
  | None => ret true
  | Some l =>
    do! t := srv now in
    let '(l', ok) := allow l t ip in
    modify (set_us_limiter (Some l')) ;;;
    ret ok
  end.

(** The switch over the opcode: [None] is an unsupported one, false a malformed
    request. *)
Definition udp_request (addr : NetAddr) (opcode : byte) (body : bytes) : U (option bool) :=
  if byte_eqb opcode opGlobServStatReq then
    if len body <? 4 then ret (Some false) else
    let challenge := le_decode (take 4 body) in
    do! reply := sgets (fun s => buildGlobServStatRes s challenge) in
    writeUDP addr opGlobServStatRes reply ;;; ret (Some true)
  else if byte_eqb opcode udpOpGlobSearchReq || byte_eqb opcode udpOpGlobSearchReq2
          || byte_eqb opcode udpOpGlobSearchReq3 then
    do! ok := handleUDPSearchRequest addr opcode body in ret (Some ok)
  else if byte_eqb opcode udpOpGlobGetSources then
    do! ok := handleUDPGetSources addr body false in ret (Some ok)
  else if byte_eqb opcode udpOpGlobGetSources2 then
    do! ok := handleUDPGetSources addr body true in ret (Some ok)
  else if byte_eqb opcode udpOpServerDescReq then
    do! reply := sgets buildServerDescRes in
    writeUDP addr udpOpServerDescRes reply ;;; ret (Some true)
  else if byte_eqb opcode udpOpGlobCallbackReq then
    do! ok := handleUDPCallback addr body in ret (Some ok)
  else if byte_eqb opcode opGlobServStatRes then
    do! known := srv (peers_markSeen addr) in
    (if known then srv (bump PeerStatusReplies 1) else ret tt) ;;; ret (Some true)
  else if byte_eqb opcode udpOpServerListReq || byte_eqb opcode udpOpServerListReq2 then
    do! reply := sgets (fun s => buildUDPServerListReply (sv_peers s)) in
    match reply with
    | None => fail Panic
    | Some reply => writeUDP addr udpOpServerListRes reply ;;; ret (Some true)
    end
  else if byte_eqb opcode udpOpServerListRes then
    srv (handleServerListRes addr body) ;;; ret (Some true)
  else ret None.

(** [dispatchUDP] on a datagram [0xe3 :: opcode :: body]. *)
Definition dispatchUDP (addr : NetAddr) (opcode : byte) (body : bytes) : U unit :=
  srv (bump InboundPackets 1 ;;; bump InboundBytes (2 + len body)) ;;;
  do! ok := udp_allow (IP_String (addr_IP addr)) in
  if negb ok then srv (bump UDPRateLimited 1) else
  do! r := udp_request addr opcode body in
  match r with
  | Some true => ret tt
  | _ => srv (bump UDPMalformed 1)
  end.

(** One round of [serveUDP]: the receive buffer holds 2048 bytes. *)
Definition receiveUDP (addr : NetAddr) (datagram : bytes) : U unit :=
  match take 2048 datagram with
  | header :: opcode :: body =>
    if byte_eqb header ed2kUDPHeader then dispatchUDP addr opcode body else ret tt
  | _ => ret tt
  end.

(** One round of a search worker. *)
Definition udpSearchWorker : U unit :=
  do! queue := gets us_queue in
  match queue with
  | Some (job :: jobs) =>
    modify (set_us_queue (Some jobs)) ;;;
    runUDPSearch job
  | _ => ret tt
  end.

(** ** Start *)

(** The UDP port derived from the TCP port; [None] when there is none. *)
Definition udp_port (cfg : Config) (tcpPort : Z) : option Z :=
  let off := if UDPPortOffset cfg <=? 0 then 4 else UDPPortOffset cfg in
  let port := to_int (tcpPort + off) in
  if (port <=? 0) || (65535 <? port) then None else Some port.

(** The workers themselves are the events [UeWorker]: one job of the queue each. *)
Definition startUDPWorkersLocked : U unit :=
  do! queue := gets us_queue in
  match queue with
  | Some _ => ret tt
  | None =>
    do! cfg := sgets sv_cfg in
    modify (set_us_limiter (Some (newUDPLimiter (udp_PerIPPacketsPerSecond (UDP cfg))))) ;;;
    modify (set_us_queue (Some []))
  end.

(** [maybeStartServerUDP]; [listening] is whether the socket can be bound. *)
Definition maybeStartServerUDP (listening : bool) : U unit :=
  do! cfg := sgets sv_cfg in
  if negb (ServerUDP cfg) then ret tt else
  do! conn := gets us_conn in
  do! listener := sgets sv_listener in
  match conn, listener with
  | false, Some tcpPort =>
    match udp_port cfg tcpPort with
    | None => ret tt
    | Some _ =>
      if negb listening then ret tt else
      modify (set_us_conn true) ;;;
      startUDPWorkersLocked
    end
  | _, _ => ret tt
  end.

(** ** The whole server as a transition system *)

Definition set_sv_listener (x : option Z) (s : Server) : Server :=
  mkServer _ (sv_cfg s) (sv_catalog s) (sv_connLimiter s) (sv_callbackLimiter s) (sv_peers s) x
    (sv_sessions s) (sv_conns s) (sv_open s) (sv_clients s) (sv_dynamicFiles s) (sv_auditLog s)
    (sv_saved s) (sv_nextID s) (sv_stats s) (sv_sent s) (sv_ticks s) (sv_writes s)
    (sv_startedAt s).

Inductive udp_event :=
| UeServer (ev : event)
| UeServe (port : Z) (listening : bool)
| UeDatagram (addr : NetAddr) (datagram : bytes)
| UeWorker
| UePing.

Definition run_udp_event (ev : udp_event) : U unit :=
  match ev with
  | UeServer ev => srv (run_event ev)
  | UeServe port listening =>
    srv (modify (set_sv_listener (Some port))) ;;;
    maybeStartServerUDP listening
  | UeDatagram addr datagram =>
    do! conn := gets us_conn in
    if conn then receiveUDP addr datagram else ret tt
  | UeWorker => udpSearchWorker
  | UePing => sendPeerPings
  end.

(** A server before [Serve]. *)
Definition new_service (s : Server) : UdpService := mkUdp _ s false None None [].
End udp.
