(* ===== verification/UdpFacts.v ===== *)
(** * Properties of the UDP service

    What handling one datagram changes, and to whom it answers; the packing of
    answers into datagrams; the exact reply to a source lookup; and the
    invariants of a server that serves TCP and UDP. *)

From S2P Require Import StateErr.
From S2P Require Import Prelude GoStrings GoNet Ed2kLib Ed2kRef Ed2kWire FileRecord Search.
From S2P Require Import SearchFacts Catalog CatalogFacts Config Sources PeerServers Limiter.
From S2P Require Import Text Frames Server ServerFacts ServerInv ServerDemo ServerProps.
From S2P Require Import ServerOutput Udp.

Local Open Scope Z_scope.
Local Open Scope srv_scope.

(** ** Steps *)

(** A callback notice on behalf of an address in [to]. *)
Definition relayed `{Ed2kLib} (to : NetAddr -> Prop) (p : nat * sent) : Prop :=
  exists a v4 target port, to a /\ To4 (addr_IP a) = Some v4 /\
    p = (target, SentPacket (PktCallbackRequestIncoming
                               (NewEndpoint (to_int32 (le_decode (take 4 v4))) port))).

(** The server core during UDP work: clients, shared files and catalog stay,
    and only callback notices go out over TCP. *)
Record srv_step `{Ed2kLib} (to : NetAddr -> Prop) (s s' : Server) : Prop := {
  ss_core : same_core s s';
  ss_pages : pages_ok s -> pages_ok s';
  ss_peers : registry_ok (sv_peers s) -> registry_ok (sv_peers s');
  ss_audit : sv_auditLog s' = sv_auditLog s;
  ss_sent : exists l, sv_sent s' = sv_sent s ++ l /\ Forall (relayed to) l
}.

(** The queue takes jobs of senders in [to], up to its size. *)
Definition queue_step (to : NetAddr -> Prop) (cap : Z) (q q' : option (list udpSearchJob)) : Prop :=
  match q with
  | None => q' = None
  | Some jobs => exists l, q' = Some (jobs ++ l) /\ Forall (fun j => to (job_addr j)) l /\
                           (len jobs <= cap -> len (jobs ++ l) <= cap)
  end.

(** The service: datagrams go only to addresses in [to]. *)
Record udp_step `{Ed2kLib} (to : NetAddr -> Prop) (u u' : UdpService) : Prop := {
  st_server : srv_step to (us_server u) (us_server u');
  st_conn : us_conn u' = us_conn u;
  st_out : exists l, us_out u' = us_out u ++ l /\ Forall (fun p => to p.1) l;
  st_queue : queue_step to (udp_SearchQueueSize (UDP (sv_cfg (us_server u))))
               (us_queue u) (us_queue u')
}.

(** What the handlers need. *)
Record srv_ready `{Ed2kLib} `{UnicodeTables} (s : Server) : Prop := {
  ry_search : search_ready s;
  ry_pages : pages_ok s;
  ry_peers : registry_ok (sv_peers s)
}.

Section steps.
Context {L : Ed2kLib} {W : Ed2kWire} {T : UnicodeTables} {MI : MapIter} {ML : MapIterLaws}.
Context {D : TextDecoder} {ZL : Zlib} {PC : PacketCombiner} {WD : World}.
Context (to : NetAddr -> Prop).

#[global] Instance srv_step_preorder : PreOrder (srv_step to).
Proof.
  split.
  - intros s. constructor; try done. exists []. by rewrite app_nil_r.
  - intros s1 s2 s3 [c1 p1 r1 a1 (l1 & e1 & f1)] [c2 p2 r2 a2 (l2 & e2 & f2)]. constructor; auto.
    + by etransitivity.
    + congruence.
    + exists (l1 ++ l2). rewrite e2, e1, app_assoc. split; [done|]. by apply Forall_app.
Qed.

Lemma queue_step_refl cap q : queue_step to cap q q.
Proof. destruct q as [jobs|]; [|done]. exists []. by rewrite app_nil_r. Qed.

#[global] Instance udp_step_preorder : PreOrder (udp_step to).
Proof.
  split.
  - intros u. constructor; [reflexivity|done| |apply queue_step_refl].
    exists []. by rewrite app_nil_r.
  - intros u1 u2 u3 [s1 c1 (l1 & e1 & f1) q1] [s2 c2 (l2 & e2 & f2) q2].
    rewrite (sc_cfg _ _ (ss_core _ _ _ s1)) in q2. constructor.
    + by etransitivity.
    + congruence.
    + exists (l1 ++ l2). rewrite e2, e1, app_assoc. split; [done|]. by apply Forall_app.
    + unfold queue_step in *. destruct (us_queue u1) as [jobs|]; [|by rewrite q1 in q2].
      destruct q1 as (m1 & Hq1 & g1 & b1). rewrite Hq1 in q2.
      destruct q2 as (m2 & Hq2 & g2 & b2). exists (m1 ++ m2). rewrite Hq2, app_assoc.
      split; [done|]. split; [by apply Forall_app|]. intros Hb. by apply b2, b1.
Qed.

Definition udp_ready (u : UdpService) : Prop := srv_ready (us_server u).

Lemma srv_ready_step s s' : srv_step to s s' -> srv_ready s -> srv_ready s'.
Proof.
  intros [Hc Hp Hr _ _] [Hs Hpg Hpe]. constructor; [|by apply Hp|by apply Hr].
  by eapply core_pred_ready.
Qed.

Lemma udp_ready_step u u' : udp_step to u u' -> udp_ready u -> udp_ready u'.
Proof. intros [Hs _ _ _]. by apply srv_ready_step. Qed.

(** Server operations and service operations that only make such steps. *)
Definition sruns {A} (m : M A) : Prop := runs srv_ready (srv_step to) Panic m.
Definition uruns {A} (m : U A) : Prop := runs udp_ready (udp_step to) Panic m.

Lemma sruns_bind {A B} (m : M A) (k : A -> M B) :
  sruns m -> (forall a, sruns (k a)) -> sruns (bind m k).
Proof. apply runs_bind; [apply _|apply srv_ready_step]. Qed.

Lemma uruns_bind {A B} (m : U A) (k : A -> U B) :
  uruns m -> (forall a, uruns (k a)) -> uruns (bind m k).
Proof. apply runs_bind; [apply _|apply udp_ready_step]. Qed.

Lemma uruns_srv {A} (m : M A) : sruns m -> uruns (srv m).
Proof.
  apply runs_zoom; [done|]. intros u s' _ Hs. constructor; [done|done| |apply queue_step_refl].
  exists []. by rewrite app_nil_r.
Qed.

(** A change of counters, clocks or limiters. *)
Lemma srv_step_plain s s' :
  same_core s s' -> (forall sid, session s' sid = session s sid) -> sv_peers s' = sv_peers s ->
  sv_sent s' = sv_sent s -> sv_auditLog s' = sv_auditLog s -> srv_step to s s'.
Proof.
  intros Hc Hs Hp Hse Ha. constructor; [done| | |done|].
  - intros H sid. rewrite Hs, (sc_cfg _ _ Hc). apply H.
  - by rewrite Hp.
  - exists []. by rewrite app_nil_r.
Qed.

Lemma sruns_ret {A} (a : A) : sruns (ret a).
Proof. apply runs_ret, _. Qed.
Lemma uruns_ret {A} (a : A) : uruns (ret a).
Proof. apply runs_ret, _. Qed.
Lemma sruns_gets {A} (f : Server -> A) : sruns (gets f).
Proof. apply runs_gets, _. Qed.
Lemma uruns_gets {A} (f : UdpService -> A) : uruns (gets f).
Proof. apply runs_gets, _. Qed.
Lemma uruns_sgets {A} (f : Server -> A) : uruns (sgets f).
Proof. apply runs_gets, _. Qed.

Lemma sruns_now : sruns now.
Proof. intros s _. split; [|done]. by apply srv_step_plain. Qed.
Lemma sruns_bump k n : sruns (bump k n).
Proof. intros s _. split; [|done]. by apply srv_step_plain. Qed.
Lemma sruns_udp_write : sruns udp_write.
Proof. intros s _. split; [|done]. by apply srv_step_plain. Qed.
Lemma sruns_set_callbackLimiter l : sruns (modify (set_sv_callbackLimiter l)).
Proof. intros s _. split; [|done]. by apply srv_step_plain. Qed.
Lemma uruns_set_limiter l : uruns (modify (set_us_limiter l)).
Proof.
  intros u _. split; [|done]. constructor; [reflexivity|done| |apply queue_step_refl].
  exists []. by rewrite app_nil_r.
Qed.

Lemma sruns_set_peers r : registry_ok r -> sruns (modify (set_sv_peers r)).
Proof.
  intros Hr s Hs. split; [|done]. constructor; [by constructor|done|done|done|].
  exists []. by rewrite app_nil_r.
Qed.

(** A packet to a session is one the sender is entitled to. *)
Lemma sruns_try_send target p :
  relayed to (target, SentPacket p) -> sruns (try_ (send target p)).
Proof.
  intros Hp s [Hs Hpg Hpe].
  destruct (quiet_try (fun _ => True) _ (quiet_send (fun _ => True) target p core_pred_True)
              s I Hpg) as (Hc & Hp' & Hn).
  split; [|done]. unfold try_, send in *. destruct (Pack p) as [raw|]; cbn [of_option] in *.
  2: { cbn [fst snd]. reflexivity. }
  cbv beta iota zeta delta [ret bind noteOutbound now modify_session modify bump conn_write] in *.
  destruct (write_ok _); cbn [fst snd] in *; (constructor; [done|done|done|done|]);
    (eexists; split; [reflexivity|by constructor]).
Qed.
End steps.

Create HintDb udp.
#[export] Hint Resolve sruns_ret uruns_ret sruns_gets uruns_gets uruns_sgets sruns_now sruns_bump
  sruns_udp_write sruns_set_callbackLimiter uruns_set_limiter uruns_srv : udp.

(** Walk through a handler. *)
Ltac udp_step_tac :=
  first
    [ solve [auto 2 with udp]
    | match goal with
      | |- sruns _ (bind _ _) => apply sruns_bind; [|intros ?]
      | |- uruns _ (bind _ _) => apply uruns_bind; [|intros ?]
      | |- uruns _ (srv _) => apply uruns_srv
      | |- context [if ?b then _ else _] => destruct b
      | |- _ _ (match ?x with _ => _ end) => destruct x
      end ].
Ltac udp_auto := cbv zeta; repeat (udp_step_tac; cbv zeta beta).

Section handlers.
Context {L : Ed2kLib} {W : Ed2kWire} {WL : Ed2kWireLaws} {T : UnicodeTables}.
Context {MI : MapIter} {ML : MapIterLaws}.
Context {D : TextDecoder} {ZL : Zlib} {PC : PacketCombiner} {WD : World}.
Context (to : NetAddr -> Prop).

Lemma uruns_writeUDP addr op datagram : to addr -> uruns to (writeUDP addr op datagram).
Proof.
  intros Hto. unfold writeUDP. apply uruns_bind; [auto with udp|intros conn].
  destruct (negb conn); [auto with udp|]. apply uruns_bind; [|intros _; udp_auto].
  intros u _. split; [|done]. constructor; [reflexivity|done| |apply queue_step_refl].
  eexists. split; [reflexivity|]. by constructor.
Qed.

(** *** Writers *)

Lemma writer_flush_addr w u w' u' : writer_flush w u = (Ok w', u') -> uw_addr w' = uw_addr w.
Proof.
  unfold writer_flush. destruct (_ =? 0); [by intros [= <- _]|]. unfold bind.
  destruct (writeUDP _ _ _ u) as [[[]|e] u1]; by intros [= <- _].
Qed.

Lemma writer_add_addr w block u w' u' : writer_add w block u = (Ok w', u') -> uw_addr w' = uw_addr w.
Proof.
  unfold writer_add. destruct (_ && _).
  - unfold bind. destruct (writer_flush w u) as [[w1|e] u1] eqn:E; [|done].
    apply writer_flush_addr in E. by intros [= <- _].
  - by intros [= <- _].
Qed.

Lemma uruns_flush w : to (uw_addr w) -> uruns to (writer_flush w).
Proof.
  intros Hto. unfold writer_flush. destruct (_ =? 0); [auto with udp|].
  apply uruns_bind; [by apply uruns_writeUDP|intros _; auto with udp].
Qed.

Lemma uruns_add w block : to (uw_addr w) -> uruns to (writer_add w block).
Proof.
  intros Hto. unfold writer_add. apply uruns_bind; [|intros w'; auto with udp].
  destruct (_ && _); [by apply uruns_flush|auto with udp].
Qed.

Lemma uruns_bind_result {A B} (m : U A) (k : A -> U B) :
  uruns to m -> (forall u a u', m u = (Ok a, u') -> uruns to (k a)) -> uruns to (bind m k).
Proof. apply runs_bind_result; [apply _|apply udp_ready_step]. Qed.

Lemma uruns_add_blocks blocks w k :
  to (uw_addr w) -> (forall w', to (uw_addr w') -> uruns to (k w')) ->
  uruns to (bind (add_blocks w blocks) k : U unit).
Proof.
  intros Hto Hk. revert w Hto; induction blocks as [|block blocks IH]; intros w Hto.
  { intros u. apply (Hk w Hto u). }
  cbn [add_blocks]. intros u Hu. rewrite bind_assoc. revert u Hu.
  apply uruns_bind_result; [by apply uruns_add|]. intros u w' u' Hw%writer_add_addr.
  apply IH. by rewrite Hw.
Qed.

(** *** Requests *)

Lemma sruns_allow_callback host : sruns to (allow_callback host).
Proof. unfold allow_callback. udp_auto. Qed.

Lemma uruns_callback addr body : to addr -> uruns to (handleUDPCallback addr body).
Proof.
  intros Hto. unfold handleUDPCallback. destruct (parseUDPCallback body) as [cb|]; [|auto with udp].
  destruct (To4 (addr_IP addr)) as [v4|] eqn:Hv4; [|auto with udp].
  destruct (Z.eqb_spec (to_int32 (le_decode (take 4 v4))) (cb_requesterIP cb)) as [Hip|];
    cbn [negb]; [|auto with udp].
  apply uruns_bind; [apply uruns_srv, sruns_allow_callback|intros ok].
  destruct (negb ok); [udp_auto|]. apply uruns_bind; [auto with udp|intros [target|]]; [|auto with udp].
  apply uruns_bind; [|intros _; udp_auto]. apply uruns_srv, sruns_try_send.
  rewrite <- Hip. by exists addr, v4, target, (cb_requesterPort cb).
Qed.

Lemma uruns_enqueue job : to (job_addr job) -> uruns to (enqueue job).
Proof.
  intros Hto. unfold enqueue. intros u Hu. rewrite bind_gets. unfold sgets. rewrite bind_gets.
  destruct (us_queue u) as [jobs|] eqn:Hq; [|by apply (uruns_srv _ _ (sruns_bump to UDPDropped 1))].
  destruct (Z.ltb_spec (len jobs) (udp_SearchQueueSize (UDP (sv_cfg (us_server u))))) as [Hlt|];
    [|by apply (uruns_srv _ _ (sruns_bump to UDPDropped 1))].
  revert u Hu Hq Hlt. intros u Hu Hq Hlt.
  set (u1 := set_us_queue (Some (jobs ++ [job])) u).
  assert (udp_step to u u1) as H1.
  { constructor; [reflexivity|done| |].
    - exists []. by rewrite app_nil_r.
    - rewrite Hq. exists [job]. split; [done|]. split; [by constructor|]. intros _.
      rewrite len_app. change (len [job]) with 1. lia. }
  rewrite (bind_ok _ _ _ tt u1) by done.
  destruct (uruns_srv _ _ (sruns_bump to UDPSearchRequests 1) u1 (udp_ready_step _ _ _ H1 Hu))
    as [H2 Hn]. split; [by etransitivity|done].
Qed.

Lemma uruns_search addr opcode body : to addr -> uruns to (handleUDPSearchRequest addr opcode body).
Proof.
  intros Hto. unfold handleUDPSearchRequest. apply uruns_bind; [auto with udp|intros cfg].
  destruct (negb _); [auto with udp|]. destruct (search_tree _ _) as [tree|]; [|auto with udp].
  destruct (ParseSearchRequestLimited _ _); [|auto with udp].
  apply uruns_bind; [by apply uruns_enqueue|intros _; auto with udp].
Qed.

Lemma new_writer_addr addr op u w u' : newUDPDatagramWriter addr op u = (Ok w, u') -> uw_addr w = addr.
Proof. by intros [= <- _]. Qed.

Lemma uruns_new_writer addr op : uruns to (newUDPDatagramWriter addr op).
Proof. unfold newUDPDatagramWriter. udp_auto. Qed.

Lemma uruns_runUDPSearch job : to (job_addr job) -> uruns to (runUDPSearch job).
Proof.
  intros Hto. unfold runUDPSearch. unfold sgets at 1. apply runs_bind_gets. intros u Hu.
  destruct (searchAll_length (us_server u) (job_query job) (ry_search _ Hu)) as (found & -> & _).
  revert u Hu. match goal with |- forall u, _ -> udp_step to u (?m u).2 /\ _ => change (uruns to m) end.
  apply uruns_bind; [auto with udp|intros cfg]. cbv zeta.
  apply uruns_bind_result; [apply uruns_new_writer|]. intros u w u' Hw%new_writer_addr.
  apply uruns_add_blocks; [by rewrite Hw|]. intros w' Hw'.
  apply uruns_bind; [by apply uruns_flush|intros _; udp_auto].
Qed.

Lemma skip_size_length withSize r r' : skip_size withSize r = Some r' -> (length r' <= length r)%nat.
Proof.
  unfold skip_size. destruct withSize; [|by intros [= ->]].
  destruct (read_le 4 r) as [[n r1]|] eqn:E; [|done]. apply read_le_length in E.
  destruct (n =? 0); [|intros [= <-]; lia].
  destruct (read_le 8 r1) as [[m r2]|] eqn:E2; [|done]. apply read_le_length in E2.
  cbn [option_map snd]. intros [= <-]. lia.
Qed.

Lemma uruns_sources_loop withSize k fuel reader w requested :
  (length reader < fuel)%nat -> to (uw_addr w) ->
  (forall r, (forall w' n, r = Some (w', n) -> to (uw_addr w')) -> uruns to (k r)) ->
  uruns to (bind (sources_loop fuel withSize reader w requested) k : U bool).
Proof using WL ML.
  intros Hf Hto Hk. revert reader w requested Hf Hto; induction fuel as [|fuel IH];
    intros reader w requested Hf Hto; [lia|]. cbn [sources_loop].
  assert (uruns to (k None)) as Hnone by (apply Hk; discriminate).
  destruct (len reader <? 16).
  { apply (Hk (Some (w, requested))). by intros ? ? [= -> ->]. }
  destruct (ReadHash reader) as [[hash r1]|] eqn:Eh; [|exact Hnone].
  apply ReadHash_rest in Eh.
  destruct (skip_size withSize r1) as [r2|] eqn:Es; [|exact Hnone].
  apply skip_size_length in Es. cbv zeta.
  intros u Hu. rewrite bind_assoc. revert u Hu.
  apply uruns_bind; [auto with udp|intros block].
  intros u Hu. rewrite bind_assoc. revert u Hu.
  apply uruns_bind_result; [destruct block; [by apply uruns_add|auto with udp]|].
  intros u w' u' Hw. apply IH; [lia|].
  destruct block; [apply writer_add_addr in Hw; by rewrite Hw|by injection Hw as -> _].
Qed.

Lemma uruns_sources addr body withSize : to addr -> uruns to (handleUDPGetSources addr body withSize).
Proof using WL ML.
  intros Hto. unfold handleUDPGetSources. apply uruns_bind; [auto with udp|intros cfg].
  destruct (negb _); [auto with udp|].
  apply uruns_bind_result; [apply uruns_new_writer|]. intros u w u' Hw%new_writer_addr.
  apply uruns_sources_loop; [lia|by rewrite Hw|]. intros [[w' n]|] Hr; [|auto with udp].
  apply uruns_bind; [apply uruns_flush; by eapply Hr|intros _; udp_auto].
Qed.
End handlers.

(** *** Peers, dispatch, workers *)

Section dispatch.
Context {L : Ed2kLib} {W : Ed2kWire} {WL : Ed2kWireLaws} {T : UnicodeTables}.
Context {MI : MapIter} {ML : MapIterLaws}.
Context {D : TextDecoder} {ZL : Zlib} {PC : PacketCombiner} {WD : World}.
Context (to : NetAddr -> Prop).

Lemma sruns_markSeen addr : sruns to (peers_markSeen addr).
Proof.
  unfold peers_markSeen. apply runs_bind_gets. intros s Hs.
  destruct (pr_peers (sv_peers s) !! NetAddr_String addr) eqn:E; [|split; [reflexivity|done]].
  unfold now at 1 2, bind at 1 3.
  pose proof (markSeen_ok (sv_peers s) (clock (sv_ticks s)) addr (ry_peers _ Hs)) as Hr.
  destruct (markSeen (sv_peers s) (clock (sv_ticks s)) addr) as [r' ok].
  unfold bind, modify, ret. cbn [fst snd] in *. split; [|done].
  constructor; [by constructor|done|done|done|]. exists []. by rewrite app_nil_r.
Qed.

Lemma sruns_learn addrs n : sruns to (learn_peers addrs n).
Proof.
  revert n; induction addrs as [|p addrs IH]; intros n; cbn [learn_peers]; [auto with udp|].
  apply runs_bind_gets. intros s Hs.
  pose proof (registry_add_ok (sv_peers s) p (ry_peers _ Hs)) as Hr.
  destruct (registry_add (sv_peers s) p) as [r' ok]. cbn [fst] in Hr. revert s Hs.
  match goal with |- forall s, srv_ready s -> srv_step to s (?m s).2 /\ _ => change (sruns to m) end.
  apply sruns_bind; [by apply sruns_set_peers|intros _; apply IH].
Qed.

Lemma sruns_serverList addr body : sruns to (handleServerListRes addr body).
Proof.
  unfold handleServerListRes. apply sruns_bind; [apply sruns_markSeen|intros known].
  destruct (negb known); [auto with udp|].
  apply sruns_bind; [apply sruns_learn|intros learned]. udp_auto.
Qed.

Lemma uruns_allow ip : uruns to (udp_allow ip).
Proof. unfold udp_allow. udp_auto. Qed.

(** A reply that needs the list of peers. *)
Lemma uruns_peers {A B} (f : peerRegistry -> option A) (k : A -> U B) :
  (forall r, registry_ok r -> is_Some (f r)) -> (forall a, uruns to (k a)) ->
  uruns to (bind (sgets (fun s => f (sv_peers s)))
              (fun r => match r with None => fail Panic | Some a => k a end)).
Proof.
  intros Hf Hk. apply runs_bind_gets. intros u Hu.
  destruct (Hf _ (ry_peers _ Hu)) as [a ->]. by apply Hk.
Qed.

Lemma uruns_request addr opcode body : to addr -> uruns to (udp_request addr opcode body).
Proof using WL ML.
  intros Hto. unfold udp_request.
  assert (forall op reply, uruns to (writeUDP addr op reply ;;; ret (Some true))) as Hreply.
  { intros op reply. apply uruns_bind; [by apply uruns_writeUDP|intros _; auto with udp]. }
  destruct (byte_eqb opcode opGlobServStatReq).
  { destruct (len body <? 4); [auto with udp|]. apply uruns_bind; [auto with udp|intros reply; apply Hreply]. }
  destruct (_ || _ || _).
  { apply uruns_bind; [by apply uruns_search|intros ok; auto with udp]. }
  destruct (byte_eqb opcode udpOpGlobGetSources).
  { apply uruns_bind; [by apply uruns_sources|intros ok; auto with udp]. }
  destruct (byte_eqb opcode udpOpGlobGetSources2).
  { apply uruns_bind; [by apply uruns_sources|intros ok; auto with udp]. }
  destruct (byte_eqb opcode udpOpServerDescReq).
  { apply uruns_bind; [auto with udp|intros reply; apply Hreply]. }
  destruct (byte_eqb opcode udpOpGlobCallbackReq).
  { apply uruns_bind; [by apply uruns_callback|intros ok; auto with udp]. }
  destruct (byte_eqb opcode opGlobServStatRes).
  { apply uruns_bind; [apply uruns_srv, sruns_markSeen|intros known].
    apply uruns_bind; [udp_auto|intros _; auto with udp]. }
  destruct (_ || _).
  { apply uruns_peers; [|intros reply; apply Hreply]. intros r Hr. unfold buildUDPServerListReply.
    destruct (registry_addrs_total r Hr) as (addrs & -> & _). by eexists. }
  destruct (byte_eqb opcode udpOpServerListRes); [|auto with udp].
  apply uruns_bind; [apply uruns_srv, sruns_serverList|intros _; auto with udp].
Qed.

Lemma uruns_dispatch addr opcode body : to addr -> uruns to (dispatchUDP addr opcode body).
Proof using WL ML.
  intros Hto. unfold dispatchUDP. apply uruns_bind; [udp_auto|intros _].
  apply uruns_bind; [apply uruns_allow|intros ok]. destruct (negb ok); [udp_auto|].
  apply uruns_bind; [by apply uruns_request|]. intros [[|]|]; udp_auto.
Qed.

Lemma uruns_receive addr datagram : to addr -> uruns to (receiveUDP addr datagram).
Proof using WL ML.
  intros Hto. unfold receiveUDP. destruct (take 2048 datagram) as [|h [|op body]]; [auto with udp..|].
  destruct (byte_eqb h ed2kUDPHeader); [by apply uruns_dispatch|auto with udp].
Qed.

Lemma uruns_pings (Hall : forall a, to a) : uruns to sendPeerPings.
Proof.
  unfold sendPeerPings. apply uruns_bind; [auto with udp|intros t].
  apply (uruns_peers registry_addrs (fun addrs => ping_all addrs _)).
  - intros r Hr. destruct (registry_addrs_total r Hr) as (addrs & -> & _). by eexists.
  - intros addrs. generalize ([ed2kUDPHeader; opGlobServStatReq] ++ put32 t) as req. intros req.
    induction addrs as [|a addrs IH]; cbn [ping_all]; [auto with udp|].
    apply uruns_bind; [by apply uruns_writeUDP|intros _; apply IH].
Qed.

(** As long as it runs, whatever wakes it. *)
Lemma uruns_pingPeers (Hall : forall a, to a) wakes : uruns to (pingPeers wakes).
Proof.
  unfold pingPeers. apply uruns_bind; [by apply uruns_pings|intros _].
  induction wakes as [|[|] wakes IH]; cbn [ping_rounds]; [auto with udp| |auto with udp].
  apply uruns_bind; [by apply uruns_pings|intros _; apply IH].
Qed.

(** The limiter and the queue are made once. *)
Lemma startUDPWorkers_eq u :
  startUDPWorkersLocked u =
    (Ok tt, match us_queue u with
            | Some _ => u
            | None => mkUdp _ (us_server u) (us_conn u)
                        (Some (newUDPLimiter (udp_PerIPPacketsPerSecond (UDP (sv_cfg (us_server u))))))
                        (Some []) (us_out u)
            end).
Proof. destruct u as [s conn lim [q|] out]; reflexivity. Qed.
End dispatch.
