(* ===== verification/UdpProps.v ===== *)
(** * What holds of a server that serves TCP and UDP

    The invariants of the whole server over all interleavings of TCP events,
    datagrams, worker rounds and pings; to whom datagrams are answered; and the
    exact answers to source lookups and searches. *)

From S2P Require Import StateErr.
From S2P Require Import Prelude GoStrings GoNet Ed2kLib Ed2kRef Ed2kWire FileRecord Search.
From S2P Require Import SearchFacts Catalog CatalogFacts Config Sources PeerServers Limiter.
From S2P Require Import Text Frames Server ServerFacts ServerInv ServerDemo ServerProps.
From S2P Require Import FrameRule ServerOutput Udp UdpFacts.

Local Open Scope Z_scope.
Local Open Scope srv_scope.

Section reachable.
Context {L : Ed2kLib} {HL : Ed2kHashLaws} {W : Ed2kWire} {WL : Ed2kWireLaws} {T : UnicodeTables}.
Context {MI : MapIter} {ML : MapIterLaws}.
Context {D : TextDecoder} {ZL : Zlib} {PC : PacketCombiner} {WD : World}.

(** The invariant of the whole server. *)
Record udp_ok (u : UdpService) : Prop := {
  uk_server : server_ok (us_server u);
  uk_peers : registry_ok (sv_peers (us_server u));
  uk_size : 1 <= udp_SearchQueueSize (UDP (sv_cfg (us_server u)));
  uk_queue jobs : us_queue u = Some jobs ->
    len jobs <= udp_SearchQueueSize (UDP (sv_cfg (us_server u)))
}.

Lemma udp_ok_ready u : udp_ok u -> memory_ok (us_server u) -> udp_ready u.
Proof.
  intros [Hs Hp _ _] Hm. constructor; [by apply server_ready|apply Hs|done].
Qed.

Lemma udp_ok_step to u u' : udp_step to u u' -> udp_ok u -> udp_ok u'.
Proof.
  intros [[Hc Hp Hr _ _] _ _ Hq] [Hs Hpe Hsz Hqu]. constructor.
  - eapply server_ok_core; [done|apply Hp, Hs|done].
  - by apply Hr.
  - by rewrite (sc_cfg _ _ Hc).
  - intros jobs Hj. rewrite (sc_cfg _ _ Hc). unfold queue_step in Hq.
    destruct (us_queue u) as [q|]; [|congruence]. destruct Hq as (l & Hq & _ & Hb).
    rewrite Hj in Hq. injection Hq as ->. apply Hb. by apply Hqu.
Qed.

Lemma run_udp_event_ok ev u :
  udp_ok u -> memory_ok (us_server u) ->
  (run_udp_event ev u).1 <> Err Panic /\ udp_ok (run_udp_event ev u).2.
Proof.
  intros Hu Hm. pose proof (udp_ok_ready u Hu Hm) as Hr.
  destruct ev as [ev|port listening|addr datagram| |]; cbn [run_udp_event].
  - destruct (run_event_safe ev (us_server u) (uk_server u Hu) Hm) as (Hn & Hs & _).
    pose proof (frames_run_event peers_view ev (us_server u)) as [= Hp Hc].
    unfold srv, zoom. destruct (run_event ev (us_server u)) as [r s']. cbn [fst snd] in *.
    split; [done|]. destruct Hu as [_ Hpe Hsz Hq].
    constructor; cbn [us_server set_us_server us_queue].
    + exact Hs.
    + by rewrite Hp.
    + by rewrite Hc.
    + intros jobs. rewrite Hc. apply Hq.
  - assert (udp_ok (set_us_server (set_sv_listener (Some port) (us_server u)) u)) as H1.
    { destruct Hu as [Hs Hpe Hsz Hq]. constructor; [|exact Hpe|exact Hsz|exact Hq].
      apply (server_ok_core (us_server u)); [by constructor|apply Hs|done]. }
    unfold srv, zoom, modify, bind at 1 2. cbn [us_server set_us_server].
    set (u1 := set_us_server _ u) in *. clearbody u1. clear - H1.
    unfold maybeStartServerUDP, sgets. rewrite !bind_gets.
    destruct (negb _); [by split|]. rewrite !bind_gets.
    destruct (us_conn u1), (sv_listener (us_server u1)) as [p|]; try (by split).
    destruct (udp_port _ p); [|by split]. destruct (negb listening); [by split|].
    change ((modify (set_us_conn true) ;;; startUDPWorkersLocked) u1)
      with (startUDPWorkersLocked (set_us_conn true u1)). rewrite startUDPWorkers_eq. cbn [us_queue set_us_conn snd].
    split; [done|]. destruct H1 as [Hs Hpe Hsz Hq].
    destruct (us_queue u1) as [q|] eqn:E; constructor; cbn [us_server us_queue set_us_conn]; try done; [by rewrite E|].
    intros jobs [= <-]. change (len (@nil udpSearchJob)) with 0. lia.
  - rewrite bind_gets. destruct (us_conn u); [|by split].
    destruct (uruns_receive (fun a => a = addr) addr datagram eq_refl u Hr) as [H1 Hn].
    split; [done|]. by eapply udp_ok_step.
  - unfold udpSearchWorker. rewrite bind_gets. destruct (us_queue u) as [[|job jobs]|] eqn:E; [by split| |by split].
    set (u1 := set_us_queue (Some jobs) u). rewrite (bind_ok _ _ _ tt u1) by done.
    assert (udp_ok u1) as H1.
    { destruct Hu as [Hs Hpe Hsz Hq]. constructor; [exact Hs|exact Hpe|exact Hsz|]. intros q [= <-].
      specialize (Hq _ E). rewrite len_cons in Hq. cbn [us_server u1 set_us_queue]. lia. }
    destruct (uruns_runUDPSearch (fun a => a = job_addr job) job eq_refl u1) as [H2 Hn];
      [by apply udp_ok_ready|]. split; [done|]. by eapply udp_ok_step.
  - destruct (uruns_pings (fun _ => True) (fun _ => I) u Hr) as [H1 Hn].
    split; [done|]. by eapply udp_ok_step.
Qed.

(** The states a server goes through, from its start on. *)
Inductive udp_reach (s0 : Server) : UdpService -> Prop :=
| udp_reach_init : udp_reach s0 (new_service s0)
| udp_reach_step u ev :
    udp_reach s0 u -> memory_ok (us_server u) -> udp_reach s0 (run_udp_event ev u).2.

Lemma initial_udp_ok s0 : initial s0 -> udp_ok (new_service s0).
Proof.
  intros H0. pose proof (proj1 (initial_ok s0 H0)) as Hs.
  destruct H0 as [(cfg & catalog & Hn & _) _]. unfold NewServer in Hn.
  destruct (Normalize cfg) as [n|e] eqn:En; [|done]. cbn [rbind] in Hn.
  apply Normalize_config_ok in En. injection Hn as <-. constructor; [done| | |done].
  - apply newPeerRegistry_ok.
  - apply En.
Qed.

Lemma udp_reach_ok s0 u : initial s0 -> udp_reach s0 u -> udp_ok u.
Proof.
  intros H0. induction 1 as [|u ev _ IH Hm]; [by apply initial_udp_ok|].
  by apply run_udp_event_ok.
Qed.

(** Whatever clients, administrators, peer servers and senders of datagrams
    do, in any order, the server does not panic; a live logged-in client can be
    found under its ID, and no two live clients share an ID; no client holds
    more offered files than the configured cap; every known peer can be listed;
    and the search queue stays within its size. *)
Theorem server_reachable s0 u :
  initial s0 -> udp_reach s0 u -> memory_ok (us_server u) ->
  let s := us_server u in
  (forall ev, (run_udp_event ev u).1 <> Err Panic) /\
  (forall sid, sid ∈ sv_open s -> cs_assignedID (session s sid) <> 0 ->
     findClient s (cs_assignedID (session s sid)) = Some sid) /\
  (forall sid1 sid2, sid1 ∈ sv_open s -> sid2 ∈ sv_open s ->
     cs_assignedID (session s sid1) <> 0 ->
     cs_assignedID (session s sid1) = cs_assignedID (session s sid2) -> sid1 = sid2) /\
  (forall sid, within_cap (MaxOfferedFilesPerClient (sv_cfg s)) (cs_offeredFiles (session s sid))) /\
  is_Some (registry_addrs (sv_peers s)) /\
  (forall jobs, us_queue u = Some jobs -> len jobs <= udp_SearchQueueSize (UDP (sv_cfg s))).
Proof.
  intros H0 Hr Hm. pose proof (udp_reach_ok _ _ H0 Hr) as Hu. pose proof (uk_server u Hu) as Hs.
  cbv zeta. split; [intros ev; by apply run_udp_event_ok|]. split; [apply Hs|].
  split; [|split; [apply Hs|split; [|apply Hu]]].
  - intros sid1 sid2 H1 H2 Hne E. pose proof (so_assigned _ Hs sid1 H1 Hne) as E1.
    rewrite E in Hne. pose proof (so_assigned _ Hs sid2 H2 Hne) as E2. congruence.
  - destruct (registry_addrs_total _ (uk_peers u Hu)) as (addrs & -> & _). by eexists.
Qed.

(** C20: a datagram can make the server write to its sender only: every datagram
    it triggers goes to the address it came from, the only packets that go to
    TCP clients are callback notices that name the sender's own IPv4 address,
    queued searches will answer the sender; and the client table, the sessions'
    offers, the shared files and the catalog do not change. *)
Theorem datagram_answers_sender s0 u addr datagram :
  initial s0 -> udp_reach s0 u -> memory_ok (us_server u) ->
  let u' := (run_udp_event (UeDatagram addr datagram) u).2 in
  (exists ds, us_out u' = us_out u ++ map (pair addr) ds) /\
  (exists notices, sv_sent (us_server u') = sv_sent (us_server u) ++ notices /\
     Forall (relayed (fun a => a = addr)) notices) /\
  (exists jobs, us_queue u' = option_map (fun q => q ++ jobs) (us_queue u) /\
     Forall (fun j => job_addr j = addr) jobs) /\
  same_core (us_server u) (us_server u').
Proof.
  intros H0 Hr Hm. cbv zeta. pose proof (udp_reach_ok _ _ H0 Hr) as Hu.
  assert (udp_step (fun a => a = addr) u (run_udp_event (UeDatagram addr datagram) u).2)
    as [[Hc _ _ Hsent] _ (l & Hl & Hall) Hq].
  { cbn [run_udp_event]. rewrite bind_gets. destruct (us_conn u); [|reflexivity].
    apply (uruns_receive (fun a => a = addr) addr datagram eq_refl u), udp_ok_ready; done. }
  split; [|split; [done|split; [|done]]].
  - exists (map snd l). rewrite Hl. f_equal. clear - Hall.
    induction Hall as [|[a d] l Ha _ IH]; [done|]. cbn [map snd fst] in *. by rewrite <- IH, Ha.
  - unfold queue_step in Hq. destruct (us_queue u) as [q|]; [|by exists []].
    destruct Hq as (jobs & -> & Hj & _). by exists jobs.
Qed.
End reachable.

(** ** Witnesses *)

(** The state after some events, and whether memory sufficed on the way. *)
Definition udp_run (evs : list udp_event) (u : UdpService) : UdpService :=
  foldl (fun u ev => (run_udp_event ev u).2) u evs.

Fixpoint udp_run_fits (evs : list udp_event) (u : UdpService) : bool :=
  match evs with
  | [] => true
  | ev :: evs' => memory_b (us_server u) && udp_run_fits evs' (run_udp_event ev u).2
  end.

Lemma udp_run_reach s0 evs u :
  udp_reach s0 u -> udp_run_fits evs u = true -> udp_reach s0 (udp_run evs u).
Proof.
  unfold udp_run. revert u; induction evs as [|ev evs IH]; intros u Hr; [done|].
  cbn [udp_run_fits foldl]. intros [Hm Hf]%andb_true_iff. apply IH; [|done].
  apply udp_reach_step; [done|by apply memory_b_ok].
Qed.

(** Two clients, one with a file; the UDP socket; a search by a third party. *)
Definition demo_peer : NetAddr := mkAddr [xc0; x00; x02; x09] 4665.

Definition demo_search_datagram : bytes :=
  [xe3; x98; x01; x04; x00] ++ lit "song".

Definition demo_udp_events : list udp_event :=
  map UeServer demo_two ++ [UeServe 4661 true; UeDatagram demo_peer demo_search_datagram].

Definition demo_service : UdpService := udp_run demo_udp_events (new_service demo_server).

Lemma demo_service_reach : udp_reach demo_server demo_service.
Proof. apply udp_run_reach; [apply udp_reach_init|vm_compute; done]. Qed.

Lemma demo_service_memory : memory_ok (us_server demo_service).
Proof. apply memory_b_ok. vm_compute. done. Qed.

Lemma server_reachable_witness :
  option_map (@length _) (us_queue demo_service) = Some 1%nat /\
  forall ev, (run_udp_event ev demo_service).1 <> Err Panic.
Proof.
  split; [by vm_compute|].
  apply (server_reachable demo_server demo_service demo_initial demo_service_reach demo_service_memory).
Defined.

(** A status request is answered to its sender. *)
Lemma datagram_answers_sender_witness :
  let u' := (run_udp_event (UeDatagram demo_peer [xe3; x96; x01; x02; x03; x04]) demo_service).2 in
  length (us_out u') = 1%nat /\ exists ds, us_out u' = us_out demo_service ++ map (pair demo_peer) ds.
Proof.
  split; [by vm_compute|].
  apply (datagram_answers_sender demo_server demo_service demo_peer
           [xe3; x96; x01; x02; x03; x04] demo_initial demo_service_reach demo_service_memory).
Defined.
