(* ===== verification/UdpReplies.v ===== *)
(** * What the answers to datagrams contain

    The packing of answer blocks into datagrams, and the exact answers to source
    lookups and searches. *)

From S2P Require Import StateErr.
From S2P Require Import Prelude GoStrings GoNet Ed2kLib Ed2kRef Ed2kWire FileRecord Search.
From S2P Require Import SearchFacts Catalog CatalogFacts Config Sources PeerServers Limiter.
From S2P Require Import Text Frames Server ServerFacts ServerInv ServerDemo ServerProps.
From S2P Require Import ServerOutput Udp UdpFacts UdpProps.

Local Open Scope Z_scope.
Local Open Scope srv_scope.

(** ** Packing *)

(** A group of blocks that may travel in one datagram: it fits, or it is a
    single block. *)
Definition fits (max : Z) (group : list bytes) : Prop :=
  group <> [] /\ (len (concat group) <= max \/ exists block, group = [block]).

(** The datagrams carry the blocks, whole and in order. *)
Definition packed (max : Z) (blocks datagrams : list bytes) : Prop :=
  exists groups, concat groups = blocks /\ datagrams = map (@concat byte) groups /\
    Forall (fits max) groups.

Section replies.
Context {L : Ed2kLib} {W : Ed2kWire} {WL : Ed2kWireLaws} {T : UnicodeTables}.
Context {MI : MapIter} {ML : MapIterLaws}.
Context {D : TextDecoder} {ZL : Zlib} {PC : PacketCombiner} {WD : World}.

(** Datagrams went out; the core of the server is as before. *)
Record emitted (l : list (NetAddr * bytes)) (u u' : UdpService) : Prop := {
  em_out : us_out u' = us_out u ++ l;
  em_conn : us_conn u' = us_conn u;
  em_core : same_core (us_server u) (us_server u')
}.

Lemma emitted_refl u : emitted [] u u.
Proof. constructor; [by rewrite app_nil_r|done|reflexivity]. Qed.

Lemma emitted_trans l1 l2 u1 u2 u3 :
  emitted l1 u1 u2 -> emitted l2 u2 u3 -> emitted (l1 ++ l2) u1 u3.
Proof.
  intros [o1 c1 s1] [o2 c2 s2]. constructor; [by rewrite o2, o1, app_assoc|congruence|].
  by etransitivity.
Qed.

Lemma writeUDP_emits addr op datagram u :
  us_conn u = true ->
  exists u', writeUDP addr op datagram u = (Ok tt, u') /\ emitted [(addr, datagram)] u u'.
Proof.
  intros Hc. unfold writeUDP. rewrite bind_gets, Hc. cbn [negb].
  unfold srv, zoom, bind, modify, udp_write, bump.
  destruct (write_ok _); cbn [negb us_server set_us_server set_us_out];
    (eexists; split; [reflexivity|]); by constructor.
Qed.

(** The writer between two blocks: what it has sent, and what it holds. *)
Record writing (addr : NetAddr) (max : Z) (op : byte) (u0 : UdpService) (blocks : list bytes)
    (w : udpDatagramWriter) (u : UdpService) : Prop := {
  wg_groups : exists groups held, concat groups ++ held = blocks /\ Forall (fits max) groups /\
    (held = [] \/ fits max held) /\ uw_buf w = concat held /\
    emitted (map (fun g => (addr, concat g)) groups) u0 u;
  wg_addr : uw_addr w = addr;
  wg_max : uw_max w = max;
  wg_op : uw_op w = op;
  wg_conn : us_conn u = true
}.

(** Blocks of a sensible length. *)
Definition block_ok (block : bytes) : Prop := 0 < len block < 2 ^ 61.

Lemma fits_nonempty max group : Forall block_ok group -> fits max group -> 0 < len (concat group).
Proof.
  intros Hb [Hne _]. destruct Hb as [|b group [Hb _] _]; [done|]. cbn [concat].
  rewrite len_app. pose proof (len_nonneg (concat group)). lia.
Qed.

Lemma writer_flush_writing addr max op u0 blocks w u :
  Forall block_ok blocks -> writing addr max op u0 blocks w u ->
  exists w' u', writer_flush w u = (Ok w', u') /\ uw_buf w' = [] /\
    writing addr max op u0 blocks w' u' /\
    exists datagrams, packed max blocks datagrams /\ emitted (map (pair addr) datagrams) u0 u'.
Proof.
  intros Hb [(groups & held & Hblocks & Hg & Hheld & Hbuf & He) Ha Hm Ho Hc].
  unfold writer_flush. destruct (Z.eqb_spec (len (uw_buf w)) 0) as [Hz|Hz].
  - exists w, u. assert (held = []) as ->.
    { destruct Hheld as [|Hf]; [done|]. exfalso. rewrite <- Hblocks in Hb.
      apply Forall_app in Hb as [_ Hb]. pose proof (fits_nonempty _ _ Hb Hf). rewrite Hbuf in Hz. lia. }
    split; [done|]. split; [by rewrite Hbuf|]. rewrite app_nil_r in Hblocks.
    split.
    + constructor; [|done..]. exists groups, []. rewrite app_nil_r. repeat split; auto; apply He.
    + exists (map (@concat byte) groups). split; [by exists groups|]. by rewrite map_map.
  - destruct Hheld as [->|Hf]; [by rewrite Hbuf in Hz|].
    destruct (writeUDP_emits (uw_addr w) (uw_op w) (uw_buf w) u Hc) as (u' & E & He').
    rewrite (bind_ok _ _ _ _ _ E). rewrite Ha, Hbuf in He'.
    pose proof (emitted_trans _ _ _ _ _ He He') as He2.
    change [(addr, concat held)] with (map (fun g => (addr, concat g)) [held]) in He2.
    rewrite <- map_app in He2.
    eexists _, u'. split; [reflexivity|]. split; [done|].
    assert (concat (groups ++ [held]) = blocks) as Hb2.
    { rewrite concat_app. cbn [concat]. by rewrite app_nil_r. }
    assert (Forall (fits max) (groups ++ [held])) as Hg2 by (apply Forall_app; split; [done|by constructor]).
    split.
    + constructor; [|done..|by rewrite (em_conn _ _ _ He')].
      exists (groups ++ [held]), []. rewrite app_nil_r. split; [done|]. split; [done|].
      split; [by left|done].
    + exists (map (@concat byte) (groups ++ [held])). split; [by exists (groups ++ [held])|].
      by rewrite map_map.
Qed.

Lemma writer_add_writing addr max op u0 blocks w u block :
  0 <= max < 2 ^ 61 -> Forall block_ok blocks -> block_ok block ->
  writing addr max op u0 blocks w u ->
  exists w' u', writer_add w block u = (Ok w', u') /\
    writing addr max op u0 (blocks ++ [block]) w' u'.
Proof.
  intros Hmax Hb Hblock Hw. unfold writer_add.
  assert (Hput : forall w1 u1, writing addr max op u0 blocks w1 u1 ->
    (uw_buf w1 = [] \/ len (uw_buf w1) + len block <= max) ->
    writing addr max op u0 (blocks ++ [block])
      (mkWriter (uw_addr w1) (uw_op w1) (uw_max w1) (uw_buf w1 ++ block)) u1).
  { intros w1 u1 [(groups & held & Hblocks & Hg & Hheld & Hbuf & He) Ha Hm Ho Hc] Hfit.
    constructor; try done. exists groups, (held ++ [block]).
    split; [by rewrite app_assoc, Hblocks|]. split; [done|].
    assert (concat (held ++ [block]) = uw_buf w1 ++ block) as Hcat.
    { rewrite concat_app, <- Hbuf. cbn [concat]. by rewrite app_nil_r. }
    split; [right|by split]. split; [by destruct held|]. rewrite Hcat, len_app.
    destruct Hfit as [Hnil|]; [|by left]. right. exists block. rewrite Hnil in Hbuf.
    destruct Hheld as [->|Hf]; [done|]. exfalso. rewrite <- Hblocks in Hb.
    apply Forall_app in Hb as [_ Hb]. pose proof (fits_nonempty _ _ Hb Hf) as Hlen.
    rewrite <- Hbuf in Hlen. by change (len (@nil byte)) with 0 in Hlen. }
  destruct (Z.ltb_spec 0 (len (uw_buf w))) as [Hpos|Hnil]; cbn [andb].
  2: { eexists _, u. split; [reflexivity|]. apply Hput; [done|left].
       destruct (uw_buf w) as [|x rest]; [done|]. rewrite len_cons in Hnil.
       pose proof (len_nonneg rest). lia. }
  assert (len (uw_buf w) < 2 ^ 61) as Hbuf61.
  { destruct Hw as [(groups & held & Hblocks & _ & Hheld & Hbuf & _) _ _ _ _].
    rewrite Hbuf in *. destruct Hheld as [->|[_ [Hle|[b ->]]]]; [by vm_compute|lia|].
    rewrite <- Hblocks in Hb. apply Forall_app in Hb as [_ Hb]. apply Forall_cons in Hb as [Hb _].
    cbn [concat]. rewrite app_nil_r. apply Hb. }
  rewrite to_int_id by (unfold in_s, block_ok in *; lia).
  destruct (Z.ltb_spec (uw_max w) (len (uw_buf w) + len block)) as [Hover|Hfit].
  - destruct (writer_flush_writing addr max op u0 blocks w u Hb Hw) as (w1 & u1 & E & Hempty & Hw1 & _).
    rewrite (bind_ok _ _ _ _ _ E). eexists _, u1. split; [reflexivity|]. apply Hput; [done|by left].
  - eexists _, u. split; [reflexivity|]. apply Hput; [done|right]. by rewrite (wg_max _ _ _ _ _ _ _ Hw) in Hfit.
Qed.

Lemma add_blocks_writing addr max op u0 more blocks w u :
  0 <= max < 2 ^ 61 -> Forall block_ok (blocks ++ more) ->
  writing addr max op u0 blocks w u ->
  exists w' u', add_blocks w more u = (Ok w', u') /\
    writing addr max op u0 (blocks ++ more) w' u'.
Proof.
  intros Hmax. revert blocks w u; induction more as [|block more IH]; intros blocks w u Hb Hw.
  { rewrite app_nil_r. by exists w, u. }
  cbn [add_blocks]. pose proof Hb as [Hb1 [Hb2 Hb3]%Forall_cons]%Forall_app.
  destruct (writer_add_writing addr max op u0 blocks w u block Hmax Hb1 Hb2 Hw) as (w1 & u1 & E & Hw1).
  rewrite (bind_ok _ _ _ _ _ E).
  replace (blocks ++ block :: more) with ((blocks ++ [block]) ++ more) in * by by rewrite <- app_assoc.
  by apply IH.
Qed.

(** The payload limit in use. *)
Definition payload_max (s : Server) : Z :=
  let max := udp_MaxPayloadBytes (UDP (sv_cfg s)) in if max <=? 0 then 1300 else max.

Lemma new_writer_writing addr op u :
  us_conn u = true ->
  exists w, newUDPDatagramWriter addr op u = (Ok w, u) /\
    writing addr (payload_max (us_server u)) op u [] w u.
Proof.
  intros Hc. eexists. split; [reflexivity|]. constructor; try done.
  exists [], []. split; [done|]. split; [done|]. split; [by left|]. split; [done|]. apply emitted_refl.
Qed.

(** ** Source lookups *)

(** A request as a client writes it: hashes, each with the size of the file in
    the newer form, in eight bytes when it does not fit in four. *)
Definition size_field (size : Z) : bytes :=
  if (0 <? size) && (size <? 2 ^ 32) then le_encode 4 size else le_encode 4 0 ++ le_encode 8 size.

Definition encode_request (withSize : bool) (req : Hash * Z) : bytes :=
  Hash_Bytes req.1 ++ (if withSize then size_field req.2 else []).

Definition encode_requests (withSize : bool) (reqs : list (Hash * Z)) : bytes :=
  concat (map (encode_request withSize) reqs).

Definition request_ok (req : Hash * Z) : Prop :=
  length (Hash_Bytes req.1) = 16%nat /\ 0 <= req.2 < 2 ^ 64.

(** The answers depend on the core only. *)
Lemma sources_block_core s s' hash : same_core s s' -> sources_block s' hash = sources_block s hash.
Proof.
  intros []. unfold sources_block, sourcesAll.
  assert (forall l : list (Z * SourceEntry),
    omap (dynamic_source s' false) l = omap (dynamic_source s false) l) as Hd.
  { intros l. apply list_omap_ext, Forall_Forall2_diag, Forall_true. by intros [cid src]. }
  rewrite sc_cfg, sc_catalog, sc_dynamic.
  by destruct (sv_dynamicFiles s !! Hash_String hash); rewrite ?Hd.
Qed.

Lemma skip_size_field size rest :
  0 <= size < 2 ^ 64 -> skip_size true (size_field size ++ rest) = Some rest.
Proof.
  intros Hs. unfold skip_size, size_field.
  destruct (Z.ltb_spec 0 size), (Z.ltb_spec size (2 ^ 32)); cbn [andb];
    rewrite <- ?app_assoc, read_le_encode by (simpl; lia).
  2-4: rewrite Z.eqb_refl, read_le_encode by (simpl; lia); done.
  by destruct (Z.eqb_spec size 0); [lia|].
Qed.

Lemma encode_request_read withSize req rest :
  request_ok req ->
  exists r1, ReadHash (encode_request withSize req ++ rest) = Some (req.1, r1) /\
    skip_size withSize r1 = Some rest /\
    (16 + length rest <= length (encode_request withSize req ++ rest))%nat.
Proof.
  intros [Hh Hs]. unfold encode_request. rewrite <- app_assoc. eexists. split.
  - by apply ReadHash_app.
  - split; [destruct withSize; [by apply skip_size_field|done]|]. rewrite !length_app. lia.
Qed.

(** One block per requested file that has sources. *)
Definition answers (s : Server) (reqs : list (Hash * Z)) : list bytes :=
  omap (fun req => sources_block s req.1) reqs.

Lemma answers_cons s req reqs :
  answers s (req :: reqs) =
  match sources_block s req.1 with Some block => block :: answers s reqs | None => answers s reqs end.
Proof. done. Qed.

(** The loop answers the requests one by one. *)
Lemma sources_loop_writing addr max op u0 withSize rest reqs blocks w requested fuel u :
  0 <= max < 2 ^ 61 -> Forall request_ok reqs -> len rest < 16 ->
  0 <= requested -> requested + len reqs < 2 ^ 62 ->
  (length (encode_requests withSize reqs ++ rest) < fuel)%nat ->
  Forall block_ok (blocks ++ answers (us_server u0) reqs) ->
  writing addr max op u0 blocks w u ->
  exists w' u', sources_loop fuel withSize (encode_requests withSize reqs ++ rest) w requested u
      = (Ok (Some (w', requested + len reqs)), u') /\
    writing addr max op u0
      (blocks ++ answers (us_server u0) reqs) w' u'.
Proof.
  intros Hmax Hreqs Hrest. revert blocks w requested fuel u; induction Hreqs as [|req reqs Hreq Hreqs IH];
    intros blocks w requested fuel u H0 Hn Hf Hb Hw; (destruct fuel as [|fuel]; [lia|]);
    cbn [sources_loop].
  { cbn [encode_requests map concat app]. rewrite (proj2 (Z.ltb_lt _ _) Hrest).
    exists w, u. change (answers (us_server u0) []) with (@nil bytes). rewrite app_nil_r.
    split; [|done].
    unfold len. cbn [length]. by rewrite Z.add_0_r. }
  unfold encode_requests in *. cbn [map concat] in *. rewrite <- app_assoc in *.
  set (tail := concat (map (encode_request withSize) reqs) ++ rest) in *.
  destruct (encode_request_read withSize req tail Hreq) as (r1 & E1 & E2 & Hlen).
  destruct (Z.ltb_spec (len (encode_request withSize req ++ tail)) 16) as [Hl|_];
    [unfold len in Hl; lia|]. rewrite E1, E2. cbv zeta.
  rewrite len_cons in Hn. pose proof (len_nonneg reqs).
  rewrite to_int_id by (unfold in_s; lia). unfold sgets at 1. rewrite bind_gets.
  rewrite (sources_block_core (us_server u0)).
  2: { destruct Hw as [(groups & held & _ & _ & _ & _ & He) _ _ _ _]. apply He. }
  rewrite answers_cons in *. rewrite len_cons.
  replace (requested + (1 + len reqs)) with ((requested + 1) + len reqs) by lia.
  destruct (sources_block (us_server u0) req.1) as [block|].
  - pose proof Hb as [Hb1 [Hb2 _]%Forall_cons]%Forall_app.
    destruct (writer_add_writing addr max op u0 blocks w u block Hmax Hb1 Hb2 Hw) as (w1 & u1 & E & Hw1).
    rewrite (bind_ok _ _ _ _ _ E).
    replace (blocks ++ block :: answers (us_server u0) reqs)
      with ((blocks ++ [block]) ++ answers (us_server u0) reqs)
      in * by by rewrite <- app_assoc.
    apply IH; [lia|lia|lia|done|done].
  - rewrite (bind_ok _ _ _ w u) by done. apply IH; [lia|lia|lia|done|done].
Qed.

(** *** What a reply about a file says *)

(** An address as a reply tells it; [routable] is a high client ID. *)
Definition address (e : Endpoint) : Z * Z := (to_int64 (Endpoint_IP e), to_int64 (Endpoint_Port e)).
Definition routable (a : Z * Z) : Prop := 0x1000000 <= to_uint32 a.1.

(** A source of a file: an endpoint of its record in the catalog, or what a client
    that shares the file announced. *)
Definition filed_source (s : Server) (h : Hash) (source : SourceEntry) : Prop :=
  (exists record, cat_byHash (sv_catalog s) !! Hash_String h = Some record /\ source ∈ fr_Endpoints record) \/
  (exists clientID, source_of (sv_dynamicFiles s) (Hash_String h) clientID = Some source).

Definition known_source (s : Server) (h : Hash) (a : Z * Z) : Prop :=
  exists source e, filed_source s h source /\
    EndpointFromString (se_Host source) (se_Port source) = Some e /\ address e = a.

(** The configured limit, within what the count byte can say. *)
Definition reply_limit (s : Server) : Z :=
  let max := MaxSourcesPerReply (sv_cfg s) in if (1 <=? max) && (max <=? 255) then max else 255.

Record source_reply (s : Server) (h : Hash) (reply : list Endpoint) : Prop := {
  sr_distinct : NoDup (map address reply);
  sr_known a : a ∈ map address reply -> known_source s h a;
  sr_limit : len reply <= reply_limit s;
  sr_complete : len reply < reply_limit s -> forall a, known_source s h a -> a ∈ map address reply;
  sr_order : exists high low, map address reply = high ++ low /\
    Forall routable high /\ Forall (fun a => ~ routable a) low /\
    (low <> [] -> forall a, known_source s h a -> routable a -> a ∈ high)
}.

(** The block about one requested file, as the protocol frames it: none when no
    source is known. *)
Definition file_answer (s : Server) (h : Hash) (block : option bytes) : Prop :=
  exists reply, source_reply s h reply /\
    block = match reply with
            | [] => None
            | _ => option_map (fun raw => [xe3; x9b] ++ raw) (FoundFileSources_Put h reply)
            end.

Lemma filed_sources s h k :
  k ∈ map source_key (sourcesAll s h false) <-> known_source s h k.
Proof.
  assert (forall l, k ∈ map source_key (omap (static_source false) l) <->
    exists source e, source ∈ l /\ EndpointFromString (se_Host source) (se_Port source) = Some e /\ address e = k) as Hst.
  { intros l. rewrite list_elem_of_fmap. setoid_rewrite list_elem_of_omap. unfold static_source. split.
    - intros (f & -> & source & Hin & E). destruct (EndpointFromString _ _) as [e|] eqn:Ee; [|done]. injection E as <-.
      by exists source, e.
    - intros (source & e & Hin & Ee & <-). eexists. split; [|exists source; split; [exact Hin|by rewrite Ee]]. done. }
  unfold sourcesAll, Catalog_Get, known_source, filed_source, source_of. rewrite map_app, elem_of_app. split.
  - intros [H|H].
    + destruct (cat_byHash _ !! _) as [record|]; [|by apply not_elem_of_nil in H].
      apply Hst in H as (source & e & Hin & He). exists source, e. split; [|done]. left. by exists record.
    + destruct (sv_dynamicFiles s !! _) as [d|]; [|by apply not_elem_of_nil in H].
      apply list_elem_of_fmap in H as (f & -> & H). apply list_elem_of_omap in H as ([cid source] & Hin & E).
      unfold dynamic_source in E. destruct (EndpointFromString _ _) as [e|] eqn:Ee; [|done]. injection E as <-.
      exists source, e. split; [|done]. right. exists cid.
      rewrite range_map_perm in Hin. by apply elem_of_map_to_list in Hin.
  - intros (source & e & [(record & Er & Hin)|(cid & Hd)] & Ee & <-).
    + left. rewrite Er. apply Hst. by exists source, e.
    + right. destruct (sv_dynamicFiles s !! _) as [d|]; [|done]. apply list_elem_of_fmap.
      exists (mkFound _ (Endpoint_IP e) (Endpoint_Port e) 0 None). split; [done|].
      apply list_elem_of_omap. exists (cid, source). split; [|unfold dynamic_source; by rewrite Ee].
      rewrite range_map_perm. by apply elem_of_map_to_list.
Qed.

Lemma reply_limit_cap s : source_cap (MaxSourcesPerReply (sv_cfg s)) = reply_limit s.
Proof.
  unfold source_cap, reply_limit. cbv zeta. set (max := MaxSourcesPerReply _).
  destruct (Z.leb_spec max 0), (Z.ltb_spec 255 max), (Z.leb_spec 1 max), (Z.leb_spec max 255); cbn; lia.
Qed.

Lemma routable_key f : routable (source_key f) <-> is_high_id f = true.
Proof.
  unfold routable, source_key, is_high_id. cbn [fst]. rewrite Z.leb_le.
  assert (to_uint32 (to_int64 (fs_ClientID f)) = to_uint32 (fs_ClientID f)) as ->; [|done].
  unfold to_uint32, to_int64, wrap_u, wrap_s. set (x := fs_ClientID f).
  change (2 ^ (64 - 1)) with (2 ^ 63). pose proof (Z.div_mod (x + 2 ^ 63) (2 ^ 64) ltac:(done)) as E.
  replace ((x + 2 ^ 63) mod 2 ^ 64 - 2 ^ 63) with (x + (- ((x + 2 ^ 63) / 2 ^ 64) * 2 ^ 32) * 2 ^ 32) by lia.
  by apply Z_mod_plus_full.
Qed.

Section reply.
Context {EL : Ed2kEndpointLaws} (s : Server) (h : Hash).

Definition endpoint_of (src : foundSourceEntry) : Endpoint := NewEndpoint (fs_ClientID src) (fs_Port src).

Lemma address_key out : map address (map endpoint_of out) = map source_key out.
Proof.
  rewrite map_map. apply map_ext. intros src. unfold address, endpoint_of, source_key.
  by rewrite NewEndpoint_IP, NewEndpoint_Port.
Qed.

(** The list that [orderAndCapSources] makes of the sources is such a reply. *)
Lemma orderAndCapSources_reply :
  source_reply s h
    (map endpoint_of (orderAndCapSources (sourcesAll s h false) (MaxSourcesPerReply (sv_cfg s)))).
Proof.
  set (all := sourcesAll s h false). pose proof (fun k => filed_sources s h k) as Hk. fold all in Hk.
  pose proof (reply_limit_cap s) as Hcap. set (max := MaxSourcesPerReply (sv_cfg s)) in *.
  destruct (orderAndCapSources_spec all max) as ([Hlen _] & Hnd & _ & _).
  pose proof (orderAndCapSources_eq all max) as Heq. destruct (unique_sources_spec all) as (Hsub & _ & Huk).
  set (u := unique_sources all) in *. set (out := orderAndCapSources all max) in *. set (n := Z.to_nat (source_cap max)) in *.
  set (hs := List.filter is_high_id u) in *. set (ls := List.filter (fun f => negb (is_high_id f)) u) in *.
  assert (forall f, f ∈ hs ++ ls <-> f ∈ u) as Hu.
  { intros f. rewrite elem_of_app, !list_elem_of_In. unfold hs, ls. rewrite !filter_In.
    destruct (is_high_id f); cbn; tauto. }
  assert (forall k, known_source s h k <-> k ∈ map source_key (hs ++ ls)) as Hks.
  { intros k. rewrite <- Hk, <- Huk, !list_elem_of_fmap. setoid_rewrite Hu. done. }
  constructor; rewrite ?address_key.
  - exact Hnd.
  - intros k. rewrite Hks. rewrite !list_elem_of_fmap. intros (f & -> & Hf). exists f. split; [done|].
    rewrite Heq in Hf. rewrite <- (take_drop n (hs ++ ls)). apply elem_of_app. by left.
  - unfold len. rewrite length_map. fold (len out). lia.
  - unfold len. rewrite length_map. intros Hl k. rewrite Hks, Heq. rewrite take_ge; [done|].
    rewrite Heq, length_take in Hl. lia.
  - exists (map source_key (take n hs)), (map source_key (take (n - length hs) ls)).
    rewrite Heq, take_app, map_app. split; [done|]. split; [|split].
    + apply Forall_map, Forall_take, List.Forall_forall. intros f [_ Hf]%filter_In. by apply routable_key.
    + apply Forall_map, Forall_take, List.Forall_forall. intros f [_ Hf]%filter_In. rewrite routable_key.
      by destruct (is_high_id f).
    + intros Hne k Hkn Hr. rewrite take_ge.
      2: { destruct (Nat.le_gt_cases n (length hs)) as [Hle|]; [|lia]. replace (n - length hs)%nat with 0%nat in Hne by lia.
           by rewrite take_0 in Hne. }
      apply Hks, list_elem_of_fmap in Hkn as (f & -> & Hf). apply list_elem_of_fmap. exists f. split; [done|].
      apply Hu, list_elem_of_In in Hf. apply list_elem_of_In, filter_In. split; [done|]. by apply routable_key.
Qed.

Lemma sources_block_answer : file_answer s h (sources_block s h).
Proof.
  eexists. split; [apply orderAndCapSources_reply|]. unfold sources_block. cbv zeta.
  destruct (orderAndCapSources _ _) as [|src out]; [done|]. rewrite len_cons. pose proof (len_nonneg out).
  destruct (Z.eqb_spec (1 + len out) 0); [lia|]. done.
Qed.
End reply.

(** What the client library writes for a reply fits in memory. *)
Definition replies_fit : Prop := forall h reply raw,
  length (Hash_Bytes h) = 16%nat -> len reply <= 255 -> FoundFileSources_Put h reply = Some raw -> len raw < 2 ^ 60.

Lemma answer_block_ok {EL : Ed2kEndpointLaws} s reqs :
  replies_fit -> Forall request_ok reqs -> Forall block_ok (answers s reqs).
Proof.
  intros Hfit Hreqs. apply Forall_forall. intros block (req & Hin & E)%list_elem_of_omap.
  pose proof (proj1 (Forall_forall _ _) Hreqs req Hin) as [Hh _].
  destruct (sources_block_answer s req.1) as (reply & Hr & Eb). rewrite E in Eb. clear E.
  assert (len reply <= 255) as Hl.
  { pose proof (sr_limit _ _ _ Hr) as H. unfold reply_limit in H. cbv zeta in H.
    destruct (Z.leb_spec 1 (MaxSourcesPerReply (sv_cfg s))), (Z.leb_spec (MaxSourcesPerReply (sv_cfg s)) 255); cbn in H; lia. }
  destruct reply as [|e reply]; [done|]. destruct (FoundFileSources_Put _ _) as [raw|] eqn:Ep; [|done].
  injection Eb as ->. pose proof (Hfit _ _ _ Hh Hl Ep). unfold block_ok. cbn [app]. rewrite !len_cons.
  pose proof (len_nonneg raw). lia.
Qed.

(** C21: a request for the sources of some files, however many and in either
    form, is answered file by file, in the order of the request: nothing for a
    file without a known source, else one block with its hash and its sources,
    in the wire form that the client library gives to that list. The sources are
    the endpoints of its record in the catalog and what clients that share it
    announced, as far as they are valid addresses: each at most once, clients
    that can be reached first, all of them unless there are more than the
    configured limit (or 255). The blocks are packed whole into datagrams to the
    sender that respect the configured size; trailing bytes are ignored. *)
Theorem sources_answered {EL : Ed2kEndpointLaws} u addr withSize reqs rest :
  us_conn u = true -> udp_SourcesEnabled (UDP (sv_cfg (us_server u))) = true ->
  payload_max (us_server u) < 2 ^ 61 -> replies_fit ->
  reqs <> [] -> len reqs < 2 ^ 62 -> Forall request_ok reqs -> len rest < 16 ->
  exists blocks datagrams u',
    handleUDPGetSources addr (encode_requests withSize reqs ++ rest) withSize u = (Ok true, u') /\
    Forall2 (fun req block => file_answer (us_server u) req.1 block) reqs blocks /\
    packed (payload_max (us_server u)) (omap id blocks) datagrams /\
    us_out u' = us_out u ++ map (pair addr) datagrams.
Proof.
  intros Hc Hen Hmax Hfit Hne Hlen Hreqs Hrest. pose proof (answer_block_ok (us_server u) reqs Hfit Hreqs) as Hb.
  assert (0 <= payload_max (us_server u)) as Hpos.
  { unfold payload_max. destruct (Z.leb_spec (udp_MaxPayloadBytes (UDP (sv_cfg (us_server u)))) 0); lia. }
  unfold handleUDPGetSources. unfold sgets at 1. rewrite bind_gets, Hen. cbn [negb].
  destruct (new_writer_writing addr udpOpGlobFoundSources u Hc) as (w & E & Hw).
  rewrite (bind_ok _ _ _ _ _ E).
  destruct (sources_loop_writing addr _ udpOpGlobFoundSources u withSize rest reqs [] w 0
    (S (length (encode_requests withSize reqs ++ rest))) u (conj Hpos Hmax) Hreqs Hrest)
    as (w1 & u1 & E1 & Hw1); [lia|lia|lia|done|done|].
  rewrite (bind_ok _ _ _ _ _ E1).
  destruct (writer_flush_writing _ _ _ _ _ _ _ Hb Hw1) as (w2 & u2 & E2 & _ & _ & ds & Hp & He).
  rewrite (bind_ok _ _ _ _ _ E2).
  destruct (Z.eqb_spec (0 + len reqs) 0) as [Hz|_].
  { destruct reqs; [done|]. rewrite len_cons in Hz. pose proof (len_nonneg reqs). lia. }
  exists (map (fun req => sources_block (us_server u) req.1) reqs). eexists ds, _. split; [reflexivity|]. split; [|split].
  - apply Forall2_fmap_r, Forall_Forall2_diag, Forall_true. intros req. apply sources_block_answer.
  - assert (omap id (map (fun req => sources_block (us_server u) req.1) reqs) = answers (us_server u) reqs) as ->; [|exact Hp].
    unfold answers. clear. induction reqs as [|req reqs IH]; [done|]. cbn. destruct (sources_block _ _); cbn; by rewrite IH.
  - exact (em_out _ _ _ He).
Qed.

(** *** Searches *)

(** A queued search is answered with the first results of the search, at
    most as many as the configuration allows (an eighth of them for a client of
    the old protocol, but always one): every result that can be encoded, in
    order, packed whole into datagrams to the searcher. *)
Theorem search_answered u job found :
  us_conn u = true -> payload_max (us_server u) < 2 ^ 61 ->
  searchAll (us_server u) (job_query job) = Some found ->
  let limit := search_limit (UDP (sv_cfg (us_server u))) (job_packMany job) in
  let blocks := omap result_block (take (Z.to_nat limit) found) in
  Forall block_ok blocks ->
  1 <= limit /\ (1 <= udp_MaxResults (UDP (sv_cfg (us_server u))) ->
                 limit <= udp_MaxResults (UDP (sv_cfg (us_server u)))) /\
  exists datagrams u', runUDPSearch job u = (Ok tt, u') /\
    packed (payload_max (us_server u)) blocks datagrams /\
    us_out u' = us_out u ++ map (pair (job_addr job)) datagrams.
Proof.
  intros Hc Hmax Hfound. cbv zeta. set (limit := search_limit _ _). intros Hb.
  assert (0 <= payload_max (us_server u)) as Hpos.
  { unfold payload_max. destruct (Z.leb_spec (udp_MaxPayloadBytes (UDP (sv_cfg (us_server u)))) 0); lia. }
  assert (1 <= limit /\ (1 <= udp_MaxResults (UDP (sv_cfg (us_server u))) ->
                 limit <= udp_MaxResults (UDP (sv_cfg (us_server u))))) as [Hl1 Hl2].
  { unfold limit, search_limit. set (m := udp_MaxResults _).
    assert (8 < m -> 1 <= m / 8 <= m) as Hdiv.
    { intros. split; [apply Z.div_le_lower_bound; lia|apply Z.div_le_upper_bound; lia]. }
    destruct (negb (job_packMany job)), (Z.ltb_spec 8 m); cbn [andb];
      match goal with |- context [?x <? 1] => destruct (Z.ltb_spec x 1) end; lia. }
  split; [done|]. split; [done|]. unfold runUDPSearch, sgets. rewrite bind_gets, bind_gets, Hfound.
  cbv zeta. fold limit.
  assert ((if limit <? len found then take (Z.to_nat limit) found else found)
    = take (Z.to_nat limit) found) as ->.
  { destruct (Z.ltb_spec limit (len found)); [done|]. rewrite take_ge; [done|]. unfold len in *. lia. }
  destruct (new_writer_writing (job_addr job) udpOpGlobSearchRes u Hc) as (w & E & Hw).
  rewrite (bind_ok _ _ _ _ _ E).
  destruct (add_blocks_writing (job_addr job) _ udpOpGlobSearchRes u (omap result_block (take (Z.to_nat limit) found)) [] w u
    (conj Hpos Hmax) Hb Hw) as (w1 & u1 & E1 & Hw1).
  rewrite (bind_ok _ _ _ _ _ E1).
  destruct (writer_flush_writing _ _ _ _ _ _ _ Hb Hw1) as (w2 & u2 & E2 & _ & _ & ds & Hp & He).
  rewrite (bind_ok _ _ _ _ _ E2).
  eexists ds, _. split; [reflexivity|]. split; [done|]. exact (em_out _ _ _ He).
Qed.
End replies.

(** ** Witnesses *)

#[export] Instance block_ok_dec block : Decision (block_ok block).
Proof. unfold block_ok. apply _. Defined.

(** The shared file has a source, an unknown file has none. *)
Definition demo_requests : list (Hash * Z) :=
  [(replicate 16 x77, 700); (replicate 16 x01, 5000000000)].

Lemma ref_endpoints_length l : length (ref_endpoints l) = (6 * length l)%nat.
Proof.
  induction l as [|[ip port] l IH]; [done|]. cbn [ref_endpoints length]. rewrite !length_app, IH, !le_encode_length. lia.
Qed.

Lemma ref_replies_fit : replies_fit (L := ed2k_ref) (W := ed2k_wire_ref).
Proof.
  intros h reply raw Hh Hl. cbn [FoundFileSources_Put ed2k_wire_ref]. rewrite (proj2 (Z.ltb_lt _ _)) by lia.
  intros [= <-]. cbn [Hash_Bytes ed2k_ref] in Hh. unfold len in *. rewrite length_app, Hh. cbn [app length]. rewrite ref_endpoints_length.
  assert (forall n, Z.of_nat n <= 255 -> Z.of_nat (16 + S (6 * n)) < 2 ^ 60) as H; [|exact (H _ Hl)].
  intros n Hn. change (2 ^ 60) with 1152921504606846976. lia.
Qed.

Lemma sources_answered_witness : exists blocks datagrams u',
  handleUDPGetSources demo_peer (encode_requests true demo_requests ++ [x00]) true demo_service = (Ok true, u') /\
  Forall2 (fun req block => file_answer (us_server demo_service) req.1 block) demo_requests blocks /\
  packed 1300 (omap id blocks) datagrams /\ us_out u' = us_out demo_service ++ map (pair demo_peer) datagrams.
Proof.
  apply (sources_answered demo_service demo_peer true demo_requests [x00]).
  - vm_compute. reflexivity.
  - vm_compute. reflexivity.
  - vm_compute. reflexivity.
  - exact ref_replies_fit.
  - discriminate.
  - vm_compute. reflexivity.
  - repeat constructor; by vm_compute.
  - vm_compute. reflexivity.
Defined.

Definition demo_job : udpSearchJob :=
  mkJob demo_peer (makeSearchQuery (searchKeywordExpr (lit "song"))) false.

Lemma search_answered_witness :
  exists datagrams u', runUDPSearch demo_job demo_service = (Ok tt, u') /\
    us_out u' = us_out demo_service ++ map (pair demo_peer) datagrams.
Proof.
  destruct (searchAll (us_server demo_service) (job_query demo_job)) as [found|] eqn:E.
  2: { exfalso. apply (f_equal (fun o => match o with Some _ => true | None => false end)) in E.
       vm_compute in E. discriminate E. }
  destruct (search_answered demo_service demo_job found) as (_ & _ & ds & u' & Hrun & _ & Hout).
  - vm_compute. reflexivity.
  - vm_compute. reflexivity.
  - exact E.
  - assert (match searchAll (us_server demo_service) (job_query demo_job) with
            | Some found => bool_decide (Forall block_ok (omap result_block
                (take (Z.to_nat (search_limit (UDP (sv_cfg (us_server demo_service)))
                                   (job_packMany demo_job))) found)))
            | None => false end = true) as Hb by (vm_compute; reflexivity).
    rewrite E in Hb. by apply bool_decide_eq_true in Hb.
  - exists ds, u'. split; [exact Hrun|exact Hout].
Defined.
