(* ===== verification/Admin.v ===== *)
(** * The management interface (ed2ksrv/admin.go, ed2ksrv/admin_ui.go)

    Routing, the token check, paging, and every handler of the HTTP interface.
    A handler takes the request and returns the response, in the monad of the
    server. Of HTTP the model keeps what the handlers look at; a request body is
    JSON text, a response is the value that is encoded. Its text is in [AdminText];
    the page, the script and the style sheet are in [AdminScript], [AdminPage]. *)

From S2P Require Import StateErr.
From S2P Require Import Prelude GoStrings GoSort GoNet GoPath Ed2kLib Ed2kWire FileRecord CatalogJson.
From S2P Require Import Search Catalog Config PeerServers Text Frames AuditLog AdminLocale.
From S2P Require Import Server Snapshots.

Local Open Scope Z_scope.
Local Open Scope srv_scope.

(** ** Requests and responses *)

(** The path has no percent escapes, so its two forms in the URL agree. *)
Record Request := mkRequest {
  r_Method : bytes;
  r_Path : bytes;
  r_RemoteAddr : bytes;
  r_Query : bytes -> bytes;
  r_AdminToken : bytes;
  r_AcceptLanguage : bytes;
  r_Body : bytes
}.

Definition MethodGet : bytes := lit "GET".
Definition MethodPost : bytes := lit "POST".
Definition MethodDelete : bytes := lit "DELETE".

(** The texts of errors of other packages: of the decoder for the two request
    bodies, of [EndpointFromString], and of a failed save. *)
Class AdminTexts := {
  recordErrorText : bytes -> bytes;
  hashesErrorText : bytes -> bytes;
  endpointErrorText : SourceEntry -> bytes;
  saveErrorText : bytes
}.

Inductive adminErr :=
| ErrUnauthorized
| ErrMethodNotAllowed
| ErrMissingClientID
| ErrInvalidClientID (text : bytes)
| ErrClientNotFound
| ErrDecodeRecord (text : bytes)
| ErrDecodeBatch (text : bytes)
| ErrMissingHash
| ErrInvalidHash (text : bytes)
| ErrFileNotFound
| ErrServer (text : bytes).

(** What the page template receives. [ui_I18N] is the value whose JSON text the
    source passes in base64. *)
Record adminUIData := mkUIData {
  ui_ServerName : bytes;
  ui_Description : bytes;
  ui_TokenEnabled : bool;
  ui_Lang : bytes;
  ui_IsEN : bool;
  ui_IsZH : bool;
  ui_T : adminHTMLStrings;
  ui_I18N : adminJSStrings
}.

Inductive metaValue :=
| MetaInt (n : Z)
| MetaString (s : bytes).

Inductive apiData `{Ed2kLib} :=
| DataHealth (uptime : Z)
| DataStats (stats : ServerStats)
| DataAudit (entries : list AuditEntry)
| DataClients (clients : list ClientSnapshot)
| DataClient (client : ClientSnapshot)
| DataFiles (files : list FileRecord)
| DataFile (record : FileRecord)
| DataBatch (deleted missing : list bytes)
| DataHash (h : Hash)
| DataCatalogPath (path : bytes).

(** What is written: an [apiResponse], a page, the script, the style sheet, or
    what the package net/http answers itself. *)
Inductive respBody `{Ed2kLib} :=
| ApiOK (data : apiData) (meta : list (bytes * metaValue))
| ApiError (e : adminErr)
| BodyPage (data : adminUIData)
| BodyScript
| BodyStyles
| BodyNotFound
| BodyRedirect (path : bytes).

Record Response `{Ed2kLib} := mkResponse {
  resp_Status : Z;
  resp_Allow : list bytes;
  resp_Body : respBody
}.

Definition StatusOK : Z := 200.
Definition StatusCreated : Z := 201.
Definition StatusMovedPermanently : Z := 301.
Definition StatusBadRequest : Z := 400.
Definition StatusUnauthorized : Z := 401.
Definition StatusNotFound : Z := 404.
Definition StatusMethodNotAllowed : Z := 405.
Definition StatusInternalServerError : Z := 500.

Section writers.
Context {L : Ed2kLib}.

Definition writeAPI (status : Z) (data : apiData) (meta : list (bytes * metaValue)) : Response :=
  mkResponse _ status [] (ApiOK data meta).

Definition writeAPIError (status : Z) (e : adminErr) : Response :=
  mkResponse _ status [] (ApiError e).

Definition writeMethodNotAllowed (allow : list bytes) : Response :=
  mkResponse _ StatusMethodNotAllowed allow (ApiError ErrMethodNotAllowed).

Definition NotFound : Response := mkResponse _ StatusNotFound [] BodyNotFound.
End writers.

(** ** Paging *)

Definition parsePagination (r : Request) : Z * Z :=
  let page := match Atoi (r_Query r (lit "page")) with
              | Some value => if 0 <? value then value else 1
              | None => 1
              end in
  let perPage := match Atoi (r_Query r (lit "per_page")) with
                 | Some value => if 0 <? value then (if 500 <? value then 500 else value) else 50
                 | None => 50
                 end in
  (page, perPage).

Definition bounds (total page perPage : Z) : Z * Z :=
  let start := to_int (to_int (page - 1) * perPage) in
  let start := if start <? 0 then 0 else start in
  let start := if total <? start then total else start in
  let fin := to_int (start + perPage) in
  let fin := if total <? fin then total else fin in
  (start, fin).

Definition pageMeta (page perPage total count : Z) : list (bytes * metaValue) :=
  [(lit "page", MetaInt page); (lit "per_page", MetaInt perPage);
   (lit "count", MetaInt count); (lit "total", MetaInt total)].

(** [paginateFiles], [paginateClients] and the same lines for audit entries;
    [None] is a slice out of range. *)
Definition paginate {A} (entries : list A) (r : Request)
    : option (list A * list (bytes * metaValue)) :=
  let '(page, perPage) := parsePagination r in
  let '(start, fin) := bounds (len entries) page perPage in
  match (if start <? len entries then slice entries start fin else Some []) with
  | None => None
  | Some items => Some (items, pageMeta page perPage (len entries) (len items))
  end.

(** ** Filters and orders *)

Section filters.
Context {L : Ed2kLib} {U : UnicodeTables} {SS : SliceSort}.

Definition client_matches (search : bytes) (client : ClientSnapshot) : bool :=
  Contains (ToLower (sn_ClientName client)) search ||
  Contains (ToLower (sn_RemoteAddress client)) search ||
  Contains (ToLower (sn_ListenEndpoint client)) search ||
  Contains (ToLower (Hash_String (sn_ClientHash client))) search.

Definition search_text (r : Request) : bytes := ToLower (TrimSpace (r_Query r (lit "search"))).

Definition filterClients (clients : list ClientSnapshot) (r : Request) : list ClientSnapshot :=
  let search := search_text r in
  if bytes_eqb search [] then clients else List.filter (client_matches search) clients.

Definition file_matches (search fileType ext : bytes) (file : FileRecord) : bool :=
  if negb (bytes_eqb search []) && negb (Contains (ToLower (fr_Name file)) search)
     && negb (Contains (ToLower (Hash_String (fr_Hash file))) search) then false
  else if negb (bytes_eqb fileType []) && negb (EqualFold (fr_FileType file) fileType) then false
  else if negb (bytes_eqb ext []) && negb (EqualFold (fr_Extension file) ext) then false
  else true.

Definition filterFiles (files : list FileRecord) (r : Request) : list FileRecord :=
  let search := search_text r in
  let fileType := TrimSpace (r_Query r (lit "file_type")) in
  let ext := TrimSpace (r_Query r (lit "extension")) in
  List.filter (file_matches search fileType ext) files.

Definition file_less (field : bytes) (a b : FileRecord) : bool :=
  if bytes_eqb field (lit "size") then fr_Size b <? fr_Size a
  else if bytes_eqb field (lit "sources") then fr_Sources b <? fr_Sources a
  else bytes_ltb (ToLower (fr_Name a)) (ToLower (fr_Name b)).

Definition sortFiles (files : list FileRecord) (field : bytes) : list FileRecord :=
  Slice (file_less field) files.

Definition client_less (field : bytes) (a b : ClientSnapshot) : bool :=
  if bytes_eqb field (lit "connected_at") then sn_ConnectedAt b <? sn_ConnectedAt a
  else if bytes_eqb field (lit "last_seen_at") then sn_LastSeenAt b <? sn_LastSeenAt a
  else if bytes_eqb field (lit "name")
  then bytes_ltb (ToLower (sn_ClientName a)) (ToLower (sn_ClientName b))
  else sn_ClientID a <? sn_ClientID b.

Definition sortClients (clients : list ClientSnapshot) (field : bytes) : list ClientSnapshot :=
  Slice (client_less field) clients.
End filters.

Section admin.
Context {L : Ed2kLib} {W : Ed2kWire} {U : UnicodeTables} {MI : MapIter} {D : TextDecoder}.
Context {ZL : Zlib} {PC : PacketCombiner} {WD : World} {SS : SliceSort} {HJ : HashJson} {AT : AdminTexts}.

(** ** Audit entries and error texts *)

Definition audit (action resource resourceID remoteAddr status detail : bytes) : M unit :=
  do! t := now in
  modify (fun s => set_sv_auditLog (appendAudit (sv_auditLog s) t
    (mkAudit 0 action resource resourceID remoteAddr status detail)) s).

(** [err.Error()] of a failed change of the catalog; [endpoints] are those of
    the record. *)
Definition error_text (endpoints : list SourceEntry) (e : srvErr) : bytes :=
  match e with
  | ErrUpsert ErrHashRequired => lit "hash is required"
  | ErrUpsert ErrNameRequired => lit "name is required"
  | ErrUpsert ErrSizeNotPositive => lit "size must be positive"
  | ErrUpsert (ErrEndpointInvalid idx) =>
    lit "endpoints[" ++ Itoa (Z.of_nat idx) ++ lit "] invalid: " ++
    match endpoints !! idx with Some e => endpointErrorText e | None => [] end
  | _ => saveErrorText
  end.

(** ** Handlers *)

Definition handler := Request -> M Response.

Definition withAdminAuth (next : handler) : handler := fun r =>
  do! cfg := gets sv_cfg in
  if bytes_eqb (TrimSpace (AdminToken cfg)) [] then next r
  else if negb (bytes_eqb (r_AdminToken r) (AdminToken cfg))
  then ret (writeAPIError StatusUnauthorized ErrUnauthorized)
  else next r.

(** A handler for one method. *)
Definition only (method : bytes) (next : handler) : handler := fun r =>
  if negb (bytes_eqb (r_Method r) method) then ret (writeMethodNotAllowed [method]) else next r.

Definition handleHealthz : handler := only MethodGet (fun r =>
  do! stats := gets StatsSnapshot in
  do! t := now in
  ret (writeAPI StatusOK (DataHealth (to_int64 (t - st_StartedAt stats))) [])).

Definition handleAdminStats : handler := only MethodGet (fun r =>
  do! stats := gets StatsSnapshot in
  do! c := gets sv_catalog in
  ret (writeAPI StatusOK (DataStats stats)
         [(lit "catalog_path", MetaString (Catalog_Path c));
          (lit "catalog_store", MetaString (Catalog_StoreDescription c))])).

Definition handleAdminAudit : handler := only MethodGet (fun r =>
  do! entries := gets (fun s => AuditSnapshot (sv_auditLog s)) in
  do! (items, meta) := of_option (paginate entries r) Panic in
  ret (writeAPI StatusOK (DataAudit items) meta)).

Definition handleAdminClients : handler := only MethodGet (fun r =>
  do! clients := gets ClientsSnapshot in
  let clients := sortClients (filterClients clients r) (r_Query r (lit "sort")) in
  do! (items, meta) := of_option (paginate clients r) Panic in
  ret (writeAPI StatusOK (DataClients items) meta)).

Definition handleAdminClientByID : handler := fun r =>
  let clientIDText := TrimPrefix (r_Path r) (lit "/api/clients/") in
  if bytes_eqb clientIDText [] then ret (writeAPIError StatusBadRequest ErrMissingClientID)
  else if negb (bytes_eqb (r_Method r) MethodGet) then ret (writeMethodNotAllowed [MethodGet])
  else match ParseInt32 clientIDText with
       | None => ret (writeAPIError StatusBadRequest (ErrInvalidClientID clientIDText))
       | Some clientID =>
         do! client := gets (fun s => ClientSnapshotByID s (to_int32 clientID)) in
         match client with
         | None => ret (writeAPIError StatusNotFound ErrClientNotFound)
         | Some client => ret (writeAPI StatusOK (DataClient client) [])
         end
       end.

Definition listFiles : handler := fun r =>
  do! files := gets FilesSnapshot in
  let files := sortFiles (filterFiles files r) (r_Query r (lit "sort")) in
  do! (items, meta) := of_option (paginate files r) Panic in
  ret (writeAPI StatusOK (DataFiles items) meta).

Definition upsertFile : handler := fun r =>
  match decodeFileRecord (r_Body r) with
  | None =>
    let text := recordErrorText (r_Body r) in
    audit (lit "upsert") (lit "file") [] (r_RemoteAddr r) (lit "error") text ;;;
    ret (writeAPIError StatusBadRequest (ErrDecodeRecord text))
  | Some record =>
    let id := Hash_String (fr_Hash record) in
    do! result := try_ (UpsertFile record) in
    match result with
    | Err e =>
      let text := error_text (fr_Endpoints record) e in
      audit (lit "upsert") (lit "file") id (r_RemoteAddr r) (lit "error") text ;;;
      ret (writeAPIError StatusBadRequest (ErrServer text))
    | Ok _ =>
      do! stored := gets (fun s => FileSnapshot s (fr_Hash record)) in
      audit (lit "upsert") (lit "file") id (r_RemoteAddr r) [] [] ;;;
      ret (writeAPI StatusCreated (DataFile (default zero_file stored))
             [(lit "status", MetaString (lit "upserted"))])
    end
  end.

Definition handleAdminFiles : handler := fun r =>
  if bytes_eqb (r_Method r) MethodGet then listFiles r
  else if bytes_eqb (r_Method r) MethodPost then upsertFile r
  else ret (writeMethodNotAllowed [MethodGet; MethodPost]).

(** The loop over the hashes: the deleted and the missing ones, or the hash at
    which an error ended it. *)
Fixpoint batch_delete (hashes deleted missing : list bytes)
    : M (list bytes * list bytes + bytes * srvErr) :=
  match hashes with
  | [] => ret (inl (deleted, missing))
  | hashText :: rest =>
    match HashFromString hashText with
    | None => batch_delete rest deleted (missing ++ [hashText])
    | Some hash =>
      do! result := try_ (DeleteFile hash) in
      match result with
      | Err e => ret (inr (hashText, e))
      | Ok ok =>
        if ok : bool then batch_delete rest (deleted ++ [Hash_String hash]) missing
        else batch_delete rest deleted (missing ++ [Hash_String hash])
      end
    end
  end.

Definition handleAdminBatchDeleteFiles : handler := only MethodPost (fun r =>
  match decodeHashes (r_Body r) with
  | None =>
    let text := hashesErrorText (r_Body r) in
    audit (lit "batch_delete") (lit "file") [] (r_RemoteAddr r) (lit "error") text ;;;
    ret (writeAPIError StatusBadRequest (ErrDecodeBatch text))
  | Some hashes =>
    do! result := batch_delete hashes [] [] in
    match result with
    | inr (hashText, e) =>
      let text := error_text [] e in
      audit (lit "batch_delete") (lit "file") hashText (r_RemoteAddr r) (lit "error") text ;;;
      ret (writeAPIError StatusInternalServerError (ErrServer text))
    | inl (deleted, missing) =>
      audit (lit "batch_delete") (lit "file") [] (r_RemoteAddr r) []
        (lit "deleted=" ++ Itoa (len deleted) ++ lit " missing=" ++ Itoa (len missing)) ;;;
      ret (writeAPI StatusOK (DataBatch deleted missing)
             [(lit "status", MetaString (lit "batch_deleted"))])
    end
  end).

Definition deleteFile (hash : Hash) : handler := fun r =>
  let id := Hash_String hash in
  do! result := try_ (DeleteFile hash) in
  match result with
  | Err e =>
    let text := error_text [] e in
    audit (lit "delete") (lit "file") id (r_RemoteAddr r) (lit "error") text ;;;
    ret (writeAPIError StatusInternalServerError (ErrServer text))
  | Ok deleted =>
    if negb deleted then
      audit (lit "delete") (lit "file") id (r_RemoteAddr r) (lit "error") (lit "file not found") ;;;
      ret (writeAPIError StatusNotFound ErrFileNotFound)
    else
      audit (lit "delete") (lit "file") id (r_RemoteAddr r) [] [] ;;;
      ret (writeAPI StatusOK (DataHash hash) [(lit "status", MetaString (lit "deleted"))])
  end.

Definition handleAdminFileByHash : handler := fun r =>
  let hashText := TrimPrefix (r_Path r) (lit "/api/files/") in
  if bytes_eqb hashText [] then ret (writeAPIError StatusBadRequest ErrMissingHash)
  else match HashFromString hashText with
       | None => ret (writeAPIError StatusBadRequest (ErrInvalidHash hashText))
       | Some hash =>
         if bytes_eqb (r_Method r) MethodGet then
           do! record := gets (fun s => FileSnapshot s hash) in
           match record with
           | None => ret (writeAPIError StatusNotFound ErrFileNotFound)
           | Some record => ret (writeAPI StatusOK (DataFile record) [])
           end
         else if bytes_eqb (r_Method r) MethodDelete then deleteFile hash r
         else ret (writeMethodNotAllowed [MethodGet; MethodDelete])
       end.

Definition handleAdminPersist : handler := only MethodPost (fun r =>
  do! result := try_ persistCatalog in
  match result with
  | Err e =>
    let text := error_text [] e in
    audit (lit "persist") (lit "catalog") [] (r_RemoteAddr r) (lit "error") text ;;;
    ret (writeAPIError StatusInternalServerError (ErrServer text))
  | Ok _ =>
    audit (lit "persist") (lit "catalog") [] (r_RemoteAddr r) [] [] ;;;
    do! c := gets sv_catalog in
    ret (writeAPI StatusOK (DataCatalogPath (Catalog_Path c))
           [(lit "status", MetaString (lit "persisted"))])
  end).

(** ** Pages *)

Definition handleAdminUI : handler := only MethodGet (fun r =>
  if negb (bytes_eqb (r_Path r) (lit "/")) && negb (has_prefix (lit "/clients/") (r_Path r))
     && negb (has_prefix (lit "/files/") (r_Path r)) then ret NotFound
  else
    do! cfg := gets sv_cfg in
    let lang := resolveAdminLocale (r_Query r (lit "lang")) (r_AcceptLanguage r) in
    let '(html, js) := getAdminLocalePack lang in
    ret (mkResponse _ StatusOK [] (BodyPage
      (mkUIData (ServerName cfg) (ServerDescription cfg)
         (negb (bytes_eqb (TrimSpace (AdminToken cfg)) [])) lang
         (bytes_eqb lang (lit "en")) (bytes_eqb lang (lit "zh")) html js)))).

Definition handleAdminJS : handler := fun r =>
  if negb (bytes_eqb (r_Path r) (lit "/app.js")) then ret NotFound
  else only MethodGet (fun _ => ret (mkResponse _ StatusOK [] BodyScript)) r.

Definition handleAdminCSS : handler := fun r =>
  if negb (bytes_eqb (r_Path r) (lit "/app.css")) then ret NotFound
  else only MethodGet (fun _ => ret (mkResponse _ StatusOK [] BodyStyles)) r.

(** ** Routes *)

(** The patterns of [adminMux]; the flag tells which are behind the token. *)
Inductive route :=
| RouteUI | RouteJS | RouteCSS | RouteHealthz | RouteAudit | RouteStats | RouteClients
| RouteClientByID | RouteBatchDelete | RouteFiles | RouteFileByHash | RoutePersist.

Definition patterns : list (bytes * route) :=
  [(lit "/clients/", RouteUI); (lit "/files/", RouteUI); (lit "/", RouteUI);
   (lit "/app.js", RouteJS); (lit "/app.css", RouteCSS);
   (lit "/healthz", RouteHealthz); (lit "/api/healthz", RouteHealthz);
   (lit "/api/audit", RouteAudit); (lit "/api/stats", RouteStats);
   (lit "/api/clients", RouteClients); (lit "/api/clients/", RouteClientByID);
   (lit "/api/files/batch-delete", RouteBatchDelete); (lit "/api/files", RouteFiles);
   (lit "/api/files/", RouteFileByHash); (lit "/api/persist", RoutePersist)].

Definition route_handler (rt : route) : handler :=
  match rt with
  | RouteUI => handleAdminUI
  | RouteJS => handleAdminJS
  | RouteCSS => handleAdminCSS
  | RouteHealthz => handleHealthz
  | RouteAudit => withAdminAuth handleAdminAudit
  | RouteStats => withAdminAuth handleAdminStats
  | RouteClients => withAdminAuth handleAdminClients
  | RouteClientByID => withAdminAuth handleAdminClientByID
  | RouteBatchDelete => withAdminAuth handleAdminBatchDeleteFiles
  | RouteFiles => withAdminAuth handleAdminFiles
  | RouteFileByHash => withAdminAuth handleAdminFileByHash
  | RoutePersist => withAdminAuth handleAdminPersist
  end.

(** [http.ServeMux]: a pattern that ends in a slash matches the paths below it,
    and the longest pattern wins. *)
Definition pattern_matches (path pattern : bytes) : bool :=
  bytes_eqb path pattern || ends_with_slash pattern && has_prefix pattern path.

Definition best_pattern (path : bytes) : option (bytes * route) :=
  foldl (fun best p =>
    if pattern_matches path p.1 &&
       match best with None => true | Some b => len b.1 <? len p.1 end
    then Some p else best) None patterns.

(** A path that is only known with a slash behind it, or that is not in
    canonical form, is redirected; CONNECT requests are not cleaned. *)
Definition exact_pattern (path : bytes) : bool :=
  existsb (fun p => bytes_eqb path p.1) patterns.

Definition redirect_slash (path : bytes) : bool :=
  negb (exact_pattern path) && negb (ends_with_slash path) && exact_pattern (path ++ [slash]).

Definition adminMux : handler := fun r =>
  let path := if bytes_eqb (r_Method r) (lit "CONNECT") then r_Path r else cleanPath (r_Path r) in
  if redirect_slash path
  then ret (mkResponse _ StatusMovedPermanently [] (BodyRedirect (path ++ [slash])))
  else if negb (bytes_eqb path (r_Path r))
  then ret (mkResponse _ StatusMovedPermanently [] (BodyRedirect path))
  else match best_pattern path with
       | None => ret NotFound
       | Some (_, rt) => route_handler rt r
       end.
End admin.
