(* ===== verification/AdminText.v ===== *)
(** * Answers of the management interface as text (ed2ksrv/admin.go, server.go, audit.go)

    The JSON document that [writeAPI] and [writeAPIError] send: the tags of the
    snapshot types, maps with their keys in order, times in the local zone, and
    the texts of errors. *)

From S2P Require Import StateErr.
From S2P Require Import Prelude GoStrings GoUtf8 GoSort GoNet GoTime Json JsonFacts JsonDecode.
From S2P Require Import Ed2kLib Ed2kRef Ed2kWire FileRecord CatalogJson Search Catalog Config.
From S2P Require Import PeerServers Text Frames AuditLog AdminLocale Server Snapshots Admin.

Local Open Scope Z_scope.

(** [time.Local]: how many seconds its clock is ahead of UTC at a Unix time. *)
Class LocalZone := { local_offset : Z -> Z }.

(** Zones are whole minutes, less than a day away. *)
Class LocalZoneLaws `{LocalZone} : Prop := {
  zone_minutes u : local_offset u mod 60 = 0 /\ Z.abs (local_offset u) < 86400
}.

(** The texts of errors of [strconv.ParseInt] and of [protocol.HashFromString]. *)
Class ParseTexts := {
  clientIDErrorText : bytes -> bytes;
  hashErrorText : bytes -> bytes
}.

Section times.
Context {LZ : LocalZone}.

Definition zone_of (t : Z) : Z := local_offset (t / Second).

(** [time.Time.MarshalJSON] refuses a year of more than four digits. *)
Definition time_json (t : Z) : option json :=
  let year := year_of (zone_of t) t in
  if (0 <=? year) && (year <=? 9999) then Some (JString (RFC3339Nano (zone_of t) t)) else None.
End times.

(** ** Snapshots *)

(** A field with [omitempty]. *)
Definition omit_empty (name text : bytes) : list (bytes * json) :=
  if bytes_eqb text [] then [] else [(name, JString text)].

Definition AuditEntry_names : list bytes :=
  [lit "time"; lit "action"; lit "resource"; lit "resource_id"; lit "remote_addr"; lit "status"; lit "detail"].

Definition ClientSnapshot_names : list bytes :=
  [lit "client_id"; lit "client_name"; lit "client_hash"; lit "remote_address"; lit "listen_endpoint";
   lit "connected_at"; lit "last_seen_at"; lit "search_requests"; lit "source_requests";
   lit "callback_requests"; lit "inbound_packets"; lit "outbound_packets"; lit "inbound_bytes";
   lit "outbound_bytes"].

(** The counters of [ServerStats], by their tags. *)
Definition counter_names : list (bytes * counter) :=
  [(lit "total_connections", TotalConnections); (lit "total_disconnects", TotalDisconnects);
   (lit "inbound_packets", InboundPackets); (lit "outbound_packets", OutboundPackets);
   (lit "inbound_bytes", InboundBytes); (lit "outbound_bytes", OutboundBytes);
   (lit "search_requests", SearchRequests); (lit "search_result_packets", SearchResultPackets);
   (lit "search_result_entries", SearchResultEntries); (lit "source_requests", SourceRequests);
   (lit "callback_requests", CallbackRequests); (lit "files_registered", FilesRegistered);
   (lit "files_removed", FilesRemoved); (lit "persist_writes", PersistWrites);
   (lit "udp_search_requests", UDPSearchRequests); (lit "udp_source_requests", UDPSourceRequests);
   (lit "udp_dropped", UDPDropped); (lit "udp_malformed", UDPMalformed);
   (lit "udp_rate_limited", UDPRateLimited); (lit "conn_rate_limited", ConnRateLimited);
   (lit "offer_files_dropped", OfferFilesDropped); (lit "callback_rate_limited", CallbackRateLimited);
   (lit "peer_status_replies", PeerStatusReplies); (lit "peers_learned", PeersLearned);
   (lit "http_probes", HTTPProbes)].

Definition ServerStats_names : list bytes :=
  [lit "started_at"; lit "current_clients"; lit "current_files"] ++ map fst counter_names ++ [lit "peers"].

Section snapshots.
Context {L : Ed2kLib} {HJ : HashJson} {LZ : LocalZone}.

Definition encode_AuditEntry (e : AuditEntry) : option json :=
  time ← time_json (au_Time e);
  Some (JObject
    ([(lit "time", time); (lit "action", JString (au_Action e)); (lit "resource", JString (au_Resource e))]
     ++ omit_empty (lit "resource_id") (au_ResourceID e) ++ omit_empty (lit "remote_addr") (au_RemoteAddr e)
     ++ [(lit "status", JString (au_Status e))] ++ omit_empty (lit "detail") (au_Detail e))).

Definition encode_ClientSnapshot (c : ClientSnapshot) : option json :=
  hash ← Hash_MarshalJSON (sn_ClientHash c);
  connected ← time_json (sn_ConnectedAt c);
  seen ← time_json (sn_LastSeenAt c);
  Some (JObject
    [(lit "client_id", encode_int (sn_ClientID c)); (lit "client_name", JString (sn_ClientName c));
     (lit "client_hash", hash); (lit "remote_address", JString (sn_RemoteAddress c));
     (lit "listen_endpoint", JString (sn_ListenEndpoint c)); (lit "connected_at", connected);
     (lit "last_seen_at", seen); (lit "search_requests", encode_int (sn_SearchRequests c));
     (lit "source_requests", encode_int (sn_SourceRequests c));
     (lit "callback_requests", encode_int (sn_CallbackRequests c));
     (lit "inbound_packets", encode_int (sn_InboundPackets c));
     (lit "outbound_packets", encode_int (sn_OutboundPackets c));
     (lit "inbound_bytes", encode_int (sn_InboundBytes c));
     (lit "outbound_bytes", encode_int (sn_OutboundBytes c))]).

Definition encode_ServerStats (st : ServerStats) : option json :=
  started ← time_json (st_StartedAt st);
  Some (JObject
    ([(lit "started_at", started); (lit "current_clients", encode_int (st_CurrentClients st));
      (lit "current_files", encode_int (st_CurrentFiles st))]
     ++ map (fun '(name, k) => (name, encode_int (st_Counters st k))) counter_names
     ++ [(lit "peers", encode_int (st_Peers st))])).

(** ** Answers *)

(** A map: its keys in the order of their bytes. *)
Definition map_json (entries : list (bytes * json)) : json :=
  JObject (SliceStable (fun a b => bytes_ltb a.1 b.1) entries).

Definition meta_json (v : metaValue) : json :=
  match v with MetaInt n => encode_int n | MetaString s => JString s end.

Definition data_json (data : apiData) : option json :=
  match data with
  | DataHealth uptime =>
    Some (map_json [(lit "status", JString (lit "ok")); (lit "uptime", JString (Duration_String uptime))])
  | DataStats stats => encode_ServerStats stats
  | DataAudit entries => js ← mapM encode_AuditEntry entries; Some (JArray js)
  | DataClients clients => js ← mapM encode_ClientSnapshot clients; Some (JArray js)
  | DataClient client => encode_ClientSnapshot client
  | DataFiles files => js ← mapM encode_FileRecord files; Some (JArray js)
  | DataFile record => encode_FileRecord record
  | DataBatch deleted missing =>
    Some (map_json [(lit "deleted", JArray (map JString deleted)); (lit "missing", JArray (map JString missing))])
  | DataHash h => hash ← Hash_MarshalJSON h; Some (map_json [(lit "hash", hash)])
  | DataCatalogPath path => Some (map_json [(lit "catalog_path", JString path)])
  end.

(** [err.Error()] *)
Definition adminErr_text `{ParseTexts} (e : adminErr) : bytes :=
  match e with
  | ErrUnauthorized => lit "unauthorized"
  | ErrMethodNotAllowed => lit "method not allowed"
  | ErrMissingClientID => lit "missing client id"
  | ErrInvalidClientID text => lit "invalid client id: " ++ clientIDErrorText text
  | ErrClientNotFound => lit "client not found"
  | ErrDecodeRecord text => lit "decode file record: " ++ text
  | ErrDecodeBatch text => lit "decode batch delete request: " ++ text
  | ErrMissingHash => lit "missing file hash"
  | ErrInvalidHash text => lit "invalid file hash: " ++ hashErrorText text
  | ErrFileNotFound => lit "file not found"
  | ErrServer text => text
  end.

(** [apiResponse] *)
Definition api_json `{ParseTexts} (body : respBody) : option json :=
  match body with
  | ApiOK data meta =>
    d ← data_json data;
    Some (JObject
      ([(lit "ok", JBool true); (lit "data", d)]
       ++ match meta with
          | [] => []
          | _ => [(lit "meta", map_json (map (fun '(k, v) => (k, meta_json v)) meta))]
          end))
  | ApiError e => Some (JObject ((lit "ok", JBool false) :: omit_empty (lit "error") (adminErr_text e)))
  | _ => None
  end.

(** [json.NewEncoder(w).Encode]: the document on a line of its own. *)
Definition api_text `{ParseTexts} (body : respBody) : option bytes :=
  j ← api_json body; Some (Marshal j ++ [x0a]).
End snapshots.
