(* ===== verification/AdminFacts.v ===== *)
(** * Properties of the management interface: orders and paging

    The sort orders are orders, and pages partition a list as long as their
    bounds do not overflow. [AdminRuns] has what requests do. *)

From S2P Require Import StateErr.
From S2P Require Import Prelude GoStrings GoSort GoNet GoPath Ed2kLib Ed2kWire FileRecord.
From S2P Require Import Search Catalog Config PeerServers Text Frames AuditLog AdminLocale.
From S2P Require Import Server Snapshots Admin.

Local Open Scope Z_scope.
Local Open Scope srv_scope.

(** ** Orders *)

#[export] Instance bytes_ltb_order : strict_weak_order bytes_ltb.
Proof.
  constructor.
  - induction a as [|a s IH]; [done|]. cbn [bytes_ltb]. by rewrite Z.ltb_irrefl.
  - induction a as [|a s IH]; intros [|b t] [|c u]; cbn [bytes_ltb]; try done.
    destruct (Z.ltb_spec (byteZ a) (byteZ b)), (Z.ltb_spec (byteZ b) (byteZ c)),
      (Z.ltb_spec (byteZ a) (byteZ c)), (Z.ltb_spec (byteZ b) (byteZ a)),
      (Z.ltb_spec (byteZ c) (byteZ b)), (Z.ltb_spec (byteZ c) (byteZ a)); try done; try lia; apply IH.
  - induction a as [|a s IH]; intros [|b t] [|c u]; cbn [bytes_ltb]; try done.
    destruct (Z.ltb_spec (byteZ a) (byteZ b)), (Z.ltb_spec (byteZ b) (byteZ c)),
      (Z.ltb_spec (byteZ a) (byteZ c)), (Z.ltb_spec (byteZ b) (byteZ a)),
      (Z.ltb_spec (byteZ c) (byteZ b)), (Z.ltb_spec (byteZ c) (byteZ a)); try done; try lia; apply IH.
Qed.

(** An order on images, and one on numbers. *)
Lemma order_by {A B} (f : A -> B) less :
  strict_weak_order less -> strict_weak_order (fun a b => less (f a) (f b)).
Proof.
  intros Hw. constructor; intros *;
    [apply swo_irrefl|apply swo_trans|apply swo_incomp].
Qed.

Lemma order_Z {A} (f : A -> Z) : strict_weak_order (fun a b => f a <? f b).
Proof. constructor; intros *; rewrite ?Z.ltb_lt, ?Z.ltb_ge; lia. Qed.

Lemma order_Z_desc {A} (f : A -> Z) : strict_weak_order (fun a b => f b <? f a).
Proof. constructor; intros *; rewrite ?Z.ltb_lt, ?Z.ltb_ge; lia. Qed.

#[export] Instance file_less_order `{Ed2kLib} `{UnicodeTables} field :
  strict_weak_order (file_less field).
Proof.
  unfold file_less. destruct (bytes_eqb field _); [apply order_Z_desc|].
  destruct (bytes_eqb field _); [apply order_Z_desc|].
  apply (order_by (fun f => ToLower (fr_Name f))), _.
Qed.

#[export] Instance client_less_order `{Ed2kLib} `{UnicodeTables} field :
  strict_weak_order (client_less field).
Proof.
  unfold client_less. destruct (bytes_eqb field _); [apply order_Z_desc|].
  destruct (bytes_eqb field _); [apply order_Z_desc|].
  destruct (bytes_eqb field _); [|apply order_Z].
  apply (order_by (fun c => ToLower (sn_ClientName c))), _.
Qed.

(** ** Paging *)

Lemma parsePagination_range r :
  0 < (parsePagination r).1 < 2 ^ 63 /\ 1 <= (parsePagination r).2 <= 500.
Proof.
  unfold parsePagination. cbn [fst snd]. split.
  - destruct (Atoi _) as [v|] eqn:E; [|lia]. apply Atoi_range in E. unfold in_s in E.
    destruct (Z.ltb_spec 0 v); simpl in *; lia.
  - destruct (Atoi _) as [v|]; [|lia].
    destruct (Z.ltb_spec 0 v); [|lia]. destruct (Z.ltb_spec 500 v); lia.
Qed.

(** The request for another page. *)
Definition with_page (r : Request) (page : Z) : Request :=
  mkRequest (r_Method r) (r_Path r) (r_RemoteAddr r)
    (fun key => if bytes_eqb key (lit "page") then Itoa page else r_Query r key)
    (r_AdminToken r) (r_AcceptLanguage r) (r_Body r).

Lemma parse_with_page r page :
  0 < page < 2 ^ 63 -> parsePagination (with_page r page) = (page, (parsePagination r).2).
Proof.
  intros Hp. unfold parsePagination, with_page. cbn [r_Query snd].
  rewrite (proj2 (bytes_eqb_eq (lit "page") (lit "page"))) by done.
  rewrite (proj2 (bytes_eqb_neq (lit "per_page") (lit "page"))) by done.
  rewrite Atoi_Itoa by lia. by rewrite (proj2 (Z.ltb_lt _ _)) by lia.
Qed.

(** Without overflow the bounds are those of the page. *)
Lemma bounds_exact total page perPage :
  0 <= total < 2 ^ 62 -> 0 < page < 2 ^ 63 -> 1 <= perPage <= 500 -> (page - 1) * perPage < 2 ^ 63 ->
  bounds total page perPage =
    (Z.min ((page - 1) * perPage) total, Z.min (Z.min ((page - 1) * perPage) total + perPage) total).
Proof.
  intros Ht Hp Hpp Hm. unfold bounds. simpl in *.
  rewrite (to_int_id (page - 1)) by (unfold in_s; simpl; lia).
  rewrite (to_int_id ((page - 1) * perPage)) by (unfold in_s; simpl; nia).
  destruct (Z.ltb_spec ((page - 1) * perPage) 0); [nia|].
  assert ((if total <? (page - 1) * perPage then total else (page - 1) * perPage)
          = Z.min ((page - 1) * perPage) total) as ->.
  { destruct (Z.ltb_spec total ((page - 1) * perPage)); lia. }
  rewrite to_int_id by (unfold in_s; simpl; lia).
  f_equal. destruct (Z.ltb_spec total (Z.min ((page - 1) * perPage) total + perPage)); lia.
Qed.

(** The entries of a page that starts at [start]. *)
Lemma page_slice {A} (entries : list A) start perPage :
  0 <= start -> 0 <= perPage ->
  let from := Z.min start (len entries) in
  (if from <? len entries then slice entries from (Z.min (from + perPage) (len entries)) else Some [])
  = Some (take (Z.to_nat perPage) (drop (Z.to_nat start) entries)).
Proof.
  intros Hs Hp. cbv zeta. pose proof (len_nonneg entries) as Hn.
  destruct (Z.ltb_spec (Z.min start (len entries)) (len entries)) as [Hlt|Hge].
  - rewrite Z.min_l in * by lia. unfold slice.
    destruct (Z.leb_spec 0 start); [|lia].
    destruct (Z.leb_spec start (Z.min (start + perPage) (len entries))); [|lia].
    destruct (Z.leb_spec (Z.min (start + perPage) (len entries)) (len entries)); [|lia]. cbn [andb].
    f_equal. destruct (Z.min_spec (start + perPage) (len entries)) as [[? ->]|[? ->]].
    + f_equal. lia.
    + rewrite !take_ge; [done|rewrite length_drop; unfold len in *; lia..].
  - rewrite drop_ge by (unfold len in *; lia). by rewrite take_nil.
Qed.

Lemma paginate_exact {A} (entries : list A) r page perPage :
  parsePagination r = (page, perPage) -> len entries < 2 ^ 62 -> (page - 1) * perPage < 2 ^ 63 ->
  let items := take (Z.to_nat perPage) (drop (Z.to_nat ((page - 1) * perPage)) entries) in
  paginate entries r = Some (items, pageMeta page perPage (len entries) (len items)).
Proof.
  intros Hr Hl Hm. cbv zeta. pose proof (parsePagination_range r) as [Hp Hpp]. rewrite Hr in Hp, Hpp.
  cbn [fst snd] in *. pose proof (len_nonneg entries). unfold paginate. rewrite Hr.
  rewrite bounds_exact by lia. by rewrite page_slice by nia.
Qed.

Lemma concat_slices {A} (l : list A) p n :
  concat (map (fun k => take p (drop (k * p) l)) (seq 0 n)) = take (n * p) l.
Proof.
  induction n as [|n IH]; [done|]. rewrite seq_S, map_app, concat_app, IH. cbn [map concat].
  rewrite app_nil_r, take_take_drop. f_equal. lia.
Qed.

(** The pages of a list are a partition of it: with any page size, as many
    pages as it takes, asked for one after the other, concatenate to the list,
    each reported with its number, its size and the length of the whole list. *)
Lemma paginate_pages {A} (entries : list A) r n :
  let perPage := (parsePagination r).2 in
  len entries < 2 ^ 62 -> len entries <= Z.of_nat n * perPage < 2 ^ 63 ->
  exists pages, length pages = n /\ concat pages = entries /\
    forall k page, pages !! k = Some page ->
      paginate entries (with_page r (Z.of_nat k + 1)) =
        Some (page, pageMeta (Z.of_nat k + 1) perPage (len entries) (len page)).
Proof.
  cbv zeta. intros Hl Hn. pose proof (parsePagination_range r) as [_ Hpp].
  set (p := (parsePagination r).2) in *.
  exists (map (fun k => take (Z.to_nat p) (drop (k * Z.to_nat p) entries)) (seq 0 n)).
  split; [by rewrite length_map, length_seq|]. split.
  - rewrite concat_slices. apply take_ge. unfold len in *. nia.
  - intros k page Hk. change (map ?f ?l) with (f <$> l) in Hk.
    apply list_lookup_fmap_Some in Hk as (j & -> & Hj). apply lookup_seq in Hj as [-> Hlt].
    rewrite (paginate_exact entries _ (Z.of_nat k + 1) p).
    + replace (Z.to_nat ((Z.of_nat k + 1 - 1) * p)) with (k * Z.to_nat p)%nat; [done|].
      by rewrite Z.add_simpl_r, Z2Nat.inj_mul, Nat2Z.id by lia.
    + apply parse_with_page. nia.
    + done.
    + nia.
Qed.

(** The start of a page is computed in 64 bits and may wrap around: with four
    entries per page, page 2^62+1 of any list shows its first entries. *)
Theorem page_overflow_wraps {A} (entries : list A) r :
  len entries < 2 ^ 62 -> (parsePagination r).2 = 4 ->
  paginate entries (with_page r (2 ^ 62 + 1)) =
    Some (take 4 entries, pageMeta (2 ^ 62 + 1) 4 (len entries) (len (take 4 entries))).
Proof.
  intros Hl Hp. pose proof (len_nonneg entries) as Hn. unfold paginate.
  rewrite parse_with_page by lia. rewrite Hp.
  assert (bounds (len entries) (2 ^ 62 + 1) 4 = (0, Z.min 4 (len entries))) as ->.
  { unfold bounds. change (to_int (to_int (2 ^ 62 + 1 - 1) * 4)) with 0.
    change (0 <? 0) with false. cbv iota zeta.
    rewrite (proj2 (Z.ltb_ge (len entries) 0)) by done.
    change (to_int (0 + 4)) with 4. f_equal. destruct (Z.ltb_spec (len entries) 4); lia. }
  pose proof (page_slice entries 0 4 ltac:(lia) ltac:(lia)) as Hs. cbv zeta in Hs.
  rewrite Z.min_l in Hs by lia. change (0 + 4) with 4 in Hs. rewrite Hs. done.
Qed.

(** ** Witnesses *)

Lemma page_overflow_wraps_witness :
  let r := mkRequest MethodGet (lit "/api/files") [] (fun _ => lit "4") [] [] [] in
  paginate [1; 2; 3; 4; 5] (with_page r (2 ^ 62 + 1)) =
    Some ([1; 2; 3; 4], pageMeta (2 ^ 62 + 1) 4 5 4).
Proof. cbv zeta. apply (page_overflow_wraps [1; 2; 3; 4; 5]); vm_compute; done. Defined.
