(* ===== verification/AdminRuns.v ===== *)
(** * What requests to the management interface do

    Every request is answered, keeps the invariants of the server, and leaves
    either nothing or exactly one audit entry that tells how it ended; a request
    without the token is inert. [AdminFiles] has the files. *)

From S2P Require Import StateErr.
From S2P Require Import Prelude GoStrings GoSort GoNet GoPath Ed2kLib Ed2kRef Ed2kWire FileRecord.
From S2P Require Import Json CatalogJson CatalogJsonFacts Search Catalog CatalogFacts Config.
From S2P Require Import PeerServers Text Frames AuditLog.
From S2P Require Import AdminLocale Server ServerFacts FrameRule ServerInv ServerDemo ServerProps.
From S2P Require Import Snapshots Admin AdminFacts.

Local Open Scope Z_scope.
Local Open Scope srv_scope.

Section requests.
Context {L : Ed2kLib} {HL : Ed2kHashLaws} {W : Ed2kWire} {U : UnicodeTables}.
Context {MI : MapIter} {ML : MapIterLaws}.
Context {D : TextDecoder} {ZL : Zlib} {PC : PacketCombiner} {WD : World}.
Context {SS : SliceSort} {SL : SliceSortLaws} {HJ : HashJson} {AT : AdminTexts}.

(** ** Access *)

Definition token_required (s : Server) : Prop := TrimSpace (AdminToken (sv_cfg s)) <> [].

(** All that a client without the token can learn: how the server presents itself,
    and for how long it has been running. *)
Definition public_view (s : Server) : bytes * bytes * Z * nat :=
  (ServerName (sv_cfg s), ServerDescription (sv_cfg s), sv_startedAt s, sv_ticks s).

Definition protected (rt : route) : bool :=
  match rt with
  | RouteUI | RouteJS | RouteCSS | RouteHealthz => false
  | _ => true
  end.

Lemma withAdminAuth_denied next r s :
  token_required s -> r_AdminToken r <> AdminToken (sv_cfg s) ->
  withAdminAuth next r s = (Ok (writeAPIError StatusUnauthorized ErrUnauthorized), s).
Proof.
  intros Ht Hr. unfold withAdminAuth. rewrite bind_gets.
  rewrite (proj2 (bytes_eqb_neq _ _) Ht). by rewrite (proj2 (bytes_eqb_neq _ _) Hr).
Qed.

Lemma only_step method next r s :
  only method next r s =
    if bytes_eqb (r_Method r) method then next r s else (Ok (writeMethodNotAllowed [method]), s).
Proof. unfold only. by destruct (bytes_eqb (r_Method r) method). Qed.

(** An answer that leaves the state alone. *)
Ltac answered := do 2 eexists; split; [reflexivity|by left].

(** The handlers that need no token look at nothing else. *)
Lemma public_handler rt r s s2 :
  protected rt = false -> token_required s -> token_required s2 -> public_view s2 = public_view s ->
  (route_handler rt r s2).1 = (route_handler rt r s).1.
Proof.
  intros Hp Ht Ht2 [= E1 E2 E3 E4].
  destruct rt; try done; cbn [route_handler].
  - unfold handleAdminUI. rewrite !only_step. destruct (bytes_eqb (r_Method r) MethodGet); [|done].
    destruct (_ && _); [done|]. rewrite !bind_gets, E1, E2.
    rewrite (proj2 (bytes_eqb_neq _ _) Ht), (proj2 (bytes_eqb_neq _ _) Ht2). by destruct (getAdminLocalePack _).
  - unfold handleAdminJS. destruct (negb _); [done|]. rewrite !only_step. by destruct (bytes_eqb _ _).
  - unfold handleAdminCSS. destruct (negb _); [done|]. rewrite !only_step. by destruct (bytes_eqb _ _).
  - unfold handleHealthz. rewrite !only_step. destruct (bytes_eqb (r_Method r) MethodGet); [|done].
    rewrite !bind_gets. unfold bind, now, ret. cbn [fst st_StartedAt StatsSnapshot]. by rewrite E3, E4.
Qed.

Lemma public_handler_state rt r s :
  protected rt = false -> exists resp s', route_handler rt r s = (Ok resp, s') /\
    (s' = s \/ s' = set_sv_ticks (S (sv_ticks s)) s).
Proof.
  intros Hp. destruct rt; try done; cbn [route_handler].
  - unfold handleAdminUI. rewrite only_step. destruct (bytes_eqb (r_Method r) MethodGet); [|answered].
    destruct (_ && _); [answered|]. rewrite bind_gets. destruct (getAdminLocalePack _). answered.
  - unfold handleAdminJS. destruct (negb _); [answered|]. rewrite only_step. destruct (bytes_eqb _ _); answered.
  - unfold handleAdminCSS. destruct (negb _); [answered|]. rewrite only_step. destruct (bytes_eqb _ _); answered.
  - unfold handleHealthz. rewrite only_step. destruct (bytes_eqb (r_Method r) MethodGet); [|answered].
    rewrite bind_gets. unfold bind, now, ret. do 2 eexists. split; [reflexivity|by right].
Qed.

(** C24: while a token is configured, a request that does not carry it is inert:
    it changes nothing (a health check reads the clock), it is answered, and
    behind the token the answer is the refusal. The answer depends on nothing of
    the server but its name and its description, which the page shows, and its
    uptime, which the health check tells: a server with any other token, catalog,
    clients, files, statistics and log gives the same answer. *)
Theorem unauthorized_inert r s :
  token_required s -> r_AdminToken r <> AdminToken (sv_cfg s) ->
  exists resp s', adminMux r s = (Ok resp, s') /\
    (s' = s \/ s' = set_sv_ticks (S (sv_ticks s)) s) /\
    (forall s2, token_required s2 -> r_AdminToken r <> AdminToken (sv_cfg s2) ->
       public_view s2 = public_view s -> (adminMux r s2).1 = Ok resp) /\
    (forall pattern rt, cleanPath (r_Path r) = r_Path r -> redirect_slash (r_Path r) = false ->
       best_pattern (r_Path r) = Some (pattern, rt) -> protected rt = true ->
       resp = writeAPIError StatusUnauthorized ErrUnauthorized).
Proof.
  intros Ht Hr. unfold adminMux.
  set (path := if bytes_eqb (r_Method r) (lit "CONNECT") then r_Path r else cleanPath (r_Path r)).
  assert (cleanPath (r_Path r) = r_Path r -> path = r_Path r) as Hpath.
  { intros Hc. unfold path. destruct (bytes_eqb _ _); [done|exact Hc]. }
  destruct (redirect_slash path) eqn:E1.
  { do 2 eexists. split; [done|]. split; [by left|]. split; [done|].
    intros ? ? Hc Hn. rewrite (Hpath Hc) in E1. congruence. }
  destruct (bytes_eqb path (r_Path r)) eqn:E2; cbn [negb].
  2: { do 2 eexists. split; [done|]. split; [by left|]. split; [done|].
       intros ? ? Hc. apply Hpath in Hc. by apply bytes_eqb_neq in E2. }
  apply bytes_eqb_eq in E2. rewrite E2.
  destruct (best_pattern (r_Path r)) as [[pattern rt]|].
  2: { do 2 eexists. split; [done|]. split; [by left|]. by split. }
  destruct (protected rt) eqn:Hp.
  - assert (forall s2, token_required s2 -> r_AdminToken r <> AdminToken (sv_cfg s2) ->
      route_handler rt r s2 = (Ok (writeAPIError StatusUnauthorized ErrUnauthorized), s2)) as Hd.
    { intros s2 Ht2 Hr2. destruct rt; try done; cbn [route_handler]; by apply withAdminAuth_denied. }
    do 2 eexists. split; [by apply Hd|]. split; [by left|]. split; [|done].
    intros s2 Ht2 Hr2 _. by rewrite Hd.
  - destruct (public_handler_state rt r s Hp) as (resp & s' & E & Hs).
    exists resp, s'. split; [done|]. split; [done|]. split.
    + intros s2 Ht2 _ Hv. rewrite (public_handler rt r s s2 Hp Ht Ht2 Hv). by rewrite E.
    + intros pattern' rt' _ _ [= _ <-] Hp'. congruence.
Qed.

(** ** What a request leaves behind *)

Definition untouched (s s' : Server) : Prop :=
  sv_auditLog s' = sv_auditLog s /\ sv_catalog s' = sv_catalog s /\ sv_saved s' = sv_saved s.

(** One audit entry, from the sender of the request, that tells how it ended. *)
Definition recorded (r : Request) (s : Server) (resp : Response) (s' : Server) : Prop :=
  exists t entry, sv_auditLog s' = appendAudit (sv_auditLog s) t entry /\
    au_RemoteAddr entry = r_RemoteAddr r /\
    (au_Status entry = lit "error" <-> 400 <= resp_Status resp).

Definition log_ok (s : Server) : Prop := len (sv_auditLog s) <= maxAuditEntries.

(** The invariants of a server with an interface. *)
Definition kept (s s' : Server) : Prop :=
  server_ok s' /\ (tables_ok s -> tables_ok s').

Definition good (r : Request) (s : Server) (m : M Response) : Prop :=
  exists resp s', m s = (Ok resp, s') /\ kept s s' /\ log_ok s' /\
    (untouched s s' \/ recorded r s resp s').

Lemma appendAudit_len log t entry :
  len log <= maxAuditEntries -> len (appendAudit log t entry) <= maxAuditEntries.
Proof.
  intros Hl. rewrite appendAudit_last by done. unfold len, maxAuditEntries in *.
  rewrite length_drop, length_app. cbn [length]. lia.
Qed.

Lemma good_unchanged r s resp :
  server_ok s -> log_ok s -> good r s (ret resp).
Proof.
  intros Hs Hl. exists resp, s. split; [done|]. split; [by split|]. split; [done|]. by left.
Qed.

(** Answers that only read the state. *)
Lemma good_read r s {A} (f : Server -> A) (k : A -> M Response) :
  good r s (k (f s)) -> good r s (bind (gets f) k).
Proof. intros H. unfold good in *. by rewrite bind_gets. Qed.

Definition audited_state (s : Server) (entry : AuditEntry) : Server :=
  set_sv_auditLog (appendAudit (sv_auditLog s) (clock (sv_ticks s)) entry)
    (set_sv_ticks (S (sv_ticks s)) s).

(** The end of a handler: an audit entry, then the answer. *)
Lemma good_audit r s s1 action resource id status detail (m : M Response) resp :
  kept s s1 -> log_ok s -> sv_auditLog s1 = sv_auditLog s ->
  (let s2 := audited_state s1 (mkAudit 0 action resource id (r_RemoteAddr r) status detail) in
   m s2 = (Ok resp, s2)) ->
  (status = lit "error" <-> 400 <= resp_Status resp) ->
  exists s', (audit action resource id (r_RemoteAddr r) status detail ;;; m) s1 = (Ok resp, s') /\
    kept s s' /\ log_ok s' /\ (untouched s s' \/ recorded r s resp s').
Proof.
  intros [Hs1 Ht] Hl Ha Hm Hst.
  set (entry := mkAudit 0 action resource id (r_RemoteAddr r) status detail).
  exists (audited_state s1 entry). split; [exact Hm|].
  assert (same_core s1 (audited_state s1 entry)) as Hc by (by constructor). split; [split|split].
  - eapply server_ok_core; [done|apply (so_pages _ Hs1)|done].
  - intros Htb. eapply tables_ok_core; [done|]. by apply Ht.
  - unfold log_ok. change (sv_auditLog (audited_state s1 entry)) with
      (appendAudit (sv_auditLog s1) (clock (sv_ticks s1)) entry).
    apply appendAudit_len. by rewrite Ha.
  - right. exists (clock (sv_ticks s1)), entry. split; [by rewrite <- Ha|]. by split.
Qed.

Lemma kept_refl s : server_ok s -> kept s s.
Proof. by split. Qed.

Lemma UpsertFile_kept record s :
  server_ok s -> kept s (UpsertFile record s).2 /\
  sv_auditLog (UpsertFile record s).2 = sv_auditLog s.
Proof.
  intros Hs. destruct (UpsertFile_safe record s Hs) as (_ & H1 & H2).
  split; [by split|]. apply (frames_Upsert sv_auditLog).
Qed.

Lemma DeleteFile_kept h s :
  server_ok s -> kept s (DeleteFile h s).2 /\ sv_auditLog (DeleteFile h s).2 = sv_auditLog s.
Proof.
  intros Hs. destruct (DeleteFile_safe h s Hs) as (_ & H1 & H2).
  split; [by split|]. apply (frames_Delete sv_auditLog).
Qed.

Lemma persist_kept s :
  server_ok s -> kept s (persistCatalog s).2 /\ sv_auditLog (persistCatalog s).2 = sv_auditLog s.
Proof.
  intros Hs. destruct (persist_core s) as (Hc & Hx & _). split; [|apply (frames_persist sv_auditLog)].
  split; [|by apply tables_ok_core]. eapply server_ok_core; [done| |done].
  intros x. rewrite Hx, (sc_cfg _ _ Hc). apply Hs.
Qed.

Lemma batch_delete_kept hashes deleted missing s :
  server_ok s ->
  exists res s', batch_delete hashes deleted missing s = (Ok res, s') /\ kept s s' /\
                 sv_auditLog s' = sv_auditLog s.
Proof.
  revert deleted missing s; induction hashes as [|h hashes IH]; intros deleted missing s Hs;
    cbn [batch_delete]; [do 2 eexists; split; [reflexivity|by split; [apply kept_refl|]]|].
  destruct (HashFromString h) as [hash|]; [|by apply IH].
  destruct (DeleteFile_kept hash s Hs) as [[H1 H2] Ha]. unfold bind, try_.
  destruct (DeleteFile hash s) as [[ok|e] s1]; cbn [snd] in *.
  - destruct ok.
    + destruct (IH (deleted ++ [Hash_String hash]) missing s1 H1) as (res & s' & E & [H3 H4] & E2).
      exists res, s'. split; [exact E|]. split; [split; [done|auto]|congruence].
    + destruct (IH deleted (missing ++ [Hash_String hash]) s1 H1) as (res & s' & E & [H3 H4] & E2).
      exists res, s'. split; [exact E|]. split; [split; [done|auto]|congruence].
  - do 2 eexists. split; [reflexivity|]. by split.
Qed.

(** Paging never slices out of range. *)
Lemma paginate_total {A} (entries : list A) r :
  len entries < 2 ^ 62 -> exists page, paginate entries r = Some page.
Proof.
  intros Hl. unfold paginate. destruct (parsePagination r) as [page perPage] eqn:Ep.
  pose proof (parsePagination_range r) as [_ Hpp]. rewrite Ep in Hpp. cbn [snd] in Hpp.
  unfold bounds. set (z := to_int (to_int (page - 1) * perPage)).
  pose proof (len_nonneg entries). simpl in Hl.
  set (start := if len entries <? (if z <? 0 then 0 else z) then len entries
                else if z <? 0 then 0 else z).
  assert (0 <= start <= len entries) as Hst.
  { unfold start. destruct (Z.ltb_spec z 0), (Z.ltb_spec (len entries) (if z <? 0 then 0 else z));
      destruct (Z.ltb_spec (len entries) 0), (Z.ltb_spec (len entries) z); lia. }
  rewrite to_int_id by (unfold in_s; simpl; lia).
  destruct (start <? len entries); [|by eexists]. unfold slice.
  destruct (Z.leb_spec 0 start); [|lia].
  destruct (Z.leb_spec start (if len entries <? start + perPage then len entries else start + perPage));
    [|destruct (Z.ltb_spec (len entries) (start + perPage)); lia].
  destruct (Z.leb_spec (if len entries <? start + perPage then len entries else start + perPage) (len entries));
    [by eexists|destruct (Z.ltb_spec (len entries) (start + perPage)); lia].
Qed.

(** The lists that are paged are short. *)
Lemma Slice_len {A} (less : A -> A -> bool) l : len (Slice less l) = len l.
Proof. unfold len. by rewrite (Permutation_length (Slice_perm less l)). Qed.

Lemma filter_len {A} (f : A -> bool) l : len (List.filter f l) <= len l.
Proof. unfold len. pose proof (List.filter_length_le f l). lia. Qed.

Lemma range_map_len {K} `{Countable K} {V} (m : gmap K V) : len (range_map m) = Z.of_nat (size m).
Proof. unfold len. by rewrite (Permutation_length (range_map_perm m)), length_map_to_list. Qed.

Lemma clients_len s : memory_ok s -> len (ClientsSnapshot s) < 2 ^ 32.
Proof.
  intros [_ Hc]. unfold ClientsSnapshot. rewrite Slice_len. unfold len. rewrite !length_map.
  change (len (range_map (sv_clients s)) < 2 ^ 32). by rewrite range_map_len.
Qed.

Lemma files_len s : memory_ok s -> len (FilesSnapshot s) < 2 ^ 62.
Proof.
  intros [Hf _]. unfold FilesSnapshot. rewrite len_app. unfold Catalog_Snapshot.
  assert (len (map (fun e => materialize e.2) (range_map (sv_dynamicFiles s))) =
          Z.of_nat (size (sv_dynamicFiles s))) as ->; [|done].
  rewrite <- range_map_len. unfold len. by rewrite length_map.
Qed.

(** *** Handlers *)

Lemma good_only r s method next :
  server_ok s -> log_ok s -> good r s (next r) -> good r s (only method next r).
Proof.
  intros Hs Hl Hn. unfold good. rewrite only_step.
  destruct (bytes_eqb (r_Method r) method); [exact Hn|by apply good_unchanged].
Qed.

Lemma good_auth r s next :
  server_ok s -> log_ok s -> good r s (next r) -> good r s (withAdminAuth next r).
Proof.
  intros Hs Hl Hn. unfold withAdminAuth. apply good_read.
  destruct (bytes_eqb _ []); [exact Hn|]. destruct (negb _); [by apply good_unchanged|exact Hn].
Qed.

Lemma good_paged {A} r s (entries : list A) (data : list A -> apiData) :
  server_ok s -> log_ok s -> len entries < 2 ^ 62 ->
  good r s (do! (items, meta) := of_option (paginate entries r) Panic in
            ret (writeAPI StatusOK (data items) meta)).
Proof.
  intros Hs Hl Hlen. destruct (paginate_total entries r Hlen) as [[items meta] ->].
  by apply good_unchanged.
Qed.

Lemma good_health r s : server_ok s -> log_ok s -> good r s (handleHealthz r).
Proof.
  intros Hs Hl. apply good_only; [done..|]. unfold good. rewrite bind_gets.
  unfold bind, now, ret. do 2 eexists. split; [reflexivity|].
  assert (same_core s (set_sv_ticks (S (sv_ticks s)) s)) as Hc by (by constructor).
  split; [split|split; [done|by left]].
  - eapply server_ok_core; [done|apply (so_pages _ Hs)|done].
  - by apply tables_ok_core.
Qed.

Lemma good_audit_handler r s :
  server_ok s -> log_ok s -> good r s (handleAdminAudit r).
Proof.
  intros Hs Hl. apply good_only; [done..|]. apply good_read, (good_paged _ _ _ DataAudit); [done..|].
  unfold AuditSnapshot. rewrite Slice_len. unfold log_ok, maxAuditEntries in Hl. simpl. lia.
Qed.

Lemma good_clients r s :
  server_ok s -> memory_ok s -> log_ok s -> good r s (handleAdminClients r).
Proof.
  intros Hs Hm Hl. apply good_only; [done..|]. apply good_read.
  apply (good_paged _ _ _ DataClients); [done..|].
  unfold sortClients. rewrite Slice_len. pose proof (clients_len s Hm).
  unfold filterClients. destruct (bytes_eqb _ []); [simpl in *; lia|].
  pose proof (filter_len (client_matches (search_text r)) (ClientsSnapshot s)). simpl in *. lia.
Qed.

Lemma good_client_by_id r s :
  server_ok s -> log_ok s -> good r s (handleAdminClientByID r).
Proof.
  intros Hs Hl. unfold handleAdminClientByID. cbv zeta.
  destruct (bytes_eqb _ []); [by apply good_unchanged|].
  destruct (negb _); [by apply good_unchanged|].
  destruct (ParseInt32 _); [|by apply good_unchanged]. apply good_read.
  destruct (ClientSnapshotByID _ _); by apply good_unchanged.
Qed.

(** The status of the audit entry against that of the answer. *)
Ltac status_iff :=
  cbn [resp_Status writeAPI writeAPIError]; unfold StatusOK, StatusCreated, StatusBadRequest,
    StatusNotFound, StatusInternalServerError;
  split; intros; first [done|discriminate|lia].

(** A handler whose change is done ends in its audit entry. *)
Ltac ends_in_audit r s := eexists; eapply (good_audit r s);
  [done|done|done|reflexivity|status_iff].

Lemma good_upsert r s :
  server_ok s -> log_ok s -> good r s (upsertFile r).
Proof.
  intros Hs Hl. pose proof (kept_refl s Hs). unfold upsertFile, good.
  destruct (decodeFileRecord (r_Body r)) as [record|]; [|ends_in_audit r s].
  destruct (UpsertFile_kept record s Hs) as [Hk Ha]. cbv zeta.
  rewrite (bind_ok (try_ (UpsertFile record)) _ s (UpsertFile record s).1 (UpsertFile record s).2)
    by (unfold try_; by destruct (UpsertFile record s)).
  destruct (UpsertFile record s).1 as [[]|e]; [rewrite bind_gets|]; ends_in_audit r s.
Qed.

Lemma good_files r s :
  server_ok s -> memory_ok s -> log_ok s -> good r s (handleAdminFiles r).
Proof.
  intros Hs Hm Hl. unfold handleAdminFiles.
  destruct (bytes_eqb _ MethodGet).
  - unfold listFiles. apply good_read, (good_paged _ _ _ DataFiles); [done..|].
    unfold sortFiles. rewrite Slice_len. pose proof (files_len s Hm).
    unfold filterFiles. cbv zeta.
    match goal with |- len (List.filter ?f ?l) < _ => pose proof (filter_len f l) end. lia.
  - destruct (bytes_eqb _ MethodPost); [by apply good_upsert|by apply good_unchanged].
Qed.

Lemma good_batch r s :
  server_ok s -> log_ok s -> good r s (handleAdminBatchDeleteFiles r).
Proof.
  intros Hs Hl. pose proof (kept_refl s Hs). apply good_only; [done..|]. unfold good.
  destruct (decodeHashes (r_Body r)) as [hashes|]; [|ends_in_audit r s].
  destruct (batch_delete_kept hashes [] [] s Hs) as (res & s1 & E & Hk & Ha).
  rewrite (bind_ok _ _ _ _ _ E). destruct res as [[deleted missing]|[h e]]; ends_in_audit r s.
Qed.

Lemma good_delete r s hash :
  server_ok s -> log_ok s -> good r s (deleteFile hash r).
Proof.
  intros Hs Hl. unfold deleteFile, good. cbv zeta. destruct (DeleteFile_kept hash s Hs) as [Hk Ha].
  rewrite (bind_ok (try_ (DeleteFile hash)) _ s (DeleteFile hash s).1 (DeleteFile hash s).2)
    by (unfold try_; by destruct (DeleteFile hash s)).
  destruct (DeleteFile hash s).1 as [[]|e]; cbn [negb]; ends_in_audit r s.
Qed.

Lemma good_by_hash r s :
  server_ok s -> log_ok s -> good r s (handleAdminFileByHash r).
Proof.
  intros Hs Hl. unfold handleAdminFileByHash. cbv zeta.
  destruct (bytes_eqb _ []); [by apply good_unchanged|].
  destruct (HashFromString _) as [hash|]; [|by apply good_unchanged].
  destruct (bytes_eqb _ MethodGet).
  - apply good_read. destruct (FileSnapshot s hash); by apply good_unchanged.
  - destruct (bytes_eqb _ MethodDelete); [by apply good_delete|by apply good_unchanged].
Qed.

Lemma good_persist r s :
  server_ok s -> log_ok s -> good r s (handleAdminPersist r).
Proof.
  intros Hs Hl. apply good_only; [done..|]. unfold good.
  destruct (persist_kept s Hs) as [Hk Ha].
  rewrite (bind_ok (try_ persistCatalog) _ s (persistCatalog s).1 (persistCatalog s).2)
    by (unfold try_; by destruct (persistCatalog s)).
  destruct (persistCatalog s).1 as [[]|e]; [|ends_in_audit r s].
  ends_in_audit r s.
Qed.

Lemma good_pages r s rt :
  server_ok s -> log_ok s -> protected rt = false -> good r s (route_handler rt r).
Proof.
  intros Hs Hl Hp. destruct rt; try done; cbn [route_handler].
  - apply good_only; [done..|].
    match goal with |- good _ _ (if ?b then _ else _) => destruct b end; [by apply good_unchanged|].
    apply good_read. cbv zeta.
    match goal with |- context [getAdminLocalePack ?l] => destruct (getAdminLocalePack l) end.
    by apply good_unchanged.
  - unfold handleAdminJS. destruct (negb _); [by apply good_unchanged|].
    apply good_only; [done..|by apply good_unchanged].
  - unfold handleAdminCSS. destruct (negb _); [by apply good_unchanged|].
    apply good_only; [done..|by apply good_unchanged].
  - by apply good_health.
Qed.

Lemma good_request r s :
  server_ok s -> memory_ok s -> log_ok s -> good r s (adminMux r).
Proof.
  intros Hs Hm Hl. unfold adminMux. cbv zeta.
  destruct (redirect_slash _); [by apply good_unchanged|].
  destruct (negb _); [by apply good_unchanged|].
  destruct (best_pattern _) as [[pattern rt]|]; [|by apply good_unchanged].
  assert (protected rt = false \/ protected rt = true) as [Hp|Hp] by (destruct rt; auto);
    [by apply good_pages|].
  destruct rt; try done; cbn [route_handler]; (apply good_auth; [done..|]).
  - by apply good_audit_handler.
  - apply good_only; [done..|]. do 2 apply good_read. by apply good_unchanged.
  - by apply good_clients.
  - by apply good_client_by_id.
  - by apply good_batch.
  - by apply good_files.
  - by apply good_by_hash.
  - by apply good_persist.
Qed.

(** C22: whatever is requested, with whatever token, path and body, the interface
    answers and the server stays sound: the invariants of clients, shared files
    and catalog hold afterwards, and the audit log keeps its bound. *)
Theorem admin_requests_safe r s :
  server_ok s -> memory_ok s -> len (sv_auditLog s) <= maxAuditEntries ->
  exists resp s', adminMux r s = (Ok resp, s') /\ server_ok s' /\
    (tables_ok s -> tables_ok s') /\ len (sv_auditLog s') <= maxAuditEntries.
Proof.
  intros Hs Hm Hl. destruct (good_request r s Hs Hm Hl) as (resp & s' & E & [Hk Ht] & Hl' & _).
  by exists resp, s'.
Qed.

(** C23: the audit log is complete and truthful: a request either leaves the log,
    the catalog and the store alone, or adds exactly one entry, which names the
    sender and says "error" exactly when the answer is an error. *)
Theorem audit_complete r s resp s' :
  server_ok s -> memory_ok s -> len (sv_auditLog s) <= maxAuditEntries ->
  adminMux r s = (Ok resp, s') ->
  (sv_auditLog s' = sv_auditLog s /\ sv_catalog s' = sv_catalog s /\ sv_saved s' = sv_saved s) \/
  exists t entry, sv_auditLog s' = appendAudit (sv_auditLog s) t entry /\
    au_RemoteAddr entry = r_RemoteAddr r /\
    (au_Status entry = lit "error" <-> 400 <= resp_Status resp).
Proof.
  intros Hs Hm Hl E. destruct (good_request r s Hs Hm Hl) as (resp' & s2 & E' & _ & _ & H).
  rewrite E' in E. injection E as <- <-. exact H.
Qed.

End requests.

(** ** Witnesses *)

(** Error texts, and the body of a request that stores a file. *)
#[export] Instance demo_texts : AdminTexts | 100 := {
  recordErrorText := fun _ => lit "invalid JSON";
  hashesErrorText := fun _ => lit "invalid JSON";
  endpointErrorText := fun _ => lit "invalid endpoint";
  saveErrorText := lit "write failed"
}.

Definition demo_body : bytes :=
  json_text (lit "{ 'hash' : 'EFEFEFEFEFEFEFEFEFEFEFEFEFEFEFEF', 'NAME' : 'New.mp3', 'size' : 5,
    'file_type' : 'Audio', 'extension' : 'mp3', 'comment' : [ 1.5e3, null ], 'sources' : null,
    'endpoints' : [ { 'host' : '10.0.0.1', 'port' : 4662 } ] } trailing").

(** The demo server with a token, and a request with one. *)
Definition with_token (token : bytes) (s : Server) : Server :=
  match Normalize (mkConfig (lit ":4661") (lit ":8080") token (lit "demo") [] [] [] (lit "c.json")
          [] [] 0 0 0 0 0 [] 0 0 0 true true 4 0 0 0 DefaultUDPConfig false [] 0) with
  | Err _ => s
  | Ok cfg => match NewServer cfg (sv_catalog s) with Ok s' => s' | Err _ => s end
  end.

Definition demo_request (method path query_page token body : bytes) : Request :=
  mkRequest method path (lit "127.0.0.1:9")
    (fun key => if bytes_eqb key (lit "per_page") then query_page else []) token [] body.

Lemma unauthorized_inert_witness :
  let s := with_token (lit "secret") demo_server in
  let r := demo_request MethodDelete (lit "/api/files/x") [] (lit "guess") [] in
  token_required s /\
  exists resp s', adminMux r s = (Ok resp, s') /\
    (s' = s \/ s' = set_sv_ticks (S (sv_ticks s)) s) /\
    (forall s2, token_required s2 -> r_AdminToken r <> AdminToken (sv_cfg s2) ->
       public_view s2 = public_view s -> (adminMux r s2).1 = Ok resp) /\
    (forall pattern rt, cleanPath (r_Path r) = r_Path r -> redirect_slash (r_Path r) = false ->
       best_pattern (r_Path r) = Some (pattern, rt) -> protected rt = true ->
       resp = writeAPIError StatusUnauthorized ErrUnauthorized).
Proof.
  cbv zeta.
  assert (bytes_eqb (AdminToken (sv_cfg (with_token (lit "secret") demo_server))) (lit "secret") = true)
    as Et by (vm_compute; reflexivity).
  apply bytes_eqb_eq in Et.
  assert (token_required (with_token (lit "secret") demo_server)) as Ht.
  { unfold token_required. rewrite Et. by vm_compute. }
  split; [exact Ht|]. apply (unauthorized_inert _ _ Ht). rewrite Et. by vm_compute.
Defined.

Lemma admin_requests_safe_witness :
  exists resp s',
    adminMux (demo_request MethodPost (lit "/api/files") [] [] demo_body) demo_server = (Ok resp, s') /\
    server_ok s' /\ (tables_ok demo_server -> tables_ok s') /\ len (sv_auditLog s') <= maxAuditEntries.
Proof.
  apply admin_requests_safe.
  - apply (initial_ok demo_server), demo_initial.
  - apply memory_b_ok. vm_compute. reflexivity.
  - vm_compute. discriminate.
Defined.

Lemma audit_complete_witness :
  let r := demo_request MethodPost (lit "/api/files") [] [] demo_body in
  let s' := (adminMux r demo_server).2 in
  exists t entry, sv_auditLog s' = appendAudit (sv_auditLog demo_server) t entry /\
    au_RemoteAddr entry = lit "127.0.0.1:9" /\ au_Status entry <> lit "error".
Proof.
  cbv zeta. set (r := demo_request MethodPost (lit "/api/files") [] [] demo_body).
  assert (is_ok (adminMux r demo_server).1 = true) as Ho by (vm_compute; reflexivity).
  assert (len (sv_auditLog (adminMux r demo_server).2) = 1) as Hl by (vm_compute; reflexivity).
  assert (match (adminMux r demo_server).1 with Ok resp => resp_Status resp | Err _ => 0 end = 201)
    as Hst by (vm_compute; reflexivity).
  destruct (adminMux r demo_server) as [res s'] eqn:E. cbn [fst snd] in *.
  destruct res as [resp|e]; [|discriminate Ho].
  destruct (audit_complete r demo_server resp s') as [(Ha & _)|(t & entry & Ha & Hr & Hi)].
  - apply (initial_ok demo_server), demo_initial.
  - apply memory_b_ok. vm_compute. reflexivity.
  - vm_compute. discriminate.
  - exact E.
  - exfalso. rewrite Ha in Hl. vm_compute in Hl. discriminate Hl.
  - exists t, entry. split; [exact Ha|]. split; [exact Hr|]. intros He. apply Hi in He. lia.
Defined.
