(* ===== verification/AdminFiles.v ===== *)
(** * The files of the management interface

    The resource /api/files as an administrator sees it: what a change does to
    the files one can look up, and what the pages of the list show. *)

From stdpp Require Import gmultiset.
From S2P Require Import StateErr.
From S2P Require Import Prelude GoStrings GoSort GoNet GoPath Ed2kLib Ed2kRef Ed2kWire FileRecord.
From S2P Require Import Json CatalogJson CatalogJsonFacts Search Catalog CatalogFacts Config.
From S2P Require Import PeerServers Text Frames AuditLog.
From S2P Require Import AdminLocale Server ServerFacts FrameRule ServerInv ServerDemo ServerProps.
From S2P Require Import Snapshots Admin AdminFacts AdminRuns.

Local Open Scope Z_scope.
Local Open Scope srv_scope.

Section files.
Context {L : Ed2kLib} {HL : Ed2kHashLaws} {W : Ed2kWire} {U : UnicodeTables}.
Context {MI : MapIter} {ML : MapIterLaws}.
Context {D : TextDecoder} {ZL : Zlib} {PC : PacketCombiner} {WD : World}.
Context {SS : SliceSort} {SL : SliceSortLaws} {HJ : HashJson} {AT : AdminTexts}.

(** ** Changes *)

(** The state after a change of the catalog that is written through. *)
Definition changed (k : counter) (c : Catalog) (s : Server) : Server :=
  (persistCatalog (set_sv_stats (upd (sv_stats s) k (add64 (sv_stats s k) 1))
                     (set_sv_catalog c s))).2.

Lemma persist_result s :
  (persistCatalog s).1 = if write_ok (sv_writes s) then Ok tt else Err ErrSave.
Proof. unfold persistCatalog. by destruct (write_ok _). Qed.

Lemma UpsertFile_eq record s :
  UpsertFile record s =
    match Catalog_Upsert (sv_catalog s) record with
    | Err e => (Err (ErrUpsert e), s)
    | Ok c' => (if write_ok (sv_writes s) then Ok tt else Err ErrSave, changed FilesRegistered c' s)
    end.
Proof.
  unfold UpsertFile. rewrite bind_gets. destruct (Catalog_Upsert _ _) as [c'|e]; [|done].
  change ((modify (set_sv_catalog c') ;;; bump FilesRegistered 1 ;;; persistCatalog) s)
    with (persistCatalog (set_sv_stats (upd (sv_stats s) FilesRegistered
            (add64 (sv_stats s FilesRegistered) 1)) (set_sv_catalog c' s))).
  rewrite (surjective_pairing (persistCatalog _)). by rewrite persist_result.
Qed.

Lemma DeleteFile_eq h s :
  DeleteFile h s =
    let '(c', deleted) := Catalog_Delete (sv_catalog s) h in
    if negb deleted then (Ok false, s)
    else (if write_ok (sv_writes s) then Ok true else Err ErrSave, changed FilesRemoved c' s).
Proof.
  unfold DeleteFile. rewrite bind_gets. destruct (Catalog_Delete _ _) as [c' [|]]; [|done].
  cbn [negb]. unfold changed.
  change ((modify (set_sv_catalog c') ;;; bump FilesRemoved 1 ;;; persistCatalog ;;; ret true) s)
    with ((persistCatalog ;;; ret true) (set_sv_stats (upd (sv_stats s) FilesRemoved
            (add64 (sv_stats s FilesRemoved) 1)) (set_sv_catalog c' s))).
  unfold bind. rewrite (surjective_pairing (persistCatalog _)), persist_result.
  cbn [sv_writes set_sv_stats set_sv_catalog fst snd]. by destruct (write_ok _).
Qed.

(** A lookup after the change. *)
Lemma changed_snapshot k c s h :
  FileSnapshot (changed k c s) h =
    match Catalog_Get c h with
    | Some record => Some record
    | None => materialize <$> sv_dynamicFiles s !! Hash_String h
    end.
Proof. unfold FileSnapshot, changed, persistCatalog. by destruct (write_ok _). Qed.

Lemma audited_snapshot s entry h : FileSnapshot (audited_state s entry) h = FileSnapshot s h.
Proof. done. Qed.

Lemma Delete_found c h : (Catalog_Delete c h).2 = if Catalog_Get c h then true else false.
Proof. unfold Catalog_Delete, Catalog_Get. by destruct (cat_byHash c !! Hash_String h). Qed.

(** C25: POST /api/files stores one record and nothing else. A record that is
    refused changes no file and is answered 400 with the reason. One that is
    accepted is from then on what a lookup of its hash finds, in its normalised
    form, with every other hash untouched; the answer is 201 with that form, or
    400 when the store failed, and then the record stays all the same. *)
Theorem post_file r record s :
  r_Method r = MethodPost -> decodeFileRecord (r_Body r) = Some record ->
  exists resp s', handleAdminFiles r s = (Ok resp, s') /\
  match normalizeFileRecord record with
  | Err e =>
    resp = writeAPIError StatusBadRequest
             (ErrServer (error_text (fr_Endpoints record) (ErrUpsert e))) /\
    forall h, FileSnapshot s' h = FileSnapshot s h
  | Ok n =>
    resp = (if write_ok (sv_writes s)
            then writeAPI StatusCreated (DataFile n) [(lit "status", MetaString (lit "upserted"))]
            else writeAPIError StatusBadRequest (ErrServer saveErrorText)) /\
    forall h, FileSnapshot s' h =
              if Hash_Equal (fr_Hash record) h then Some n else FileSnapshot s h
  end.
Proof.
  intros Hm Hd. unfold handleAdminFiles. rewrite Hm. cbn [bytes_eqb]. unfold upsertFile.
  change (bytes_eqb MethodPost MethodGet) with false. change (bytes_eqb MethodPost MethodPost) with true.
  cbv iota. rewrite Hd. cbv zeta.
  rewrite (bind_ok (try_ (UpsertFile record)) _ s (UpsertFile record s).1 (UpsertFile record s).2)
    by (unfold try_; by destruct (UpsertFile record s)).
  rewrite UpsertFile_eq.
  destruct (Catalog_Upsert (sv_catalog s) record) as [c'|e] eqn:Eu.
  - destruct (Upsert_get _ _ _ Eu) as (n & -> & Hget). cbn [fst snd].
    assert (forall h, FileSnapshot (changed FilesRegistered c' s) h =
              if Hash_Equal (fr_Hash record) h then Some n else FileSnapshot s h) as Hs.
    { intros h. rewrite changed_snapshot, Hget. unfold FileSnapshot. by destruct (Hash_Equal _ _). }
    destruct (write_ok (sv_writes s)).
    + rewrite bind_gets, Hs, (proj2 (Hash_Equal_String _ _) eq_refl).
      do 2 eexists. split; [reflexivity|]. split; [done|]. exact Hs.
    + do 2 eexists. split; [reflexivity|]. split; [done|]. exact Hs.
  - unfold Catalog_Upsert in Eu. destruct (normalizeFileRecord record) as [n|e'] eqn:En; [done|].
    injection Eu as ->. do 2 eexists. split; [reflexivity|]. by split.
Qed.
(** C26: DELETE /api/files/<hash> removes one record of the catalog and nothing
    else. Where the catalog has the hash the answer is 200 (or 500 when the store
    failed, and the record is gone all the same), and a lookup then finds what
    clients share under that hash, if they do. Where it has not the answer is
    404 and nothing changes, even when a lookup finds the file because clients
    share it. *)
Theorem delete_file r hash s :
  let text := TrimPrefix (r_Path r) (lit "/api/files/") in
  r_Method r = MethodDelete -> text <> [] -> HashFromString text = Some hash ->
  exists resp s', handleAdminFileByHash r s = (Ok resp, s') /\
  match Catalog_Get (sv_catalog s) hash with
  | None =>
    resp = writeAPIError StatusNotFound ErrFileNotFound /\
    forall h, FileSnapshot s' h = FileSnapshot s h
  | Some _ =>
    resp = (if write_ok (sv_writes s)
            then writeAPI StatusOK (DataHash hash) [(lit "status", MetaString (lit "deleted"))]
            else writeAPIError StatusInternalServerError (ErrServer saveErrorText)) /\
    forall h, FileSnapshot s' h =
              if Hash_Equal hash h then materialize <$> sv_dynamicFiles s !! Hash_String hash
              else FileSnapshot s h
  end.
Proof.
  cbv zeta. intros Hm Ht Hh. unfold handleAdminFileByHash. cbv zeta.
  rewrite (proj2 (bytes_eqb_neq _ _) Ht), Hh, Hm.
  change (bytes_eqb MethodDelete MethodGet) with false.
  change (bytes_eqb MethodDelete MethodDelete) with true. cbv iota. unfold deleteFile. cbv zeta.
  rewrite (bind_ok (try_ (DeleteFile hash)) _ s (DeleteFile hash s).1 (DeleteFile hash s).2)
    by (unfold try_; by destruct (DeleteFile hash s)).
  rewrite DeleteFile_eq. pose proof (Delete_get (sv_catalog s) hash) as Hget.
  pose proof (Delete_found (sv_catalog s) hash) as Hfound.
  destruct (Catalog_Delete (sv_catalog s) hash) as [c' deleted]. cbn [fst snd] in Hget, Hfound.
  destruct (Catalog_Get (sv_catalog s) hash) as [old|]; subst deleted; cbn [negb fst snd].
  - assert (forall h, FileSnapshot (changed FilesRemoved c' s) h =
              if Hash_Equal hash h then materialize <$> sv_dynamicFiles s !! Hash_String hash
              else FileSnapshot s h) as Hs.
    { intros h. rewrite changed_snapshot, Hget. unfold FileSnapshot.
      destruct (Hash_Equal hash h) eqn:E; [|done]. apply Hash_Equal_String in E. by rewrite E. }
    destruct (write_ok (sv_writes s)); do 2 eexists; (split; [reflexivity|split; [done|exact Hs]]).
  - do 2 eexists. split; [reflexivity|]. by split.
Qed.

(** *** Several at once *)

(** One of the texts is the hash. *)
Definition names_hash (texts : list bytes) (h : Hash) : bool :=
  existsb (fun text => match HashFromString text with
                       | Some hash => Hash_Equal hash h
                       | None => false
                       end) texts.

Lemma changed_catalog k c s : sv_catalog (changed k c s) = c.
Proof. unfold changed, persistCatalog. by destruct (write_ok _). Qed.

(** What a batch removed, and what it reports. *)
Definition batch_result (hashes : list bytes) (s : Server)
    (res : list bytes * list bytes + bytes * srvErr) (s' : Server) (d0 m0 : list bytes) : Prop :=
  exists handled rest, hashes = handled ++ rest /\
  (forall h, Catalog_Get (sv_catalog s') h =
             if names_hash handled h then None else Catalog_Get (sv_catalog s) h) /\
  match res with
  | inr (text, e) => last handled = Some text /\ e = ErrSave
  | inl (deleted, missing) =>
    rest = [] /\ exists d m, deleted = d0 ++ d /\ missing = m0 ++ m /\
    len d + len m = len hashes /\ NoDup d /\
    forall k, k ∈ d <-> exists text hash, text ∈ hashes /\ HashFromString text = Some hash /\
                        k = Hash_String hash /\ is_Some (Catalog_Get (sv_catalog s) hash)
  end.

Lemma names_hash_one text h :
  names_hash [text] h =
    match HashFromString text with Some hash => Hash_Equal hash h | None => false end.
Proof. unfold names_hash. cbn [existsb]. apply orb_false_r. Qed.

Lemma names_hash_cons text texts h :
  names_hash (text :: texts) h = names_hash [text] h || names_hash texts h.
Proof. by rewrite names_hash_one. Qed.

Lemma Catalog_Get_equal c hash h : Hash_Equal hash h = true -> Catalog_Get c hash = Catalog_Get c h.
Proof. intros E. apply Hash_Equal_String in E. unfold Catalog_Get. by rewrite E. Qed.

(** One text handled, then the others. *)
Lemma batch_result_cons text texts s s1 res s' d0 m0 new other :
  (forall h, Catalog_Get (sv_catalog s1) h =
     if names_hash [text] h then None else Catalog_Get (sv_catalog s) h) ->
  (forall k, k ∈ new <-> exists hash, HashFromString text = Some hash /\ k = Hash_String hash /\
                                      is_Some (Catalog_Get (sv_catalog s) hash)) ->
  len new + len other = 1 ->
  batch_result texts s1 res s' (d0 ++ new) (m0 ++ other) -> batch_result (text :: texts) s res s' d0 m0.
Proof.
  intros Hget Hnew Hlen (handled & rest & -> & Hs' & Hres).
  assert (forall hash, names_hash [text] hash = true -> Catalog_Get (sv_catalog s1) hash = None)
    as Hgone by (intros hash E; by rewrite Hget, E).
  exists (text :: handled), rest. split; [done|]. split.
  { intros h. rewrite Hs', Hget, (names_hash_cons text handled).
    by destruct (names_hash [text] h), (names_hash handled h). }
  destruct res as [[deleted missing]|[text' e]].
  2: { destruct Hres as [Hlast ->]. split; [|done]. rewrite last_cons, Hlast. done. }
  destruct Hres as (-> & d & m & -> & -> & Hl & Hnd & Hd). split; [done|].
  exists (new ++ d), (other ++ m). rewrite !app_assoc. split; [done|]. split; [done|].
  rewrite app_nil_r in *. rewrite !len_app, len_cons. split; [lia|]. split.
  - apply NoDup_app. split; [|split; [|exact Hnd]].
    + destruct new as [|x [|y new]]; [constructor|apply NoDup_singleton|].
      rewrite !len_cons in Hlen. pose proof (len_nonneg new). pose proof (len_nonneg other). lia.
    + intros k Hk (t & hash & _ & _ & -> & Hin)%Hd. apply Hnew in Hk as (hash' & E & Ek & _).
      rewrite Hgone in Hin; [by destruct Hin|]. rewrite names_hash_one, E.
      apply Hash_Equal_String. congruence.
  - intros k. rewrite elem_of_app, Hnew, Hd. split.
    + intros [(hash & E & -> & Hin)|(t & hash & Ht & E & -> & Hin)].
      * exists text, hash. by split; [left|].
      * exists t, hash. split; [by right|]. split; [done|]. split; [done|].
        rewrite Hget in Hin. by destruct (names_hash [text] hash); [destruct Hin|].
    + intros (t & hash & [<-|Ht]%elem_of_cons & E & -> & Hin); [left; by exists hash|].
      destruct (names_hash [text] hash) eqn:En.
      * left. rewrite names_hash_one in En.
        destruct (HashFromString text) as [hash'|]; [|done]. exists hash'. split; [done|].
        rewrite (Catalog_Get_equal _ _ _ En). apply Hash_Equal_String in En. by rewrite En.
      * right. exists t, hash. split; [done|]. split; [done|]. split; [done|]. by rewrite Hget, En.
Qed.

Lemma batch_delete_result texts s d0 m0 :
  exists res s', batch_delete texts d0 m0 s = (Ok res, s') /\ batch_result texts s res s' d0 m0.
Proof.
  revert s d0 m0; induction texts as [|text texts IH]; intros s d0 m0; cbn [batch_delete].
  { do 2 eexists. split; [reflexivity|]. exists [], []. do 3 (split; [done|]). exists [], [].
    rewrite !app_nil_r. do 3 (split; [done|]). split; [constructor|].
    intros k. split; [intros []%not_elem_of_nil|intros (? & ? & []%not_elem_of_nil & _)]. }
  pose proof (names_hash_one text) as Hn.
  destruct (HashFromString text) as [hash|] eqn:Eh.
  2: { destruct (IH s d0 (m0 ++ [text])) as (res & s' & E & H). exists res, s'. split; [exact E|].
       eapply (batch_result_cons text texts s s _ _ _ _ [] [text]); [| |done|by rewrite app_nil_r].
       - intros h. by rewrite Hn.
       - intros k. split; [intros []%not_elem_of_nil|intros (? & E' & _); congruence]. }
  rewrite (bind_ok (try_ (DeleteFile hash)) _ s (DeleteFile hash s).1 (DeleteFile hash s).2)
    by (unfold try_; by destruct (DeleteFile hash s)).
  rewrite DeleteFile_eq. pose proof (Delete_get (sv_catalog s) hash) as Hget.
  pose proof (Delete_found (sv_catalog s) hash) as Hfound.
  destruct (Catalog_Delete (sv_catalog s) hash) as [c' deleted]. cbn [fst snd] in Hget, Hfound.
  destruct (Catalog_Get (sv_catalog s) hash) as [old|] eqn:Eg; subst deleted; cbn [negb fst snd].
  - assert (forall h, Catalog_Get (sv_catalog (changed FilesRemoved c' s)) h =
              if names_hash [text] h then None else Catalog_Get (sv_catalog s) h) as Hs
      by (intros h; by rewrite changed_catalog, Hget, Hn).
    destruct (write_ok (sv_writes s)); cbn [fst snd].
    + destruct (IH (changed FilesRemoved c' s) (d0 ++ [Hash_String hash]) m0) as (res & s' & E & H).
      exists res, s'. split; [exact E|].
      eapply (batch_result_cons text texts s _ _ _ _ _ [Hash_String hash] []);
        [exact Hs| |done|by rewrite app_nil_r].
      intros k. rewrite list_elem_of_singleton. split.
      * intros ->. exists hash. by rewrite Eh, Eg.
      * intros (hash' & E' & -> & _). congruence.
    + do 2 eexists. split; [reflexivity|]. exists [text], texts. done.
  - destruct (IH s d0 (m0 ++ [Hash_String hash])) as (res & s' & E & H). exists res, s'.
    split; [exact E|].
    eapply (batch_result_cons text texts s s _ _ _ _ [] [Hash_String hash]); [| |done|by rewrite app_nil_r].
    + intros h. rewrite Hn. destruct (Hash_Equal hash h) eqn:E'; [|done].
      by rewrite <- (Catalog_Get_equal _ _ _ E').
    + intros k. split; [intros []%not_elem_of_nil|].
      intros (hash' & E' & _ & Hin). assert (hash' = hash) as -> by congruence.
      rewrite Eg in Hin. by destruct Hin.
Qed.


(** ** The list *)

Lemma listFiles_eq (mi : MapIter) (ss : SliceSort) r s :
  listFiles (MI := mi) (SS := ss) r s =
    match paginate (sortFiles (SS := ss) (filterFiles (FilesSnapshot (MI := mi) s) r)
                      (r_Query r (lit "sort"))) r with
    | Some (items, meta) => (Ok (writeAPI StatusOK (DataFiles items) meta), s)
    | None => (Err Panic, s)
    end.
Proof. unfold listFiles. rewrite bind_gets. by destruct (paginate _ _) as [[items meta]|]. Qed.

Lemma perm_len {A} (l1 l2 : list A) : l1 ≡ₚ l2 -> len l1 = len l2.
Proof. intros H. unfold len. by rewrite (Permutation_length H). Qed.

Lemma filter_list_perm {A} (f : A -> bool) l1 l2 :
  l1 ≡ₚ l2 -> List.filter f l1 ≡ₚ List.filter f l2.
Proof.
  intros H. induction H; cbn [List.filter]; [done| | |by etrans].
  - destruct (f x); [by constructor|done].
  - destruct (f x), (f y); try done. apply Permutation_swap.
Qed.

(** A file of the list, its sources in any order. *)
Definition listing (f : FileRecord) : FileRecord * gmultiset SourceEntry :=
  (mkFile _ (fr_Hash f) (fr_Name f) (fr_Size f) (fr_FileType f) (fr_Extension f) (fr_MediaCodec f)
     (fr_MediaLength f) (fr_MediaBitrate f) (fr_Sources f) (fr_CompleteSources f) [],
   list_to_set_disj (fr_Endpoints f)).

(** Filters and orders do not look at the sources. *)
Lemma filter_listing p l :
  (forall f, p (listing f).1 = p f) ->
  map listing (List.filter p l) = List.filter (fun x => p x.1) (map listing l).
Proof.
  intros Hp. induction l as [|f l IH]; [done|]. cbn [List.filter map]. rewrite Hp.
  destruct (p f); cbn [map]; by rewrite IH.
Qed.

Lemma sorted_listing field l :
  slice_sorted (file_less field) l <->
  slice_sorted (fun a b => file_less field a.1 b.1) (map listing l).
Proof.
  unfold slice_sorted. induction l as [|f l IH]; [split; constructor|]. cbn [map].
  split; intros H; inversion H; subst; constructor; try by apply IH.
  - apply Forall_map. by eapply Forall_impl.
  - by match goal with Hf : Forall _ (map _ _) |- _ => apply Forall_map in Hf end.
Qed.

(** Another order of the maps gives the same files with the same sources. *)
Lemma materialize_listing (mi mi2 : MapIter) d :
  @MapIterLaws mi -> @MapIterLaws mi2 ->
  listing (materialize (MI := mi) d) = listing (materialize (MI := mi2) d).
Proof.
  intros H1 H2.
  assert (forall K (HE : EqDecision K) (HC : Countable K) V (m : gmap K V),
    range_map (MapIter := mi) m ≡ₚ range_map (MapIter := mi2) m) as Hr
    by (intros; by rewrite (range_map_perm (H := mi)), (range_map_perm (H := mi2))).
  assert (map snd (range_map (MapIter := mi) (dyn_byClient d))
          ≡ₚ map snd (range_map (MapIter := mi2) (dyn_byClient d))) as He
    by apply Permutation_map, Hr.
  assert (len (List.filter (fun kv => kv.2) (range_map (MapIter := mi) (dyn_completes d)))
          = len (List.filter (fun kv => kv.2) (range_map (MapIter := mi2) (dyn_completes d)))) as Hc
    by apply perm_len, filter_list_perm, Hr.
  unfold listing, materialize. cbn. rewrite Hc, (perm_len _ _ He). f_equal.
  by apply list_to_set_disj_perm.
Qed.

Lemma matching_listing s r (mi mi2 : MapIter) :
  @MapIterLaws mi -> @MapIterLaws mi2 ->
  map listing (filterFiles (FilesSnapshot (MI := mi) s) r)
  ≡ₚ map listing (filterFiles (FilesSnapshot (MI := mi2) s) r).
Proof.
  intros H1 H2. unfold filterFiles, FilesSnapshot. cbv zeta. rewrite !filter_listing by done.
  apply filter_list_perm. rewrite !map_app. apply Permutation_app_head. rewrite !map_map.
  rewrite (map_ext _ _ (fun e => materialize_listing mi mi2 e.2 H1 H2)). apply Permutation_map.
  by rewrite (range_map_perm (H := mi)), (range_map_perm (H := mi2)).
Qed.

(** Any two entries are ordered one way or the other. *)
Definition no_ties {A} (less : A -> A -> bool) (l : list A) : Prop :=
  forall i j a b, l !! i = Some a -> l !! j = Some b -> i <> j -> less a b = true \/ less b a = true.

Lemma no_ties_perm {A} (less : A -> A -> bool) l1 l2 :
  l1 ≡ₚ l2 -> no_ties less l1 -> no_ties less l2.
Proof.
  intros Hp%symmetry Ht i j a b Ha Hb Hij. apply Permutation_inj in Hp as [_ (f & Hf & Hl)].
  apply (Ht (f i) (f j)); [by rewrite <- Hl|by rewrite <- Hl|]. intros E. by apply Hij, Hf.
Qed.

Lemma no_ties_listing field l :
  no_ties (file_less field) l -> no_ties (fun a b => file_less field a.1 b.1) (map listing l).
Proof.
  intros Ht i j a b Ha Hb Hij. change (map listing l) with (listing <$> l) in Ha, Hb.
  apply list_lookup_fmap_Some in Ha as (fa & -> & Ha). apply list_lookup_fmap_Some in Hb as (fb & -> & Hb).
  exact (Ht i j fa fb Ha Hb Hij).
Qed.

(** Then there is only one sorted arrangement. *)
Lemma sorted_unique {A} (less : A -> A -> bool) l1 l2 :
  slice_sorted less l1 -> slice_sorted less l2 -> l1 ≡ₚ l2 -> no_ties less l1 -> l1 = l2.
Proof.
  intros H1. revert l2; induction H1 as [|x l1 H1 IH Hx]; intros l2 H2 Hp Ht.
  { symmetry. by apply Permutation_nil. }
  destruct H2 as [|y l2 H2 Hy]; [by apply Permutation_nil_r in Hp|].
  assert (x = y) as ->.
  { pose proof Hp as Hq. apply Permutation_inj in Hq as [_ (f & Hf & Hl)].
    pose proof (Hl 0%nat) as H0. cbn in H0. destruct (f 0%nat) as [|k] eqn:E0; [by injection H0|].
    symmetry in H0. cbn in H0.
    assert (x ∈ l2) as Hxl by (by eapply list_elem_of_lookup_2).
    assert (y ∈ x :: l1) as Hyl by (rewrite Hp; by left).
    apply elem_of_cons in Hyl as [->|Hyl]; [done|].
    apply list_elem_of_lookup_1 in Hyl as [i Hi].
    rewrite Forall_forall in Hx, Hy. pose proof (Hx y) as Hxy. pose proof (Hy x Hxl) as Hyx.
    destruct (Ht 0%nat (S i) x y eq_refl Hi ltac:(lia)) as [E|E]; [congruence|].
    rewrite Hxy in E; [done|]. by eapply list_elem_of_lookup_2. }
  f_equal. apply IH; [done|by apply Permutation_cons_inv in Hp|].
  intros i j a b Ha Hb Hij. apply (Ht (S i) (S j)); [done..|lia].
Qed.

(** Page [k] of a list, counted from 0. *)
Definition page_of {A} (perPage : Z) (k : nat) (l : list A) : list A :=
  take (Z.to_nat perPage) (drop (k * Z.to_nat perPage) l).

Lemma map_page_of {A B} (f : A -> B) perPage k l :
  map f (page_of perPage k l) = page_of perPage k (map f l).
Proof. unfold page_of. by rewrite <- firstn_map, <- skipn_map. Qed.

(** C27: GET /api/files, asked for page after page of a server that does not
    change. Every request goes through the files in an order of its own, and
    sorts them in its own way where they tie: it answers with its part of some
    arrangement of exactly the files that match the filters, each as often as the
    server lists it, in the requested order, with the number of the page and of
    the matches. If no two matching files tie in that order, the pages together
    are all matching files, sorted; if two do, a file may be shown twice and
    another never ([pages_inconsistent]). The sources of a file come in any order
    ([listing]). *)
Theorem files_listed (mi : nat -> MapIter) (ss : nat -> SliceSort) r s n :
  let perPage := (parsePagination r).2 in
  let matching := filterFiles (FilesSnapshot s) r in
  let less := file_less (r_Query r (lit "sort")) in
  (forall k, @MapIterLaws (mi k)) -> (forall k, @SliceSortLaws (ss k)) ->
  r_Method r = MethodGet -> memory_ok s -> len matching <= Z.of_nat n * perPage < 2 ^ 63 ->
  exists arranged : nat -> list FileRecord,
    (forall k, map listing (arranged k) ≡ₚ map listing matching /\
               slice_sorted less (arranged k)) /\
    (forall k, (k < n)%nat ->
      let page := page_of perPage k (arranged k) in
      handleAdminFiles (MI := mi k) (SS := ss k) (with_page r (Z.of_nat k + 1)) s =
        (Ok (writeAPI StatusOK (DataFiles page)
               (pageMeta (Z.of_nat k + 1) perPage (len matching) (len page))), s)) /\
    (no_ties less matching ->
      let shown := concat (map (fun k => page_of perPage k (arranged k)) (seq 0 n)) in
      map listing shown ≡ₚ map listing matching /\ slice_sorted less shown).
Proof.
  cbv zeta. intros Hmi Hss Hm Hs Hn. pose proof (parsePagination_range r) as [_ Hpp].
  set (matching := filterFiles (FilesSnapshot s) r) in *. set (perPage := (parsePagination r).2) in *.
  assert (len matching < 2 ^ 62) as Hsmall.
  { pose proof (files_len s Hs). unfold matching, filterFiles. cbv zeta.
    match goal with |- len (List.filter ?f ?l) < _ => pose proof (filter_len f l) end. lia. }
  set (arranged := fun k => sortFiles (SS := ss k)
         (filterFiles (FilesSnapshot (MI := mi k) s) r) (r_Query r (lit "sort"))).
  assert (forall k, map listing (arranged k) ≡ₚ map listing matching) as Hperm.
  { intros k. unfold arranged, sortFiles. rewrite (Slice_perm (H := ss k)).
    by apply matching_listing. }
  assert (forall k, len (arranged k) = len matching) as Hlen.
  { intros k. pose proof (perm_len _ _ (Hperm k)) as H. unfold len in *. by rewrite !length_map in H. }
  assert (forall k, slice_sorted (file_less (r_Query r (lit "sort"))) (arranged k)) as Hsorted.
  { intros k. unfold arranged, sortFiles. apply (Slice_sorted (H := ss k)), _. }
  exists arranged. split; [by split|]. split.
  - intros k Hk. rewrite <- (Hlen k). unfold handleAdminFiles.
    change (r_Method (with_page r (Z.of_nat k + 1))) with (r_Method r). rewrite Hm.
    change (bytes_eqb MethodGet MethodGet) with true. cbv iota.
    rewrite listFiles_eq.
    change (sortFiles (SS := ss k) (filterFiles (FilesSnapshot (MI := mi k) s) (with_page r (Z.of_nat k + 1)))
              (r_Query (with_page r (Z.of_nat k + 1)) (lit "sort"))) with (arranged k).
    rewrite (paginate_exact (arranged k) _ (Z.of_nat k + 1) perPage);
      [|apply parse_with_page; nia|by rewrite Hlen|nia].
    unfold page_of. replace (Z.to_nat ((Z.of_nat k + 1 - 1) * perPage)) with (k * Z.to_nat perPage)%nat;
      [done|]. by rewrite Z.add_simpl_r, Z2Nat.inj_mul, Nat2Z.id by lia.
  - intros Ht. apply no_ties_listing in Ht.
    assert (map listing (concat (map (fun k => page_of perPage k (arranged k)) (seq 0 n)))
            = map listing (arranged 0%nat)) as Hshown.
    { rewrite concat_map, map_map.
      rewrite (map_ext _ (fun k => page_of perPage k (map listing (arranged 0%nat)))).
      - unfold page_of. rewrite concat_slices, take_ge; [done|]. rewrite length_map.
        pose proof (Hlen 0%nat). unfold len in *. nia.
      - intros k. rewrite map_page_of. f_equal. eapply sorted_unique.
        + apply sorted_listing, Hsorted.
        + apply sorted_listing, Hsorted.
        + by rewrite !Hperm.
        + by apply (no_ties_perm _ (map listing matching)). }
    rewrite Hshown. split; [done|]. apply sorted_listing. by rewrite Hshown; apply sorted_listing.
Qed.

End files.

(** ** Witnesses *)

Definition demo_post : Request := demo_request MethodPost (lit "/api/files") [] [] demo_body.

Lemma demo_post_decodes :
  decodeFileRecord (r_Body demo_post) = Some (demo_file xef (lit "New.mp3") 5).
Proof. apply decodes_to. vm_compute. reflexivity. Qed.

Lemma post_file_witness :
  exists n resp s', handleAdminFiles demo_post demo_server = (Ok resp, s') /\
    resp = writeAPI StatusCreated (DataFile n) [(lit "status", MetaString (lit "upserted"))] /\
    FileSnapshot s' (replicate 16 xef) = Some n.
Proof.
  destruct (post_file demo_post (demo_file xef (lit "New.mp3") 5) demo_server eq_refl demo_post_decodes)
    as (resp & s' & E & H).
  assert (is_ok (normalizeFileRecord (demo_file xef (lit "New.mp3") 5)) = true) as Hn
    by (vm_compute; reflexivity).
  destruct (normalizeFileRecord (demo_file xef (lit "New.mp3") 5)) as [n|e]; [|discriminate Hn].
  destruct H as [-> H]. exists n. do 2 eexists. split; [exact E|]. split; [reflexivity|].
  rewrite H. change (fr_Hash (demo_file xef (lit "New.mp3") 5)) with (replicate 16 xef).
  rewrite (proj2 (Hash_Equal_String _ _) eq_refl). reflexivity.
Defined.

Definition demo_delete (n : byte) : Request :=
  demo_request MethodDelete (lit "/api/files/" ++ Hash_String (replicate 16 n)) [] [] [].

Lemma delete_file_witness :
  exists resp s', handleAdminFileByHash (demo_delete xab) demo_server = (Ok resp, s') /\
    resp_Status resp = StatusOK /\ FileSnapshot s' (replicate 16 xab) = None.
Proof.
  assert (match Catalog_Get (sv_catalog demo_server) (replicate 16 xab) with
          | Some _ => true | None => false end = true) as Hg by (vm_compute; reflexivity).
  destruct (delete_file (L := ed2k_ref) (demo_delete xab) (replicate 16 xab) demo_server) as (resp & s' & E & H);
    [reflexivity|vm_compute; discriminate|vm_compute; reflexivity|].
  destruct (Catalog_Get (sv_catalog demo_server) (replicate 16 xab)); [|discriminate Hg].
  destruct H as [-> H]. do 2 eexists. split; [exact E|]. split; [reflexivity|].
  rewrite H, (proj2 (Hash_Equal_String _ _) eq_refl). reflexivity.
Defined.

(** One hash of the catalog twice, and one it has not. *)
Definition demo_batch_body : bytes :=
  json_text (lit "{'hashes':['ABABABABABABABABABABABABABABABAB', 'EEEEEEEEEEEEEEEEEEEEEEEEEEEEEEEE',
                        'ABABABABABABABABABABABABABABABAB']}").

Definition demo_batch : list bytes :=
  [Hash_String (replicate 16 xab); Hash_String (replicate 16 xee); Hash_String (replicate 16 xab)].

Lemma demo_batch_decodes : decodeHashes demo_batch_body = Some demo_batch.
Proof. vm_compute. reflexivity. Qed.


(** Three files per page. *)
Definition demo_list : Request :=
  demo_request MethodGet (lit "/api/files") (lit "3") [] [].

(** ** Pages of different requests *)

(** Another order of iteration. *)
Definition map_iter_rev : MapIter :=
  {| range_map := fun K _ _ V m => reverse (map_to_list m) |}.

Lemma map_iter_rev_laws : @MapIterLaws map_iter_rev.
Proof. constructor. intros. apply reverse_Permutation. Qed.

(** Requests that go through maps in alternating directions. *)
Definition alternating (k : nat) : MapIter := if Nat.even k then map_iter_std else map_iter_rev.

Definition no_ties_b {A} (less : A -> A -> bool) (l : list A) : bool :=
  let at_all f := forallb f (seq 0 (length l)) in
  at_all (fun i => at_all (fun j => (i =? j)%nat ||
    match l !! i, l !! j with Some a, Some b => less a b || less b a | _, _ => true end)).

Lemma no_ties_b_ok {A} (less : A -> A -> bool) l : no_ties_b less l = true -> no_ties less l.
Proof.
  intros H i j a b Ha Hb Hij. unfold no_ties_b in H. cbv zeta in H.
  rewrite forallb_forall in H.
  assert (forall k x, l !! k = Some x -> In k (seq 0 (length l))) as Hin
    by (intros k x Hk%lookup_lt_Some; apply in_seq; lia).
  specialize (H i (Hin _ _ Ha)). rewrite forallb_forall in H. specialize (H j (Hin _ _ Hb)).
  rewrite Ha, Hb, (proj2 (Nat.eqb_neq i j) Hij) in H. cbn [orb] in H.
  by apply orb_true_iff.
Qed.

(** Two files of the catalog and one that a client shares, one per page. *)
Lemma files_listed_witness :
  let r := demo_request MethodGet (lit "/api/files") (lit "1") [] [] in
  let s := demo_run demo_two in
  let matching := filterFiles (FilesSnapshot s) r in
  let less := file_less (r_Query r (lit "sort")) in
  len matching = 3 /\
  exists arranged : nat -> list FileRecord,
    (forall k, (k < 3)%nat ->
      let page := page_of 1 k (arranged k) in
      handleAdminFiles (MI := alternating k) (with_page r (Z.of_nat k + 1)) s =
        (Ok (writeAPI StatusOK (DataFiles page) (pageMeta (Z.of_nat k + 1) 1 3 (len page))), s)) /\
    let shown := concat (map (fun k => page_of 1 k (arranged k)) (seq 0 3)) in
    map listing shown ≡ₚ map listing matching /\ slice_sorted less shown.
Proof.
  cbv zeta. set (r := demo_request MethodGet (lit "/api/files") (lit "1") [] []).
  assert ((parsePagination r).2 = 1) as Hp by (vm_compute; reflexivity).
  assert (len (filterFiles (FilesSnapshot (demo_run demo_two)) r) = 3) as Hl by (vm_compute; reflexivity).
  split; [exact Hl|].
  destruct (files_listed alternating (fun _ => slice_stable) r (demo_run demo_two) 3)
    as (arranged & _ & Hk & Ht).
  - intros k. unfold alternating. destruct (Nat.even k); [exact map_iter_std_laws|exact map_iter_rev_laws].
  - intros _. exact slice_stable_laws.
  - reflexivity.
  - apply memory_b_ok. vm_compute. reflexivity.
  - rewrite Hl, Hp. vm_compute. split; [discriminate|reflexivity].
  - rewrite Hl, Hp in Hk. rewrite Hp in Ht. exists arranged. split; [exact Hk|]. apply Ht.
    apply no_ties_b_ok. vm_compute. reflexivity.
Defined.

(** The hashes on a page of the list. *)
Definition shown (res : result srvErr Response) : list bytes :=
  match res with
  | Ok resp => match resp_Body resp with
               | ApiOK (DataFiles files) _ => map key_of files
               | _ => []
               end
  | Err _ => []
  end.

(** A client shares two files of the same name. *)
Definition demo_twins : list event :=
  [demo_connect x01; demo_login 0 xa1; demo_offer 0 [demo_entry x77 0 0; demo_entry x78 0 0]].

(** The order of the list is not fixed between requests: the files that
    clients share come out of a map, and the sort keeps nothing in place among
    equal names. Two requests for page 1 and page 2 of an unchanged server,
    between which only the iteration order differs, may show one file twice and
    another, which is listed, not at all. *)
Theorem pages_inconsistent :
  let s := demo_run demo_twins in
  let page1 := shown (handleAdminFiles (MI := map_iter_std) (with_page demo_list 1) s).1 in
  let page2 := shown (handleAdminFiles (MI := map_iter_rev) (with_page demo_list 2) s).1 in
  let twice := Hash_String (replicate 16 x78) in
  let never := Hash_String (replicate 16 x77) in
  length (page1 ++ page2) = 4%nat /\ length (FilesSnapshot s) = 4%nat /\
  twice ∈ page1 /\ twice ∈ page2 /\
  never ∉ page1 ++ page2 /\ never ∈ map key_of (FilesSnapshot s).
Proof.
  cbv zeta. split; [by vm_compute|]. split; [by vm_compute|].
  split; [apply (bool_decide_unpack _); by vm_compute|].
  split; [apply (bool_decide_unpack _); by vm_compute|].
  split; apply (bool_decide_unpack _); by vm_compute.
Qed.
