(* ===== verification/AdminTextFacts.v ===== *)
(** * What a client reads in an answer

    Every answer of the management interface that is meant to be JSON is one
    document, whatever names and texts it carries, and a client that decodes it
    gets the data the handler wrote. *)

From S2P Require Import StateErr.
From S2P Require Import Prelude GoStrings GoUtf8 GoSort GoNet GoTime Json JsonFacts JsonDecode.
From S2P Require Import Ed2kLib Ed2kRef Ed2kWire FileRecord CatalogJson CatalogJsonFacts Search Catalog.
From S2P Require Import Config PeerServers Text Frames AuditLog AdminLocale Server ServerDemo Snapshots.
From S2P Require Import Admin AdminFacts AdminRuns AdminText.

Local Open Scope Z_scope.

(** ** Reading *)

Definition decode_raw : decoder json := fun _ j => Some j.

Definition decode_time : decoder Z := fun old j =>
  match j with JString s => parse_RFC3339 s | _ => None end.

Definition api_names : list bytes := [lit "ok"; lit "data"; lit "meta"; lit "error"].

Section reading.
Context {L : Ed2kLib} {HJ : HashJson} {U : UnicodeTables}.

Definition read_audit (j : json) : option AuditEntry :=
  decode_struct (fun old ms =>
    let field {A} := decode_field (A := A) AuditEntry_names ms in
    time ← field (lit "time") decode_time 0;
    action ← field (lit "action") decode_string [];
    resource ← field (lit "resource") decode_string [];
    id ← field (lit "resource_id") decode_string [];
    addr ← field (lit "remote_addr") decode_string [];
    status ← field (lit "status") decode_string [];
    detail ← field (lit "detail") decode_string [];
    Some (mkAudit time action resource id addr status detail)) (mkAudit 0 [] [] [] [] [] []) j.

Definition read_client (j : json) : option ClientSnapshot :=
  match j with
  | JObject ms =>
    let field {A} := decode_field (A := A) ClientSnapshot_names ms in
    id ← field (lit "client_id") (decode_int 32) 0;
    name ← field (lit "client_name") decode_string [];
    hash ← field (lit "client_hash") Hash_UnmarshalJSON Hash_zero;
    remote ← field (lit "remote_address") decode_string [];
    listen ← field (lit "listen_endpoint") decode_string [];
    connected ← field (lit "connected_at") decode_time 0;
    seen ← field (lit "last_seen_at") decode_time 0;
    searches ← field (lit "search_requests") (decode_int 64) 0;
    sources ← field (lit "source_requests") (decode_int 64) 0;
    callbacks ← field (lit "callback_requests") (decode_int 64) 0;
    inp ← field (lit "inbound_packets") (decode_int 64) 0;
    outp ← field (lit "outbound_packets") (decode_int 64) 0;
    inb ← field (lit "inbound_bytes") (decode_int 64) 0;
    outb ← field (lit "outbound_bytes") (decode_int 64) 0;
    Some (mkClientSnapshot _ id name hash remote listen connected seen searches sources callbacks
            inp outp inb outb)
  | _ => None
  end.

Fixpoint counter_value (entries : list (bytes * counter)) (values : list Z) (k : counter) : Z :=
  match entries, values with
  | (_, k') :: entries', v :: values' => if decide (k = k') then v else counter_value entries' values' k
  | _, _ => 0
  end.

Definition read_stats (j : json) : option ServerStats :=
  match j with
  | JObject ms =>
    let field {A} := decode_field (A := A) ServerStats_names ms in
    started ← field (lit "started_at") decode_time 0;
    clients ← field (lit "current_clients") (decode_int 64) 0;
    files ← field (lit "current_files") (decode_int 64) 0;
    values ← mapM (fun '(name, _) => field name (decode_int 64) 0) counter_names;
    peers ← field (lit "peers") (decode_int 64) 0;
    Some (mkStats started clients files (counter_value counter_names values) peers)
  | _ => None
  end.

Definition read_file (j : json) : option FileRecord :=
  slot ← decode_FileRecord zero_slot j; Some (slot_file slot).

Definition read_string (j : json) : option bytes := match j with JString s => Some s | _ => None end.

Definition read_list {A} (read : json -> option A) (j : json) : option (list A) :=
  match j with JArray js => mapM read js | _ => None end.

(** The values of a map whose keys are known. *)
Definition read_map1 {A} (k : bytes) (read : json -> option A) (j : json) : option A :=
  match j with
  | JObject [(k', v)] => if bytes_eqb k k' then read v else None
  | _ => None
  end.

Definition read_map2 {A} (k1 k2 : bytes) (read : json -> option A) (j : json) : option (A * A) :=
  match j with
  | JObject [(k1', v1); (k2', v2)] =>
    if bytes_eqb k1 k1' && bytes_eqb k2 k2' then a ← read v1; b ← read v2; Some (a, b) else None
  | _ => None
  end.

(** A client knows from its request what kind of data to expect; a duration is
    a text to it. *)
Definition read_data (kind : apiData) (j : json) : option apiData :=
  match kind with
  | DataHealth uptime =>
    '(status, text) ← read_map2 (lit "status") (lit "uptime") read_string j;
    if bytes_eqb status (lit "ok") && bytes_eqb text (Duration_String uptime) then Some kind else None
  | DataStats _ => DataStats <$> read_stats j
  | DataAudit _ => DataAudit <$> read_list read_audit j
  | DataClients _ => DataClients <$> read_list read_client j
  | DataClient _ => DataClient <$> read_client j
  | DataFiles _ => DataFiles <$> read_list read_file j
  | DataFile _ => DataFile <$> read_file j
  | DataBatch _ _ =>
    '(deleted, missing) ← read_map2 (lit "deleted") (lit "missing") (read_list read_string) j;
    Some (DataBatch deleted missing)
  | DataHash _ => DataHash <$> read_map1 (lit "hash") (Hash_UnmarshalJSON Hash_zero) j
  | DataCatalogPath _ => DataCatalogPath <$> read_map1 (lit "catalog_path") read_string j
  end.

Definition read_meta (j : json) : option (list (bytes * metaValue)) :=
  match j with
  | JObject ms => mapM (fun '(k, v) =>
      match v with
      | JNumber t => n ← Atoi t; Some (k, MetaInt n)
      | JString s => Some (k, MetaString s)
      | _ => None
      end) ms
  | _ => None
  end.

(** The data and the meta entries of a success, or the text of an error. *)
Definition read_api (kind : apiData) (text : bytes)
    : option (apiData * list (bytes * metaValue) + bytes) :=
  j ← parse_document text;
  match j with
  | JObject ms =>
    ok ← decode_field api_names ms (lit "ok") decode_bool false;
    if ok : bool then
      d ← decode_field api_names ms (lit "data") decode_raw JNull;
      m ← decode_field api_names ms (lit "meta") decode_raw (JObject []);
      data ← read_data kind d;
      meta ← read_meta m;
      Some (inl (data, meta))
    else e ← decode_field api_names ms (lit "error") decode_string []; Some (inr e)
  | _ => None
  end.
End reading.

(** Two answers that nothing tells apart: the counters are a function. *)
Definition same_data `{Ed2kLib} (a b : apiData) : Prop :=
  match a, b with
  | DataStats x, DataStats y =>
    st_StartedAt x = st_StartedAt y /\ st_CurrentClients x = st_CurrentClients y /\
    st_CurrentFiles x = st_CurrentFiles y /\ (forall k, st_Counters x k = st_Counters y k) /\
    st_Peers x = st_Peers y
  | DataStats _, _ | _, DataStats _ => False
  | _, _ => a = b
  end.

(** ** What can be written *)

Section written.
Context {L : Ed2kLib} {HJ : HashJson} {HJL : HashJsonLaws} {LZ : LocalZone} {PT : ParseTexts}.

(** Which texts a value holds; numbers are within their Go types, and years
    have four digits. *)
Context (T : bytes -> Prop) (HT : forall s, utf8 s -> T s).

Definition time_shown (t : Z) : Prop := 0 <= year_of (zone_of t) t <= 9999.

Record audit_with (e : AuditEntry) : Prop := {
  aw_time : time_shown (au_Time e);
  aw_texts : Forall T [au_Action e; au_Resource e; au_ResourceID e; au_RemoteAddr e; au_Status e; au_Detail e]
}.

Record client_with (c : ClientSnapshot) : Prop := {
  cw_id : in_s 32 (sn_ClientID c);
  cw_times : time_shown (sn_ConnectedAt c) /\ time_shown (sn_LastSeenAt c);
  cw_texts : Forall T [sn_ClientName c; sn_RemoteAddress c; sn_ListenEndpoint c];
  cw_counts : Forall (in_s 64) [sn_SearchRequests c; sn_SourceRequests c; sn_CallbackRequests c;
    sn_InboundPackets c; sn_OutboundPackets c; sn_InboundBytes c; sn_OutboundBytes c]
}.

Record stats_ok (st : ServerStats) : Prop := {
  so_started : time_shown (st_StartedAt st);
  so_counts : Forall (in_s 64) [st_CurrentClients st; st_CurrentFiles st; st_Peers st];
  so_counters k : in_s 64 (st_Counters st k)
}.

Record source_with (e : SourceEntry) : Prop := {
  sw_texts : Forall T [se_Host e; se_UserHash e];
  sw_port : in_s 64 (se_Port e);
  sw_options : in_u 8 (se_ObfuscationOptions e)
}.

Record file_with (f : FileRecord) : Prop := {
  fw_texts : Forall T [fr_Name f; fr_FileType f; fr_Extension f; fr_MediaCodec f];
  fw_ints : Forall (in_s 64) [fr_Size f; fr_MediaLength f; fr_MediaBitrate f; fr_Sources f; fr_CompleteSources f];
  fw_endpoints : Forall source_with (fr_Endpoints f)
}.

Definition data_with (data : apiData) : Prop :=
  match data with
  | DataHealth _ | DataHash _ => True
  | DataStats stats => stats_ok stats
  | DataAudit entries => Forall audit_with entries
  | DataClients clients => Forall client_with clients
  | DataClient client => client_with client
  | DataFiles files => Forall file_with files
  | DataFile record => file_with record
  | DataBatch deleted missing => Forall T deleted /\ Forall T missing
  | DataCatalogPath path => T path
  end.

Definition meta_with (meta : list (bytes * metaValue)) : Prop :=
  Forall (fun '(k, v) => T k /\ match v with MetaInt n => in_s 64 n | MetaString s => T s end) meta.

(** An answer that is meant to be JSON. *)
Definition answer_with (body : respBody) : Prop :=
  match body with
  | ApiOK data meta => data_with data /\ meta_with meta
  | ApiError e => T (adminErr_text e)
  | _ => False
  end.

Lemma time_json_shown t :
  time_shown t -> time_json t = Some (JString (RFC3339Nano (zone_of t) t)) /\
    utf8 (RFC3339Nano (zone_of t) t).
Proof.
  unfold time_shown, time_json. intros Ht. cbv zeta.
  rewrite (proj2 (Z.leb_le _ _) (proj1 Ht)), (proj2 (Z.leb_le _ _) (proj2 Ht)).
  split; [done|]. by apply utf8_ascii, RFC3339_ascii.
Qed.

(** Members of a structure: constant names, and values that fit. *)
Ltac fields_fit :=
  repeat match goal with
  | |- Forall _ [] => apply List.Forall_nil
  | |- Forall _ (_ :: _) => apply Forall_cons; split; [split; cbn [fst snd]; [apply HT; names|]|]
  | |- Forall _ (_ ++ _) => apply Forall_app; split
  | |- Forall _ (omit_empty _ _) => unfold omit_empty
  | |- Forall _ (if ?b then _ else _) => destruct b
  | |- fits_with _ _ (encode_int _) => apply encode_int_fits; [done|try assumption]
  | |- fits_with _ _ (JString _) => apply encode_string_fits; [done|auto]
  end.

Ltac each_text H := repeat (apply Forall_cons in H as [? H]); clear H.

Lemma encode_AuditEntry_fits e :
  audit_with e -> exists j, encode_AuditEntry e = Some j /\ fits_with T 2 j.
Proof.
  intros [Ht Hx]. destruct (time_json_shown _ Ht) as [Et Hu]. unfold encode_AuditEntry. rewrite Et. each_text Hx.
  eexists. split; [done|]. apply fits_object; [|done]. fields_fit.
Qed.

Lemma in_s_32_64 z : in_s 32 z -> in_s 64 z.
Proof. unfold in_s. lia. Qed.

Lemma encode_ClientSnapshot_fits d c :
  d <= 2 -> client_with c -> exists j, encode_ClientSnapshot c = Some j /\ fits_with T d j.
Proof.
  intros Hd [Hi%in_s_32_64 [Hc Hl] Hx Hn]. unfold encode_ClientSnapshot.
  destruct (hash_json (sn_ClientHash c)) as (t & -> & Ht & _).
  destruct (time_json_shown _ Hc) as [-> Hcu]. destruct (time_json_shown _ Hl) as [-> Hlu].
  each_text Hx. each_text Hn. eexists. split; [done|].
  assert (d + 1 <= maxNestingDepth) as Hd' by (unfold maxNestingDepth; lia).
  apply fits_object; [|done]. fields_fit.
Qed.

Lemma encode_ServerStats_fits st :
  stats_ok st -> exists j, encode_ServerStats st = Some j /\ fits_with T 1 j.
Proof.
  intros [Ht Hx Hc]. unfold encode_ServerStats. destruct (time_json_shown _ Ht) as [-> Hu]. each_text Hx.
  eexists. split; [done|]. apply fits_object; [|done]. fields_fit. apply Forall_map.
  assert (Forall (fun e => utf8 e.1) counter_names) as Hn by names.
  eapply Forall_impl; [exact Hn|]. intros [name k] Hk. cbn [fst snd] in *. split; [by apply HT|].
  by apply encode_int_fits.
Qed.

Lemma byte_int z : in_u 8 z -> in_s 64 z.
Proof. unfold in_u, in_s. lia. Qed.

Lemma encode_source_fits d e :
  source_with e -> d + 1 <= maxNestingDepth -> fits_with T d (encode_SourceEntry e).
Proof.
  intros [Hx Hp Ho%byte_int] Hd. each_text Hx. apply fits_object; [|done]. fields_fit.
Qed.

Lemma encode_file_fits d f :
  d <= 2 -> file_with f -> exists j, encode_FileRecord f = Some j /\ fits_with T d j.
Proof.
  intros Hd [Hx Hn He]. unfold encode_FileRecord. destruct (hash_json (fr_Hash f)) as (t & -> & Ht & _).
  each_text Hx. each_text Hn. eexists. split; [done|].
  assert (d + 1 <= maxNestingDepth) as Hd' by (unfold maxNestingDepth; lia).
  apply fits_object; [|done]. fields_fit.
  destruct (fr_Endpoints f) as [|e es]; [split; [constructor|cbn; lia]|]. unfold encode_endpoints.
  apply fits_array; [|unfold maxNestingDepth; lia]. apply Forall_map. eapply Forall_impl; [exact He|].
  intros x Hxs. apply encode_source_fits; [done|unfold maxNestingDepth; lia].
Qed.

(** A list of values, each of which can be written. *)
Lemma encode_list_fits {A} (enc : A -> option json) (P : A -> Prop) l :
  (forall a, P a -> exists j, enc a = Some j /\ fits_with T 2 j) -> Forall P l ->
  exists js, mapM enc l = Some js /\ Forall2 (fun a j => enc a = Some j) l js /\ fits_with T 1 (JArray js).
Proof.
  intros Henc Hl. assert (exists js, mapM enc l = Some js /\ Forall2 (fun a j => enc a = Some j) l js /\
    Forall (fits_with T 2) js) as (js & E & Hf & Hfits).
  { induction Hl as [|a l Ha _ (js & E & Hf & Hfits)]; [exists []; split; [done|]; split; constructor|].
    destruct (Henc a Ha) as (j & Ej & Hj). exists (j :: js). cbn [mapM]. rewrite Ej. cbn. rewrite E.
    split; [done|]. split; by constructor. }
  exists js. split; [done|]. split; [done|]. by apply fits_array.
Qed.

Lemma strings_fit d l : Forall T l -> d <= 2 -> fits_with T d (JArray (map JString l)).
Proof.
  intros Hl Hd. apply fits_array; [|unfold maxNestingDepth; lia]. apply Forall_map.
  eapply Forall_impl; [exact Hl|]. intros s Hs. apply encode_string_fits; [unfold maxNestingDepth; lia|done].
Qed.

Lemma map_json_fits d entries :
  Forall (fun m => T m.1 /\ fits_with T (d + 1) m.2) entries -> d <= 2 -> fits_with T d (map_json entries).
Proof.
  intros He Hd. apply fits_object; [|unfold maxNestingDepth; lia]. by rewrite SliceStable_perm.
Qed.

Lemma data_json_fits data :
  data_with data -> exists j, data_json data = Some j /\ fits_with T 1 j.
Proof.
  destruct data as [up|st|es|cs|c|fs|f|del mis|h|path]; cbn [data_with data_json]; intros Hd.
  - eexists. split; [done|]. apply map_json_fits; [|done].
    repeat (apply Forall_cons; split; [split; cbn [fst snd]; [apply HT; names|apply encode_string_fits; [done|]]|]);
      [apply HT; names|apply HT, Duration_utf8|constructor].
  - by apply encode_ServerStats_fits.
  - destruct (encode_list_fits encode_AuditEntry audit_with es encode_AuditEntry_fits Hd) as (js & -> & _ & ?). by eexists.
  - destruct (encode_list_fits encode_ClientSnapshot client_with cs) as (js & -> & _ & ?);
      [intros; by apply encode_ClientSnapshot_fits|done|]. by eexists.
  - by apply encode_ClientSnapshot_fits.
  - destruct (encode_list_fits encode_FileRecord file_with fs) as (js & -> & _ & ?);
      [intros; by apply encode_file_fits|done|]. by eexists.
  - by apply encode_file_fits.
  - eexists. split; [done|]. destruct Hd. apply map_json_fits; [|done].
    repeat (apply Forall_cons; split; [split; cbn [fst snd]; [apply HT; names|by apply strings_fit]|]). constructor.
  - destruct (hash_json h) as (t & -> & Ht & _). eexists. split; [done|]. apply map_json_fits; [|done].
    apply Forall_cons; split; [split; cbn [fst snd]; [apply HT; names|apply encode_string_fits; auto; done]|constructor].
  - eexists. split; [done|]. apply map_json_fits; [|done].
    apply Forall_cons; split; [split; cbn [fst snd]; [apply HT; names|by apply encode_string_fits]|constructor].
Qed.

Lemma meta_json_fits meta :
  meta_with meta -> fits_with T 1 (map_json (map (fun '(k, v) => (k, meta_json v)) meta)).
Proof.
  intros Hm. apply map_json_fits; [|done]. apply Forall_map. eapply Forall_impl; [exact Hm|].
  intros [k [n|s]] [Hk Hv]; (split; [done|]); [by apply encode_int_fits|by apply encode_string_fits].
Qed.

(** Every answer can be written, and the text is one document. *)
Lemma api_json_fits body :
  answer_with body -> exists j, api_json body = Some j /\ fits_with T 0 j.
Proof.
  destruct body as [data meta|e|d| | | |p]; cbn [answer_with]; try done.
  - intros [Hd Hm]. destruct (data_json_fits data Hd) as (d & E & Hj). cbn [api_json]. rewrite E.
    eexists. split; [done|]. apply fits_object; [|done]. apply Forall_app. split.
    + apply Forall_cons; split; [split; cbn [fst snd]; [apply HT; names|split; [apply ok_bool|by vm_compute]]|].
      apply Forall_cons; split; [split; cbn [fst snd]; [apply HT; names|done]|constructor].
    + destruct meta as [|m meta]; [constructor|]. apply Forall_cons; split; [|constructor].
      split; cbn [fst snd]; [apply HT; names|by apply meta_json_fits].
  - intros He. eexists. split; [done|]. apply fits_object; [|done].
    apply Forall_cons; split; [split; cbn [fst snd]; [apply HT; names|split; [apply ok_bool|by vm_compute]]|].
    fields_fit.
Qed.
End written.

(** ** What is read *)

Section read_back.
Context {L : Ed2kLib} {HJ : HashJson} {HJL : HashJsonLaws} {LZ : LocalZone} {LZL : LocalZoneLaws}.
Context {U : UnicodeTables} {PT : ParseTexts}.

Lemma decode_time_shown old t :
  time_shown t -> decode_time old (JString (RFC3339Nano (zone_of t) t)) = Some t.
Proof.
  intros Ht. cbn [decode_time]. destruct (zone_minutes (t / Second)). by apply parse_RFC3339_text.
Qed.

Ltac int_field name v := at_field name (encode_int v); rewrite decode_encode_int by (by cbn); cbn [mbind option_bind].
Ltac string_field name v := at_field name (JString v); cbn [decode_string mbind option_bind].
Ltac each_text H := repeat (apply Forall_cons in H as [? H]); clear H.

Lemma read_audit_entry e j :
  audit_with utf8 e -> encode_AuditEntry e = Some j -> read_audit j = Some e.
Proof.
  intros [Ht _]. unfold encode_AuditEntry. destruct (time_json_shown _ Ht) as [-> _]. cbn [mbind option_bind].
  intros [= <-]. destruct e as [t a r i d s x]. unfold read_audit, decode_struct, omit_empty.
  cbn [au_Time au_Action au_Resource au_ResourceID au_RemoteAddr au_Status au_Detail] in *.
  destruct (bytes_eqb i []) eqn:Ei; [apply bytes_eqb_eq in Ei as ->|];
  (destruct (bytes_eqb d []) eqn:Ed; [apply bytes_eqb_eq in Ed as ->|]);
  (destruct (bytes_eqb x []) eqn:Ex; [apply bytes_eqb_eq in Ex as ->|]); cbn [app];
    (at_field (lit "time") (JString (RFC3339Nano (zone_of t) t)); rewrite decode_time_shown by done;
     cbn [mbind option_bind];
     string_field (lit "action") a; string_field (lit "resource") r;
     (no_field (lit "resource_id") || string_field (lit "resource_id") i);
     (no_field (lit "remote_addr") || string_field (lit "remote_addr") d);
     string_field (lit "status") s;
     (no_field (lit "detail") || string_field (lit "detail") x)); done.
Qed.

Lemma read_client_snapshot c j :
  client_with utf8 c -> encode_ClientSnapshot c = Some j -> read_client j = Some c.
Proof.
  intros [Hi [Hc Hl] _ Hn]. unfold encode_ClientSnapshot.
  destruct (hash_json (sn_ClientHash c)) as (t & -> & _ & Hh).
  destruct (time_json_shown _ Hc) as [-> _]. destruct (time_json_shown _ Hl) as [-> _].
  cbn [mbind option_bind]. intros [= <-]. destruct c as [id n h ra le ca la c1 c2 c3 c4 c5 c6 c7].
  cbn [sn_ClientID sn_ClientName sn_ClientHash sn_RemoteAddress sn_ListenEndpoint sn_ConnectedAt sn_LastSeenAt
       sn_SearchRequests sn_SourceRequests sn_CallbackRequests sn_InboundPackets sn_OutboundPackets
       sn_InboundBytes sn_OutboundBytes] in *.
  each_text Hn. unfold read_client.
  at_field (lit "client_id") (encode_int id). rewrite decode_encode_int by done. cbn [mbind option_bind].
  string_field (lit "client_name") n.
  at_field (lit "client_hash") (JString t). rewrite Hh. cbn [mbind option_bind].
  string_field (lit "remote_address") ra. string_field (lit "listen_endpoint") le.
  at_field (lit "connected_at") (JString (RFC3339Nano (zone_of ca) ca)). rewrite decode_time_shown by done.
  cbn [mbind option_bind].
  at_field (lit "last_seen_at") (JString (RFC3339Nano (zone_of la) la)). rewrite decode_time_shown by done.
  cbn [mbind option_bind].
  int_field (lit "search_requests") c1. int_field (lit "source_requests") c2. int_field (lit "callback_requests") c3.
  int_field (lit "inbound_packets") c4. int_field (lit "outbound_packets") c5.
  int_field (lit "inbound_bytes") c6. int_field (lit "outbound_bytes") c7. done.
Qed.

Definition stats_members (st : ServerStats) (started : json) : list (bytes * json) :=
  [(lit "started_at", started); (lit "current_clients", encode_int (st_CurrentClients st));
   (lit "current_files", encode_int (st_CurrentFiles st))]
  ++ map (fun '(name, k) => (name, encode_int (st_Counters st k))) counter_names
  ++ [(lit "peers", encode_int (st_Peers st))].

Lemma stats_keys st started : map fst (stats_members st started) = ServerStats_names.
Proof. reflexivity. Qed.

Lemma stats_field {A} st started name v (dec : decoder A) old :
  (name, v) ∈ stats_members st started ->
  decode_field ServerStats_names (stats_members st started) name dec old = dec old v.
Proof.
  intros Hin. apply decode_field_at; [|rewrite stats_keys; names|done].
  rewrite <- (stats_keys st started). apply Forall_forall. intros m Hm. apply list_elem_of_fmap. by exists m.
Qed.

Lemma read_server_stats st j :
  stats_ok st -> encode_ServerStats st = Some j ->
  exists st', read_stats j = Some st' /\ same_data (DataStats st') (DataStats st).
Proof.
  intros [Ht Hn Hc]. unfold encode_ServerStats. destruct (time_json_shown _ Ht) as [-> _]. cbn [mbind option_bind].
  intros [= <-]. unfold read_stats. set (started := JString _).
  assert (decode_time 0 started = Some (st_StartedAt st)) as Hs by by apply decode_time_shown.
  fold (stats_members st started). clearbody started. each_text Hn.
  rewrite (stats_field st started (lit "started_at") started), Hs by left. cbn [mbind option_bind].
  rewrite (stats_field st started (lit "current_clients") (encode_int (st_CurrentClients st))) by (right; left).
  rewrite decode_encode_int by done. cbn [mbind option_bind].
  rewrite (stats_field st started (lit "current_files") (encode_int (st_CurrentFiles st))) by (right; right; left).
  rewrite decode_encode_int by done. cbn [mbind option_bind].
  match goal with |- context [mapM ?f counter_names] =>
    assert (mapM f counter_names = Some (map (fun e => st_Counters st e.2) counter_names)) as -> end.
  { apply mapM_Some. apply Forall2_fmap_r, Forall_Forall2_diag, Forall_forall. intros [name k] Hin.
    cbv beta iota. cbn [snd]. rewrite (stats_field st started name (encode_int (st_Counters st k))).
    - by apply decode_encode_int.
    - unfold stats_members. rewrite !elem_of_app. right. left. apply list_elem_of_fmap. by exists (name, k). }
  cbn [mbind option_bind].
  rewrite (stats_field st started (lit "peers") (encode_int (st_Peers st))).
  2: { unfold stats_members. rewrite !elem_of_app. right. right. left. }
  rewrite decode_encode_int by done. cbn [mbind option_bind]. eexists. split; [done|].
  cbn. split_and!; try done. by intros [].
Qed.

(** Records of the catalog, without a bound on the depth of texts. *)
Lemma file_with_storable f : file_with utf8 f -> storable f.
Proof.
  intros [Hx Hn He]. each_text Hx. each_text Hn. constructor; try done.
  eapply Forall_impl; [exact He|]. intros e [Hx Hp Ho]. each_text Hx. by constructor.
Qed.

Lemma read_file_record f j : file_with utf8 f -> encode_FileRecord f = Some j -> read_file j = Some f.
Proof.
  intros Hf%file_with_storable Ej. unfold read_file. by rewrite (decode_encode_FileRecord f j Hf Ej).
Qed.

Lemma read_list_back {A} (enc : A -> option json) (read : json -> option A) (P : A -> Prop) l js :
  (forall a j, P a -> enc a = Some j -> read j = Some a) -> Forall P l ->
  mapM enc l = Some js -> read_list read (JArray js) = Some l.
Proof.
  intros Hr Hl E. cbn [read_list]. apply mapM_Some in E. apply mapM_Some.
  revert Hl; induction E as [|a j l js Ea _ IH]; intros Hl; [constructor|]. inversion_clear Hl.
  constructor; [by apply Hr|by apply IH].
Qed.

Lemma read_strings l : read_list read_string (JArray (map JString l)) = Some l.
Proof. cbn [read_list]. apply mapM_Some. induction l; by constructor. Qed.

Lemma data_read_back data j :
  data_with utf8 data -> data_json data = Some j ->
  exists data', read_data data j = Some data' /\ same_data data' data.
Proof.
  assert (forall d, same_data d d) as Hs by (intros []; by repeat split).
  destruct data as [up|st|es|cs|c|fs|f|del mis|h|path]; cbn [data_with data_json]; intros Hd E.
  - injection E as <-. eexists. split; [|apply Hs]. cbn [read_data].
    change (map_json _) with (JObject [(lit "status", JString (lit "ok")); (lit "uptime", JString (Duration_String up))]).
    cbn [read_map2 read_string]. rewrite !(proj2 (bytes_eqb_eq _ _)) by done. cbn [andb mbind option_bind].
    by rewrite !(proj2 (bytes_eqb_eq _ _)).
  - destruct (read_server_stats st j Hd E) as (st' & Er & Es). exists (DataStats st'). cbn [read_data]. by rewrite Er.
  - destruct (mapM encode_AuditEntry es) as [js|] eqn:Ej; [|done]. injection E as <-. eexists. split; [|apply Hs].
    cbn [read_data]. by rewrite (read_list_back encode_AuditEntry read_audit (audit_with utf8) es js read_audit_entry).
  - destruct (mapM encode_ClientSnapshot cs) as [js|] eqn:Ej; [|done]. injection E as <-. eexists. split; [|apply Hs].
    cbn [read_data].
    by rewrite (read_list_back encode_ClientSnapshot read_client (client_with utf8) cs js read_client_snapshot).
  - eexists. split; [|apply Hs]. cbn [read_data]. by rewrite (read_client_snapshot c j).
  - destruct (mapM encode_FileRecord fs) as [js|] eqn:Ej; [|done]. injection E as <-. eexists. split; [|apply Hs].
    cbn [read_data]. by rewrite (read_list_back encode_FileRecord read_file (file_with utf8) fs js read_file_record).
  - eexists. split; [|apply Hs]. cbn [read_data]. by rewrite (read_file_record f j).
  - injection E as <-. eexists. split; [|apply Hs]. cbn [read_data].
    change (map_json _) with (JObject [(lit "deleted", JArray (map JString del)); (lit "missing", JArray (map JString mis))]).
    cbn [read_map2]. rewrite !(proj2 (bytes_eqb_eq _ _)) by done. cbn [andb]. by rewrite !read_strings.
  - destruct (hash_json h) as (t & Eh & _ & Hh). rewrite Eh in E. cbn [mbind option_bind] in E. injection E as <-.
    eexists. split; [|apply Hs]. cbn [read_data]. change (map_json _) with (JObject [(lit "hash", JString t)]).
    cbn [read_map1]. rewrite (proj2 (bytes_eqb_eq _ _)) by done. by rewrite Hh.
  - injection E as <-. eexists. split; [|apply Hs]. cbn [read_data].
    change (map_json _) with (JObject [(lit "catalog_path", JString path)]).
    cbn [read_map1]. by rewrite (proj2 (bytes_eqb_eq _ _)).
Qed.

(** Sorting by key does not look at the values. *)
Lemma SliceStable_map {A B} (f : A -> B) (lessA : A -> A -> bool) (lessB : B -> B -> bool) l :
  (forall x y, lessB (f x) (f y) = lessA x y) -> SliceStable lessB (map f l) = map f (SliceStable lessA l).
Proof.
  intros Hf. assert (forall x l, insert_stable lessB (f x) (map f l) = map f (insert_stable lessA x l)) as Hi.
  { intros x l'. induction l' as [|y l' IH]; [done|]. cbn [map insert_stable]. rewrite Hf.
    destruct (lessA x y); [done|]. cbn [map]. by rewrite IH. }
  unfold SliceStable. change (@nil B) with (map f []). generalize (@nil A) as acc.
  induction l as [|x l IH]; intros acc; [done|]. cbn [map foldl]. by rewrite Hi, IH.
Qed.

Lemma newline_space : Forall (fun b => is_space b = true) [x0a].
Proof. by repeat constructor. Qed.

Definition by_key (meta : list (bytes * metaValue)) : list (bytes * metaValue) :=
  SliceStable (fun a b => bytes_ltb a.1 b.1) meta.

Lemma meta_read_back meta :
  meta_with utf8 meta -> read_meta (map_json (map (fun '(k, v) => (k, meta_json v)) meta)) = Some (by_key meta).
Proof.
  intros Hm. unfold map_json, by_key.
  rewrite (SliceStable_map _ (fun a b => bytes_ltb a.1 b.1)) by (by intros [] []).
  cbn [read_meta]. apply mapM_Some. apply Forall2_fmap_l, Forall_Forall2_diag.
  assert (meta_with utf8 (SliceStable (fun a b => bytes_ltb a.1 b.1) meta)) as Hs
    by (unfold meta_with; by rewrite SliceStable_perm).
  eapply Forall_impl; [exact Hs|]. intros [k [n|s]] [_ Hv]; (change (Atoi (Itoa n) ≫= (fun n0 => Some (k, MetaInt n0)) = Some (k, MetaInt n)) || done).
  by rewrite Atoi_Itoa_signed.
Qed.

(** Both kinds of answers, read by a client. *)
Lemma success_read_back data meta text :
  data_with utf8 data -> meta_with utf8 meta -> api_text (ApiOK data meta) = Some text ->
  exists data', read_api data text = Some (inl (data', by_key meta)) /\ same_data data' data.
Proof.
  intros Hd Hm E. unfold api_text in E.
  destruct (api_json_fits utf8 (fun s H => H) (ApiOK data meta)) as (j & Ej & Hj); [by split|].
  rewrite Ej in E. cbn [mbind option_bind] in E. injection E as <-.
  unfold read_api, Marshal. rewrite parse_document_encode by (done || by apply newline_space). cbn [mbind option_bind].
  cbn [api_json] in Ej. destruct (data_json data) as [d|] eqn:Ed; [|done]. cbn [mbind option_bind] in Ej.
  destruct (data_read_back data d Hd Ed) as (data' & Er & Es). exists data'. split; [|done].
  destruct meta as [|m meta]; injection Ej as <-; cbn [app].
  - at_field (lit "ok") (JBool true). cbn [decode_bool mbind option_bind]. at_field (lit "data") d.
    cbn [decode_raw mbind option_bind]. no_field (lit "meta"). by rewrite Er.
  - set (meta' := map_json _) in *.
    at_field (lit "ok") (JBool true). cbn [decode_bool mbind option_bind]. at_field (lit "data") d.
    cbn [decode_raw mbind option_bind]. at_field (lit "meta") meta'. cbn [decode_raw mbind option_bind].
    rewrite Er. cbn [mbind option_bind].
    assert (read_meta meta' = Some (by_key (m :: meta))) as -> by exact (meta_read_back _ Hm). done.
Qed.

Lemma error_read_back kind e text :
  utf8 (adminErr_text e) -> api_text (ApiError e) = Some text ->
  read_api kind text = Some (inr (adminErr_text e)).
Proof.
  intros He E. unfold api_text in E.
  destruct (api_json_fits utf8 (fun s H => H) (ApiError e) He) as (j & Ej & Hj).
  rewrite Ej in E. cbn [mbind option_bind] in E. injection E as <-.
  unfold read_api, Marshal. rewrite parse_document_encode by (done || by apply newline_space). cbn [mbind option_bind].
  cbn [api_json] in Ej. injection Ej as <-. unfold omit_empty.
  destruct (bytes_eqb (adminErr_text e) []) eqn:Ee;
    at_field (lit "ok") (JBool false); cbn [decode_bool mbind option_bind].
  - apply bytes_eqb_eq in Ee as ->. by no_field (lit "error").
  - by at_field (lit "error") (JString (adminErr_text e)).
Qed.
End read_back.

(** ** Answers of the interface *)

Section answers.
Context {L : Ed2kLib} {W : Ed2kWire} {U : UnicodeTables} {MI : MapIter}.
Context {D : TextDecoder} {ZL : Zlib} {PC : PacketCombiner} {WD : World}.
Context {SS : SliceSort} {HJ : HashJson} {HJL : HashJsonLaws} {AT : AdminTexts}.
Context {LZ : LocalZone} {LZL : LocalZoneLaws} {PT : ParseTexts}.

(** What holds of every answer of a handler. *)
Definition answers (P : Response -> Prop) (m : M Response) : Prop :=
  forall s resp s', m s = (Ok resp, s') -> P resp.

Lemma answers_ret P resp : P resp -> answers P (ret resp).
Proof. intros H s resp' s' [= <- _]. done. Qed.

Lemma answers_bind {A} P (m : M A) (k : A -> M Response) : (forall a, answers P (k a)) -> answers P (bind m k).
Proof.
  intros Hk s resp s' E. unfold bind in E. destruct (m s) as [[a|e] s1]; [|done]. by apply (Hk a s1 resp s').
Qed.

(** The status tells successes from errors. *)
Definition status_fits (resp : Response) : Prop :=
  match resp_Body resp with
  | ApiOK _ _ => resp_Status resp = StatusOK \/ resp_Status resp = StatusCreated
  | ApiError _ => 400 <= resp_Status resp < 600
  | _ => True
  end.

Lemma only_fits method next r : (forall r, answers status_fits (next r)) -> answers status_fits (only method next r).
Proof. intros H. unfold only. destruct (negb _); [by apply answers_ret|done]. Qed.

Lemma auth_fits next r : answers status_fits (next r) -> answers status_fits (withAdminAuth next r).
Proof.
  intros H. unfold withAdminAuth. apply answers_bind. intros cfg. destruct (bytes_eqb _ _); [done|].
  destruct (negb _); [by apply answers_ret|done].
Qed.

Ltac fit :=
  repeat match goal with
  | |- answers _ (only _ _ _) => apply only_fits; intros ?
  | |- answers _ (withAdminAuth _ _) => apply auth_fits
  | |- answers _ (bind _ _) => apply answers_bind; intros ?
  | |- answers _ (match ?x with _ => _ end) => destruct x
  | |- answers _ (ret _) => apply answers_ret; first [done|by left|by right]
  end.

Lemma handlers_fit rt r : answers status_fits (route_handler rt r).
Proof.
  destruct rt; cbn [route_handler]; fit.
  - unfold handleAdminUI. fit.
  - unfold handleAdminJS. fit.
  - unfold handleAdminCSS. fit.
  - unfold handleHealthz. fit.
  - unfold handleAdminAudit. fit.
  - unfold handleAdminStats. fit.
  - unfold handleAdminClients. fit.
  - unfold handleAdminClientByID. fit.
  - unfold handleAdminBatchDeleteFiles. fit.
  - unfold handleAdminFiles, listFiles, upsertFile. fit.
  - unfold handleAdminFileByHash, deleteFile. fit.
  - unfold handleAdminPersist. fit.
Qed.

Lemma mux_fits r : answers status_fits (adminMux r).
Proof.
  unfold adminMux. cbv zeta. destruct (redirect_slash _); [by apply answers_ret|].
  destruct (negb _); [by apply answers_ret|].
  destruct (best_pattern _) as [[pattern rt]|]; [apply handlers_fit|by apply answers_ret].
Qed.

(** C28: what the interface answers is what a client decodes: whatever texts the
    names of clients and files hold, an answer in JSON is one document, a string
    that is not UTF-8 with U+FFFD in it; and of UTF-8 the client gets back what
    the handler wrote, its data with every field, the entries about the page,
    or the text of the error. The status tells the same as the field "ok". *)
Theorem admin_answers_read r s resp s' :
  adminMux r s = (Ok resp, s') -> answer_with (fun _ => True) (resp_Body resp) ->
  exists j text, api_json (resp_Body resp) = Some j /\ api_text (resp_Body resp) = Some text /\
    parse_document text = Some (coerced j) /\
    (answer_with utf8 (resp_Body resp) ->
     match resp_Body resp with
     | ApiOK data meta =>
       (resp_Status resp = StatusOK \/ resp_Status resp = StatusCreated) /\
       exists data', read_api data text = Some (inl (data', by_key meta)) /\ same_data data' data
     | ApiError e =>
       400 <= resp_Status resp < 600 /\ forall kind, read_api kind text = Some (inr (adminErr_text e))
     | _ => True
     end).
Proof.
  intros E Ha. pose proof (mux_fits r s resp s' E) as Hf. unfold status_fits in Hf.
  destruct (api_json_fits (fun _ => True) (fun _ _ => I) _ Ha) as (j & Ej & Hj).
  assert (api_text (resp_Body resp) = Some (Marshal j ++ [x0a])) as Et by (unfold api_text; by rewrite Ej).
  exists j, (Marshal j ++ [x0a]). split; [done|]. split; [done|].
  split; [apply (parse_document_coerced false j [x0a] Hj), newline_space|]. intros Hu.
  destruct (resp_Body resp) as [data meta|e|d| | | |p]; try done.
  - split; [done|]. destruct Hu. by apply success_read_back.
  - split; [done|]. intros kind. by apply error_read_back.
Qed.
End answers.

(** ** Witness *)

(** A zone two hours ahead of UTC. *)
Definition demo_zone : LocalZone := {| local_offset := fun _ => 7200 |}.

Lemma demo_zone_laws : @LocalZoneLaws demo_zone.
Proof. constructor. intros u. split; [reflexivity|]. by vm_compute. Qed.

Definition demo_parse_texts : ParseTexts :=
  {| clientIDErrorText := fun _ => lit "invalid syntax"; hashErrorText := fun _ => lit "invalid hash" |}.

Definition client_b `{Ed2kLib, LocalZone} (c : ClientSnapshot) : bool :=
  forallb (fun s => bool_decide (utf8 s)) [sn_ClientName c; sn_RemoteAddress c; sn_ListenEndpoint c] &&
  forallb (fun z => (- 2 ^ 31 <=? z) && (z <? 2 ^ 31)) [sn_ClientID c; sn_SearchRequests c; sn_SourceRequests c;
    sn_CallbackRequests c; sn_InboundPackets c; sn_OutboundPackets c; sn_InboundBytes c; sn_OutboundBytes c] &&
  forallb (fun t => (0 <=? year_of (zone_of t) t) && (year_of (zone_of t) t <=? 9999))
    [sn_ConnectedAt c; sn_LastSeenAt c].

Definition meta_b (m : bytes * metaValue) : bool :=
  bool_decide (utf8 m.1) &&
  match m.2 with MetaInt n => (- 2 ^ 31 <=? n) && (n <? 2 ^ 31) | MetaString s => bool_decide (utf8 s) end.

Lemma client_in {L : Ed2kLib} {LZ : LocalZone} (T : bytes -> Prop) c :
  (forall s, utf8 s -> T s) -> client_b c = true -> client_with T c.
Proof.
  unfold client_b. intros HT. rewrite !andb_true_iff, !forallb_forall. intros [[Hu Hn] Ht].
  assert (forall z, In z [sn_ClientID c; sn_SearchRequests c; sn_SourceRequests c; sn_CallbackRequests c;
    sn_InboundPackets c; sn_OutboundPackets c; sn_InboundBytes c; sn_OutboundBytes c] -> in_s 32 z) as Hi.
  { intros z Hz%Hn. apply andb_true_iff in Hz as [?%Z.leb_le ?%Z.ltb_lt]. by split. }
  assert (forall t, In t [sn_ConnectedAt c; sn_LastSeenAt c] -> time_shown t) as Hs.
  { intros t Hz%Ht. apply andb_true_iff in Hz as [?%Z.leb_le ?%Z.leb_le]. by split. }
  constructor.
  - apply Hi. by left.
  - split; apply Hs; cbn; auto.
  - apply List.Forall_forall. intros x Hx%Hu. apply HT. by apply bool_decide_eq_true in Hx.
  - apply List.Forall_forall. intros x Hx. apply in_s_32_64, Hi. by right.
Qed.

Lemma clients_in {L : Ed2kLib} {LZ : LocalZone} {PT : ParseTexts} (T : bytes -> Prop) clients meta :
  (forall s, utf8 s -> T s) -> forallb client_b clients && forallb meta_b meta = true ->
  answer_with T (ApiOK (DataClients clients) meta).
Proof.
  intros HT [Hc Hm]%andb_true_iff. rewrite forallb_forall in Hc, Hm. split; apply List.Forall_forall.
  - intros c Hi%Hc. by apply client_in.
  - intros [k v] [Hk Hv]%Hm%andb_true_iff. cbn [fst snd] in *. apply bool_decide_eq_true in Hk.
    split; [by apply HT|]. destruct v as [n|t].
    + apply andb_true_iff in Hv as [?%Z.leb_le ?%Z.ltb_lt]. apply in_s_32_64. by split.
    + apply HT. by apply bool_decide_eq_true in Hv.
Qed.

(** The list of the clients that are logged in. *)
Definition demo_clients : Request := demo_request MethodGet (lit "/api/clients") [] [] [].

Lemma admin_answers_read_witness :
  let LZ := demo_zone in let PT := demo_parse_texts in
  exists resp s' clients meta text,
    adminMux demo_clients (demo_run demo_two) = (Ok resp, s') /\
    resp_Body resp = ApiOK (DataClients clients) meta /\ length clients = 2%nat /\
    api_text (resp_Body resp) = Some text /\
    read_api (L := ed2k_ref) (DataClients clients) text = Some (inl (DataClients clients, by_key meta)).
Proof.
  cbv zeta.
  assert (match (adminMux demo_clients (demo_run demo_two)).1 with
          | Ok resp => match resp_Body resp with
                       | ApiOK (DataClients clients) meta =>
                         Nat.eqb (length clients) 2 &&
                         (forallb (client_b (H0 := demo_zone)) clients && forallb meta_b meta)
                       | _ => false
                       end
          | Err _ => false
          end = true) as Hc by (vm_compute; reflexivity).
  destruct (adminMux demo_clients (demo_run demo_two)) as [[resp|e] s'] eqn:E; cbn [fst] in Hc; [|discriminate Hc].
  destruct (resp_Body resp) as [[| | |clients| | | | | |] meta| | | | | |] eqn:Eb; try discriminate Hc.
  apply andb_true_iff in Hc as [Hl%Nat.eqb_eq Hc].
  destruct (admin_answers_read (LZ := demo_zone) (LZL := demo_zone_laws) (PT := demo_parse_texts)
              demo_clients (demo_run demo_two) resp s' E) as (j & text & _ & Ht & _ & Hr).
  - rewrite Eb. by apply clients_in.
  - rewrite Eb in Hr, Ht. destruct Hr as [_ (data' & Hr & Hs)]; [by apply clients_in|].
    exists resp, s', clients, meta, text. rewrite Eb. split; [reflexivity|]. split; [reflexivity|].
    split; [exact Hl|]. split; [exact Ht|].
    assert (data' = DataClients clients) as Hd; [|rewrite Hd in Hr; exact Hr].
    clear - Hs. destruct data'; first [exact Hs|discriminate Hs|destruct Hs].
Defined.
