(* ===== verification/AdminPage.v ===== *)
(** * The page of the interface (ed2ksrv/admin_ui.go, templates/admin.html)

    What html/template makes of the page template and the data of a request:
    the actions, the escaping, and the texts of the script in base64. *)

From S2P Require Import Prelude GoStrings GoUtf8 Json JsonFacts AdminLocale AdminScript.
From S2P Require Import Ed2kLib Config Server Admin.

Local Open Scope Z_scope.

(** ** Texts for the script *)

(** The members of the JSON document, by the tags of [adminJSStrings]. *)
Definition js_members (t : adminJSStrings) : list (bytes * bytes) :=
  [(lit "statConnectionsFmt", js_StatConnectionsFmt t);
   (lit "statRegisteredFmt", js_StatRegisteredFmt t);
   (lit "statSearchEntriesFmt", js_StatSearchEntriesFmt t); (lit "statPacketsFmt", js_StatPacketsFmt t);
   (lit "pagerFmt", js_PagerFmt t); (lit "emptyClients", js_EmptyClients t);
   (lit "emptyFiles", js_EmptyFiles t); (lit "emptyAudit", js_EmptyAudit t);
   (lit "btnDelete", js_BtnDelete t); (lit "toastDeleted", js_ToastDeleted t);
   (lit "toastNoSelection", js_ToastNoSelection t); (lit "toastBatchDone", js_ToastBatchDone t);
   (lit "toastInvalidToken", js_ToastInvalidToken t); (lit "toastSaved", js_ToastSaved t);
   (lit "toastLoggedOut", js_ToastLoggedOut t); (lit "invalidResponse", js_InvalidResponse t);
   (lit "dateLocale", js_DateLocale t)].

Definition encode_JSStrings (t : adminJSStrings) : json :=
  JObject (map (fun '(name, text) => (name, JString text)) (js_members t)).

(** [base64.StdEncoding] *)
Definition base64_digit (z : Z) : byte :=
  if z <? 26 then byte_of_Z (65 + z)
  else if z <? 52 then byte_of_Z (71 + z)
  else if z <? 62 then byte_of_Z (z - 4)
  else if z =? 62 then x2b else x2f.

Fixpoint base64_EncodeToString (s : bytes) : bytes :=
  match s with
  | [] => []
  | [a] =>
    let v := byteZ a * 16 in
    [base64_digit (v / 64); base64_digit (v mod 64); x3d; x3d]
  | [a; b] =>
    let v := (byteZ a * 256 + byteZ b) * 4 in
    [base64_digit (v / 4096); base64_digit (v / 64 mod 64); base64_digit (v mod 64); x3d]
  | a :: b :: c :: rest =>
    let v := (byteZ a * 256 + byteZ b) * 256 + byteZ c in
    [base64_digit (v / 262144); base64_digit (v / 4096 mod 64); base64_digit (v / 64 mod 64);
     base64_digit (v mod 64)] ++ base64_EncodeToString rest
  end.

Definition I18NBase64 (t : adminJSStrings) : bytes := base64_EncodeToString (Marshal (encode_JSStrings t)).

(** ** The template *)

(** What html/template does to a value in text, in a title and in a quoted
    attribute. *)
Definition html_replacement (b : byte) : bytes :=
  if byte_eqb b x00 then EncodeRune 0xFFFD
  else if byte_eqb b x22 then lit "&#34;"
  else if byte_eqb b x26 then lit "&amp;"
  else if byte_eqb b x27 then lit "&#39;"
  else if byte_eqb b x2b then lit "&#43;"
  else if byte_eqb b x3c then lit "&lt;"
  else if byte_eqb b x3e then lit "&gt;"
  else [b].

Definition html_escape (s : bytes) : bytes := flat_map html_replacement s.

(** [strings.Cut] *)
Fixpoint Cut (s sep : bytes) : option (bytes * bytes) :=
  if has_prefix sep s then Some ([], drop (length sep) s)
  else match s with
       | [] => None
       | b :: s' => '(before, after) ← Cut s' sep; Some (b :: before, after)
       end.

Inductive piece :=
| PieceText (text : bytes)
| PieceField (name : bytes)
| PieceIf (flag body : bytes).

(** The actions of the template: a field, or a text behind a condition. *)
Fixpoint parse_template (fuel : nat) (s : bytes) : option (list piece) :=
  match fuel with
  | O => None
  | S fuel =>
    match Cut s (lit "{{") with
    | None => Some [PieceText s]
    | Some (text, rest) =>
      '(action, rest) ← Cut rest (lit "}}");
      if has_prefix (lit "if .") action then
        '(body, rest) ← Cut rest (lit "{{end}}");
        pieces ← parse_template fuel rest;
        Some (PieceText text :: PieceIf (drop 4 action) body :: pieces)
      else if has_prefix (lit ".") action then
        pieces ← parse_template fuel rest; Some (PieceText text :: PieceField (drop 1 action) :: pieces)
      else None
    end
  end.

Definition lookup_name {A} (entries : list (bytes * A)) (name : bytes) : option A :=
  snd <$> List.find (fun e => bytes_eqb e.1 name) entries.

Definition html_fields : list (bytes * (adminHTMLStrings -> bytes)) :=
  [(lit "LangAttr", html_LangAttr); (lit "TitleSuffix", html_TitleSuffix);
   (lit "Eyebrow", html_Eyebrow); (lit "BtnRefresh", html_BtnRefresh);
   (lit "BtnLogout", html_BtnLogout); (lit "LoginKicker", html_LoginKicker);
   (lit "LoginTitle", html_LoginTitle); (lit "LoginHelp", html_LoginHelp);
   (lit "LabelToken", html_LabelToken); (lit "PlaceholderToken", html_PlaceholderToken);
   (lit "BtnLogin", html_BtnLogin); (lit "StatClients", html_StatClients);
   (lit "StatConnSmall", html_StatConnSmall); (lit "StatFiles", html_StatFiles);
   (lit "StatRegSmall", html_StatRegSmall); (lit "StatSearches", html_StatSearches);
   (lit "StatEntriesSmall", html_StatEntriesSmall); (lit "StatTraffic", html_StatTraffic);
   (lit "StatPacketsSmall", html_StatPacketsSmall); (lit "ClientKicker", html_ClientKicker);
   (lit "ClientTitle", html_ClientTitle); (lit "ClientSearchL", html_ClientSearchL);
   (lit "ClientSearchPh", html_ClientSearchPh); (lit "ThID", html_ThID); (lit "ThName", html_ThName);
   (lit "ThRemote", html_ThRemote); (lit "ThListen", html_ThListen);
   (lit "ThLastSeen", html_ThLastSeen); (lit "PagerPrev", html_PagerPrev);
   (lit "PagerNext", html_PagerNext); (lit "PagerPageOne", html_PagerPageOne);
   (lit "FilesKicker", html_FilesKicker); (lit "FilesTitle", html_FilesTitle);
   (lit "FileSearchL", html_FileSearchL); (lit "FileSearchPh", html_FileSearchPh);
   (lit "FileTypeL", html_FileTypeL); (lit "FileTypePh", html_FileTypePh);
   (lit "BtnBatchDelete", html_BtnBatchDelete); (lit "ThCheck", html_ThCheck);
   (lit "ThFName", html_ThFName); (lit "ThFType", html_ThFType); (lit "ThSize", html_ThSize);
   (lit "ThSources", html_ThSources); (lit "ThActions", html_ThActions);
   (lit "RegKicker", html_RegKicker); (lit "RegTitle", html_RegTitle); (lit "LHash", html_LHash);
   (lit "PHHash", html_PHHash); (lit "LName", html_LName); (lit "LSize", html_LSize);
   (lit "LFileType", html_LFileType); (lit "LExt", html_LExt); (lit "LHost", html_LHost);
   (lit "LPort", html_LPort); (lit "PHPort", html_PHPort); (lit "BtnSave", html_BtnSave);
   (lit "InspKicker", html_InspKicker); (lit "InspTitle", html_InspTitle);
   (lit "DetailPlaceholder", html_DetailPlaceholder); (lit "AuditKicker", html_AuditKicker);
   (lit "AuditTitle", html_AuditTitle); (lit "ThATime", html_ThATime);
   (lit "ThAAction", html_ThAAction); (lit "ThARes", html_ThARes); (lit "ThAID", html_ThAID);
   (lit "ThASrc", html_ThASrc); (lit "ThAStatus", html_ThAStatus); (lit "LangEN", html_LangEN);
   (lit "LangZH", html_LangZH)].

(** The fields of [adminUIData] that are texts, and the conditions. *)
Definition text_field (name : bytes) : option (adminUIData -> bytes) :=
  if has_prefix (lit "T.") name then
    f ← lookup_name html_fields (drop 2 name); Some (fun d : adminUIData => f (ui_T d))
  else lookup_name
    [(lit "ServerName", ui_ServerName); (lit "Description", ui_Description); (lit "Lang", ui_Lang);
     (lit "TokenEnabled", fun d => if ui_TokenEnabled d then lit "true" else lit "false");
     (lit "I18NBase64", fun d => I18NBase64 (ui_I18N d))] name.

Definition flag_field (name : bytes) : option (adminUIData -> bool) :=
  lookup_name [(lit "IsEN", ui_IsEN); (lit "IsZH", ui_IsZH)] name.

Definition render (d : adminUIData) (p : piece) : option bytes :=
  match p with
  | PieceText text => Some text
  | PieceField name => f ← text_field name; Some (html_escape (f d))
  | PieceIf flag body => f ← flag_field flag; Some (if (f d : bool) then body else [])
  end.

Definition render_all (d : adminUIData) (pieces : list piece) : option bytes :=
  texts ← mapM (render d) pieces; Some (concat texts).

(** [adminPageTemplate]: parsed when the program starts. *)
Definition adminPageTemplate : option (list piece) := parse_template 200 admin_html.

Definition page (d : adminUIData) : option bytes :=
  pieces ← adminPageTemplate; render_all d pieces.
