(* ===== verification/AdminPageFacts.v ===== *)
(** * The page cannot be injected into

    A scanner for the tags of a text in HTML, and what it finds in the page
    whatever the server is called. *)

From S2P Require Import Prelude GoStrings GoUtf8 Json JsonFacts AdminLocale AdminScript.
From S2P Require Import Ed2kLib Config Server Admin AdminPage.

Local Open Scope Z_scope.

(** ** Tags *)

(** Where a byte of a page stands: between tags, in a tag, or in a quoted
    attribute of one. *)
Inductive html_mode := InText | InTag | InDouble | InSingle.

#[export] Instance html_mode_eq : EqDecision html_mode.
Proof. solve_decision. Defined.

Definition mode_step (m : html_mode) (b : byte) : html_mode :=
  match m with
  | InText => if byte_eqb b x3c then InTag else InText
  | InTag => if byte_eqb b x3e then InText else if byte_eqb b x22 then InDouble
             else if byte_eqb b x27 then InSingle else InTag
  | InDouble => if byte_eqb b x22 then InTag else InDouble
  | InSingle => if byte_eqb b x27 then InTag else InSingle
  end.

Record scan := mkScan {
  sc_mode : html_mode;
  sc_open : bytes;
  sc_tags : list bytes
}.

Definition scan_step (st : scan) (b : byte) : scan :=
  let m := mode_step (sc_mode st) b in
  match sc_mode st, m with
  | InText, InText => st
  | InText, _ => mkScan m [] (sc_tags st)
  | InTag, InText => mkScan m [] (sc_tags st ++ [sc_open st])
  | _, _ => mkScan m (sc_open st ++ [b]) (sc_tags st)
  end.

Definition html_scan (st : scan) (s : bytes) : scan := foldl scan_step st s.

Definition scan_start : scan := mkScan InText [] [].

(** The tags of a text, each without its angle brackets. *)
Definition html_tags (s : bytes) : list bytes := sc_tags (html_scan scan_start s).

Lemma html_scan_app st s t : html_scan st (s ++ t) = html_scan (html_scan st s) t.
Proof. apply foldl_app. Qed.

Lemma scan_mode st s : sc_mode (html_scan st s) = foldl mode_step (sc_mode st) s.
Proof.
  revert st; induction s as [|b s IH]; intros st; [done|]. cbn [html_scan foldl].
  change (foldl scan_step ?x s) with (html_scan x s). rewrite IH. f_equal.
  unfold scan_step. destruct (sc_mode st) eqn:E; cbn [mode_step]; repeat case_match; done.
Qed.

(** Tags that were found stay found. *)
Lemma scan_tags m open tags s :
  html_scan (mkScan m open tags) s =
    mkScan (sc_mode (html_scan (mkScan m open []) s)) (sc_open (html_scan (mkScan m open []) s))
      (tags ++ sc_tags (html_scan (mkScan m open []) s)).
Proof.
  revert m open tags; induction s as [|b s IH]; intros m open tags; [cbn; by rewrite app_nil_r|].
  cbn [html_scan foldl]. change (foldl scan_step ?x s) with (html_scan x s).
  unfold scan_step. cbn [sc_mode sc_open sc_tags].
  destruct m, (mode_step _ b); try apply IH.
  cbn [app]. rewrite (IH _ _ (tags ++ [open])), (IH _ _ [open]). cbn [sc_mode sc_open sc_tags].
  by rewrite <- app_assoc.
Qed.

(** A text that is scanned from between two tags adds its own. *)
Lemma html_tags_app s t :
  sc_mode (html_scan scan_start s) = InText -> sc_open (html_scan scan_start s) = [] ->
  html_tags (s ++ t) = html_tags s ++ html_tags t.
Proof.
  intros Hm Ho. unfold html_tags. rewrite html_scan_app. destruct (html_scan scan_start s) as [m open tags].
  cbn [sc_mode sc_open] in *. subst. by rewrite scan_tags.
Qed.

(** Between tags nothing is open. *)
Lemma scan_open s st :
  (sc_mode st = InText -> sc_open st = []) ->
  sc_mode (html_scan st s) = InText -> sc_open (html_scan st s) = [].
Proof.
  revert st; induction s as [|b s IH]; intros st Hst; [done|]. cbn [html_scan foldl].
  change (foldl scan_step ?x s) with (html_scan x s). apply IH. unfold scan_step.
  destruct (sc_mode st) eqn:E; cbn [mode_step]; repeat case_match; try done; intros _; by apply Hst.
Qed.

(** ** Escaping *)

(** A byte that neither opens nor ends a tag or an attribute. *)
Definition harmless (b : byte) : bool :=
  negb (byte_eqb b x3c || byte_eqb b x3e || byte_eqb b x22 || byte_eqb b x27).

Lemma html_escape_harmless s : Forall (fun b => harmless b = true) (html_escape s).
Proof.
  induction s as [|b s IH]; [constructor|]. change (html_escape (b :: s)) with (html_replacement b ++ html_escape s).
  apply Forall_app. split; [|exact IH].
  assert (forallb harmless (html_replacement b) = true) as H by (destruct b; reflexivity).
  rewrite forallb_forall in H. by apply List.Forall_forall.
Qed.

Lemma harmless_modes b :
  harmless b = true -> byte_eqb b x3c = false /\ byte_eqb b x3e = false /\ byte_eqb b x22 = false /\
    byte_eqb b x27 = false.
Proof. unfold harmless. by destruct (byte_eqb b x3c), (byte_eqb b x3e), (byte_eqb b x22), (byte_eqb b x27). Qed.

(** Escaped text changes no mode, and between tags it leaves no trace. *)
Lemma harmless_mode m l : Forall (fun b => harmless b = true) l -> foldl mode_step m l = m.
Proof.
  induction 1 as [|b l Hb _ IH]; [done|]. cbn [foldl]. destruct (harmless_modes b Hb) as (H1 & H2 & H3 & H4).
  destruct m; cbn [mode_step]; by rewrite ?H1, ?H2, ?H3, ?H4.
Qed.

Lemma escaped_mode m s : foldl mode_step m (html_escape s) = m.
Proof. apply harmless_mode, html_escape_harmless. Qed.

Lemma escaped_scan st s : sc_mode st = InText -> html_scan st (html_escape s) = st.
Proof.
  intros Hm. assert (forall l, Forall (fun b => harmless b = true) l -> html_scan st l = st) as H.
  { induction 1 as [|b l Hb _ IH]; [done|]. cbn [html_scan foldl]. destruct (harmless_modes b Hb) as (H1 & _).
    change (html_scan (scan_step st b) l = st). unfold scan_step. rewrite Hm. cbn [mode_step]. by rewrite H1. }
  apply H, html_escape_harmless.
Qed.

(** What a browser shows for the references of [html_replacement]. *)
Definition html_references : list (bytes * byte) :=
  [(lit "#34;", x22); (lit "amp;", x26); (lit "#39;", x27); (lit "#43;", x2b); (lit "lt;", x3c); (lit "gt;", x3e)].

Fixpoint html_text (skip : nat) (s : bytes) : bytes :=
  match s with
  | [] => []
  | b :: s' =>
    match skip with
    | S skip => html_text skip s'
    | O =>
      if byte_eqb b x26 then
        match List.find (fun e => has_prefix e.1 s') html_references with
        | Some (reference, c) => c :: html_text (length reference) s'
        | None => b :: html_text O s'
        end
      else b :: html_text O s'
    end
  end.

(** NUL is replaced, everything else is shown as it is. *)
Definition shown_byte (b : byte) : bytes := if byte_eqb b x00 then EncodeRune 0xFFFD else [b].

Lemma html_text_escape s : html_text 0 (html_escape s) = flat_map shown_byte s.
Proof.
  induction s as [|b s IH]; [done|]. change (html_escape (b :: s)) with (html_replacement b ++ html_escape s).
  cbn [flat_map]. rewrite <- IH. generalize (html_escape s) as rest. intros rest. clear IH.
  destruct b; reflexivity.
Qed.

(** ** The pieces of the template *)

(** The same data under another name and description. *)
Definition renamed (name description : bytes) (d : adminUIData) : adminUIData :=
  mkUIData name description (ui_TokenEnabled d) (ui_Lang d) (ui_IsEN d) (ui_IsZH d) (ui_T d) (ui_I18N d).

(** The fields that an administrator chooses. *)
Definition chosen (name : bytes) : bool := bytes_eqb name (lit "ServerName") || bytes_eqb name (lit "Description").

(** The mode after a piece; a field stands between tags or in an attribute, a
    chosen one between tags, and a condition changes no mode. *)
Definition piece_mode (m : html_mode) (p : piece) : option html_mode :=
  match p with
  | PieceText text => Some (foldl mode_step m text)
  | PieceField name =>
    match text_field name, m with
    | None, _ | _, InTag => None
    | Some _, InText => Some m
    | Some _, _ => if chosen name then None else Some m
    end
  | PieceIf flag body =>
    if decide (foldl mode_step m body = m) then match flag_field flag with Some _ => Some m | None => None end
    else None
  end.

Fixpoint pieces_mode (m : html_mode) (pieces : list piece) : option html_mode :=
  match pieces with
  | [] => Some m
  | p :: pieces => m ← piece_mode m p; pieces_mode m pieces
  end.

Lemma renamed_text name f n x d :
  chosen name = false -> text_field name = Some f -> f (renamed n x d) = f d.
Proof.
  intros [Hn Hd]%orb_false_iff. unfold text_field. destruct (has_prefix _ _).
  - destruct (lookup_name _ _); [|done]. by intros [= <-].
  - unfold lookup_name. cbn [List.find fst]. repeat (case_match; [intros [= <-]; try done|]); [..|done].
    + apply bytes_eqb_eq in H. subst. by vm_compute in Hn.
    + apply bytes_eqb_eq in H0. subst. by vm_compute in Hd.
Qed.

Lemma renamed_flag flag f n x d : flag_field flag = Some f -> f (renamed n x d) = f d.
Proof.
  unfold flag_field, lookup_name. cbn [List.find fst]. repeat (case_match; [intros [= <-]; done|]). done.
Qed.

(** Pieces that are well placed render, and rename without a trace in the tags. *)
Lemma pieces_render d pieces m m' :
  pieces_mode m pieces = Some m' -> exists texts, mapM (render d) pieces = Some texts.
Proof.
  revert m; induction pieces as [|p pieces IH]; intros m E; [by exists []|]. cbn [pieces_mode] in E.
  destruct (piece_mode m p) as [m1|] eqn:Ep; [|done]. cbn [mbind option_bind] in E.
  destruct (IH m1 E) as (texts & Et). cbn [mapM]. rewrite Et.
  assert (exists t, render d p = Some t) as (t & ->); [|by eexists].
  destruct p as [t|name|flag body]; cbn [piece_mode render] in *; [by eexists|..].
  - destruct (text_field name); [by eexists|done].
  - destruct (decide _); [|done]. destruct (flag_field flag); [by eexists|done].
Qed.

Lemma piece_scan n x d p m m' st t t' :
  piece_mode m p = Some m' -> render d p = Some t -> render (renamed n x d) p = Some t' -> sc_mode st = m ->
  html_scan st t = html_scan st t' /\ sc_mode (html_scan st t) = m'.
Proof.
  intros Ep Et Et' Hm. rewrite scan_mode. rewrite Hm. destruct p as [text|name|flag body]; cbn [piece_mode render] in *.
  - by simplify_eq.
  - destruct (text_field name) as [f|] eqn:Ef; [|done]. cbn [mbind option_bind] in *. simplify_eq.
    rewrite escaped_mode. destruct (decide (sc_mode st = InText)) as [Hi|Hi].
    + rewrite !escaped_scan by done. rewrite Hi in *. by simplify_eq.
    + assert (chosen name = false /\ m' = sc_mode st) as [Hc ->].
      { destruct (sc_mode st); [done|done|..]; (destruct (chosen name); [done|by simplify_eq]). }
      by rewrite (renamed_text name f).
  - destruct (decide _) as [Hb|]; [|done]. destruct (flag_field flag) as [f|] eqn:Ef; [|done].
    cbn [mbind option_bind] in *. simplify_eq. rewrite (renamed_flag flag f) by done.
    split; [done|]. by destruct (f d).
Qed.

Lemma pieces_scan n x d pieces m m' st texts texts' :
  pieces_mode m pieces = Some m' -> mapM (render d) pieces = Some texts ->
  mapM (render (renamed n x d)) pieces = Some texts' -> sc_mode st = m ->
  html_scan st (concat texts) = html_scan st (concat texts').
Proof.
  revert m st texts texts'; induction pieces as [|p pieces IH]; intros m st texts texts' E Et Et' Hm.
  { by injection Et as <-; injection Et' as <-. }
  cbn [pieces_mode] in E. destruct (piece_mode m p) as [m1|] eqn:Ep; [|done]. cbn [mbind option_bind] in E.
  apply mapM_Some in Et, Et'. inversion Et as [|? t ? ts Hr Hrs]; inversion Et' as [|? t' ? ts' Hr' Hrs']; subst.
  apply mapM_Some in Hrs, Hrs'. cbn [concat]. rewrite !html_scan_app.
  destruct (piece_scan n x d p (sc_mode st) m1 st t t' Ep Hr Hr' eq_refl) as [<- Hm1]. by eapply IH.
Qed.

(** ** The page *)

Lemma template_placed :
  exists pieces, adminPageTemplate = Some pieces /\ pieces_mode InText pieces = Some InText.
Proof.
  assert (match adminPageTemplate with
          | Some pieces => bool_decide (pieces_mode InText pieces = Some InText)
          | None => false end = true) as H by (vm_compute; reflexivity).
  destruct adminPageTemplate as [pieces|]; [|done]. exists pieces. by apply bool_decide_eq_true in H.
Qed.

(** A field between two texts of the template. *)
Definition stands (pieces : list piece) (before name after : bytes) : bool :=
  existsb (fun i =>
    match pieces !! i, pieces !! S i, pieces !! S (S i) with
    | Some (PieceText a), Some (PieceField n), Some (PieceText b) =>
      bytes_eqb n name && has_prefix after b && has_prefix (reverse before) (reverse a)
    | _, _, _ => false
    end) (seq 0 (length pieces)).

Lemma stands_in d pieces before name after f texts :
  stands pieces before name after = true -> text_field name = Some f ->
  mapM (render d) pieces = Some texts ->
  exists a b, concat texts = a ++ before ++ html_escape (f d) ++ after ++ b.
Proof.
  unfold stands. rewrite existsb_exists. intros (i & _ & H) Hf Et.
  destruct (pieces !! i) as [[a| |]|] eqn:Ea; try done. destruct (pieces !! S i) as [[|n|]|] eqn:En; try done.
  destruct (pieces !! S (S i)) as [[b| |]|] eqn:Eb; try done.
  apply andb_true_iff in H as [[Hn Hb]%andb_true_iff Ha]. apply bytes_eqb_eq in Hn as ->.
  apply has_prefix_spec in Hb as [b' ->], Ha as [a' Ha].
  assert (a = reverse a' ++ before) as -> by (rewrite <- (reverse_involutive a), Ha, reverse_app; by rewrite reverse_involutive).
  apply mapM_Some in Et.
  destruct (Forall2_lookup_l _ _ _ _ _ Et Ea) as (ta & Hta & Ra).
  destruct (Forall2_lookup_l _ _ _ _ _ Et En) as (tn & Htn & Rn).
  destruct (Forall2_lookup_l _ _ _ _ _ Et Eb) as (tb & Htb & Rb).
  cbn [render] in Ra, Rn, Rb. rewrite Hf in Rn. cbn [mbind option_bind] in Rn. simplify_eq.
  rewrite <- (take_drop_middle texts i _ Hta), concat_app. cbn [concat].
  rewrite <- (take_drop_middle (drop (S i) texts) 0 (html_escape (f d))) by (by rewrite lookup_drop, Nat.add_0_r).
  rewrite drop_drop. rewrite ?take_0. cbn [app concat].
  rewrite <- (take_drop_middle (drop (S i + 1) texts) 0 (after ++ b'))
    by (rewrite lookup_drop; by replace (S i + 1 + 0)%nat with (S (S i)) by lia).
  rewrite ?take_0. cbn [app concat]. eexists (concat (take i texts) ++ reverse a'), _. by rewrite <- !app_assoc.
Qed.

(** C30: the page cannot be injected into through the configuration. It renders
    whatever the data; whatever the server is called and described as, its tags
    are the same tags; and the name and the description stand, escaped, in the
    heading and below it, where a browser shows every byte of them (NUL as
    U+FFFD). *)
Theorem page_not_injectable d :
  exists text, page d = Some text /\
    (forall name description, exists text',
       page (renamed name description d) = Some text' /\ html_tags text' = html_tags text) /\
    (exists a b, text = a ++ lit "<h1>" ++ html_escape (ui_ServerName d) ++ lit "</h1>" ++ b) /\
    (exists a b, text = a ++ go_text (lit "<p class=`hero-copy`>") ++ html_escape (ui_Description d) ++ lit "</p>" ++ b) /\
    forall s, html_text 0 (html_escape s) = flat_map shown_byte s.
Proof.
  destruct template_placed as (pieces & Ep & Hp). unfold page. rewrite Ep. cbn [mbind option_bind]. unfold render_all.
  destruct (pieces_render d pieces _ _ Hp) as (texts & Et). rewrite Et. exists (concat texts). split; [done|].
  assert (stands pieces (lit "<h1>") (lit "ServerName") (lit "</h1>") &&
          stands pieces (go_text (lit "<p class=`hero-copy`>")) (lit "Description") (lit "</p>") = true) as Hs.
  { assert (match adminPageTemplate with
            | Some pieces => stands pieces (lit "<h1>") (lit "ServerName") (lit "</h1>") &&
                stands pieces (go_text (lit "<p class=`hero-copy`>")) (lit "Description") (lit "</p>")
            | None => false end = true) as H by (vm_compute; reflexivity). by rewrite Ep in H. }
  apply andb_true_iff in Hs as [Hn Hd]. split; [|split; [|split; [|exact html_text_escape]]].
  - intros name description. destruct (pieces_render (renamed name description d) pieces _ _ Hp) as (texts' & Et').
    rewrite Et'. exists (concat texts'). split; [done|]. unfold html_tags.
    by rewrite (pieces_scan name description d pieces InText InText scan_start texts texts').
  - by apply (stands_in d pieces (lit "<h1>") (lit "ServerName") (lit "</h1>") ui_ServerName).
  - by apply (stands_in d pieces (go_text (lit "<p class=`hero-copy`>")) (lit "Description") (lit "</p>") ui_Description).
Qed.
