(* ===== verification/AdminView.v ===== *)
(** * What the script of the page does with the answers (ed2ksrv/admin_ui.go)

    The functions of [adminUIScript] that turn what the interface answers into
    HTML and texts, and the texts the script works with. *)

From S2P Require Import Prelude GoStrings GoUtf8 GoNet Json JsonFacts Ed2kLib FileRecord CatalogJson AuditLog.
From S2P Require Import AdminLocale Server Snapshots Admin AdminScript AdminPage AdminText.

Local Open Scope Z_scope.

(** The browser: the local form of a time ([None] for an invalid date), and the
    text of a number. *)
Class Browser := {
  toLocaleString : bytes -> bytes -> option bytes;
  numberText : Z -> bytes
}.

(** Integers of 53 bits are written in decimal digits. *)
Class BrowserLaws `{Browser} : Prop := {
  number_text z : Z.abs z <= 2 ^ 53 -> numberText z = Itoa z
}.

(** ** The texts of the script *)

(** [atob]: the bytes that base64 stands for. *)
Definition base64_value (b : byte) : option Z :=
  let z := byteZ b in
  if (65 <=? z) && (z <=? 90) then Some (z - 65)
  else if (97 <=? z) && (z <=? 122) then Some (z - 71)
  else if (48 <=? z) && (z <=? 57) then Some (z + 4)
  else if byte_eqb b x2b then Some 62
  else if byte_eqb b x2f then Some 63
  else None.

Fixpoint atob (s : bytes) : option bytes :=
  match s with
  | [] => Some []
  | a :: b :: c :: d :: rest =>
    x ← base64_value a;
    y ← base64_value b;
    if byte_eqb c x3d then
      if byte_eqb d x3d then match rest with [] => Some [byte_of_Z ((x * 64 + y) / 16)] | _ => None end else None
    else
      z ← base64_value c;
      if byte_eqb d x3d then
        match rest with
        | [] => let v := (x * 64 + y) * 64 + z in Some [byte_of_Z (v / 1024); byte_of_Z (v / 4)]
        | _ => None
        end
      else
        w ← base64_value d;
        let v := ((x * 64 + y) * 64 + z) * 64 + w in
        more ← atob rest;
        Some (byte_of_Z (v / 65536) :: byte_of_Z (v / 256) :: byte_of_Z v :: more)
  | _ => None
  end.

(** Its result is a string with a character for each byte. *)
Definition binary_string (s : bytes) : bytes := flat_map (fun b => EncodeRune (byteZ b)) s.

(** [JSON.parse(atob(...))] of the attribute of the page. *)
Definition i18n (b64 : bytes) : option json := s ← atob b64; parse_document (binary_string s).

(** Every occurrence of a text, replaced: [split] and [join]. *)
Fixpoint replace_all (skip : nat) (old new s : bytes) : bytes :=
  match s with
  | [] => []
  | b :: s' =>
    match skip with
    | S skip => replace_all skip old new s'
    | O => if has_prefix old s then new ++ replace_all (Nat.pred (length old)) old new s'
           else b :: replace_all O old new s'
    end
  end.

Definition i18nFmt (tpl : bytes) (vars : list (bytes * bytes)) : bytes :=
  foldl (fun s v => replace_all 0 ([x7b] ++ v.1 ++ [x7d]) v.2 s) tpl vars.

(** ** Formats *)

(** An integer as a [Number]: 53 bits, the nearest, of two the even one. *)
Definition js_number (z : Z) : Z :=
  let a := Z.abs z in
  if a <? 2 ^ 53 then z
  else
    let k := 2 ^ (Z.log2 a - 52) in
    let q := a / k in
    let r := a mod k in
    let q := if 2 * r <? k then q else if k <? 2 * r then q + 1 else if Z.even q then q else q + 1 in
    Z.sgn z * q * k.

Definition units : list bytes := [lit "B"; lit "KB"; lit "MB"; lit "GB"; lit "TB"].

(** How often a size is divided by 1024. *)
Fixpoint unit_index (n : nat) (size : Z) : nat :=
  match n with
  | O => O
  | S n => if 1024 <=? size then S (unit_index n (size / 1024)) else O
  end.

(** [toFixed(1)] of a quotient that is exact. *)
Definition toFixed1 (num den : Z) : bytes :=
  let tenths := (20 * Z.abs num + den) / (2 * den) in
  (if num <? 0 then lit "-" else []) ++ Itoa (tenths / 10) ++ lit "." ++ Itoa (tenths mod 10).

Definition formatBytes (value : Z) : bytes :=
  let size := js_number value in
  let index := unit_index 4 size in
  (if (index =? 0)%nat then Itoa size else toFixed1 size (1024 ^ Z.of_nat index))
  ++ lit " " ++ nth index units [].

(** [text || '-'] *)
Definition or_dash (text : bytes) : bytes := if bytes_eqb text [] then lit "-" else text.

Section views.
Context {L : Ed2kLib} {HJ : HashJson} {LZ : LocalZone} {B : Browser}.

(** [formatTime], of the text of a time in an answer. *)
Definition formatTime (locale value : bytes) : bytes :=
  if bytes_eqb value [] then lit "-" else default value (toLocaleString locale value).

Definition time_text (t : Z) : bytes := match time_json t with Some (JString s) => s | _ => [] end.

Definition hash_text (h : Hash) : bytes := match Hash_MarshalJSON h with Some (JString s) => s | _ => [] end.

(** ** Rows *)

Definition cell (html : bytes) : bytes := lit "<td>" ++ html ++ lit "</td>".

(** [loadClients]: the HTML of a row. *)
Definition clientRow (locale : bytes) (c : ClientSnapshot) : bytes :=
  cell (numberText (sn_ClientID c)) ++
  cell (go_text (lit "<a class=`row-link` href=`/clients/") ++ numberText (sn_ClientID c) ++ go_text (lit "`>")
        ++ or_dash (sn_ClientName c) ++ lit "</a>") ++
  cell (or_dash (sn_RemoteAddress c)) ++
  cell (or_dash (sn_ListenEndpoint c)) ++
  cell (formatTime locale (time_text (sn_LastSeenAt c))).

Definition no_rows (columns text : bytes) : bytes :=
  go_text (lit "<tr><td colspan=`") ++ columns ++ go_text (lit "` class=`empty`>") ++ text ++ lit "</td></tr>".

(** [loadFiles]; [checked] tells whether the file is selected. *)
Definition fileRow (btnDelete : bytes) (checked : bool) (f : FileRecord) : bytes :=
  cell (go_text (lit "<input class=`file-selector` data-hash=`") ++ hash_text (fr_Hash f)
        ++ go_text (lit "` type=`checkbox`") ++ (if checked then lit " checked" else []) ++ lit ">") ++
  cell (go_text (lit "<a class=`row-link` href=`/files/") ++ hash_text (fr_Hash f) ++ go_text (lit "`>")
        ++ or_dash (fr_Name f) ++ lit "</a>") ++
  cell (or_dash (fr_FileType f)) ++
  cell (formatBytes (fr_Size f)) ++
  cell (numberText (fr_Sources f)) ++
  cell (go_text (lit "<button type=`button` class=`ghost danger`>") ++ btnDelete ++ lit "</button>").

(** [loadAudit] *)
Definition auditRow (locale : bytes) (e : AuditEntry) : bytes :=
  cell (formatTime locale (time_text (au_Time e))) ++
  cell (au_Action e) ++
  cell (au_Resource e) ++
  cell (or_dash (au_ResourceID e)) ++
  cell (or_dash (au_RemoteAddr e)) ++
  cell (au_Status e).

(** [updatePager]: the text between the buttons, and which buttons are off. *)
Definition updatePager (pagerFmt : bytes) (page perPage total : Z) : bytes * bool * bool :=
  let currentPage := if page =? 0 then 1 else page in
  let perPage := if perPage =? 0 then 10 else perPage in
  let totalPages := Z.max 1 (- ((- total) / perPage)) in
  (i18nFmt pagerFmt [(lit "cur", numberText currentPage); (lit "total", numberText totalPages)],
   currentPage <=? 1, totalPages <=? currentPage).
End views.

(** ** Bodies *)

(** What a body is on the wire; what net/http answers itself is not modelled. *)
Definition body_text `{Ed2kLib, HashJson, LocalZone, ParseTexts} (body : respBody) : option bytes :=
  match body with
  | ApiOK _ _ | ApiError _ => api_text body
  | BodyPage data => page data
  | BodyScript => Some adminUIScript
  | BodyStyles => Some adminUIStyles
  | BodyNotFound | BodyRedirect _ => None
  end.
