(* ===== verification/AdminViewFacts.v ===== *)
(** * The script of the page at work

    The texts that reach the script, and what a name that a peer chose becomes
    in a table. *)

From S2P Require Import StateErr.
From S2P Require Import Prelude GoStrings GoUtf8 GoSort GoNet GoPath Json JsonFacts JsonDecode Ed2kLib Ed2kRef Ed2kWire FileRecord.
From S2P Require Import CatalogJson CatalogJsonFacts Search Catalog Config AuditLog AdminLocale Server ServerDemo.
From S2P Require Import Snapshots Admin AdminFacts AdminRuns AdminText AdminTextFacts AdminScript AdminPage.
From S2P Require Import AdminPageFacts AdminView.

Local Open Scope Z_scope.

(** ** Base64 *)

Lemma base64_value_digit z : 0 <= z < 64 -> base64_value (base64_digit z) = Some z /\ base64_digit z <> x3d.
Proof.
  intros Hz. assert (forallb (fun n => bool_decide (base64_value (base64_digit (Z.of_nat n)) = Some (Z.of_nat n)) &&
    negb (byte_eqb (base64_digit (Z.of_nat n)) x3d)) (seq 0 64) = true) as H by (vm_compute; reflexivity).
  rewrite forallb_forall in H. specialize (H (Z.to_nat z)). rewrite Z2Nat.id in H by lia.
  assert (In (Z.to_nat z) (seq 0 64)) as Hin by (apply in_seq; lia).
  apply H in Hin as [H1 H2]%andb_true_iff. apply bool_decide_eq_true in H1. split; [done|].
  intros E. by rewrite E in H2.
Qed.

Lemma byte_of v b : v mod 256 = byteZ b -> byte_of_Z v = b.
Proof.
  intros Hv. rewrite <- (byte_of_Z_byteZ (byte_of_Z v)), byteZ_byte_of_Z, Hv. apply byte_of_Z_byteZ.
Qed.

Lemma base64_digits_join v :
  ((v / 262144 * 64 + v / 4096 mod 64) * 64 + v / 64 mod 64) * 64 + v mod 64 = v.
Proof. Z.div_mod_to_equations; lia. Qed.

Lemma base64_digits_join2 v : (v / 4096 * 64 + v / 64 mod 64) * 64 + v mod 64 = v.
Proof. Z.div_mod_to_equations; lia. Qed.

Lemma base64_digits_join1 v : v / 64 * 64 + v mod 64 = v.
Proof. Z.div_mod_to_equations; lia. Qed.

(** Induction in steps of three. *)
Lemma threes_ind {A} (P : list A -> Prop) :
  P [] -> (forall a, P [a]) -> (forall a b, P [a; b]) -> (forall a b c l, P l -> P (a :: b :: c :: l)) -> forall l, P l.
Proof.
  intros H0 H1 H2 H3. fix IH 1. intros [|a [|b [|c l]]]; [exact H0|apply H1|apply H2|apply H3, IH].
Qed.

Ltac digit z :=
  let H := fresh in
  assert (0 <= z < 64) as H by (Z.div_mod_to_equations; lia);
  rewrite (proj1 (base64_value_digit z H)); cbn [mbind option_bind];
  try rewrite (proj2 (byte_eqb_neq _ _) (proj2 (base64_value_digit z H))).

(** What [EncodeToString] writes, [atob] reads. *)
Lemma atob_EncodeToString s : atob (base64_EncodeToString s) = Some s.
Proof.
  induction s as [|a|a b|a b c s IH] using threes_ind; [done|..].
  - pose proof (byteZ_range a) as Ha. cbn [base64_EncodeToString]. cbv zeta. set (v := byteZ a * 16).
    assert (0 <= v < 4096) as Hv by lia. cbn [atob].
    digit (v / 64). digit (v mod 64). rewrite !byte_eqb_refl. rewrite base64_digits_join1.
    rewrite (byte_of _ a); [done|]. subst v. clear -Ha. Z.div_mod_to_equations; lia.
  - pose proof (byteZ_range a) as Ha. pose proof (byteZ_range b) as Hb. cbn [base64_EncodeToString]. cbv zeta.
    set (v := (byteZ a * 256 + byteZ b) * 4). assert (0 <= v < 262144) as Hv by lia. cbn [atob].
    digit (v / 4096). digit (v / 64 mod 64). 
    digit (v mod 64). rewrite !byte_eqb_refl. rewrite base64_digits_join2. cbv zeta.
    rewrite (byte_of _ a), (byte_of _ b); [done|subst v; clear -Ha Hb; Z.div_mod_to_equations; lia..].
  - pose proof (byteZ_range a) as Ha. pose proof (byteZ_range b) as Hb. pose proof (byteZ_range c) as Hc.
    cbn [base64_EncodeToString app]. cbv zeta. set (v := (byteZ a * 256 + byteZ b) * 256 + byteZ c).
    assert (0 <= v < 16777216) as Hv by lia. cbn [atob].
    digit (v / 262144). digit (v / 4096 mod 64). digit (v / 64 mod 64). digit (v mod 64).
    rewrite base64_digits_join, IH. cbn [mbind option_bind].
    rewrite (byte_of _ a), (byte_of _ b), (byte_of _ c); [done|subst v; clear -Ha Hb Hc; Z.div_mod_to_equations; lia..].
Qed.

(** ** Texts *)

Lemma EncodeRune_byte b : length (EncodeRune (byteZ b)) = (if decide (byteZ b < 128)%Z then 1 else 2)%nat /\
  (byteZ b < 128 -> EncodeRune (byteZ b) = [b]).
Proof. destruct b; (split; [reflexivity|]); intros H; (reflexivity || (exfalso; revert H; vm_compute; discriminate)). Qed.

(** Only ASCII survives as a binary string. *)
Lemma binary_string_id s : binary_string s = s <-> Forall (fun b => byteZ b < 128) s.
Proof.
  assert (forall s, (length s <= length (binary_string s))%nat) as Hlen.
  { clear. induction s as [|b s IH]; [done|]. cbn [binary_string flat_map]. rewrite length_app.
    destruct (EncodeRune_byte b) as [E _]. change (flat_map _ s) with (binary_string s). cbn [length].
    destruct (decide _); lia. }
  induction s as [|b s IH]; [split; [constructor|done]|]. cbn [binary_string flat_map].
  change (flat_map _ s) with (binary_string s). destruct (EncodeRune_byte b) as [El Ea]. split.
  - intros E. destruct (decide (byteZ b < 128)) as [Hb|Hb].
    + rewrite Ea in E by done. injection E as E. constructor; [done|by apply IH].
    + pose proof (f_equal length E) as El'. rewrite length_app, El in El'. cbn [length] in El'.
      specialize (Hlen s). lia.
  - intros Hs. inversion_clear Hs. rewrite Ea by done. cbn [app]. f_equal. by apply IH.
Qed.

Definition ascii_b (s : bytes) : bool := forallb (fun b => byteZ b <? 128) s.

Lemma binary_string_b s : binary_string s = s <-> ascii_b s = true.
Proof.
  rewrite binary_string_id. unfold ascii_b. rewrite forallb_forall, List.Forall_forall.
  split; intros H b Hb; apply Z.ltb_lt; by apply H.
Qed.

(** The texts of the script in the two languages. The script gets a text
    for every name of the pack, the bytes of its UTF-8 as characters of Latin-1:
    the English texts as they are, and of the Chinese pack only the name of the
    locale and the one text that is in English; every other text is garbled. *)
Theorem script_texts_read `{UnicodeTables} q a :
  let lang := resolveAdminLocale q a in
  let js := (getAdminLocalePack lang).2 in
  i18n (html_text 0 (html_escape (I18NBase64 js))) =
    Some (JObject (map (fun m => (m.1, JString (binary_string m.2))) (js_members js))) /\
  if bytes_eqb lang (lit "en") then Forall (fun m => binary_string m.2 = m.2) (js_members js)
  else lang = lit "zh" /\
    Forall (fun m => m.1 ∈ [lit "dateLocale"; lit "invalidResponse"] <-> binary_string m.2 = m.2) (js_members js).
Proof.
  cbv zeta. assert (resolveAdminLocale q a = lit "en" \/ resolveAdminLocale q a = lit "zh") as [-> | ->]
    by (unfold resolveAdminLocale; cbv zeta; repeat case_match; auto).
  - split; [vm_compute; reflexivity|]. change (bytes_eqb (lit "en") (lit "en")) with true. cbv iota. apply List.Forall_forall.
    assert (forallb (fun m => ascii_b m.2) (js_members (getAdminLocalePack (lit "en")).2) = true) as Hb
      by (vm_compute; reflexivity). rewrite forallb_forall in Hb. intros m Hm%Hb. by apply binary_string_b.
  - split; [vm_compute; reflexivity|]. change (bytes_eqb (lit "zh") (lit "en")) with false. cbv iota. split; [done|].
    apply List.Forall_forall.
    assert (forallb (fun m => eqb (bool_decide (m.1 ∈ [lit "dateLocale"; lit "invalidResponse"])) (ascii_b m.2))
              (js_members (getAdminLocalePack (lit "zh")).2) = true) as Hb by (vm_compute; reflexivity).
    rewrite forallb_forall in Hb. intros m Hm%Hb%eqb_prop. rewrite binary_string_b, <- Hm. symmetry. apply bool_decide_eq_true.
Qed.

(** ** Names of peers *)

(** A text between tags adds its tags to those around it. *)
Lemma tags_within pre s post :
  sc_mode (html_scan scan_start pre) = InText ->
  exists before after, html_tags (pre ++ s ++ post) = before ++ html_tags s ++ after.
Proof.
  intros Hm. rewrite html_tags_app; [|done|by apply (scan_open pre scan_start)]. exists (html_tags pre).
  assert (exists after, html_tags (s ++ post) = html_tags s ++ after) as (after & ->); [|by exists after].
  unfold html_tags. rewrite html_scan_app. destruct (html_scan scan_start s) as [m open tags].
  rewrite scan_tags. by eexists.
Qed.

Lemma or_dash_tags s : html_tags (or_dash s) = html_tags s.
Proof. unfold or_dash. destruct (bytes_eqb s []) eqn:E; [|done]. by apply bytes_eqb_eq in E as ->. Qed.

Lemma digits_harmless s : Forall (fun b => is_digit b = true) s -> Forall (fun b => harmless b = true) s.
Proof.
  intros H. eapply Forall_impl; [exact H|]. intros b. destruct b; (reflexivity || (intros E; vm_compute in E; discriminate)).
Qed.

Lemma Itoa_harmless z : Forall (fun b => harmless b = true) (Itoa z).
Proof.
  destruct (Z.lt_ge_cases z 0) as [Hz|Hz]; [|by apply digits_harmless, Itoa_digits; lia].
  assert (Itoa z = x2d :: Itoa (- z)) as ->.
  { unfold Itoa. rewrite (proj2 (Z.ltb_lt z 0)) by done. by rewrite (proj2 (Z.ltb_ge (- z) 0)) by lia. }
  constructor; [done|]. apply digits_harmless, Itoa_digits. lia.
Qed.

Section markup.
Context {L : Ed2kLib} {HJ : HashJson} {LZ : LocalZone} {B : Browser} {BL : BrowserLaws}.

Definition harmless_text (s : bytes) : Prop := Forall (fun b => harmless b = true) s.

Ltac modes text := rewrite scan_mode, !foldl_app, !(harmless_mode _ text) by assumption; reflexivity.

(** C31: the script puts what peers send into the page as markup. The name a
    client logs in with and the name of a file it offers stand unescaped in the
    HTML of the rows of the two tables: whatever tags a name holds are tags of
    the page the administrator looks at, scripts and handlers of events among
    them. *)
Theorem names_become_markup locale btnDelete checked c f :
  in_s 32 (sn_ClientID c) -> harmless_text (hash_text (fr_Hash f)) ->
  (exists before after, html_tags (clientRow locale c) = before ++ html_tags (sn_ClientName c) ++ after) /\
  (exists before after, html_tags (fileRow btnDelete checked f) = before ++ html_tags (fr_Name f) ++ after).
Proof.
  intros Hid Hh. split.
  - assert (harmless_text (numberText (sn_ClientID c))) as Hn.
    { rewrite number_text by (unfold in_s in Hid; lia). apply Itoa_harmless. }
    rewrite <- (or_dash_tags (sn_ClientName c)). set (id := numberText (sn_ClientID c)) in *.
    assert (exists post, clientRow locale c = (cell id ++ go_text (lit "<td><a class=`row-link` href=`/clients/") ++
      id ++ go_text (lit "`>")) ++ or_dash (sn_ClientName c) ++ post) as (post & ->).
    { eexists. unfold clientRow, cell. rewrite <- !app_assoc. reflexivity. }
    apply tags_within. unfold cell. modes id.
  - rewrite <- (or_dash_tags (fr_Name f)). set (h := hash_text (fr_Hash f)) in *.
    assert (exists post, fileRow btnDelete checked f =
      (go_text (lit "<td><input class=`file-selector` data-hash=`") ++ h ++ go_text (lit "` type=`checkbox`") ++
       (if checked then lit " checked" else []) ++ go_text (lit "></td><td><a class=`row-link` href=`/files/") ++
       h ++ go_text (lit "`>")) ++ or_dash (fr_Name f) ++ post) as (post & ->).
    { eexists. unfold fileRow, cell. rewrite <- !app_assoc. reflexivity. }
    apply tags_within. destruct checked; modes h.
Qed.
End markup.

(** ** Witness *)

Definition demo_payload : bytes := lit "<img src=x onerror=alert(1)>".

Definition demo_attacker_login : event :=
  EvFrame 0 EdonkeyHeader opLoginRequest
    (replicate 16 xa1 ++ [x00; x00; x00; x00; x36; x12; x01; x00; x00; x00] ++
     default [] (ref_tag_encode (mkRefTag x01 (inl demo_payload)))) 80.

(** A client logs in and offers a file, both under a name of its choice. *)
Definition demo_attack : list event :=
  [demo_connect x01; demo_attacker_login;
   demo_offer 0 [mkEntry _ (replicate 16 x77) 0 0 [NewStringTag FTFilename demo_payload; NewUInt32Tag FTFileSize 700]]].

Definition demo_browser : Browser :=
  {| toLocaleString := fun _ s => Some s; numberText := Itoa |}.

Lemma demo_browser_laws : @BrowserLaws demo_browser.
Proof. by constructor. Qed.

(** The first row of an answer that a browser has read. *)
Definition read_rows (LZ : LocalZone) (PT : ParseTexts) (kind : apiData) (path : bytes) : option apiData :=
  match (adminMux (demo_request MethodGet path [] [] []) (demo_run demo_attack)).1 with
  | Ok resp =>
    match api_text (resp_Body resp) with
    | Some text => match read_api kind text with Some (inl (data, _)) => Some data | _ => None end
    | None => None
    end
  | Err _ => None
  end.

Lemma names_become_markup_witness :
  let LZ := demo_zone in let PT := demo_parse_texts in let B := demo_browser in
  exists clients files c f,
    read_rows LZ PT (DataClients []) (lit "/api/clients") = Some (DataClients clients) /\ In c clients /\
    read_rows LZ PT (DataFiles []) (lit "/api/files") = Some (DataFiles files) /\ In f files /\
    lit "img src=x onerror=alert(1)" ∈ html_tags (clientRow (lit "en-US") c) /\
    lit "img src=x onerror=alert(1)" ∈ html_tags (fileRow (lit "Delete") false f).
Proof.
  cbv zeta.
  assert (match read_rows demo_zone demo_parse_texts (DataClients []) (lit "/api/clients"),
                read_rows demo_zone demo_parse_texts (DataFiles []) (lit "/api/files") with
          | Some (DataClients clients), Some (DataFiles files) =>
            match clients, filter (fun f => fr_Name f = demo_payload) files with
            | [c], f :: _ =>
              bytes_eqb (sn_ClientName c) demo_payload && (- 2 ^ 31 <=? sn_ClientID c) && (sn_ClientID c <? 2 ^ 31) &&
              forallb harmless (hash_text (fr_Hash f))
            | _, _ => false
            end
          | _, _ => false
          end = true) as H by (vm_compute; reflexivity).
  revert H. generalize (read_rows demo_zone demo_parse_texts (DataClients []) (lit "/api/clients")) as rows.
  generalize (read_rows demo_zone demo_parse_texts (DataFiles []) (lit "/api/files")) as rows'. intros rows' rows H.
  destruct rows as [[| | |clients| | | | | |]|]; try discriminate H.
  destruct rows' as [[| | | | |files| | | |]|]; try (destruct clients as [|? []]; discriminate H).
  destruct clients as [|c [|]]; try discriminate H.
  destruct (filter _ files) as [|f fs] eqn:Ef; [discriminate H|].
  apply andb_true_iff in H as [[[Hc Hl%Z.leb_le]%andb_true_iff Hu%Z.ltb_lt]%andb_true_iff Hh].
  apply bytes_eqb_eq in Hc. assert (f ∈ filter (fun f => fr_Name f = demo_payload) files) as Hf by (rewrite Ef; left).
  apply list_elem_of_filter in Hf as [Hf Hin].
  exists [c], files, c, f. split; [reflexivity|]. split; [by left|]. split; [reflexivity|]. split; [by apply list_elem_of_In|].
  destruct (names_become_markup (LZ := demo_zone) (B := demo_browser) (BL := demo_browser_laws)
              (lit "en-US") (lit "Delete") false c f) as [(b1 & a1 & E1) (b2 & a2 & E2)].
  - by split.
  - apply List.Forall_forall. rewrite forallb_forall in Hh. exact Hh.
  - rewrite E1, E2, Hc, Hf. assert (html_tags demo_payload = [lit "img src=x onerror=alert(1)"]) as -> by reflexivity.
    split; apply elem_of_app; right; left.
Defined.
