(* ===== verification/Trace.v ===== *)
(** * Packet traces (ed2ksrv/trace.go)

    A record for every frame that is read or written, to the logger and, when a
    path is configured, to a file of JSON lines. The file is its text; of the
    logger the model keeps the fields it is given. A trace never changes the
    server, so the definitions of [Server], [Udp] and [Conn] leave the calls out;
    the call sites are here. *)

From S2P Require Import Prelude GoStrings GoUtf8 GoNet GoTime Json JsonFacts JsonDecode.
From S2P Require Import Ed2kLib Ed2kRef Ed2kWire FileRecord Search Config.
From S2P Require Import PeerServers OfferFiles Text Frames Server Udp.

Local Open Scope Z_scope.

Definition traceIn : bytes := lit "in".
Definition traceOut : bytes := lit "out".

Record packetTraceRecord := mkTrace {
  pt_Time : bytes;
  pt_Dir : bytes;
  pt_Transport : bytes;
  pt_Peer : bytes;
  pt_Protocol : bytes;
  pt_Opcode : bytes;
  pt_OpName : bytes;
  pt_Length : Z;
  pt_Hex : bytes
}.

(** The JSON form of a record: the names of the tags, and the dump only when
    there is one. *)
Definition trace_names : list bytes :=
  [lit "time"; lit "dir"; lit "transport"; lit "peer"; lit "protocol"; lit "opcode"; lit "op_name";
   lit "length"; lit "hex"].

Definition encode_trace (rec : packetTraceRecord) : json :=
  JObject
    ([(lit "time", JString (pt_Time rec)); (lit "dir", JString (pt_Dir rec));
      (lit "transport", JString (pt_Transport rec)); (lit "peer", JString (pt_Peer rec));
      (lit "protocol", JString (pt_Protocol rec)); (lit "opcode", JString (pt_Opcode rec));
      (lit "op_name", JString (pt_OpName rec)); (lit "length", encode_int (pt_Length rec))]
     ++ (if bytes_eqb (pt_Hex rec) [] then [] else [(lit "hex", JString (pt_Hex rec))])).

(** [packetTracer]: the fields that went to the logger (which adds a time of its
    own), and what has been appended to the file while it is open. *)
Record packetTracer := mkTracer {
  tr_maxBytes : Z;
  tr_log : list packetTraceRecord;
  tr_file : option bytes
}.

(** [encoding/hex]: lower-case digits. *)
Fixpoint EncodeToString (src : bytes) : bytes :=
  match src with
  | [] => []
  | b :: src' => hex_lower (Z.shiftr (byteZ b) 4) :: hex_lower (Z.land (byteZ b) 15) :: EncodeToString src'
  end.

Definition byteHex (b : byte) : bytes :=
  lit "0x" ++ [hex_lower (Z.shiftr (byteZ b) 4); hex_lower (Z.land (byteZ b) 15)].

(** The cases of the two switches. *)
Definition udp_names : list (byte * bytes) :=
  [(udpOpGlobSearchReq3, lit "OP_GLOBSEARCHREQ3"); (udpOpGlobSearchReq2, lit "OP_GLOBSEARCHREQ2");
   (udpOpGlobSearchReq, lit "OP_GLOBSEARCHREQ"); (udpOpGlobSearchRes, lit "OP_GLOBSEARCHRES");
   (udpOpGlobGetSources, lit "OP_GLOBGETSOURCES"); (udpOpGlobGetSources2, lit "OP_GLOBGETSOURCES2");
   (udpOpGlobFoundSources, lit "OP_GLOBFOUNDSOURCES");
   (udpOpServerDescReq, lit "OP_SERVER_DESC_REQ"); (udpOpServerDescRes, lit "OP_SERVER_DESC_RES");
   (udpOpGlobCallbackReq, lit "OP_GLOBCALLBACKREQUEST");
   (udpOpServerListReq, lit "OP_SERVER_LIST_REQ"); (udpOpServerListReq2, lit "OP_SERVER_LIST_REQ");
   (udpOpServerListRes, lit "OP_SERVER_LIST_RES");
   (opGlobServStatReq, lit "OP_GLOBSERVSTATREQ"); (opGlobServStatRes, lit "OP_GLOBSERVSTATRES")].

Definition tcp_names : list (byte * bytes) :=
  [(opLoginRequest, lit "OP_LOGINREQUEST"); (opGetServerList, lit "OP_GETSERVERLIST");
   (opServerList, lit "OP_SERVERLIST"); (opOfferFiles, lit "OP_OFFERFILES");
   (opSearchRequest, lit "OP_SEARCHREQUEST"); (opSearchMore, lit "OP_QUERY_MORE_RESULT");
   (opGetSources, lit "OP_GETSOURCES"); (opGetSourcesObfu, lit "OP_GETSOURCES_OBFU");
   (opCallbackReq, lit "OP_CALLBACKREQUEST"); (opDisconnect, lit "OP_DISCONNECT");
   (opFoundSourcesObfu, lit "OP_FOUNDSOURCES_OBFU")].

Fixpoint case_of (op : byte) (cases : list (byte * bytes)) : bytes :=
  match cases with
  | [] => []
  | (k, name) :: cases' => if byte_eqb op k then name else case_of op cases'
  end.

Definition opcodeName (transport : bytes) (op : byte) : bytes :=
  if bytes_eqb transport (lit "udp") then case_of op udp_names else case_of op tcp_names.

(** [newPacketTracer]; [opened] is the result of opening the file for appending. *)
Definition newPacketTracer (cfg : Config) (opened : bool) : result unit (option packetTracer) :=
  if negb (PacketTrace cfg) then Ok None
  else if bytes_eqb (PacketTracePath cfg) []
  then Ok (Some (mkTracer (PacketTraceMaxBytes cfg) [] None))
  else if opened then Ok (Some (mkTracer (PacketTraceMaxBytes cfg) [] (Some [])))
  else Err tt.

Definition close (t : option packetTracer) : option packetTracer :=
  match t with
  | None => None
  | Some t => Some (mkTracer (tr_maxBytes t) (tr_log t) None)
  end.

(** The part of a payload that is kept. *)
Definition sample (t : packetTracer) (body : bytes) : bytes :=
  if (0 <? tr_maxBytes t) && (tr_maxBytes t <? len body)
  then take (Z.to_nat (tr_maxBytes t)) body else body.

(** [now] is the clock; [wrote] is how much of the line reaches the file when
    the write fails. *)
Definition record (dir transport peer : bytes) (proto op : byte) (length : Z) (body : bytes)
    (now : Z) (wrote : option nat) (t : option packetTracer) : option packetTracer :=
  match t with
  | None => None
  | Some t =>
    let rec time := mkTrace time dir transport peer (byteHex proto) (byteHex op)
                      (opcodeName transport op) length (EncodeToString (sample t body)) in
    let log := tr_log t ++ [rec []] in
    match tr_file t with
    | None => Some (mkTracer (tr_maxBytes t) log None)
    | Some content =>
      let line := Marshal (encode_trace (rec (RFC3339Nano 0 now))) ++ [x0a] in
      let written := match wrote with Some n => take n line | None => line end in
      Some (mkTracer (tr_maxBytes t) log (Some (content ++ written)))
    end
  end.

(** ** Call sites *)

(** In [handleConn]: a frame that was read. *)
Definition trace_frame (peer : bytes) (f : byte * byte * bytes * Z)
    : Z -> option nat -> option packetTracer -> option packetTracer :=
  let '(proto, opcode, body, frameBytes) := f in
  record traceIn (lit "tcp") peer proto opcode frameBytes body.

(** In [sendLocked]: a frame that is about to be written, before compression. *)
Definition trace_sent (peer raw : bytes) (now : Z) (wrote : option nat) (t : option packetTracer)
    : option packetTracer :=
  match raw with
  | proto :: _ :: _ :: _ :: _ :: op :: body =>
    record traceOut (lit "tcp") peer proto op (len raw) body now wrote t
  | _ => t
  end.

(** In [dispatchUDP] and in [writeUDP]. *)
Definition trace_datagram (peer packet : bytes) (now : Z) (wrote : option nat) (t : option packetTracer)
    : option packetTracer :=
  match packet with
  | header :: opcode :: body =>
    record traceIn (lit "udp") peer header opcode (len packet) body now wrote t
  | _ => t
  end.

Definition trace_reply (peer : bytes) (op : byte) (datagram : bytes) (now : Z) (wrote : option nat)
    (t : option packetTracer) : option packetTracer :=
  let body := match datagram with _ :: _ :: body => body | _ => datagram end in
  record traceOut (lit "udp") peer ed2kUDPHeader op (len datagram) body now wrote t.

(** ** What a trace says of a frame *)

Lemma byte_nibbles (b : byte) :
  0 <= Z.shiftr (byteZ b) 4 < 16 /\ 0 <= Z.land (byteZ b) 15 < 16 /\
  16 * Z.shiftr (byteZ b) 4 + Z.land (byteZ b) 15 = byteZ b.
Proof.
  pose proof (byteZ_range b) as Hb. rewrite Z.shiftr_div_pow2 by lia.
  change 15 with (Z.ones 4). rewrite Z.land_ones by lia. change (2 ^ 4) with 16.
  pose proof (Z.div_mod (byteZ b) 16 ltac:(lia)). pose proof (Z.mod_pos_bound (byteZ b) 16 ltac:(lia)).
  split; [split; [apply Z.div_pos; lia|apply Z.div_lt_upper_bound; lia]|]. lia.
Qed.

Lemma hex_lower_value z : 0 <= z < 16 -> hex_value (hex_lower z) = Some z.
Proof.
  intros Hz. assert (In z (map Z.of_nat (seq 0 16))) as Hin.
  { apply in_map_iff. exists (Z.to_nat z). split; [lia|]. apply in_seq. lia. }
  simpl in Hin. repeat (destruct Hin as [<-|Hin]; [reflexivity|]). done.
Qed.

(** Hexadecimal text, in either case, is read back by [hex_parse]. *)
Lemma hex_parse_Encode src : hex_parse (EncodeToString src) = Some src.
Proof.
  induction src as [|b src IH]; [done|]. destruct (byte_nibbles b) as (Hh & Hl & Hb).
  cbn [EncodeToString hex_parse]. rewrite !hex_lower_value by done. rewrite IH, Hb.
  by rewrite byte_of_Z_byteZ.
Qed.

(** Reading "0x" and two digits. *)
Definition parse_byteHex (s : bytes) : option byte :=
  match hex_parse (TrimPrefix s (lit "0x")) with
  | Some [b] => Some b
  | _ => None
  end.

Lemma parse_byteHex_byteHex b : parse_byteHex (byteHex b) = Some b.
Proof.
  unfold parse_byteHex, byteHex.
  change (TrimPrefix _ _) with (EncodeToString [b]). by rewrite hex_parse_Encode.
Qed.

(** ** Reading a trace file *)

(** What a line of the file tells, once its texts are read. *)
Record traced := mkTraced {
  td_Time : Z;
  td_Dir : bytes;
  td_Transport : bytes;
  td_Peer : bytes;
  td_Proto : byte;
  td_Op : byte;
  td_OpName : bytes;
  td_Length : Z;
  td_Body : bytes
}.

Section reader.
Context {U : UnicodeTables}.

(** [json.Unmarshal] into an empty [packetTraceRecord]. *)
Definition decode_trace (j : json) : option packetTraceRecord :=
  match j with
  | JObject ms =>
    let field {A} := decode_field (A := A) trace_names ms in
    time ← field (lit "time") decode_string [];
    dir ← field (lit "dir") decode_string [];
    transport ← field (lit "transport") decode_string [];
    peer ← field (lit "peer") decode_string [];
    protocol ← field (lit "protocol") decode_string [];
    opcode ← field (lit "opcode") decode_string [];
    name ← field (lit "op_name") decode_string [];
    length ← field (lit "length") (decode_int 64) 0;
    dump ← field (lit "hex") decode_string [];
    Some (mkTrace time dir transport peer protocol opcode name length dump)
  | _ => None
  end.

Definition traced_of (rec : packetTraceRecord) : option traced :=
  time ← parse_RFC3339 (pt_Time rec);
  proto ← parse_byteHex (pt_Protocol rec);
  op ← parse_byteHex (pt_Opcode rec);
  body ← hex_parse (pt_Hex rec);
  Some (mkTraced time (pt_Dir rec) (pt_Transport rec) (pt_Peer rec) proto op (pt_OpName rec)
          (pt_Length rec) body).

Definition read_trace (text : bytes) : option (list traced) :=
  js ← read_stream text; mapM (fun j => rec ← decode_trace j; traced_of rec) js.
End reader.

(** ** The frames that are traced *)

(** A call of [record], by its call site. [TraceRead]: what a peer has sent over
    TCP, at the front of which [handleConn] reads a frame. [TraceSent]: a packet
    that [sendLocked] writes, compressed where that is shorter. [TraceSentRaw]: one
    that [sendRawEd2k] writes as it is. [TraceDatagram], [TraceReply]: a datagram
    that is read, one that is written. *)
Inductive trace_event :=
| TraceRead (peer stream : bytes)
| TraceSent (peer : bytes) (opcode : byte) (body : bytes)
| TraceSentRaw (peer : bytes) (opcode : byte) (body : bytes)
| TraceDatagram (peer packet : bytes)
| TraceReply (peer : bytes) (opcode : byte) (body : bytes).

Section events.
Context {L : Ed2kLib} {W : Ed2kWire} {ZL : Zlib}.

(** A frame that cannot be read ends the connection and is not traced. *)
Definition trace_step (t : option packetTracer) (e : trace_event * Z) : option packetTracer :=
  let '(e, now) := e in
  match e with
  | TraceRead peer stream =>
    match readFrame stream with
    | Ok (frame, _) => trace_frame peer frame now None t
    | Err _ => t
    end
  | TraceSent peer op body | TraceSentRaw peer op body => trace_sent peer (plain_frame op body) now None t
  | TraceDatagram peer packet => trace_datagram peer packet now None t
  | TraceReply peer op body => trace_reply peer op (ed2kUDPHeader :: op :: body) now None t
  end.

Definition trace_peer (e : trace_event) : bytes :=
  match e with
  | TraceRead peer _ | TraceSent peer _ _ | TraceSentRaw peer _ _ | TraceDatagram peer _
  | TraceReply peer _ _ => peer
  end.

(** The line a frame should give. *)
Definition expected (t : packetTracer) (e : trace_event * Z) : option traced :=
  let '(e, now) := e in
  let line dir transport proto op n body :=
    Some (mkTraced now dir transport (trace_peer e) proto op (opcodeName transport op) n (sample t body)) in
  match e with
  | TraceRead _ stream =>
    match readFrame stream with
    | Ok (proto, op, body, n, _) => line traceIn (lit "tcp") proto op n body
    | Err _ => None
    end
  | TraceSent _ op body | TraceSentRaw _ op body =>
    line traceOut (lit "tcp") EdonkeyHeader op (6 + len body) body
  | TraceDatagram _ packet =>
    match packet with
    | header :: op :: body => line traceIn (lit "udp") header op (len packet) body
    | _ => None
    end
  | TraceReply _ op body => line traceOut (lit "udp") ed2kUDPHeader op (2 + len body) body
  end.

(** Frames whose lines JSON can express: the peer is text and the year has four
    digits; streams fit into memory, and what is sent over TCP is not larger than
    what the server itself accepts. *)
Definition traceable (e : trace_event * Z) : Prop :=
  utf8 (trace_peer e.1) /\ 0 <= year_of 0 e.2 <= 9999 /\
  match e.1 with
  | TraceRead _ stream => len stream < 2 ^ 62
  | TraceSent _ _ body | TraceSentRaw _ _ body => len body <= maxDecodedFrameBytes
  | TraceDatagram _ packet => len packet < 2 ^ 32
  | TraceReply _ _ body => len body < 2 ^ 32
  end.

(** What is on the wire for a frame that is sent over TCP. *)
Definition sent_wire (e : trace_event) : option bytes :=
  match e with
  | TraceSent _ op body => Some (maybePackFrame (plain_frame op body))
  | TraceSentRaw _ op body => Some (plain_frame op body)
  | _ => None
  end.

(** How a line relates to the bytes on the wire. Over TCP it tells the frame as
    its reader takes it, inflated if it is packed: for a frame that is read, what
    [readFrame] hands to the dispatcher, with the number of bytes it takes off the
    stream; for one that is sent, what a reader like [readFrame] makes of the bytes
    on the wire, with the length before compression. A datagram is told as it is.
    Of the body the first [PacketTraceMaxBytes] bytes are told. *)
Definition tells (t : packetTracer) (e : trace_event) (l : traced) : Prop :=
  exists body,
    td_Body l = (if 0 <? tr_maxBytes t then take (Z.to_nat (tr_maxBytes t)) body else body) /\
    match e with
    | TraceRead _ stream => exists frame rest, stream = frame ++ rest /\ len frame = td_Length l /\
        readFrame stream = Ok (td_Proto l, td_Op l, body, td_Length l, rest)
    | TraceSent _ _ _ | TraceSentRaw _ _ _ => exists wire, sent_wire e = Some wire /\
        (forall rest, readFrame (wire ++ rest) = Ok (td_Proto l, td_Op l, body, len wire, rest)) /\
        td_Length l = 6 + len body /\ len wire <= td_Length l
    | TraceDatagram _ packet => packet = td_Proto l :: td_Op l :: body /\ td_Length l = len packet
    | TraceReply _ op reply => ed2kUDPHeader :: op :: reply = td_Proto l :: td_Op l :: body /\
        td_Length l = 2 + len body
    end.

(** No frame, no line. *)
Definition untold (e : trace_event) : Prop :=
  match e with
  | TraceRead _ stream => is_ok (readFrame stream) = false
  | TraceDatagram _ packet => len packet < 2
  | _ => False
  end.

(** ** What the file tells of the frames *)

(** A record as the tracer makes them. *)
Record trace_ok (rec : packetTraceRecord) : Prop := {
  to_texts : Forall utf8 [pt_Time rec; pt_Dir rec; pt_Transport rec; pt_Peer rec; pt_Protocol rec;
                          pt_Opcode rec; pt_OpName rec; pt_Hex rec];
  to_length : in_s 64 (pt_Length rec)
}.

Lemma encode_trace_fits rec : trace_ok rec -> fits 0 (encode_trace rec).
Proof.
  intros [Ht Hl]. repeat (apply Forall_cons in Ht as [? Ht]). apply fits_object; [|by vm_compute].
  assert (0 + 1 <= maxNestingDepth) by by vm_compute. members_fit.
Qed.

Lemma decode_encode_trace `{UnicodeTables} rec : trace_ok rec -> decode_trace (encode_trace rec) = Some rec.
Proof.
  intros [_ Hl]. destruct rec as [ti di tr pe pr op na le he]. cbn [pt_Length] in Hl.
  unfold decode_trace, encode_trace.
  cbn [pt_Time pt_Dir pt_Transport pt_Peer pt_Protocol pt_Opcode pt_OpName pt_Length pt_Hex].
  destruct (bytes_eqb he []) eqn:Eh; [apply bytes_eqb_eq in Eh as ->|]; cbn [app];
    (at_field (lit "time") (JString ti); cbn [decode_string mbind option_bind];
     at_field (lit "dir") (JString di); cbn [decode_string mbind option_bind];
     at_field (lit "transport") (JString tr); cbn [decode_string mbind option_bind];
     at_field (lit "peer") (JString pe); cbn [decode_string mbind option_bind];
     at_field (lit "protocol") (JString pr); cbn [decode_string mbind option_bind];
     at_field (lit "opcode") (JString op); cbn [decode_string mbind option_bind];
     at_field (lit "op_name") (JString na); cbn [decode_string mbind option_bind];
     at_field (lit "length") (encode_int le); rewrite decode_encode_int by done; cbn [mbind option_bind];
     (no_field (lit "hex") || (at_field (lit "hex") (JString he); cbn [decode_string mbind option_bind]))); done.
Qed.

Lemma hex_lower_ascii z : 0 <= z < 16 -> byteZ (hex_lower z) < 128.
Proof. intros Hz. unfold hex_lower. destruct (z <? 10); rewrite byteZ_small; lia. Qed.

Lemma EncodeToString_ascii src : ascii (EncodeToString src).
Proof.
  induction src as [|b src IH]; [constructor|]. destruct (byte_nibbles b) as (Hh & Hl & _).
  cbn [EncodeToString]. apply ascii_cons; [by apply hex_lower_ascii|].
  apply ascii_cons; [by apply hex_lower_ascii|done].
Qed.

Lemma byteHex_ascii b : ascii (byteHex b).
Proof. change (ascii (lit "0x" ++ EncodeToString [b])). apply ascii_app; [ascii|apply EncodeToString_ascii]. Qed.

Lemma opcodeName_ascii transport op : ascii (opcodeName transport op).
Proof.
  assert (forall cases, Forall (fun c => ascii c.2) cases -> ascii (case_of op cases)) as Hc.
  { induction 1 as [|[k name] cases Hn _ IH]; [constructor|]. cbn [case_of]. by destruct (byte_eqb op k). }
  unfold opcodeName. destruct (bytes_eqb _ _); apply Hc; repeat (apply Forall_cons; split; [cbn [snd]; ascii|]);
    constructor.
Qed.

(** One traced frame: the tracer's new state, and the record of the line. *)
Lemma record_line dir transport peer proto op n body now t content :
  tr_file t = Some content -> utf8 dir -> utf8 transport -> utf8 peer -> 0 <= year_of 0 now <= 9999 -> in_s 64 n ->
  exists rec t', record dir transport peer proto op n body now None (Some t) = Some t' /\
    tr_maxBytes t' = tr_maxBytes t /\ tr_file t' = Some (content ++ lines_of [encode_trace rec]) /\
    tr_log t' = tr_log t ++ [mkTrace [] dir transport peer (byteHex proto) (byteHex op)
                               (opcodeName transport op) n (EncodeToString (sample t body))] /\
    trace_ok rec /\
    traced_of rec = Some (mkTraced now dir transport peer proto op (opcodeName transport op) n (sample t body)).
Proof.
  intros Hf Hdir Htr Hp Hy Hn. unfold record. rewrite Hf. do 2 eexists. split; [done|]. split; [done|].
  split; [cbn [tr_file lines_of flat_map]; by rewrite app_nil_r|]. split; [done|]. split.
  - constructor; [|done]. cbn [pt_Time pt_Dir pt_Transport pt_Peer pt_Protocol pt_Opcode pt_OpName pt_Hex].
    repeat (apply Forall_cons; split); try done; try apply utf8_ascii;
      [by apply RFC3339_ascii|apply byteHex_ascii..|apply opcodeName_ascii|apply EncodeToString_ascii].
  - unfold traced_of. cbn [pt_Time pt_Dir pt_Transport pt_Peer pt_Protocol pt_Opcode pt_OpName pt_Length pt_Hex].
    rewrite parse_RFC3339_text by done. cbn [mbind option_bind]. rewrite !parse_byteHex_byteHex.
    cbn [mbind option_bind]. by rewrite hex_parse_Encode.
Qed.

(** What [readFrame] takes off a stream is what it says. *)
Lemma readFrame_takes stream proto op body n rest :
  len stream < 2 ^ 62 -> readFrame stream = Ok (proto, op, body, n, rest) ->
  (exists frame, stream = frame ++ rest /\ len frame = n) /\ in_s 64 n.
Proof.
  intros Hs. unfold readFrame, readFrameFrom, ReadFull at 1.
  destruct (Z.ltb_spec (len stream) PacketHeaderSize) as [|Hh]; [done|]. cbn [rbind].
  destruct (PacketHeader_Get _) as [[[p o] bodySize]|]; [|done].
  destruct (Z.ltb_spec bodySize 0); [done|]. unfold ReadFull.
  destruct (Z.ltb_spec (len (drop (Z.to_nat PacketHeaderSize) stream)) bodySize) as [|Hb]; [done|]. cbn [rbind].
  unfold PacketHeaderSize in *. change (Z.to_nat 6) with 6%nat in *.
  assert (len (drop 6 stream) = len stream - 6) as Hd by (unfold len in *; rewrite length_drop; lia).
  rewrite to_int_id by (unfold in_s; simpl in *; lia). rewrite drop_drop.
  assert (forall k, k = (6 + Z.to_nat bodySize)%nat -> 
    (exists frame, stream = frame ++ drop k stream /\ len frame = 6 + bodySize) /\ in_s 64 (6 + bodySize)) as Hk.
  { intros k ->. split; [|unfold in_s; simpl in *; lia].
    exists (take (6 + Z.to_nat bodySize) stream). split; [by rewrite take_drop|].
    unfold len in *. rewrite length_take. lia. }
  destruct (byte_eqb p PackedProt).
  - destruct (inflatePackedFrame _); [|done]. cbn [rbind]. intros [= <- <- <- <- <-]. by apply Hk.
  - intros [= <- <- <- <- <-]. by apply Hk.
Qed.

Lemma trace_step_line t content e :
  tr_file t = Some content -> traceable e ->
  match expected t e with
  | Some l => exists rec t', trace_step (Some t) e = Some t' /\ tr_maxBytes t' = tr_maxBytes t /\
      tr_file t' = Some (content ++ lines_of [encode_trace rec]) /\
      length (tr_log t') = S (length (tr_log t)) /\ trace_ok rec /\ traced_of rec = Some l
  | None => trace_step (Some t) e = Some t
  end.
Proof.
  destruct e as [e now]. intros Hf (Hp & Hy & Hb). cbn [fst snd] in *.
  assert (forall dir transport peer proto op n body, utf8 dir -> utf8 transport -> utf8 peer -> in_s 64 n ->
    exists rec t', record dir transport peer proto op n body now None (Some t) = Some t' /\
      tr_maxBytes t' = tr_maxBytes t /\ tr_file t' = Some (content ++ lines_of [encode_trace rec]) /\
      length (tr_log t') = S (length (tr_log t)) /\ trace_ok rec /\
      traced_of rec = Some (mkTraced now dir transport peer proto op (opcodeName transport op) n (sample t body)))
    as Hr.
  { intros dir transport peer proto op n body H1 H2 H3 H4.
    destruct (record_line dir transport peer proto op n body now t content) as (rec & t' & ? & ? & ? & El & ? & ?);
      [done..|]. exists rec, t'. rewrite El, length_app. cbn [length]. split_and!; try done. lia. }
  assert (utf8 traceIn /\ utf8 traceOut /\ utf8 (lit "tcp") /\ utf8 (lit "udp")) as (? & ? & ? & ?).
  { split_and!; apply utf8_ascii; ascii; by repeat constructor. }
  assert (forall k z, 0 <= k <= 6 -> 0 <= z < 2 ^ 32 -> in_s 64 (k + z)) as Hlen
    by (intros k z Hk Hz; unfold in_s; lia).
  assert (forall op body, len body <= maxDecodedFrameBytes -> exists rec t',
    trace_sent (trace_peer e) (plain_frame op body) now None (Some t) = Some t' /\
      tr_maxBytes t' = tr_maxBytes t /\ tr_file t' = Some (content ++ lines_of [encode_trace rec]) /\
      length (tr_log t') = S (length (tr_log t)) /\ trace_ok rec /\
      traced_of rec = Some (mkTraced now traceOut (lit "tcp") (trace_peer e) EdonkeyHeader op
                              (opcodeName (lit "tcp") op) (6 + len body) (sample t body))) as Hsent.
  { intros op body Hbody. destruct (le_encode_4 (len body + 1)) as (a & b & c & d & E).
    rewrite <- plain_frame_len with (opcode := op). unfold plain_frame at 1, trace_sent. rewrite E. cbn [app].
    change (EdonkeyHeader :: a :: b :: c :: d :: op :: body) with (EdonkeyHeader :: [a; b; c; d] ++ op :: body).
    rewrite <- E. fold (plain_frame op body). apply Hr; try done. rewrite plain_frame_len. apply Hlen; [done|].
    pose proof (len_nonneg body). unfold maxDecodedFrameBytes in Hbody. lia. }
  destruct e as [peer stream|peer op body|peer op body|peer packet|peer op body];
    cbn [trace_step expected trace_peer] in *; [|by apply Hsent|by apply Hsent| |].
  - destruct (readFrame stream) as [[[[[proto op] body] n] rest]|err] eqn:E; [|done].
    apply Hr; try done. by apply (readFrame_takes stream proto op body n rest).
  - destruct packet as [|header [|op body]]; [done..|]. apply Hr; try done.
    pose proof (Hlen 0 (len (header :: op :: body))) as Hz. rewrite Z.add_0_l in Hz. apply Hz; [done|].
    split; [apply len_nonneg|done].
  - unfold trace_reply. assert (len (ed2kUDPHeader :: op :: body) = 2 + len body) as -> by (rewrite !len_cons; lia).
    apply Hr; try done. apply Hlen; [done|]. split; [apply len_nonneg|done].
Qed.

Lemma expected_same t t' e : tr_maxBytes t' = tr_maxBytes t -> expected t' e = expected t e.
Proof. intros E. destruct e as [e now]. unfold expected, sample. by rewrite E. Qed.

Lemma sample_take t body :
  sample t body = if 0 <? tr_maxBytes t then take (Z.to_nat (tr_maxBytes t)) body else body.
Proof.
  unfold sample. destruct (Z.ltb_spec 0 (tr_maxBytes t)); [|done]. cbn [andb].
  destruct (Z.ltb_spec (tr_maxBytes t) (len body)); [done|]. rewrite take_ge; [done|]. unfold len in *. lia.
Qed.

Context {FL : FrameHeaderLaws} {ZLL : ZlibLaws}.

Lemma expected_tells t e :
  traceable e -> match expected t e with Some l => tells t e.1 l | None => untold e.1 end.
Proof.
  destruct e as [e now]. intros (_ & _ & Hb). cbn [fst] in *.
  assert (forall op body wire l, len body <= maxDecodedFrameBytes -> sent_wire e = Some wire ->
    (forall rest, readFrame (wire ++ rest) = Ok (EdonkeyHeader, op, body, len wire, rest)) ->
    len wire <= len (plain_frame op body) ->
    match e with TraceSent _ _ _ | TraceSentRaw _ _ _ => True | _ => False end ->
    l = mkTraced now traceOut (lit "tcp") (trace_peer e) EdonkeyHeader op (opcodeName (lit "tcp") op)
          (6 + len body) (sample t body) -> tells t e l) as Hsent.
  { intros op body wire l Hbody Hw Hr Hl He ->. exists body. split; [apply sample_take|].
    rewrite plain_frame_len in Hl. by destruct e; try done; exists wire. }
  destruct e as [peer stream|peer op body|peer op body|peer packet|peer op body];
    cbn [expected sent_wire] in *.
  - destruct (readFrame stream) as [[[[[proto op] body] n] rest]|err] eqn:E; [|by cbn; rewrite E].
    destruct (readFrame_takes stream proto op body n rest Hb E) as [(frame & Es & Hn) _].
    exists body. split; [apply sample_take|]. by exists frame, rest.
  - eapply (Hsent op body); [done..| | |done|done]; intros; by apply packed_frame_roundtrip.
  - eapply (Hsent op body); [done..| | |done|done]; [|done]. intros rest. apply readFrame_plain.
    unfold maxDecodedFrameBytes in Hb. simpl in *. lia.
  - destruct packet as [|header [|op body]]; [done..|]. exists body. by split; [apply sample_take|].
  - exists body. by split; [apply sample_take|].
Qed.

(** C38: what the trace file tells. Whatever frames and datagrams are read and
    written, each appends one line, and one that cannot be read none; reading the
    text back as JSON gives for each, in order, the time to the nanosecond,
    direction, transport, peer, protocol, opcode and its name, a length, and the
    body or its first [PacketTraceMaxBytes] bytes. Over TCP these are those of the
    logical frame: a packed frame is told inflated, under the plain protocol, and
    the line does not show that it was packed. For a frame that is read the body
    is the one the dispatcher gets and the length the number of bytes on the wire;
    for a frame that is sent the body is the one its reader makes of the bytes on the
    wire, and the length the one before compression ([tells]). The logger gets one
    entry per line. *)
Theorem traced_frame_recoverable `{UnicodeTables} t content events :
  tr_file t = Some content -> Forall traceable events ->
  exists t' text, foldl trace_step (Some t) events = Some t' /\ tr_file t' = Some (content ++ text) /\
    read_trace text = Some (omap (expected t) events) /\
    length (tr_log t') = (length (tr_log t) + length (omap (expected t) events))%nat /\
    Forall (fun e => match expected t e with Some l => tells t e.1 l | None => untold e.1 end) events.
Proof.
  intros Hf He. assert (exists t' recs, foldl trace_step (Some t) events = Some t' /\
    tr_file t' = Some (content ++ lines_of (map encode_trace recs)) /\
    length (tr_log t') = (length (tr_log t) + length (omap (expected t) events))%nat /\
    Forall trace_ok recs /\
    mapM traced_of recs = Some (omap (expected t) events)) as (t' & recs & Ht & Hf' & Hl & Hok & Hm).
  { revert t content Hf; induction He as [|e events He _ IH]; intros t content Hf.
    { exists t, []. cbn. rewrite app_nil_r. split_and!; try done; lia. }
    pose proof (trace_step_line t content e Hf He) as Hline.
    change (omap (expected t) (e :: events)) with
      (match expected t e with Some l => l :: omap (expected t) events | None => omap (expected t) events end).
    cbn [foldl]. destruct (expected t e) as [l|]; [|by rewrite Hline; apply IH].
    destruct Hline as (rec & t1 & -> & Em & Hf1 & Hl1 & Hok & Hr).
    destruct (IH t1 _ Hf1) as (t' & recs & Ht & Hf' & Hl & Hoks & Hm). exists t', (rec :: recs).
    assert (omap (expected t1) events = omap (expected t) events) as Eo.
    { clear -Em. induction events as [|x events IH]; [done|]. cbn. by rewrite (expected_same t t1 x Em), IH. }
    rewrite Eo in *. split; [done|].
    split; [rewrite Hf'; cbn [lines_of flat_map map]; by rewrite app_nil_r, <- !app_assoc|].
    split; [cbn [length]; lia|]. split; [by constructor|]. cbn [mapM]. rewrite Hr. cbn. by rewrite Hm. }
  exists t', (lines_of (map encode_trace recs)). do 2 (split; [done|]). split; [|split; [done|]].
  - unfold read_trace. rewrite read_lines.
    2: { apply Forall_map. eapply Forall_impl; [exact Hok|]. exact encode_trace_fits. }
    cbn [mbind option_bind]. rewrite <- Hm. clear Hm Hf' Hl.
    induction Hok as [|rec recs Hrec _ IH]; [done|]. cbn [map mapM].
    rewrite decode_encode_trace by done. cbn [mbind option_bind]. by rewrite IH.
  - eapply Forall_impl; [exact He|]. apply expected_tells.
Qed.
End events.

Lemma case_of_In op cases : case_of op cases <> [] -> In (op, case_of op cases) cases.
Proof.
  induction cases as [|[k name] cases IH]; [done|]. cbn [case_of].
  destruct (byte_eqb op k) eqn:E; [|by right; apply IH].
  left. unfold byte_eqb in E. by apply bool_decide_eq_true in E as ->.
Qed.

(** The two spellings of one request. *)
Definition list_requests (a b : byte) : Prop :=
  (a = udpOpServerListReq /\ b = udpOpServerListReq2) \/
  (a = udpOpServerListReq2 /\ b = udpOpServerListReq).

Definition unambiguous (cases : list (byte * bytes)) : bool :=
  forallb (fun x => forallb (fun y =>
    implb (bytes_eqb x.2 y.2) (bool_decide (x.1 = y.1 \/ list_requests x.1 y.1))) cases) cases.

Lemma unambiguous_names cases a b :
  unambiguous cases = true -> case_of a cases <> [] -> case_of a cases = case_of b cases ->
  a = b \/ list_requests a b.
Proof.
  unfold unambiguous. intros Hu Ha E. assert (case_of b cases <> []) as Hb by congruence.
  apply case_of_In in Ha, Hb. rewrite forallb_forall in Hu. specialize (Hu _ Ha).
  rewrite forallb_forall in Hu. specialize (Hu _ Hb). cbn [fst snd] in Hu.
  rewrite (proj2 (bytes_eqb_eq _ _) E) in Hu. by apply bool_decide_eq_true in Hu.
Qed.

Section names.
Context {L : Ed2kLib} {W : Ed2kWire} {U : UnicodeTables} {MI : MapIter} {D : TextDecoder}.
Context {ZL : Zlib} {PC : PacketCombiner} {WD : World}.

(** Names are complete and unambiguous: a TCP request without a name is one
    the dispatcher ignores, and two opcodes of one transport share a name only
    when both ask for the server list. *)
Theorem opcode_names_complete :
  (forall sid packet body s, opcodeName (lit "tcp") packet = [] ->
     dispatch sid packet body s = (Ok tt, s)) /\
  (forall transport a b, opcodeName transport a <> [] ->
     opcodeName transport a = opcodeName transport b ->
     a = b \/ list_requests a b).
Proof.
  split.
  - intros sid packet body s. unfold opcodeName.
    rewrite (proj2 (bytes_eqb_neq (lit "tcp") (lit "udp"))) by done. unfold tcp_names, dispatch.
    cbn [case_of]. repeat (match goal with |- context [byte_eqb packet ?k] =>
      destruct (byte_eqb packet k); [discriminate|] end). done.
  - intros transport a b. unfold opcodeName.
    destruct (bytes_eqb transport (lit "udp")); apply unambiguous_names; vm_compute; done.
Qed.
End names.

(** ** Witness *)

(** A packed frame is read, a frame is sent packed, one as it is, one cannot be
    read, and a datagram is answered. *)
Definition demo_trace : list (trace_event * Z) :=
  [(TraceRead (lit "10.0.0.1:4662")
      (maybePackFrame (W := ed2k_wire_ref) (plain_frame (H0 := ed2k_wire_ref) x15 (replicate 300 x2a)) ++ [xe3; x05]), 1709210096500000000);
   (TraceSent (lit "10.0.0.1:4662") x33 (replicate 300 x07), 1709210096500000001);
   (TraceSentRaw (lit "10.0.0.1:4662") x44 [x01; x02; x03], 1709210096600000000);
   (TraceRead (lit "10.0.0.1:4662") [xe3; x05], 1709210096700000000);
   (TraceReply (lit "10.0.0.2:4672") x97 (replicate 70 x07), 1709210097000000000)].

Lemma traceable_in `{Ed2kWire} e now :
  utf8 (trace_peer e) ->
  (0 <=? year_of 0 now) && (year_of 0 now <=? 9999) &&
  match e with
  | TraceRead _ stream => len stream <? 2 ^ 62
  | TraceSent _ _ body | TraceSentRaw _ _ body => len body <=? maxDecodedFrameBytes
  | TraceDatagram _ packet => len packet <? 2 ^ 32
  | TraceReply _ _ body => len body <? 2 ^ 32
  end = true ->
  traceable (e, now).
Proof.
  intros Hp ((H1%Z.leb_le & H2%Z.leb_le)%andb_true_iff & H3)%andb_true_iff.
  split; [exact Hp|]. split; [exact (conj H1 H2)|]. cbn [fst].
  destruct e; (apply Z.ltb_lt in H3; exact H3) || (apply Z.leb_le in H3; exact H3).
Qed.

(** The number of lines, and the protocol, length and kept body of the first:
    the frame was packed, and is told as a plain one. *)
Lemma traced_frame_recoverable_witness :
  exists t' text lines first,
    foldl (trace_step (W := ed2k_wire_ref)) (Some (mkTracer 64 [] (Some []))) demo_trace = Some t' /\
    tr_file t' = Some text /\ read_trace text = Some lines /\
    length lines = 4%nat /\ head lines = Some first /\
    td_Proto first = xe3 /\ td_Length first = 10 /\ td_Body first = replicate 64 x2a.
Proof.
  assert (Forall traceable demo_trace) as Hd.
  { assert (utf8 (lit "10.0.0.1:4662") /\ utf8 (lit "10.0.0.2:4672")) as [? ?]
      by (split; apply utf8_ascii; by repeat constructor).
    repeat (apply Forall_cons; split); [apply traceable_in; [assumption|vm_compute; reflexivity]..|constructor]. }
  destruct (traced_frame_recoverable (W := ed2k_wire_ref) (mkTracer 64 [] (Some [])) [] demo_trace eq_refl Hd)
    as (t' & text & E & Hf & Hr & _).
  exists t', text, (omap (expected (W := ed2k_wire_ref) (mkTracer 64 [] (Some []))) demo_trace). eexists.
  split; [exact E|]. split; [exact Hf|]. split; [exact Hr|].
  split; [vm_compute; reflexivity|]. split; [vm_compute; reflexivity|].
  split; [vm_compute; reflexivity|]. split; vm_compute; reflexivity.
Defined.
