(* ===== verification/Lifecycle.v ===== *)
(** * Start and shutdown (ed2ksrv/server.go, ed2ksrv/admin.go, cmd main)

    The process around the server: loading, the listeners, the accept loop and
    [Shutdown]. Opening sockets and files, and what [Accept] returns, are inputs.
    The goroutine of a connection that [Shutdown] closes ends at once: its next
    read fails and its deferred clean-up runs. *)

From S2P Require Import StateErr.
From S2P Require Import Prelude GoStrings GoSort GoNet Ed2kLib Ed2kRef Ed2kWire FileRecord Search.
From S2P Require Import CatalogJson Catalog Config Storage ConfigJson PeerServers Limiter Text Frames.
From S2P Require Import AuditLog.
From S2P Require Import Server ServerFacts ServerInv ServerDemo ServerProps Udp Trace.

Local Open Scope Z_scope.
Local Open Scope srv_scope.

(** A listener field: not set, or set and its socket open or closed. *)
Inductive listenerState := NoListener | Listening | ListenerClosed.

Definition close_listener (l : listenerState) : listenerState :=
  match l with NoListener => NoListener | _ => ListenerClosed end.

(** The fields of [Server] that only this file uses, beside its other parts;
    [pr_serving] is whether [Serve] runs, and [pr_store] whether the catalog's
    store is open. *)
Record Process `{Ed2kLib} := mkProcess {
  pr_service : UdpService;
  pr_closed : bool;
  pr_listener : listenerState;
  pr_admin : listenerState;
  pr_store : bool;
  pr_tracer : option packetTracer;
  pr_serving : bool
}.

(** The outcome of [listener.Accept]. *)
Inductive accepted :=
| AcceptConn (remote : NetAddr) (local : option NetAddr) (first : option byte) (handshake : bool)
| AcceptError (temporary : bool).

Inductive startErr :=
| StartConfig (e : configErr)
| StartStore (e : storeErr)
| StartTrace.

Section process.
Context {L : Ed2kLib} {W : Ed2kWire} {U : UnicodeTables} {MI : MapIter} {D : TextDecoder}.
Context {ZL : Zlib} {PC : PacketCombiner} {WD : World} {HJ : HashJson} {IW : IOWorld}.

(** ** Loading *)

(** [NewServer(cfg, nil, logger)]; [opened] is the result of opening the trace
    file. *)
Definition NewServer_nil (cfg : Config) (opened : bool) (io : ioState)
    : result startErr (Server * option packetTracer) * ioState :=
  match Normalize cfg with
  | Err e => (Err (StartConfig e), io)
  | Ok normalized =>
    match LoadCatalogFromConfig normalized io with
    | (Err e, io) => (Err (StartStore e), io)
    | (Ok catalog, io) =>
      match newPacketTracer normalized opened with
      | Err _ => (Err StartTrace, io)
      | Ok tracer =>
        match NewServer cfg catalog with
        | Err e => (Err (StartConfig e), io)
        | Ok s => (Ok (s, tracer), io)
        end
      end
    end
  end.

Definition new_process (s : Server) (tracer : option packetTracer) : Process :=
  mkProcess _ (new_service s) false NoListener NoListener true tracer false.

(** The first half of [main]: the process, or the exit status. *)
Definition main_start (configPath : bytes) (opened : bool) (io : ioState)
    : result Z Process * ioState :=
  match LoadConfig configPath io with
  | (Err _, _, io) => (Err 1, io)
  | (Ok cfg, _, io) =>
    match NewServer_nil cfg opened io with
    | (Err _, io) => (Err 1, io)
    | (Ok (s, tracer), io) => (Ok (new_process s tracer), io)
    end
  end.

(** ** Serving *)

Definition with_service (u : UdpService) (p : Process) : Process :=
  mkProcess _ u (pr_closed p) (pr_listener p) (pr_admin p) (pr_store p) (pr_tracer p) (pr_serving p).

Definition stop_serving (p : Process) : Process :=
  mkProcess _ (pr_service p) (pr_closed p) (pr_listener p) (pr_admin p) (pr_store p) (pr_tracer p) false.

(** [Serve] up to its loop, on an open listener; [udp_bound] is whether the UDP
    socket can be bound. *)
Definition Serve (port : Z) (udp_bound : bool) (p : Process) : Process :=
  mkProcess _ (run_udp_event (UeServe port udp_bound) (pr_service p)).2 (pr_closed p) Listening
    (pr_admin p) (pr_store p) (pr_tracer p) true.

(** One round of the loop; the result is what [Serve] returns, once it does. *)
Definition accept_round (a : accepted) (p : Process) : option (result unit unit) * Process :=
  match a with
  | AcceptConn remote local first handshake =>
    (None, with_service
             (run_udp_event (UeServer (EvConnect remote local first handshake)) (pr_service p)).2 p)
  | AcceptError temporary =>
    if pr_closed p then (Some (Ok tt), stop_serving p)
    else if temporary then (None, p)
    else (Some (Err tt), stop_serving p)
  end.

(** A closed listener accepts nothing. *)
Definition serve_round (a : accepted) (p : Process) : option (result unit unit) * Process :=
  match pr_listener p with
  | Listening => accept_round a p
  | _ => accept_round (AcceptError false) p
  end.

Definition ServeAdmin (p : Process) : Process :=
  mkProcess _ (pr_service p) (pr_closed p) (pr_listener p) Listening (pr_store p) (pr_tracer p)
    (pr_serving p).

(** [ListenAndServe] up to the loop; the ports are what the two calls of
    [net.Listen] give. *)
Definition ListenAndServe (adminPort port : option Z) (udp_bound : bool) (p : Process)
    : result unit unit * Process :=
  let wanted := negb (bytes_eqb (AdminListenAddress (sv_cfg (us_server (pr_service p)))) []) in
  match wanted, adminPort with
  | true, None => (Err tt, p)
  | _, _ =>
    let p := if wanted then ServeAdmin p else p in
    match port with
    | None => (Err tt, p)
    | Some port => (Ok tt, Serve port udp_bound p)
    end
  end.

(** ** Shutdown *)

Fixpoint disconnect (sids : list nat) (s : Server) : Server :=
  match sids with
  | [] => s
  | sid :: sids' => disconnect sids' (run_event (EvClose sid) s).2
  end.

Definition with_server (s : Server) (u : UdpService) : UdpService :=
  mkUdp _ s (us_conn u) (us_limiter u) (us_queue u) (us_out u).

(** [ctx] is the error of the context, if there is one. *)
Definition Shutdown (ctx : option bytes) (p : Process) : option bytes * Process :=
  let s := us_server (pr_service p) in
  let clients := map snd (range_map (sv_clients s)) in
  (ctx, mkProcess _ (set_us_conn false (with_server (disconnect clients s) (pr_service p)))
          true (close_listener (pr_listener p)) (close_listener (pr_admin p)) false
          (Trace.close (pr_tracer p)) (pr_serving p)).
End process.
