(* ===== verification/LifecycleFacts.v ===== *)
(** * What start and shutdown leave behind

    Database connections over a start, and clients, listeners and sessions over
    a shutdown. *)

From S2P Require Import StateErr.
From S2P Require Import Prelude GoStrings GoSort GoNet Ed2kLib Ed2kRef Ed2kWire FileRecord Search.
From S2P Require Import CatalogJson Catalog CatalogFacts Config Storage StorageFacts ConfigJson.
From S2P Require Import PeerServers Limiter Text Frames AuditLog Server ServerFacts ServerInv ServerDemo ServerProps Udp Trace.
From S2P Require Import Lifecycle.

Local Open Scope Z_scope.
Local Open Scope srv_scope.

(** ** Connections to the database *)

(** How many more connections a log opens than it closes. *)
Definition conn_change (entry : dbCmd * bool) : Z :=
  match entry with
  | (DbOpen _ _, true) => 1
  | (DbClose, _) => -1
  | _ => 0
  end.

Definition connections (log : list (dbCmd * bool)) : Z := foldr (fun e n => conn_change e + n) 0 log.

Lemma connections_app l k : connections (l ++ k) = connections l + connections k.
Proof. induction l as [|e l IH]; cbn [connections foldr app]; [done|]. fold (connections (l ++ k)).
  rewrite IH. unfold connections. lia. Qed.

(** The backend is a database. *)
Definition uses_database `{UnicodeTables} (cfg : Config) : bool :=
  let backend := ToLower (TrimSpace (StorageBackend cfg)) in
  negb (bytes_eqb backend [] || bytes_eqb backend storageBackendJSON).

Section start.
Context {L : Ed2kLib} {W : Ed2kWire} {U : UnicodeTables} {MI : MapIter} {D : TextDecoder}.
Context {ZL : Zlib} {PC : PacketCombiner} {WD : World} {HJ : HashJson} {IW : IOWorld}.

(** An operation that neither opens nor closes on balance. *)
Definition neutral {A} (m : IO A) : Prop := forall s, exists l,
  io_log (m s).2 = io_log s ++ l /\ connections l = 0.

Lemma neutral_ret {A} (a : A) : neutral (ret a).
Proof. intros s. exists []. by rewrite app_nil_r. Qed.

Lemma neutral_fail {A} e : neutral (fail (A := A) e).
Proof. intros s. exists []. by rewrite app_nil_r. Qed.

Lemma neutral_gets {A} (f : ioState -> A) : neutral (gets f).
Proof. intros s. exists []. by rewrite app_nil_r. Qed.

Lemma neutral_bind {A B} (m : IO A) (k : A -> IO B) :
  neutral m -> (forall a, neutral (k a)) -> neutral (bind m k).
Proof.
  intros Hm Hk s. destruct (Hm s) as (l & Hl & Hc). unfold bind.
  destruct (m s) as [[a|e] s1]; cbn [snd] in *; [|by exists l].
  destruct (Hk a s1) as (l' & Hl' & Hc'). exists (l ++ l').
  by rewrite Hl', Hl, app_assoc, connections_app, Hc, Hc'.
Qed.

Lemma neutral_try {A} (m : IO A) : neutral m -> neutral (try_ m).
Proof. intros Hm s. destruct (Hm s) as (l & H). exists l. unfold try_. by destruct (m s). Qed.

Lemma neutral_option {A} (o : option A) e : neutral (of_option o e).
Proof. destruct o; [apply neutral_ret|apply neutral_fail]. Qed.

Lemma neutral_os : neutral os_step.
Proof. intros s. exists []. by rewrite app_nil_r. Qed.

Lemma neutral_cmd cmd : conn_change (cmd, true) = 0 -> conn_change (cmd, false) = 0 -> neutral (db_cmd cmd).
Proof.
  intros Ht Hf s. exists [(cmd, io_ok (io_ops s))]. split; [done|].
  unfold connections. cbn [foldr]. destruct (io_ok (io_ops s)); lia.
Qed.

Create HintDb neutral.
Hint Resolve neutral_ret neutral_fail neutral_gets neutral_bind neutral_try neutral_option
  neutral_os neutral_cmd : neutral.

Lemma neutral_scan rows files : neutral (scan_rows rows files).
Proof.
  revert files; induction rows as [|row rows IH]; intros files; cbn [scan_rows]; [auto with neutral|].
  apply neutral_bind; [auto with neutral|intros _]. apply neutral_bind; [|auto].
  unfold record_of_row. apply neutral_bind; [auto with neutral|intros h].
  apply neutral_bind; [|auto with neutral]. destruct (bytes_eqb _ _); auto with neutral.
Qed.

Lemma neutral_load store : neutral (store_Load store).
Proof.
  destruct store as [path|backend table]; cbn [store_Load].
  - unfold json_Load, os_ReadFile. apply neutral_bind.
    + apply neutral_try, neutral_bind; [auto with neutral|intros ok].
      apply neutral_bind; [auto with neutral|intros files].
      destruct (files !! path); [destruct ok|]; auto with neutral.
    + intros [data|e]; [auto with neutral|]. destruct e; auto with neutral.
  - unfold sql_Load. apply neutral_bind; [auto with neutral|intros _]. apply neutral_scan.
Qed.

Lemma neutral_init backend table : neutral (sql_init backend table).
Proof. unfold sql_init. auto with neutral. Qed.

(** A store that is open holds a connection when it is a table. *)
Definition holds (store : catalogStore) : Z :=
  match store with sqlCatalogStore _ _ => 1 | jsonCatalogStore _ => 0 end.

(** The log of an operation and what it opened on balance. *)
Definition opens {A} (m : IO A) (s : ioState) (n : result storeErr A -> Z) : Prop :=
  let '(r, s') := m s in exists l, io_log s' = io_log s ++ l /\ connections l = n r.

Definition opened_store (r : result storeErr catalogStore) : Z :=
  match r with Ok store => holds store | Err _ => 0 end.

Lemma newCatalogStore_opens cfg s : opens (newCatalogStore cfg) s opened_store.
Proof.
  unfold newCatalogStore. destruct (_ || _).
  { destruct (bytes_eqb _ []); exists []; by rewrite app_nil_r. }
  destruct (_ && _); [exists []; by rewrite app_nil_r|].
  destruct (bytes_eqb _ []); [exists []; by rewrite app_nil_r|].
  match goal with |- context [DbOpen ?d ?n] => set (cmd := DbOpen d n) end.
  set (table := if bytes_eqb (TrimSpace (DatabaseTable cfg)) [] then _ else _).
  set (backend := ToLower _). unfold opens, bind at 1, db_cmd at 1. cbn [fst snd].
  destruct (io_ok (io_ops s)); [|by exists [(cmd, false)]].
  set (s1 := mkIO _ _ _). destruct (neutral_init backend table s1) as (l & Hl & Hc).
  cbn [io_log s1] in Hl. rewrite <- app_assoc in Hl. cbn [app] in Hl.
  unfold bind at 1, try_ at 1. destruct (sql_init backend table s1) as [[[]|e] s2]; cbn [snd] in Hl.
  - exists ((cmd, true) :: l). split; [exact Hl|]. change (1 + connections l = 1). by rewrite Hc.
  - exists ((cmd, true) :: l ++ [(DbClose, io_ok (io_ops s2))]). cbn [io_log].
    split; [by rewrite Hl, <- app_assoc|].
    change (1 + connections (l ++ [(DbClose, io_ok (io_ops s2))]) = 0).
    rewrite connections_app, Hc. done.
Qed.

Lemma newCatalogStore_holds cfg s store s' :
  newCatalogStore cfg s = (Ok store, s') -> holds store = if uses_database cfg then 1 else 0.
Proof.
  unfold newCatalogStore, uses_database. destruct (_ || _); cbn [negb].
  { destruct (bytes_eqb _ []); [done|]. by intros [= <- <-]. }
  destruct (_ && _); [done|]. destruct (bytes_eqb _ []); [done|].
  unfold bind, try_. destruct (db_cmd _ s) as [[[]|e] s1]; [|done].
  destruct (sql_init _ _ s1) as [[[]|e] s2]; [by intros [= <- <-]|].
  by destruct (db_cmd DbClose s2).
Qed.

Lemma ReplaceAll_store c files c' :
  Catalog_ReplaceAll c files = Ok c' -> cat_store c' = cat_store c.
Proof.
  unfold Catalog_ReplaceAll. destruct (normalize_all 0 files); [|done]. by intros [= <-].
Qed.

(** A catalog that cannot be loaded leaves no connection behind. *)
Lemma LoadCatalogFromConfig_opens cfg s :
  opens (LoadCatalogFromConfig cfg) s
    (fun r => match r with Ok _ => if uses_database cfg then 1 else 0 | Err _ => 0 end).
Proof.
  pose proof (newCatalogStore_opens cfg s) as Ho. unfold LoadCatalogFromConfig, opens in *.
  unfold bind at 1. destruct (newCatalogStore cfg s) as [[store|e] s1] eqn:E;
    destruct Ho as (l & Hl & Hc); [|by exists l]. pose proof (newCatalogStore_holds _ _ _ _ E) as Hh. cbn [opened_store] in Hc.
  set (m := bind (store_Load store) _).
  assert (neutral m) as Hm.
  { apply neutral_bind; [apply neutral_load|]. intros files. unfold lift_catalog.
    destruct (Catalog_ReplaceAll _ _) as [c|[i e]]; auto with neutral. }
  destruct (Hm s1) as (l1 & Hl1 & Hc1). unfold bind, try_ at 1.
  destruct (m s1) as [[c|e] s2]; cbn [fst snd] in *.
  - exists (l ++ l1). rewrite Hl1, Hl, app_assoc, connections_app. split; [done|].
    cbn [ret fst]. lia.
  - destruct store as [path|backend table]; cbn [store_Close].
    + exists (l ++ l1). cbn [try_ ret fail fst snd]. rewrite Hl1, Hl, app_assoc, connections_app.
      split; [done|]. cbn [holds] in Hc. lia.
    + exists (l ++ l1 ++ [(DbClose, io_ok (io_ops s2))]). cbn [io_log holds] in *.
      rewrite Hl1, Hl, <- !app_assoc, !connections_app. split; [done|].
      change (connections l + (connections l1 + -1) = 0). lia.
Qed.
(** C37: a start accounts for its database connection: a server that is created
    holds the one connection of its store; a start that fails holds none,
    except when the trace file cannot be opened: then the catalog is loaded
    already, and its connection stays open with nobody to close it. *)
Theorem start_connections cfg opened io :
  let '(r, io') := NewServer_nil cfg opened io in
  exists l, io_log io' = io_log io ++ l /\ connections l =
    match Normalize cfg with
    | Ok normalized =>
      match r with
      | Ok _ | Err StartTrace => if uses_database normalized then 1 else 0
      | Err _ => 0
      end
    | Err _ => 0
    end.
Proof.
  unfold NewServer_nil. destruct (Normalize cfg) as [n|e] eqn:En;
    [|by exists []; rewrite app_nil_r].
  pose proof (LoadCatalogFromConfig_opens n io) as Ho. unfold opens in Ho.
  destruct (LoadCatalogFromConfig n io) as [[c|e] io']; [|exact Ho].
  destruct (newPacketTracer n opened); [|exact Ho].
  assert (is_ok (NewServer cfg c) = true) as Hok by (unfold NewServer; by rewrite En).
  by destruct (NewServer cfg c).
Qed.

(** ** Shutdown *)

Context {HL : Ed2kHashLaws} {ML : MapIterLaws}.

Lemma closed_state_clients s sid i x :
  sv_clients (closed_state s sid) !! i = Some x -> sv_clients s !! i = Some x.
Proof.
  unfold closed_state. destruct (_ =? 0); [done|].
  change (delete (cs_assignedID (session s sid)) (sv_clients s) !! i = Some x -> sv_clients s !! i = Some x).
  by intros [_ H]%lookup_delete_Some.
Qed.

Lemma closed_state_open s sid : sv_open (closed_state s sid) = sv_open s ∖ {[sid]}.
Proof. unfold closed_state. by destruct (_ =? 0). Qed.

(** Closing some sessions closes these and no others, and takes no client into
    the table. *)
Lemma disconnect_spec sids s :
  server_ok s -> tables_ok s ->
  let s' := disconnect sids s in
  server_ok s' /\ tables_ok s' /\ (forall x, x ∈ sv_open s' <-> x ∈ sv_open s /\ x ∉ sids) /\
  (forall i x, sv_clients s' !! i = Some x -> sv_clients s !! i = Some x).
Proof.
  cbv zeta. revert s; induction sids as [|sid sids IH]; intros s Hs Ht; cbn [disconnect].
  { do 2 (split; [done|]). split; [|done]. intros x. split; [|tauto].
    intros Hx. split; [done|apply not_elem_of_nil]. }
  unfold run_event. rewrite bind_gets. destruct (bool_decide (sid ∈ sv_open s)) eqn:E.
  - apply bool_decide_eq_true in E. rewrite close_conn_eq by done. cbn [snd].
    destruct (IH (closed_state s sid)) as (H1 & H2 & H3 & H4);
      [by apply closed_state_ok|by apply closed_state_tables|].
    do 2 (split; [done|]). split.
    + intros x. rewrite H3, closed_state_open, elem_of_difference, elem_of_singleton, not_elem_of_cons.
      tauto.
    + intros i x Hi. apply (closed_state_clients s sid), H4, Hi.
  - apply bool_decide_eq_false in E. destruct (IH s Hs Ht) as (H1 & H2 & H3 & H4).
    do 2 (split; [done|]). split; [|done]. intros x. rewrite H3, not_elem_of_cons.
    split; [|tauto]. intros [Hx Hn]. split; [done|]. split; [by intros ->|done].
Qed.

Lemma client_sids s i sid :
  sv_clients s !! i = Some sid -> sid ∈ map snd (range_map (sv_clients s)).
Proof.
  intros Hi. apply list_elem_of_fmap. exists (i, sid). split; [done|].
  by rewrite range_map_perm, elem_of_map_to_list.
Qed.

Lemma sids_client s sid :
  sid ∈ map snd (range_map (sv_clients s)) -> exists i, sv_clients s !! i = Some sid.
Proof.
  intros ([i x] & -> & Hin)%list_elem_of_fmap. exists i.
  by rewrite range_map_perm, elem_of_map_to_list in Hin.
Qed.

Lemma range_map_empty {K} `{Countable K} {V} : range_map (∅ : gmap K V) = [].
Proof. apply Permutation_nil. by rewrite range_map_perm, map_to_list_empty. Qed.

(** C36: [Shutdown] of a running server, which has started with a catalog of
    pairwise distinct hashes and in which, one event after the other, no session
    has logged in twice (a second login leaves an entry and files behind for
    good), ends the service.
    The clean-up of the connections it closes, which each of their goroutines does
    after [Shutdown] has returned, is counted in. Then: no client is left in the
    table and no file is shared; no datagram is answered, the listeners and the
    store are closed, and the accept loop returns without an error whatever
    [Accept] says; a second [Shutdown] changes nothing. But only clients that
    have logged in are disconnected: every other open session stays open. *)
Theorem shutdown_effect s0 p ctx :
  initial s0 -> reach disciplined s0 (us_server (pr_service p)) ->
  pr_listener p <> NoListener ->
  let s := us_server (pr_service p) in
  let p' := (Shutdown ctx p).2 in
  let s' := us_server (pr_service p') in
  sv_clients s' = ∅ /\ (forall cid key, ~ shares (sv_dynamicFiles s') cid key) /\
  (forall addr datagram, run_udp_event (UeDatagram addr datagram) (pr_service p') = (Ok tt, pr_service p')) /\
  pr_store p' = false /\
  (forall a, serve_round a p' = (Some (Ok tt), stop_serving p')) /\
  (Shutdown ctx p').2 = p' /\
  (forall sid, sid ∈ sv_open s' <-> sid ∈ sv_open s /\ cs_assignedID (session s sid) = 0).
Proof.
  cbv zeta. intros H0 Hr Hl. pose proof (reach_ok _ _ _ H0 Hr) as Hs.
  pose proof (reach_tables _ _ H0 Hr) as Ht. set (s := us_server (pr_service p)) in *.
  set (sids := map snd (range_map (sv_clients s))).
  destruct (disconnect_spec sids s Hs Ht) as (Hs' & Ht' & Ho & Hc).
  change (us_server (pr_service (Shutdown ctx p).2)) with (disconnect sids s).
  assert (sv_clients (disconnect sids s) = ∅) as Hempty.
  { apply map_eq. intros i. rewrite lookup_empty.
    destruct (sv_clients (disconnect sids s) !! i) as [x|] eqn:Hi; [|done]. exfalso.
    destruct (tb_clients _ Ht' i x Hi) as [Hx _]. apply Ho in Hx as [_ Hn].
    apply Hn, (client_sids s i), Hc, Hi. }
  split; [exact Hempty|]. split.
  { intros cid key Hsh. destruct (tb_shared _ Ht' cid key Hsh) as (x & Hx & _).
    by rewrite Hempty, lookup_empty in Hx. }
  split; [done|]. split; [done|]. split.
  { intros a. unfold serve_round. cbn [Shutdown snd pr_listener]. by destruct (pr_listener p). }
  split.
  - unfold Shutdown at 1. cbn [snd]. change (us_server (pr_service (Shutdown ctx p).2)) with (disconnect sids s).
    rewrite Hempty, range_map_empty. cbn [map disconnect]. unfold Shutdown. cbn [snd pr_service pr_listener pr_admin pr_tracer pr_serving].
    f_equal; [by destruct (pr_listener p)|by destruct (pr_admin p)|by destruct (pr_tracer p)].
  - intros sid. rewrite Ho. split; intros [Hx Hn]; (split; [done|]).
    + destruct (Z.eq_dec (cs_assignedID (session s sid)) 0) as [|Hne]; [done|]. exfalso.
      apply Hn, (client_sids s (cs_assignedID (session s sid))). by apply (so_assigned s Hs).
    + intros (i & Hi)%sids_client. destruct (tb_clients _ Ht i sid Hi) as [_ Ha].
      assert (i = 0) as -> by congruence. by rewrite (so_zero s Hs) in Hi.
Qed.

(** A plain connection, without a limit on connections, is served. *)
Lemma connect_plain s remote local b handshake :
  sv_connLimiter s = None -> isPlainEd2kFirstByte b = true ->
  sv_open (run_event (EvConnect remote local (Some b) handshake) s).2 = {[sv_conns s]} ∪ sv_open s.
Proof.
  intros Hl Hb. unfold run_event. rewrite bind_gets. unfold bind at 1, modify at 1.
  set (s1 := set_sv_conns _ s). unfold bind at 1, admit_conn. rewrite bind_gets.
  change (sv_connLimiter s1) with (sv_connLimiter s). rewrite Hl. unfold bind at 1, ret at 1.
  cbn [negb]. rewrite bind_gets, Hb. cbn [negb]. by rewrite andb_false_r.
Qed.

Lemma serve_server port bound u :
  us_server (run_udp_event (UeServe port bound) u).2 = set_sv_listener (Some port) (us_server u).
Proof.
  unfold run_udp_event, maybeStartServerUDP, startUDPWorkersLocked, srv, zoom, sgets, bind, gets, modify, ret.
  repeat match goal with |- context [match ?x with _ => _ end] =>
    lazymatch x with context [match _ with _ => _ end] => fail | _ => destruct x end end; done.
Qed.

Lemma zoom_server {A} (m : M A) u : us_server (zoom us_server set_us_server m u).2 = (m (us_server u)).2.
Proof. unfold zoom. by destruct (m (us_server u)). Qed.

(** A shutdown that comes before [Serve] is lost: the closed channel is only
    looked at when [Accept] fails, so the server then listens, and an eD2k client
    that connects gets a session. *)
Theorem serve_after_shutdown s ctx tracer port bound remote local b handshake :
  initial s -> sv_connLimiter s = None -> isPlainEd2kFirstByte b = true ->
  let p := Serve port bound (Shutdown ctx (new_process s tracer)).2 in
  let '(returned, p') := serve_round (AcceptConn remote local (Some b) handshake) p in
  pr_closed p' = true /\ pr_listener p' = Listening /\ returned = None /\ pr_serving p' = true /\
  exists sid, sid ∉ sv_open (us_server (pr_service p)) /\ sid ∈ sv_open (us_server (pr_service p')).
Proof.
  intros [(cfg & catalog & Hnew & _) _] Hl Hb. cbv zeta.
  assert (sv_clients s = ∅ /\ sv_open s = ∅) as [Hc Ho].
  { unfold NewServer in Hnew. destruct (Normalize cfg); [|done]. by injection Hnew as <-. }
  set (p := Serve port bound (Shutdown ctx (new_process s tracer)).2).
  assert (us_server (pr_service p) = set_sv_listener (Some port) s) as Hp.
  { unfold p, Shutdown, Serve. cbn [snd pr_service new_process us_server new_service].
    rewrite Hc, range_map_empty. cbn [map disconnect]. apply serve_server. }
  cbn [serve_round accept_round p Serve pr_listener].
  do 4 (split; [done|]). exists (sv_conns s). rewrite Hp. split.
  { change (sv_conns s ∉ sv_open s). rewrite Ho. apply not_elem_of_empty. }
  change (sv_conns s ∈ sv_open (us_server (run_udp_event
    (UeServer (EvConnect remote local (Some b) handshake)) (pr_service p)).2)).
  unfold run_udp_event, srv. rewrite zoom_server, Hp.
  rewrite connect_plain by done. apply elem_of_union_l, elem_of_singleton. done.
Qed.
End start.

(** ** Witnesses *)

(** Two clients are logged in, a third connection is not. *)
Definition demo_three : list event := demo_two ++ [demo_connect x03].

Lemma demo_three_reach : reach disciplined demo_server (demo_run demo_three).
Proof. apply good_run_reach; [apply reach_init|vm_compute; done]. Qed.

Definition demo_process : Process :=
  mkProcess _ (new_service (demo_run demo_three)) false Listening Listening true None true.

Lemma shutdown_effect_witness :
  let s' := us_server (pr_service (Shutdown None demo_process).2) in
  0%nat ∉ sv_open s' /\ 1%nat ∉ sv_open s' /\ 2%nat ∈ sv_open s' /\ sv_clients s' = ∅.
Proof.
  destruct (shutdown_effect demo_server demo_process None demo_initial demo_three_reach)
    as (Hc & _ & _ & _ & _ & _ & Ho); [discriminate|].
  assert (us_server (pr_service demo_process) = demo_run demo_three) as Eu by reflexivity.
  rewrite Eu in Ho.
  assert (forall sid, bool_decide (sid ∈ sv_open (demo_run demo_three) /\
            cs_assignedID (session (demo_run demo_three) sid) = 0) = true ->
          sid ∈ sv_open (us_server (pr_service (Shutdown None demo_process).2))) as Hin.
  { intros sid H%bool_decide_eq_true. by apply Ho. }
  assert (forall sid, bool_decide (cs_assignedID (session (demo_run demo_three) sid) = 0) = false ->
          sid ∉ sv_open (us_server (pr_service (Shutdown None demo_process).2))) as Hout.
  { intros sid H%bool_decide_eq_false [_ Hz]%Ho. exact (H Hz). }
  split; [apply Hout; vm_compute; reflexivity|]. split; [apply Hout; vm_compute; reflexivity|].
  split; [apply Hin; vm_compute; reflexivity|exact Hc].
Defined.

Lemma serve_after_shutdown_witness :
  let p := Serve 4661 true (Shutdown None (new_process demo_server None)).2 in
  let '(returned, p') := serve_round (AcceptConn (demo_addr x01) None (Some xe3) false) p in
  pr_closed p' = true /\ pr_listener p' = Listening /\ returned = None /\ pr_serving p' = true /\
  exists sid, sid ∉ sv_open (us_server (pr_service p)) /\ sid ∈ sv_open (us_server (pr_service p')).
Proof.
  apply (serve_after_shutdown demo_server None None 4661 true (demo_addr x01) None xe3 false).
  - exact demo_initial.
  - assert (match sv_connLimiter demo_server with None => true | Some _ => false end = true) as H
      by (vm_compute; reflexivity).
    destruct (sv_connLimiter demo_server); [discriminate H|reflexivity].
  - reflexivity.
Defined.
