(* ===== verification/System.v ===== *)
(** * The whole program

    The process as one transition system: TCP events, datagrams, search workers,
    peer pings, requests to the management interface, the accept loop, start and
    shutdown, in any order. Its invariant joins those of the parts. *)

From S2P Require Import StateErr.
From S2P Require Import Prelude GoStrings GoSort GoNet GoPath Ed2kLib Ed2kRef Ed2kWire FileRecord.
From S2P Require Import CatalogJson CatalogJsonFacts Search Catalog CatalogFacts Config PeerServers.
From S2P Require Import Limiter Text Frames AuditLog AdminLocale Storage Server ServerFacts FrameRule ServerInv ServerDemo.
From S2P Require Import ServerProps Snapshots Udp UdpFacts UdpProps Admin AdminFacts AdminRuns.
From S2P Require Import Trace Lifecycle LifecycleFacts.

Local Open Scope Z_scope.
Local Open Scope srv_scope.

Inductive sys_event `{Ed2kLib} :=
| SysService (ev : udp_event)
| SysAdmin (r : Request)
| SysListen (adminPort port : option Z) (udp_bound : bool)
| SysAccept (a : accepted)
| SysShutdown (ctx : option bytes).

Section system.
Context {L : Ed2kLib} {HL : Ed2kHashLaws} {W : Ed2kWire} {WL : Ed2kWireLaws} {T : UnicodeTables}.
Context {MI : MapIter} {ML : MapIterLaws}.
Context {D : TextDecoder} {ZL : Zlib} {PC : PacketCombiner} {WD : World}.
Context {SS : SliceSort} {SL : SliceSortLaws} {HJ : HashJson} {AT : AdminTexts}.

Definition server (p : Process) : Server := us_server (pr_service p).

(** A request reaches the handlers once the management interface listens; a
    connection that is open when the listener closes is still served. *)
Definition run_sys (ev : sys_event) (p : Process) : Process :=
  match ev with
  | SysService ev => with_service (run_udp_event ev (pr_service p)).2 p
  | SysAdmin r =>
    match pr_admin p with
    | NoListener => p
    | _ => with_service (with_server (adminMux r (server p)).2 (pr_service p)) p
    end
  | SysListen adminPort port udp_bound => (ListenAndServe adminPort port udp_bound p).2
  | SysAccept a => if pr_serving p then (serve_round a p).2 else p
  | SysShutdown ctx => (Shutdown ctx p).2
  end.

Inductive sys_reach (s0 : Server) (tracer : option packetTracer) : Process -> Prop :=
| sys_start : sys_reach s0 tracer (new_process s0 tracer)
| sys_step p ev :
    sys_reach s0 tracer p -> memory_ok (server p) -> sys_reach s0 tracer (run_sys ev p).

(** ** The invariant *)

Record sys_ok (p : Process) : Prop := {
  sy_service : udp_ok (pr_service p);
  sy_log : log_ok (server p)
}.

Lemma udp_ok_server u s :
  udp_ok u -> server_ok s -> peers_view s = peers_view (us_server u) -> udp_ok (with_server s u).
Proof.
  intros [_ Hp Hs Hq] Hok [= E1 E2]. constructor; cbn [us_server with_server us_queue].
  - done.
  - by rewrite E1.
  - by rewrite E2.
  - intros jobs Hj. rewrite E2. by apply Hq.
Qed.

(** Only the management interface writes the audit log. *)
Lemma audit_udp_event ev u :
  udp_ok u -> memory_ok (us_server u) ->
  sv_auditLog (us_server (run_udp_event ev u).2) = sv_auditLog (us_server u).
Proof.
  intros Hu Hm. pose proof (udp_ok_ready u Hu Hm) as Hr.
  destruct ev as [ev|port bound|addr datagram| |].
  - unfold run_udp_event, srv. rewrite zoom_server. apply (frames_run_event sv_auditLog).
  - by rewrite serve_server.
  - cbn [run_udp_event]. rewrite bind_gets. destruct (us_conn u); [|done].
    destruct (uruns_receive (fun a => a = addr) addr datagram eq_refl u Hr) as [H1 _].
    apply H1.
  - cbn [run_udp_event]. unfold udpSearchWorker. rewrite bind_gets.
    destruct (us_queue u) as [[|job jobs]|] eqn:E; [done| |done].
    set (u1 := set_us_queue (Some jobs) u). rewrite (bind_ok _ _ _ tt u1) by done.
    destruct (uruns_runUDPSearch (fun a => a = job_addr job) job eq_refl u1) as [H2 _].
    + destruct Hr as [Hq Hp Hpe]. by constructor.
    + apply H2.
  - destruct (uruns_pings (fun _ => True) (fun _ => I) u Hr) as [H1 _]. apply H1.
Qed.

Lemma sys_ok_udp_event ev p :
  sys_ok p -> memory_ok (server p) -> sys_ok (with_service (run_udp_event ev (pr_service p)).2 p).
Proof.
  intros [Hu Hl] Hm. constructor; [by apply run_udp_event_ok|].
  unfold log_ok, server. cbn [pr_service with_service]. by rewrite audit_udp_event.
Qed.
(** No request touches the peers or the configuration. *)
Lemma frames_batch texts deleted missing : frames peers_view (batch_delete texts deleted missing).
Proof.
  revert deleted missing; induction texts as [|text texts IH]; intros deleted missing;
    cbn [batch_delete]; [done|]. destruct (HashFromString text); [|apply IH].
  apply frames_bind; [apply frames_try, (frames_Delete peers_view)|]. intros [[]|e]; [apply IH..|done].
Qed.

Lemma frames_request r : frames peers_view (adminMux r).
Proof.
  pose proof frames_batch as Hb. unfold adminMux. cbv zeta. destruct (redirect_slash _); [done|].
  destruct (negb _); [done|]. destruct (best_pattern _) as [[pattern rt]|]; [|done].
  destruct rt; cbn [route_handler];
    unfold handleAdminUI, handleAdminJS, handleAdminCSS, handleHealthz, withAdminAuth,
      handleAdminAudit, handleAdminStats, handleAdminClients, handleAdminClientByID,
      handleAdminBatchDeleteFiles, handleAdminFiles, listFiles, upsertFile, handleAdminFileByHash,
      deleteFile, handleAdminPersist, audit, only; cbv zeta;
    repeat (first [apply Hb|apply (frames_Upsert peers_view)|apply (frames_Delete peers_view)
      |apply (frames_persist peers_view)|frame_step idtac; try done]; cbv zeta beta).
Qed.
Lemma disconnect_safe sids s :
  server_ok s -> server_ok (disconnect sids s) /\
  peers_view (disconnect sids s) = peers_view s /\ sv_auditLog (disconnect sids s) = sv_auditLog s.
Proof.
  revert s; induction sids as [|sid sids IH]; intros s Hs; cbn [disconnect]; [done|].
  assert (server_ok (run_event (EvClose sid) s).2) as Hs1.
  { unfold run_event. rewrite bind_gets. destruct (bool_decide (sid ∈ sv_open s)) eqn:E; [|done].
    apply bool_decide_eq_true in E. rewrite close_conn_eq by done. by apply closed_state_ok. }
  destruct (IH _ Hs1) as (H1 & H2 & H3). rewrite H2, H3.
  split; [done|]. split; [apply (frames_run_event peers_view)|apply (frames_run_event sv_auditLog)].
Qed.

Lemma run_sys_ok ev p : sys_ok p -> memory_ok (server p) -> sys_ok (run_sys ev p).
Proof.
  intros Hp Hm. pose proof Hp as [Hu Hl]. pose proof (uk_server _ Hu) as Hs.
  destruct ev as [ev|r|adminPort port bound|a|ctx]; cbn [run_sys].
  - by apply sys_ok_udp_event.
  - assert (sys_ok (with_service (with_server (adminMux r (server p)).2 (pr_service p)) p)) as H.
    { destruct (good_request r (server p) Hs Hm Hl) as (resp & s' & E & [Hk _] & Hl' & _).
      pose proof (frames_request r (server p)) as Hv. rewrite E in Hv |- *. cbn [snd] in *.
      constructor; [by apply udp_ok_server|exact Hl']. }
    by destruct (pr_admin p).
  - pose proof (fun port => sys_ok_udp_event (UeServe port bound) p Hp Hm) as H.
    assert (forall q, pr_service q = pr_service p -> forall port, sys_ok (Serve port bound q)) as Hq.
    { intros q Eq port'. destruct (H port') as [H1 H2]. constructor.
      - cbn [Serve pr_service]. rewrite Eq. exact H1.
      - unfold server. cbn [Serve pr_service]. rewrite Eq. exact H2. }
    unfold ListenAndServe. destruct (negb _), adminPort, port; try exact Hp; try (by apply Hq);
      by constructor.
  - destruct (pr_serving p); [|done]. unfold serve_round, accept_round.
    pose proof (fun ev => sys_ok_udp_event ev p Hp Hm) as H.
    destruct (pr_listener p), a as [remote local first handshake|temporary];
      try (by apply H); destruct (pr_closed p); try destruct temporary; try exact Hp; by constructor.
  - set (sids := map snd (range_map (sv_clients (us_server (pr_service p))))).
    destruct (disconnect_safe sids (server p) Hs) as (H1 & H2 & H3).
    pose proof (udp_ok_server (pr_service p) _ Hu H1 H2) as [H4 H5 H6 H7].
    constructor; [by constructor|]. unfold log_ok.
    change (server (Shutdown ctx p).2) with (disconnect sids (server p)). by rewrite H3.
Qed.

Lemma sys_reach_ok s0 tracer p : initial s0 -> sys_reach s0 tracer p -> sys_ok p.
Proof.
  intros H0. induction 1 as [|p ev _ IH Hm]; [|by apply run_sys_ok].
  constructor; [by apply initial_udp_ok|]. destruct H0 as [(cfg & catalog & Hn & _) _].
  unfold NewServer in Hn. destruct (Normalize cfg); [|done]. injection Hn as <-. done.
Qed.

(** C4: the whole program is safe as long as its events run one after the other: a
    login, an offer, a datagram, a request to the management interface each runs
    to its end before the next begins (what may go wrong when they overlap is the
    subject of [Concurrency] and [Linear]: two logins may then get one ID, and a
    second login on a connection may block the server). It starts with a catalog
    whose files have pairwise distinct hashes. Then, whatever clients, senders of
    datagrams, peer servers, administrators and the operating system do, in any
    order of these events, shutdown included: no event panics; every request to
    the management interface is answered; a live logged-in client can be found
    under its ID, and no two live clients share an ID; the catalog keeps its
    invariant; no client holds more offered files than the cap; every known peer
    can be listed; the search queue and the audit log stay within their bounds. *)
Theorem system_safe s0 tracer p :
  initial s0 -> sys_reach s0 tracer p -> memory_ok (server p) ->
  let s := server p in
  (forall ev, (run_udp_event ev (pr_service p)).1 <> Err Panic) /\
  (forall r, exists resp s', adminMux r s = (Ok resp, s')) /\
  (forall sid, sid ∈ sv_open s -> cs_assignedID (session s sid) <> 0 ->
     findClient s (cs_assignedID (session s sid)) = Some sid) /\
  (forall sid1 sid2, sid1 ∈ sv_open s -> sid2 ∈ sv_open s ->
     cs_assignedID (session s sid1) <> 0 ->
     cs_assignedID (session s sid1) = cs_assignedID (session s sid2) -> sid1 = sid2) /\
  catalog_ok (sv_catalog s) /\
  (forall sid, within_cap (MaxOfferedFilesPerClient (sv_cfg s)) (cs_offeredFiles (session s sid))) /\
  is_Some (registry_addrs (sv_peers s)) /\
  (forall jobs, us_queue (pr_service p) = Some jobs -> len jobs <= udp_SearchQueueSize (UDP (sv_cfg s))) /\
  len (sv_auditLog s) <= maxAuditEntries.
Proof.
  intros H0 Hr Hm. destruct (sys_reach_ok _ _ _ H0 Hr) as [Hu Hl].
  pose proof (uk_server _ Hu) as Hs. cbv zeta. split; [intros ev; by apply run_udp_event_ok|].
  split; [intros r; destruct (good_request r _ Hs Hm Hl) as (resp & s' & E & _); by exists resp, s'|].
  split; [apply Hs|]. split; [|split; [apply Hs|split; [apply Hs|split; [|split; [apply Hu|exact Hl]]]]].
  - intros sid1 sid2 H1 H2 Hne E. pose proof (so_assigned _ Hs sid1 H1 Hne) as E1.
    rewrite E in Hne. pose proof (so_assigned _ Hs sid2 H2 Hne) as E2. unfold server in *. congruence.
  - destruct (registry_addrs_total _ (uk_peers _ Hu)) as (addrs & E & _). by exists addrs.
Qed.
End system.

(** ** Witness *)

Fixpoint sys_run {WD : World} (evs : list sys_event) (p : Process) : Process :=
  match evs with
  | [] => p
  | ev :: evs' => sys_run evs' (run_sys ev p)
  end.

Fixpoint sys_run_fits {WD : World} (evs : list sys_event) (p : Process) : bool :=
  match evs with
  | [] => true
  | ev :: evs' => memory_b (server p) && sys_run_fits evs' (run_sys ev p)
  end.

Lemma sys_run_reach {WD : World} s0 tracer evs p :
  sys_reach s0 tracer p -> sys_run_fits evs p = true -> sys_reach s0 tracer (sys_run evs p).
Proof.
  revert p; induction evs as [|ev evs IH]; intros p Hr; [done|].
  cbn [sys_run_fits sys_run]. intros [Hm Hf]%andb_true_iff. apply IH; [|done].
  apply sys_step; [done|by apply memory_b_ok].
Qed.

(** A start, a client that logs in, a search by UDP, a file from the
    administrator, and the end. *)
Definition demo_system : list sys_event :=
  [SysListen (Some 8080) (Some 4661) true;
   SysAccept (AcceptConn (demo_addr x01) (Some (demo_addr xfe)) (Some xe3) false);
   SysService (UeServer (demo_login 0 xa1));
   SysService (UeDatagram demo_peer demo_search_datagram); SysService UeWorker;
   SysAdmin (demo_request MethodPost (lit "/api/files") [] [] demo_body);
   SysShutdown None].

Lemma system_safe_witness :
  let p := sys_run demo_system (new_process demo_server None) in
  len (sv_auditLog (server p)) = 1 /\ len (cat_files (sv_catalog (server p))) = 3 /\
  catalog_ok (sv_catalog (server p)).
Proof.
  cbv zeta. split; [vm_compute; reflexivity|]. split; [vm_compute; reflexivity|].
  apply (system_safe demo_server None _ demo_initial).
  - apply sys_run_reach; [apply sys_start|vm_compute; reflexivity].
  - apply memory_b_ok. vm_compute. reflexivity.
Defined.
