(* ===== verification/Durability.v ===== *)
(** * What administrators store outlives the process

    The whole program over a restart: as long as it runs, its catalog is one that
    its file can hold, so that a new start from the file finds it again. *)

From S2P Require Import StateErr.
From S2P Require Import Prelude GoStrings GoUtf8 GoSort GoNet GoPath Ed2kLib Ed2kRef Ed2kWire.
From S2P Require Import FileRecord CatalogJson CatalogJsonFacts Search Catalog CatalogFacts Config.
From S2P Require Import Storage StorageFacts CatalogRestart ConfigJson PeerServers Limiter Text Frames.
From S2P Require Import AuditLog AdminLocale Server ServerFacts FrameRule ServerInv ServerDemo.
From S2P Require Import ServerProps ServerOutput Snapshots Udp UdpFacts UdpProps Admin AdminFacts.
From S2P Require Import AdminRuns AdminFiles Trace Lifecycle LifecycleFacts System.

Local Open Scope Z_scope.
Local Open Scope srv_scope.

Section durability.
Context {L : Ed2kLib} {HL : Ed2kHashLaws} {W : Ed2kWire} {WL : Ed2kWireLaws} {T : UnicodeTables}.
Context {MI : MapIter} {ML : MapIterLaws}.
Context {D : TextDecoder} {ZL : Zlib} {PC : PacketCombiner} {WD : World}.
Context {SS : SliceSort} {SL : SliceSortLaws} {HJ : HashJson} {HJL : HashJsonLaws} {AT : AdminTexts}.
Context (path : bytes).

(** ** Operations that keep the catalog storable *)

Definition catalog_fits (s : Server) : Prop := persistent path (sv_catalog s).

Definition pres {A} (m : M A) : Prop := forall s, catalog_fits s -> catalog_fits (m s).2.

Lemma pres_bind {A B} (m : M A) (k : A -> M B) : pres m -> (forall a, pres (k a)) -> pres (bind m k).
Proof.
  intros Hm Hk s Hs. specialize (Hm s Hs). unfold bind. destruct (m s) as [[a|e] s1]; [|exact Hm].
  by apply Hk.
Qed.

Lemma pres_ret {A} (a : A) : pres (ret a).
Proof. intros s Hs. exact Hs. Qed.

Lemma pres_fail {A} e : pres (fail e : M A).
Proof. intros s Hs. exact Hs. Qed.

Lemma pres_try {A} (m : M A) : pres m -> pres (try_ m).
Proof. intros Hm s Hs. specialize (Hm s Hs). unfold try_. by destruct (m s). Qed.

Lemma pres_frames {A} (m : M A) : frames sv_catalog m -> pres m.
Proof. intros Hm s Hs. unfold catalog_fits. by rewrite Hm. Qed.

Lemma pres_persist : pres persistCatalog.
Proof. intros s Hs. unfold persistCatalog, bump, modify. by destruct (write_ok _). Qed.

Lemma pres_Upsert record :
  storable record -> len (fr_Endpoints record) < 2 ^ 63 -> pres (UpsertFile record).
Proof.
  intros Hst Hm s Hs. rewrite UpsertFile_eq.
  pose proof (upsert_persistent path _ record Hs Hst Hm) as H. cbn [run_op] in H.
  destruct (Catalog_Upsert _ _) as [c'|e]; [|done]. unfold catalog_fits. cbn [snd].
  by rewrite changed_catalog.
Qed.

Lemma pres_Delete h : pres (DeleteFile h).
Proof.
  intros s Hs. rewrite DeleteFile_eq. pose proof (delete_persistent path _ h Hs) as H.
  destruct (Catalog_Delete _ _) as [c' [|]]; [|done]. unfold catalog_fits. cbn [negb snd fst] in *.
  by rewrite changed_catalog.
Qed.

Lemma pres_batch texts deleted missing : pres (batch_delete texts deleted missing).
Proof.
  revert deleted missing; induction texts as [|text texts IH]; intros deleted missing;
    cbn [batch_delete]; [apply pres_ret|]. destruct (HashFromString text); [|apply IH].
  apply pres_bind; [apply pres_try, pres_Delete|]. intros [[]|e]; [apply IH..|apply pres_ret].
Qed.

(** Memory holds fewer than 2^63 endpoints. *)
Definition request_in_memory (r : Request) : Prop := change_in_memory (PostRecord (r_Body r)).

Ltac pres_step :=
  first [apply pres_ret | apply pres_fail | apply pres_batch | apply pres_Delete | apply pres_persist
    | (apply pres_Upsert; [eapply decodeFileRecord_storable; eassumption|by eauto])
    | match goal with
      | |- pres (bind _ _) => apply pres_bind; [|intros ?]
      | |- pres (try_ _) => apply pres_try
      | |- pres (if ?b then _ else _) => destruct b
      | |- pres (match ?x with _ => _ end) => destruct x eqn:?
      | |- pres _ => apply pres_frames; by frame_auto
      end].

Lemma pres_request r : request_in_memory r -> pres (adminMux r).
Proof.
  intros Hr. unfold request_in_memory, change_in_memory in Hr. unfold adminMux. cbv zeta.
  destruct (redirect_slash _); [apply pres_ret|]. destruct (negb _); [apply pres_ret|].
  destruct (best_pattern _) as [[pattern rt]|]; [|apply pres_ret].
  destruct rt; cbn [route_handler];
    unfold handleAdminUI, handleAdminJS, handleAdminCSS, handleHealthz, withAdminAuth,
      handleAdminAudit, handleAdminStats, handleAdminClients, handleAdminClientByID,
      handleAdminBatchDeleteFiles, handleAdminFiles, listFiles, upsertFile, handleAdminFileByHash,
      deleteFile, handleAdminPersist, audit, only; cbv zeta;
    repeat (pres_step; cbv zeta beta).
Qed.

(** ** Events of the program *)

(** Events that change the catalog directly bring records that JSON can express,
    as decoded bodies do. *)
Definition durable_event (ev : sys_event) : Prop :=
  match ev with
  | SysService (UeServer (EvUpsert record)) => storable record /\ len (fr_Endpoints record) < 2 ^ 63
  | SysAdmin r => request_in_memory r
  | _ => True
  end.

Lemma pres_run_event ev :
  match ev with EvUpsert r => storable r /\ len (fr_Endpoints r) < 2 ^ 63 | _ => True end ->
  pres (run_event ev).
Proof.
  intros Hev. destruct ev as [? ? ? ?|? ? ? ? ?|?|record|h];
    try (apply pres_frames, frames_client_event; done); cbn [run_event];
    (apply pres_bind; [apply pres_try|intros; apply pres_ret]).
  - destruct Hev. by apply pres_Upsert.
  - apply pres_Delete.
Qed.

Lemma pres_udp_event ev u :
  durable_event (SysService ev) -> udp_ok u -> memory_ok (us_server u) ->
  catalog_fits (us_server u) -> catalog_fits (us_server (run_udp_event ev u).2).
Proof.
  intros Hev Hu Hm Hc. pose proof (udp_ok_ready u Hu Hm) as Hr.
  assert (forall u', sv_catalog (us_server u') = sv_catalog (us_server u) -> catalog_fits (us_server u'))
    as Hsame by (intros u' E; unfold catalog_fits; by rewrite E).
  destruct ev as [ev|port bound|addr datagram| |].
  - unfold run_udp_event, srv. rewrite zoom_server. apply pres_run_event; [|exact Hc].
    destruct ev; done.
  - apply Hsame. by rewrite serve_server.
  - apply Hsame. cbn [run_udp_event]. rewrite bind_gets. destruct (us_conn u); [|done].
    destruct (uruns_receive (fun a => a = addr) addr datagram eq_refl u Hr) as [H1 _].
    apply H1.
  - apply Hsame. cbn [run_udp_event]. unfold udpSearchWorker. rewrite bind_gets.
    destruct (us_queue u) as [[|job jobs]|] eqn:E; [done| |done].
    set (u1 := set_us_queue (Some jobs) u). rewrite (bind_ok _ _ _ tt u1) by done.
    destruct (uruns_runUDPSearch (fun a => a = job_addr job) job eq_refl u1) as [H2 _].
    + destruct Hr as [Hq Hp Hpe]. by constructor.
    + apply H2.
  - apply Hsame. destruct (uruns_pings (fun _ => True) (fun _ => I) u Hr) as [H1 _]. apply H1.
Qed.

Lemma pres_disconnect sids s : catalog_fits s -> catalog_fits (disconnect sids s).
Proof.
  revert s; induction sids as [|sid sids IH]; intros s Hs; cbn [disconnect]; [done|].
  apply IH. by apply (pres_run_event (EvClose sid)).
Qed.

Lemma pres_sys ev p :
  durable_event ev -> sys_ok p -> memory_ok (server p) ->
  catalog_fits (server p) -> catalog_fits (server (run_sys ev p)).
Proof.
  intros Hev Hp Hm Hc. pose proof (sy_service _ Hp) as Hu.
  destruct ev as [ev|r|adminPort port bound|a|ctx]; cbn [run_sys].
  - by apply (pres_udp_event ev (pr_service p)).
  - destruct (pr_admin p); [done|..]; by apply pres_request.
  - assert (forall port q, pr_service q = pr_service p -> catalog_fits (server (Serve port bound q))) as Hq.
    { intros port' q Eq. unfold server, Serve. cbn [pr_service]. rewrite Eq.
      by apply (pres_udp_event (UeServe port' bound) (pr_service p)). }
    unfold ListenAndServe. destruct (negb _), adminPort, port; try done; by apply Hq.
  - destruct (pr_serving p); [|done]. unfold serve_round, accept_round.
    pose proof (fun remote local first handshake =>
      pres_udp_event (UeServer (EvConnect remote local first handshake)) (pr_service p) I Hu Hm Hc) as H.
    destruct (pr_listener p), a as [remote local first handshake|temporary];
      try (by apply H); destruct (pr_closed p); try destruct temporary; done.
  - by apply pres_disconnect.
Qed.

(** The states of a run whose events are durable. *)
Inductive durable_reach (s0 : Server) (tracer : option packetTracer) : Process -> Prop :=
| durable_start : durable_reach s0 tracer (new_process s0 tracer)
| durable_step p ev :
    durable_reach s0 tracer p -> memory_ok (server p) -> durable_event ev ->
    durable_reach s0 tracer (run_sys ev p).

Lemma durable_sys_reach s0 tracer p : durable_reach s0 tracer p -> sys_reach s0 tracer p.
Proof. induction 1; [apply sys_start|by apply sys_step]. Qed.

Lemma durable_fits s0 tracer p :
  initial s0 -> catalog_fits s0 -> durable_reach s0 tracer p -> catalog_fits (server p).
Proof.
  intros H0 Hc. induction 1 as [|p ev Hr IH Hm Hev]; [done|].
  apply pres_sys; [done| |done|done]. by eapply sys_reach_ok, durable_sys_reach.
Qed.
End durability.

(** ** Over a restart *)

Section restart.
Context {L : Ed2kLib} {HL : Ed2kHashLaws} {W : Ed2kWire} {WL : Ed2kWireLaws} {T : UnicodeTables}.
Context {MI : MapIter} {ML : MapIterLaws}.
Context {D : TextDecoder} {ZL : Zlib} {PC : PacketCombiner} {WD : World} {IW : IOWorld}.
Context {SS : SliceSort} {SL : SliceSortLaws} {HJ : HashJson} {HJL : HashJsonLaws} {AT : AdminTexts}.

Lemma LoadConfig_again configPath io io1 cfg d io' :
  LoadConfig configPath io = (Ok cfg, d, io') ->
  io_files io1 !! configPath = io_files io !! configPath -> io_ok (io_ops io1) = true ->
  exists io1', LoadConfig configPath io1 = (Ok cfg, d, io1') /\
    io_files io1' = io_files io1 /\ (io_ops io1 <= io_ops io1')%nat.
Proof.
  intros E Hf Ho. pose proof (LoadConfig_eq configPath io) as H. rewrite E in H. cbn [fst] in H.
  pose proof (LoadConfig_eq configPath io1) as H1. unfold config_read in *. rewrite Hf, Ho in H1.
  assert ((LoadConfig configPath io1).1 = (Ok cfg, d)) as H2.
  { rewrite H1. destruct (io_files io !! configPath); [|done]. destruct (io_ok (io_ops io)); [done|].
    discriminate H. }
  destruct (LoadConfig configPath io1) as [r io1'] eqn:E1. cbn [fst] in H2. subst r.
  exists io1'. split; [done|]. revert E1.
  unfold LoadConfig, os_ReadFile, os_step, bind, gets, ret, fail. cbn [io_files].
  destruct (io_files io1 !! configPath); [destruct (io_ok _); [destruct (unmarshalConfig _)|]|];
    intros [= _ _ <-]; cbn [io_files io_ops]; split; (done || lia).
Qed.

(** What a successful start gives. *)
Lemma main_start_inv configPath opened io p io' :
  main_start configPath opened io = (Ok p, io') ->
  exists cfg d io1 normalized c io2 tracer,
    LoadConfig configPath io = (Ok cfg, d, io1) /\ Normalize cfg = Ok normalized /\
    LoadCatalogFromConfig normalized io1 = (Ok c, io2) /\ NewServer cfg c = Ok (server p) /\
    p = new_process (server p) tracer /\ sv_cfg (server p) = normalized /\ sv_catalog (server p) = c.
Proof.
  unfold main_start. destruct (LoadConfig configPath io) as [[[cfg|e] d] io1] eqn:E; [|done].
  unfold NewServer_nil. destruct (Normalize cfg) as [normalized|e] eqn:En; [|done].
  destruct (LoadCatalogFromConfig normalized io1) as [[c|e] io2] eqn:Ec; [|done].
  destruct (newPacketTracer normalized opened) as [tracer|]; [|done].
  destruct (NewServer cfg c) as [s|e] eqn:Es; [|done]. intros [= <- <-].
  exists cfg, d, io1, normalized, c, io2, tracer. split; [done|]. do 2 (split; [done|]). split; [done|].
  split; [done|]. unfold NewServer in Es. rewrite En in Es. cbn [rbind] in Es. by injection Es as <-.
Qed.

Lemma main_start_reach configPath opened io p io' :
  main_start configPath opened io = (Ok p, io') -> durable_reach (server p) (pr_tracer p) p.
Proof.
  intros (_ & _ & _ & _ & _ & _ & tracer & _ & _ & _ & _ & Hp & _)%main_start_inv.
  replace (durable_reach (server p) (pr_tracer p) p)
    with (durable_reach (server p) tracer (new_process (server p) tracer)) by (rewrite Hp at 3; by rewrite Hp).
  apply durable_start.
Qed.

Lemma NewServer_some cfg normalized c :
  Normalize cfg = Ok normalized -> exists s, NewServer cfg c = Ok s /\ sv_catalog s = c.
Proof. intros E. unfold NewServer. rewrite E. cbn [rbind]. by eexists. Qed.

Lemma newPacketTracer_opened cfg : exists tracer, newPacketTracer cfg true = Ok tracer.
Proof.
  unfold newPacketTracer. destruct (PacketTrace cfg); cbn [negb]; [|by eexists].
  destruct (bytes_eqb _ []); by eexists.
Qed.

(** C33: what administrators store outlives the process. The program starts with a
    catalog in a JSON file whose files have pairwise distinct hashes (a file that
    repeats one is accepted, and may be served differently after a restart), runs
    for any time under any events, one after the other, and dies at any point;
    when the last write to the catalog's file succeeded, starting it again
    with the same configuration gives exactly the catalog it had. *)
Theorem restart_keeps_catalog configPath opened io p0 io0 p files data io1 :
  let cfg := sv_cfg (server p0) in
  main_start configPath opened io = (Ok p0, io0) -> StorageBackend cfg = storageBackendJSON ->
  NoDup (map key_of (cat_files (sv_catalog (server p0)))) ->
  Forall (fun f => len (fr_Endpoints f) < 2 ^ 63) (cat_files (sv_catalog (server p0))) ->
  durable_reach (server p0) (pr_tracer p0) p ->
  stored (server p) -> sv_saved (server p) = Some files -> marshalDisk files = Some data ->
  io_files io1 !! CatalogPath cfg = Some (data ++ [x0a]) ->
  io_files io1 !! configPath = io_files io !! configPath ->
  (forall n, (io_ops io1 <= n)%nat -> io_ok n = true) ->
  exists p1 io2, main_start configPath true io1 = (Ok p1, io2) /\
                 sv_catalog (server p1) = sv_catalog (server p).
Proof.
  cbv zeta. intros (cfg & d & ioc & normalized & c & ioc' & tracer & Hc & Hn & Hl & Hnew & Hp0 & Hcfg & Hcat)%main_start_inv.
  rewrite Hcfg, Hcat. intros Hb Hnd Hm Hr Hst Hsv Hd Hf Hfc Ho.
  rewrite LoadFromConfig_json in Hl by done.
  destruct (bytes_eqb (TrimSpace (CatalogPath normalized)) []) eqn:Ep; [done|].
  pose proof (LoadCatalog_persistent _ _ _ _ Hl Hnd Hm) as Hper.
  assert (initial (server p0)) as Hi.
  { constructor; [exists cfg, c; split; [done|apply Hper]|]. rewrite Hcfg.
    assert (in_s 64 (SearchBatchSize normalized)) as Hs; [|unfold in_s in Hs; lia].
    pose proof (LoadConfig_eq configPath io) as E. rewrite Hc in E. cbn [fst] in E.
    assert (config_typed cfg) as Hct by (by eapply LoadConfig_typed).
    pose proof (ct_ints _ (Normalize_typed _ _ Hct Hn)) as Hints. by apply Forall_cons in Hints as [? _]. }
  assert (persistent (CatalogPath normalized) (sv_catalog (server p))) as Hpe.
  { apply (durable_fits _ (server p0) (pr_tracer p0)); [done| |done]. unfold catalog_fits. by rewrite Hcat. }
  unfold stored, Catalog_Snapshot in Hst. assert (files = cat_files (sv_catalog (server p))) as -> by congruence.
  destruct (LoadConfig_again _ _ io1 _ _ _ Hc Hfc (Ho _ (le_n _))) as (io1' & Hc1 & Hfs & Hops).
  destruct (load_from_disk (CatalogPath normalized) _ data io1' Hpe Hd) as [io2' Hl1];
    [by rewrite Hfs|by apply Ho|].
  destruct (NewServer_some cfg normalized (sv_catalog (server p)) Hn) as (s1 & Hnew1 & Hcat1).
  destruct (newPacketTracer_opened normalized) as [tracer1 Ht1].
  exists (new_process s1 tracer1), io2'. split; [|exact Hcat1].
  unfold main_start. rewrite Hc1. unfold NewServer_nil. rewrite Hn, LoadFromConfig_json, Ep by done.
  by rewrite Hl1, Ht1, Hnew1.
Qed.
End restart.

(** ** Witness *)

Lemma durable_run_reach {WD : World} s0 tracer evs p :
  durable_reach s0 tracer p -> sys_run_fits evs p = true -> Forall durable_event evs ->
  durable_reach s0 tracer (sys_run evs p).
Proof.
  revert p; induction evs as [|ev evs IH]; intros p Hr; [done|].
  cbn [sys_run_fits sys_run]. intros [Hm Hf]%andb_true_iff [Hev Hevs]%Forall_cons.
  apply IH; [|exact Hf|exact Hevs]. apply (durable_step _ _ _ _ Hr); [by apply memory_b_ok|exact Hev].
Qed.

Lemma body_in_memory r :
  match decodeFileRecord (r_Body r) with Some record => len (fr_Endpoints record) <? 2 ^ 63
  | None => true end = true ->
  durable_event (SysAdmin r).
Proof. intros H record E. rewrite E in H. by apply Z.ltb_lt. Qed.

Lemma same_files (r : option (list (@FileRecord ed2k_ref))) files :
  option_map (map file_tuple) r = Some (map file_tuple files) -> r = Some files.
Proof.
  destruct r as [fs|]; cbn [option_map]; [|done]. intros [= H]. f_equal. revert files H.
  induction fs as [|f fs IH]; intros [|g gs]; cbn [map]; [done..|]. intros H.
  injection H as H1 H2. f_equal; [|by apply IH]. apply file_tuple_inj. unfold file_tuple. congruence.
Qed.
(** No configuration file, and the example catalog where the defaults look for it. *)
Definition restart_io : ioState := mkIO {[ lit "catalog.json" := example_catalog ]} [] 0.

Definition restart_started : result Z Process * ioState :=
  main_start (IW := example_world) (lit "config.json") true restart_io.

(** A file is posted and one is deleted. *)
Definition restart_events : list (@sys_event ed2k_ref) :=
  [SysListen (Some 8080) (Some 4661) true;
   SysAdmin (demo_request MethodPost (lit "/api/files") [] [] demo_body);
   SysAdmin (demo_request MethodDelete (lit "/api/files/31D6CFE0D14CE931B73C59D7E0C04BC0") [] [] [])].

Definition restart_process : Process :=
  match restart_started.1 with
  | Ok p0 => sys_run restart_events p0
  | Err _ => demo_process
  end.

Lemma restart_facts :
  match restart_started.1 with
  | Ok p0 =>
    bytes_eqb (StorageBackend (sv_cfg (server p0))) storageBackendJSON &&
    bytes_eqb (CatalogPath (sv_cfg (server p0))) (lit "catalog.json") &&
    bool_decide (NoDup (map key_of (cat_files (sv_catalog (server p0))))) &&
    forallb (fun f => len (fr_Endpoints f) <? 2 ^ 63) (cat_files (sv_catalog (server p0))) &&
    sys_run_fits restart_events p0
  | Err _ => false
  end = true.
Proof. vm_compute. reflexivity. Qed.

Lemma restart_stored : option_map (map file_tuple) (sv_saved (server restart_process)) =
  Some (map file_tuple (cat_files (sv_catalog (server restart_process)))).
Proof. vm_compute. reflexivity. Qed.

(** The names that the catalog has then. *)
Lemma restart_names : map fr_Name (cat_files (sv_catalog (server restart_process))) =
  [lit "ubuntu-24.04-desktop-amd64.iso"; lit "demo-track.flac"; lit "New.mp3"].
Proof. vm_compute. reflexivity. Qed.

(** The disk as the writes left it. *)
Definition restart_disk (data : bytes) : ioState := mkIO {[ lit "catalog.json" := data ++ [x0a] ]} [] 100.

Lemma restart_events_durable : Forall durable_event restart_events.
Proof.
  apply Forall_cons; split; [exact I|].
  apply Forall_cons; split; [apply body_in_memory; vm_compute; reflexivity|].
  apply Forall_cons; split; [apply body_in_memory; vm_compute; reflexivity|]. constructor.
Qed.

Lemma restart_keeps_catalog_witness :
  exists data p1 io2, main_start (IW := example_world) (lit "config.json") true (restart_disk data) = (Ok p1, io2) /\
    sv_catalog (server p1) = sv_catalog (server restart_process).
Proof.
  pose proof restart_facts as Hfacts. pose proof restart_stored as Hst. apply same_files in Hst.
  destruct (marshalDisk_some (cat_files (sv_catalog (server restart_process)))) as [data Hd].
  exists data. unfold restart_process in *.
  destruct restart_started as [[p0|e] io0] eqn:E; cbn [fst] in *; [|discriminate Hfacts].
  apply andb_true_iff in Hfacts as [[[[Hb Hp]%andb_true_iff Hnd]%andb_true_iff Hm]%andb_true_iff Hfit].
  apply bytes_eqb_eq in Hb, Hp. apply bool_decide_eq_true in Hnd.
  apply (restart_keeps_catalog (IW := example_world) (lit "config.json") true restart_io p0 io0
    (sys_run restart_events p0) (cat_files (sv_catalog (server (sys_run restart_events p0)))) data).
  - exact E.
  - exact Hb.
  - exact Hnd.
  - apply Forall_forall. intros f Hf. apply Z.ltb_lt.
    apply (proj1 (forallb_forall _ _) Hm). by apply list_elem_of_In.
  - apply durable_run_reach; [|exact Hfit|exact restart_events_durable].
    exact (main_start_reach (IW := example_world) _ _ _ _ _ E).
  - exact Hst.
  - exact Hst.
  - exact Hd.
  - rewrite Hp. apply lookup_insert_eq.
  - unfold restart_disk, restart_io. cbn [io_files]. by rewrite !lookup_singleton_ne.
  - intros n Hn. unfold restart_disk in Hn. cbn [io_ops] in Hn.
    unfold example_world, failing_at. cbn [io_ok]. apply negb_true_iff, Nat.eqb_neq. lia.
Defined.
