(* ===== verification/Widths.v ===== *)
(** * Numbers stay within their Go types

    The model computes with integers and wraps them where the source converts or
    overflows. Whatever the program does, the numbers it keeps fit the types they
    have in Go, so that every answer of the management interface can be written
    as JSON. *)

From S2P Require Import StateErr.
From S2P Require Import Prelude GoStrings GoUtf8 GoSort GoNet GoTime GoPath Json JsonFacts JsonDecode Ed2kLib Ed2kRef.
From S2P Require Import Ed2kWire FileRecord CatalogJson CatalogJsonFacts Search Catalog CatalogFacts Config OfferFiles.
From S2P Require Import StorageFacts CatalogRestart PeerServers Limiter Text Frames AuditLog AdminLocale.
From S2P Require Import Server ServerFacts FrameRule ServerInv ServerDemo ServerProps Snapshots Udp UdpFacts UdpProps.
From S2P Require Import Admin AdminFacts AdminRuns AdminFiles AdminText AdminTextFacts.
From S2P Require Import Trace Lifecycle LifecycleFacts System Durability.

Local Open Scope Z_scope.
Local Open Scope srv_scope.

(** What the client library returns fits its Go types. *)
Class Ed2kRangeLaws `{Ed2kWire} : Prop := {
  zero_range : in_s 64 (Endpoint_Port Endpoint_zero);
  inet_range ip port : in_s 32 (Endpoint_IP (EndpointFromInet ip port));
  login_range b h e ts : LoginRequest_Get b = Some (h, e, ts) -> in_s 64 (Endpoint_Port e);
  entry_range r e r' : Entry_Get r = Some (e, r') -> in_s 64 (entry_Port e)
}.

#[export] Instance ed2k_ref_ranges : @Ed2kRangeLaws ed2k_ref ed2k_wire_ref.
Proof.
  assert (forall r e r', ref_Entry_Get r = Some (e, r') -> in_s 64 (entry_Port e)) as He.
  { unfold ref_Entry_Get. intros r e r'. destruct (ReadHash r) as [[h r1]|]; [|done].
    destruct (read_le 4 r1) as [[id r2]|]; [|done]. destruct (read_le 2 r2) as [[port r3]|] eqn:Ep; [|done].
    destruct (read_le 4 r3) as [[n r4]|]; [|done]. destruct (ref_tags_decode _ _) as [[ts r5]|]; [|done].
    intros [= <- _]. cbn [entry_Port]. apply read_le_range in Ep. unfold in_u, in_s in *. simpl in *. lia. }
  constructor; [done| |intros b h e ts|exact He].
  - intros ip port. cbn [Endpoint_IP EndpointFromInet ed2k_wire_ref ed2k_ref fst].
    assert (in_s 32 0) as H0 by done. destruct ip as [|a [|b [|c [|d [|]]]]]; try exact H0. by apply wrap_s_range.
  - cbn [LoginRequest_Get ed2k_wire_ref]. unfold ref_Login_Get. destruct (ref_Entry_Get b) as [[en r]|] eqn:E; [|done].
    intros [= _ <- _]. by apply He in E.
Qed.

(** A time the clock has shown, or none. *)
Definition moment `{World} (t : Z) : Prop := t = 0 \/ exists n, t = clock n.

Section widths.
Context {L : Ed2kLib} {HL : Ed2kHashLaws} {W : Ed2kWire} {WL : Ed2kWireLaws} {RL : Ed2kRangeLaws}.
Context {T : UnicodeTables} {MI : MapIter} {ML : MapIterLaws}.
Context {D : TextDecoder} {ZL : Zlib} {PC : PacketCombiner} {WD : World}.
Context {SS : SliceSort} {SL : SliceSortLaws} {HJ : HashJson} {HJL : HashJsonLaws} {AT : AdminTexts}.

(** ** The numbers of a state *)

(** Whatever the texts. *)
Definition file_fits : FileRecord -> Prop := file_with (fun _ => True).

Record session_fits (c : clientSession) : Prop := {
  sf_id : in_s 32 (cs_assignedID c);
  sf_port : in_s 64 (Endpoint_Port (cs_loginPoint c));
  sf_connected : moment (cs_connectedAt c);
  sf_seen : moment (cs_lastSeenAt c);
  sf_counts k : in_s 64 (cs_counts c k)
}.

Record shared_fits (d : dynamicSharedFile) : Prop := {
  sh_record : file_fits (dyn_record d);
  sh_clients id e : dyn_byClient d !! id = Some e -> in_s 32 id /\ source_with (fun _ => True) e;
  sh_complete id b : dyn_completes d !! id = Some b -> in_s 32 id
}.

Definition records_fit (c : Catalog) : Prop :=
  Forall file_fits (cat_files c) /\ forall key f, cat_byHash c !! key = Some f -> file_fits f.

Record widths (s : Server) : Prop := {
  wd_stats k : in_s 64 (sv_stats s k);
  wd_session sid : session_fits (session s sid);
  wd_nextID : in_s 32 (sv_nextID s);
  wd_shared key d : sv_dynamicFiles s !! key = Some d -> shared_fits d;
  wd_catalog : records_fit (sv_catalog s);
  wd_audit : Forall (fun e => moment (au_Time e)) (sv_auditLog s);
  wd_started : moment (sv_startedAt s)
}.

(** Only these fields matter. *)
Lemma widths_same s s' :
  sv_stats s' = sv_stats s -> sv_sessions s' = sv_sessions s -> sv_nextID s' = sv_nextID s ->
  sv_dynamicFiles s' = sv_dynamicFiles s -> sv_catalog s' = sv_catalog s -> sv_auditLog s' = sv_auditLog s ->
  sv_startedAt s' = sv_startedAt s -> widths s -> widths s'.
Proof.
  intros E1 E2 E3 E4 E5 E6 E7 [H1 H2 H3 H4 H5 H6 H7]. unfold session in *.
  constructor; unfold session; rewrite ?E1, ?E2, ?E3, ?E4, ?E5, ?E6, ?E7; done.
Qed.

(** ** Operations *)

Definition keeps {S A} (I : S -> Prop) (m : ST S srvErr A) : Prop := forall s, I s -> I (m s).2.

Section generic.
Context {S : Type} (I : S -> Prop).

Lemma keeps_ret {A} (a : A) : keeps I (ret a).
Proof. by intros s Hs. Qed.
Lemma keeps_fail {A} e : keeps I (fail e : ST S srvErr A).
Proof. by intros s Hs. Qed.
Lemma keeps_gets {A} (f : S -> A) : keeps I (gets f).
Proof. by intros s Hs. Qed.
Lemma keeps_option {A} (o : option A) e : keeps I (of_option o e).
Proof. by destruct o; intros s Hs. Qed.
Lemma keeps_try {A} (m : ST S srvErr A) : keeps I m -> keeps I (try_ m).
Proof. intros Hm s Hs. specialize (Hm s Hs). unfold try_. by destruct (m s). Qed.

(** The continuation meets only results that satisfy what [m] ensures. *)
Lemma keeps_bind_with {A B} (Q : A -> Prop) (m : ST S srvErr A) (k : A -> ST S srvErr B) :
  keeps I m -> (forall s a s', I s -> m s = (Ok a, s') -> Q a) -> (forall a, Q a -> keeps I (k a)) ->
  keeps I (bind m k).
Proof.
  intros Hm HQ Hk s Hs. specialize (Hm s Hs). specialize (HQ s). unfold bind.
  destruct (m s) as [[a|e] s1]; [|exact Hm]. eapply Hk; [by eapply HQ|exact Hm].
Qed.

Lemma keeps_bind_option {A B} (o : option A) e (k : A -> ST S srvErr B) :
  (forall a, o = Some a -> keeps I (k a)) -> keeps I (bind (of_option o e) k).
Proof. intros Hk s Hs. destruct o as [a|]; [by apply (Hk a)|done]. Qed.

Lemma keeps_bind {A B} (m : ST S srvErr A) (k : A -> ST S srvErr B) :
  keeps I m -> (forall a, keeps I (k a)) -> keeps I (bind m k).
Proof. intros Hm Hk. by apply (keeps_bind_with (fun _ => True)). Qed.
End generic.

Lemma keeps_modify f :
  (forall s, sv_stats (f s) = sv_stats s /\ sv_sessions (f s) = sv_sessions s /\ sv_nextID (f s) = sv_nextID s /\
     sv_dynamicFiles (f s) = sv_dynamicFiles s /\ sv_catalog (f s) = sv_catalog s /\
     sv_auditLog (f s) = sv_auditLog s /\ sv_startedAt (f s) = sv_startedAt s) ->
  keeps widths (modify f).
Proof. intros Hf s Hs. destruct (Hf s) as (? & ? & ? & ? & ? & ? & ?). by apply (widths_same s). Qed.

Lemma keeps_now : keeps widths now.
Proof. intros s Hs. by apply (widths_same s). Qed.

Lemma keeps_write sid what : keeps widths (conn_write sid what).
Proof. intros s Hs. unfold conn_write. destruct (write_ok _); by apply (widths_same s). Qed.

Lemma add64_range a b : in_s 64 (add64 a b).
Proof. apply wrap_s_range. lia. Qed.

Lemma keeps_bump k n : keeps widths (bump k n).
Proof.
  intros s [H1 H2 H3 H4 H5 H6 H7]. constructor; try done. intros k'. cbn. unfold upd.
  destruct (decide (k' = k)); [apply add64_range|apply H1].
Qed.

(** Time is only used once it has been read. *)
Lemma keeps_bind_now {B} (k : Z -> M B) : (forall t, moment t -> keeps widths (k t)) -> keeps widths (bind now k).
Proof.
  apply keeps_bind_with; [apply keeps_now|]. intros s t s' _ [= <- _]. right. by eexists.
Qed.

Lemma keeps_session sid f :
  (forall c, session_fits c -> session_fits (f c)) -> keeps widths (modify_session sid f).
Proof.
  intros Hf s [H1 H2 H3 H4 H5 H6 H7]. constructor; try done. intros sid'. unfold session. cbn. unfold upd.
  destruct (decide (sid' = sid)); [by apply Hf|apply H2].
Qed.

Lemma touch_fits t adds c : moment t -> session_fits c -> session_fits (touch t adds c).
Proof.
  intros Ht [H1 H2 H3 H4 H5]. constructor; cbn; try done.
  revert H5; generalize (cs_counts c) as counts; induction adds as [|[k n] adds IH]; intros counts H5; [done|].
  cbn [foldl]. apply IH. intros k'. unfold upd. cbn [fst snd]. destruct (decide _); [apply add64_range|apply H5].
Qed.

Lemma search_fits rs o c : session_fits c -> session_fits (set_search rs o c).
Proof. intros [H1 H2 H3 H4 H5]. by constructor. Qed.

Lemma offered_fits o c : session_fits c -> session_fits (set_offered o c).
Proof. intros [H1 H2 H3 H4 H5]. by constructor. Qed.

Lemma login_fits h o p n id c :
  in_s 32 id -> in_s 64 (Endpoint_Port p) -> session_fits c -> session_fits (set_login h o p n id c).
Proof. intros Hid Hp [H1 H2 H3 H4 H5]. by constructor. Qed.

(** ** Client IDs and shared files *)

Lemma free_id_range fuel clients id r : in_s 32 id -> free_id fuel clients id = Some r -> in_s 32 r.
Proof.
  revert id; induction fuel as [|fuel IH]; intros id Hid; [done|]. cbn [free_id].
  destruct (clients !! id); [|by intros [= <-]]. apply IH, wrap_s_range. lia.
Qed.

Lemma allocate_range addr s id s' : in_s 32 (sv_nextID s) -> allocateClientID addr s = (Ok id, s') -> in_s 32 id.
Proof using RL.
  intros Hn. unfold allocateClientID. destruct (_ && _); [|destruct (free_id _ _ _) eqn:E; [|done]].
  - intros [= <- _]. unfold clientIDFromRemote. destruct addr as [a|]; [|done].
    destruct (bytes_eqb _ _); [done|apply inet_range].
  - intros [= <- _]. by apply free_id_range in E.
Qed.

Lemma keeps_allocate addr : keeps widths (allocateClientID addr).
Proof.
  intros s Hs. unfold allocateClientID. destruct (_ && _); [done|]. destruct (free_id _ _ _); [|done].
  destruct Hs as [H1 H2 H3 H4 H5 H6 H7]. constructor; try done. apply wrap_s_range. lia.
Qed.

Ltac each_fits :=
  repeat (apply Forall_cons; split; [repeat case_match; assumption|]); apply List.Forall_nil.

(** A record that a client offers, with its source. *)
Lemma merge_fits a b : file_fits a -> file_fits b -> file_fits (mergeDynamicFileRecord a b).
Proof.
  intros [Ha1 Ha2 Ha3] [Hb1 Hb2 Hb3]. unfold mergeDynamicFileRecord. destruct (Hash_IsZero _); [by constructor|].
  repeat (apply Forall_cons in Ha2 as [? Ha2]; apply Forall_cons in Hb2 as [? Hb2]).
  constructor; cbn; [apply List.Forall_forall; done|unfold or_zero; each_fits|done].
Qed.

Lemma endpoints_fit es f : file_fits f -> Forall (source_with (fun _ => True)) es -> file_fits (set_endpoints es f).
Proof. intros [H1 H2 H3] He. by constructor. Qed.

Definition files_fit (files : gmap bytes dynamicSharedFile) : Prop :=
  forall key d, files !! key = Some d -> shared_fits d.

Lemma add_fits clientID record files :
  in_s 32 clientID -> file_fits record -> files_fit files -> files_fit (addDynamicLocked clientID record files).
Proof.
  intros Hid Hr Hf. unfold addDynamicLocked. cbv zeta. set (key := Hash_String _).
  assert (shared_fits (match files !! key with Some d => d | None => mkDynamic _ record ∅ ∅ end)) as [Hs1 Hs2 Hs3].
  { destruct (files !! key) eqn:E; [by apply (Hf key)|]. by constructor. }
  intros key' d. destruct (decide (key' = key)) as [->|Hk]; [|rewrite lookup_insert_ne by done; apply Hf].
  rewrite lookup_insert_eq. intros [= <-]. constructor; cbn [dyn_record dyn_byClient dyn_completes].
  - apply merge_fits; [done|]. by apply endpoints_fit.
  - intros id e. destruct (fr_Endpoints record) as [|e0 es] eqn:Ee; [apply Hs2|].
    destruct (decide (id = clientID)) as [->|Hi]; [|rewrite lookup_insert_ne by done; apply Hs2].
    rewrite lookup_insert_eq. intros [= <-]. split; [done|]. destruct Hr as [_ _ He]. rewrite Ee in He.
    by apply Forall_cons in He as [? _].
  - intros id b. destruct (decide (id = clientID)) as [->|Hi]; [done|rewrite lookup_insert_ne by done; apply Hs3].
Qed.

Lemma remove_fits clientID h files : files_fit files -> files_fit (removeDynamicLocked clientID h files).
Proof.
  intros Hf. unfold removeDynamicLocked. cbv zeta. destruct (files !! Hash_String h) as [d|] eqn:E; [|done].
  destruct (Hf _ _ E) as [H1 H2 H3]. destruct (_ =? _)%nat; intros key' d'.
  - rewrite lookup_delete_Some. intros [_ ?]. by apply (Hf key').
  - destruct (decide (key' = Hash_String h)) as [->|Hk]; [|rewrite lookup_insert_ne by done; apply Hf].
    rewrite lookup_insert_eq. intros [= <-]. constructor; cbn [dyn_record dyn_byClient dyn_completes]; [done|..].
    + intros id e [_ He]%lookup_delete_Some. by apply H2.
    + intros id b [_ Hb]%lookup_delete_Some. by apply (H3 _ b).
Qed.

Lemma remove_all_fits clientID (records : list FileRecord) files :
  files_fit files ->
  files_fit (foldl (fun d record => removeDynamicLocked clientID (fr_Hash record) d) files records).
Proof. revert files; induction records as [|r rs IH]; intros files Hf; [done|]. cbn. by apply IH, remove_fits. Qed.

Lemma add_all_fits clientID records files :
  in_s 32 clientID -> Forall file_fits records -> files_fit files ->
  files_fit (foldl (fun d record => addDynamicLocked clientID record d) files records).
Proof.
  intros Hid Hr. revert files; induction Hr as [|r rs Hr _ IH]; intros files Hf; [done|]. cbn.
  by apply IH, add_fits.
Qed.

Lemma accepted_fit max st records :
  Forall file_fits records -> Forall file_fits (mg_accepted st) ->
  Forall file_fits (mg_accepted (foldl (merge_record max) st records)).
Proof.
  intros Hr. revert st; induction Hr as [|r rs Hr _ IH]; intros st Hs; [done|]. cbn [foldl]. apply IH.
  unfold merge_record. cbv zeta. destruct (mg_offered st !! _); [|destruct (_ && _); [done|]];
    cbn [mg_accepted]; apply Forall_app; (split; [done|by constructor]).
Qed.

Lemma set_dynamic_widths files s : widths s -> files_fit files -> widths (set_sv_dynamicFiles files s).
Proof. intros [H1 H2 H3 H4 H5 H6 H7] Hf. by constructor. Qed.

Lemma keeps_remove_offered clientID : keeps widths (removeClientOfferedFiles clientID).
Proof.
  intros s Hs. unfold removeClientOfferedFiles, modify. cbn [snd]. destruct (findClient s clientID) as [sid|]; [|done].
  cbv zeta. apply set_dynamic_widths; [|apply remove_all_fits; exact (wd_shared _ Hs)].
  by apply (keeps_session sid (set_offered ∅) (offered_fits ∅) s).
Qed.

Lemma keeps_merge clientID records :
  in_s 32 clientID -> Forall file_fits records -> keeps widths (mergeClientOfferedFiles clientID records).
Proof.
  intros Hid Hr. unfold mergeClientOfferedFiles. apply keeps_bind; [apply keeps_gets|intros [sid|]; [|apply keeps_ret]].
  destruct records as [|r rs].
  { apply keeps_bind; [apply keeps_remove_offered|intros; apply keeps_ret]. }
  apply keeps_bind; [apply keeps_gets|intros offered]. apply keeps_bind; [apply keeps_gets|intros max]. cbv zeta.
  apply keeps_bind; [apply keeps_session, offered_fits|intros _]. apply keeps_bind; [|intros _; apply keeps_ret].
  intros s Hs. unfold modify. cbn [snd]. apply set_dynamic_widths; [done|].
  apply add_all_fits; [done| |apply remove_all_fits; exact (wd_shared _ Hs)]. apply accepted_fit; [done|constructor].
Qed.

(** ** Offers *)

Lemma normalize_fits f n :
  file_fits f -> len (fr_Endpoints f) < 2 ^ 63 -> normalizeFileRecord f = Ok n -> file_fits n.
Proof.
  intros [H1 H2 H3] Hm. unfold normalizeFileRecord. destruct (Hash_IsZero _); [done|].
  destruct (bytes_eqb _ []); [done|]. destruct (_ <=? 0); [done|]. destruct (first_bad_endpoint _ _); [done|].
  cbv zeta. intros [= <-]. repeat (apply Forall_cons in H2 as [? H2]).
  assert (in_s 64 (len (fr_Endpoints f))) as Hl by (pose proof (len_nonneg (fr_Endpoints f)); unfold in_s; simpl in *; lia).
  constructor; cbn; [apply List.Forall_forall; done|each_fits|done].
Qed.

Lemma int_tag_range tags id : in_s 64 (int_tag tags id).
Proof. unfold int_tag. destruct (UIntTag _ _); [apply wrap_s_range; lia|done]. Qed.

Lemma shared_entry_fits entry f :
  fileRecordFromSharedEntry entry = Ok f -> file_fits f.
Proof.
  unfold fileRecordFromSharedEntry. cbv zeta. destruct (bytes_eqb _ []); [done|].
  set (size := match UIntTag _ FTFileSizeHi with Some _ => _ | None => _ end).
  assert (in_s 64 size) as Hs.
  { unfold size. destruct (UIntTag _ FTFileSizeHi); [apply add64_range|].
    destruct (UIntTag _ FTFileSize); [apply wrap_s_range; lia|done]. }
  destruct (size <=? 0); [done|]. destruct (normalizeFileRecord _) as [r|e] eqn:E; [|done]. intros [= <-].
  refine (normalize_fits _ r _ _ E); [|by vm_compute]. constructor; cbn; [apply List.Forall_forall; done| |constructor].
  repeat (apply Forall_cons; split; [first [assumption|apply int_tag_range]|]). apply List.Forall_nil.
Qed.

Lemma shared_source_fits clientID port host entry e :
  in_s 64 port -> in_s 64 (entry_Port entry) -> sourceFromSharedEntry clientID port host entry = Some e ->
  source_with (fun _ => True) e.
Proof.
  intros Hp He. unfold sourceFromSharedEntry. cbv zeta.
  destruct (_ || _); (destruct (_ || _); [done|]); intros [= <-];
    (constructor; cbn; [apply List.Forall_forall; done|assumption|by vm_compute]).
Qed.

Lemma offer_records_fit clientID port host entries records :
  in_s 64 port -> Forall (fun e => in_s 64 (entry_Port e)) entries ->
  offer_records clientID port host entries = Ok records -> Forall file_fits records.
Proof.
  intros Hp He. revert records; induction He as [|e es He _ IH]; intros records; cbn [offer_records].
  { intros [= <-]. constructor. }
  unfold rbind. destruct (fileRecordFromSharedEntry e) as [f|] eqn:Ef; [|done].
  destruct (offer_records _ _ _ es) as [fs|]; [|done]. intros [= <-]. constructor; [|by apply IH].
  apply shared_entry_fits in Ef. destruct (sourceFromSharedEntry _ _ _ _) as [src|] eqn:Es; [|done].
  apply endpoints_fit; [done|]. constructor; [|constructor]. eapply shared_source_fits; [exact Hp|exact He|exact Es].
Qed.

Lemma offers_range body req rest :
  OfferFiles_Get body = Some (req, rest) -> Forall (fun e => in_s 64 (entry_Port e)) (of_Entries req).
Proof using RL.
  unfold OfferFiles_Get. destruct (ReadUInt32 body) as [[n r]|]; [|done].
  destruct (get_entries _ r) as [[es r']|] eqn:E; [|done]. intros [= <- _]. cbn [of_Entries].
  revert r es r' E; induction (Z.to_nat n) as [|k IH]; intros r es r'; cbn [get_entries].
  { intros [= <- _]. constructor. }
  destruct (Entry_Get r) as [[e r1]|] eqn:Ee; [|done]. destruct (get_entries k r1) as [[es1 r2]|] eqn:Er; [|done].
  intros [= <- _]. constructor; [by eapply entry_range|by eapply IH].
Qed.

(** ** Requests of clients *)

Create HintDb widths.
Hint Resolve keeps_ret keeps_fail keeps_gets keeps_option keeps_now keeps_write keeps_bump
  touch_fits search_fits offered_fits : widths.

Ltac width_step :=
  match goal with
  | |- keeps _ (ret _) => apply keeps_ret
  | |- keeps _ (fail _) => apply keeps_fail
  | |- keeps _ (gets _) => apply keeps_gets
  | |- keeps _ (of_option _ _) => apply keeps_option
  | |- keeps _ now => apply keeps_now
  | |- keeps _ (bump _ _) => apply keeps_bump
  | |- keeps _ (conn_write _ _) => apply keeps_write
  | |- keeps _ (modify_session _ _) => apply keeps_session; intros ? ?; solve [eauto 3 with widths]
  | |- keeps _ (try_ _) => apply keeps_try
  | |- keeps _ (bind now _) => apply keeps_bind_now; intros ? ?
  | |- keeps _ (bind _ _) => apply keeps_bind; [|intros ?]
  | |- keeps _ (modify _) => apply keeps_modify; intros ?; repeat split; reflexivity
  | |- keeps _ (if ?b then _ else _) => destruct b
  | |- keeps _ (match ?x with _ => _ end) => destruct x
  | |- keeps _ _ => solve [auto 2 with widths]
  end.
Ltac width_auto := cbv zeta; repeat (width_step; cbv zeta beta).

Lemma keeps_send sid p : keeps widths (send sid p).
Proof. unfold send, noteOutbound. width_auto. Qed.
Lemma keeps_sendRaw sid op body : keeps widths (sendRawEd2k sid op body).
Proof. unfold sendRawEd2k, noteOutbound. width_auto. Qed.
Hint Resolve keeps_send keeps_sendRaw keeps_remove_offered : widths.

Lemma keeps_more sid : keeps widths (handleSearchMore sid).
Proof. unfold handleSearchMore. width_auto. Qed.
Hint Resolve keeps_more : widths.

Lemma keeps_search sid query : keeps widths (handleSearch sid query).
Proof. unfold handleSearch, publish_results. width_auto. Qed.

Lemma keeps_sources sid h obfuscated : keeps widths (handleGetSources sid h obfuscated).
Proof. unfold handleGetSources, sendFoundSourcesObfuscated. width_auto. Qed.

Lemma keeps_allow_callback ip : keeps widths (allow_callback ip).
Proof. unfold allow_callback. width_auto. Qed.
Hint Resolve keeps_allow_callback : widths.

Lemma keeps_callback sid id : keeps widths (handleCallback sid id).
Proof. unfold handleCallback. width_auto. Qed.

Lemma keeps_status sid : keeps widths (send_status sid).
Proof. unfold send_status. width_auto. Qed.
Hint Resolve keeps_status keeps_search keeps_sources keeps_callback : widths.

Lemma keeps_list sid : keeps widths (handleGetServerList sid).
Proof. unfold handleGetServerList. width_auto. Qed.

Hint Resolve keeps_list : widths.

Lemma keeps_login sid h point properties :
  in_s 64 (Endpoint_Port point) -> keeps widths (handleLogin sid h point properties).
Proof using RL.
  intros Hp. unfold handleLogin. apply keeps_bind; [|intros id; width_auto].
  unfold login_session. apply keeps_bind; [apply keeps_gets|intros remote].
  apply (keeps_bind_with _ (in_s 32)); [apply keeps_allocate| |].
  { intros s id s' Hs. by apply allocate_range, Hs. }
  intros id Hid. apply keeps_bind; [apply keeps_session; intros c; by apply login_fits|intros _].
  apply keeps_bind; [|intros; apply keeps_ret]. unfold registerClient. apply keeps_modify. intros s. cbv zeta.
  destruct (_ =? 0); repeat split; reflexivity.
Qed.

Lemma keeps_offer sid req :
  Forall (fun e => in_s 64 (entry_Port e)) (of_Entries req) -> keeps widths (handleOfferFiles sid req).
Proof.
  intros He. unfold handleOfferFiles. apply (keeps_bind_with _ session_fits); [apply keeps_gets| |].
  { intros s c s' Hs [= <- _]. apply Hs. }
  intros c Hc. cbv zeta. destruct (_ =? 0); [apply keeps_fail|].
  destruct (offer_records _ _ _ _) as [records|e] eqn:E; [|apply keeps_fail].
  apply keeps_bind; [|intros [accepted dropped]; width_auto]. apply keeps_merge; [apply Hc|].
  eapply offer_records_fit; [apply (sf_port _ Hc)|exact He|exact E].
Qed.

Lemma keeps_dispatch sid packet body : keeps widths (dispatch sid packet body).
Proof using RL.
  unfold dispatch. repeat (match goal with |- keeps _ (if ?b then _ else _) => destruct b end; [|]);
    try solve [width_auto].
  - apply keeps_bind_option. intros [[h point] properties] E. apply keeps_login. by eapply login_range.
  - apply keeps_bind_option. intros [req rest] E. apply keeps_offer. by eapply offers_range.
Qed.
Hint Resolve keeps_dispatch : widths.

(** ** Connections *)

Lemma keeps_unregister sid : keeps widths (unregisterClient sid).
Proof.
  unfold unregisterClient. apply keeps_bind; [apply keeps_gets|intros id]. apply keeps_bind; [apply keeps_bump|intros _].
  apply keeps_bind; [width_auto|intros _]. destruct (id =? 0); [apply keeps_ret|]. apply keeps_modify. intros s.
  destruct (sv_clients s !! id) as [x|]; [destruct (x =? sid)%nat|]; repeat split; reflexivity.
Qed.

Lemma keeps_close sid : keeps widths (close_conn sid).
Proof. unfold close_conn. apply keeps_bind; [apply keeps_unregister|intros _; width_auto]. Qed.
Hint Resolve keeps_close : widths.

Lemma new_session_fits remote local t1 t2 : moment t1 -> moment t2 -> session_fits (new_session remote local t1 t2).
Proof using RL. intros H1 H2. constructor; cbn; try done. apply zero_range. Qed.

Lemma keeps_open sid remote local : keeps widths (open_session sid remote local).
Proof.
  unfold open_session. apply keeps_bind_now. intros t1 H1. apply keeps_bind_now. intros t2 H2.
  apply keeps_bind; [|intros _; apply keeps_bump]. intros s [W1 W2 W3 W4 W5 W6 W7]. constructor; try done.
  intros x. unfold session. cbn. unfold upd. destruct (decide (x = sid)); [|apply W2].
  by apply new_session_fits.
Qed.

Lemma keeps_serve sid proto opcode body n : keeps widths (serve_or_close sid proto opcode body n).
Proof. unfold serve_or_close, serve_frame, note_inbound. width_auto. Qed.

Lemma keeps_admit sid remote first handshake : keeps widths (admit_conn sid remote first handshake).
Proof. unfold admit_conn. width_auto. Qed.
Hint Resolve keeps_open keeps_serve keeps_admit : widths.

(** ** The catalog *)

Lemma rebuild_fits c : records_fit c -> records_fit (rebuildSearchIndexLocked c).
Proof. by intros [H1 H2]. Qed.

Lemma upsert_fits c record c' :
  file_fits record -> len (fr_Endpoints record) < 2 ^ 63 -> records_fit c ->
  Catalog_Upsert c record = Ok c' -> records_fit c'.
Proof.
  intros Hr Hm [Hf Hh]. unfold Catalog_Upsert, rbind. destruct (normalizeFileRecord record) as [n|] eqn:E; [|done].
  apply normalize_fits in E; [|done..]. cbv zeta. intros [= <-]. apply rebuild_fits. split; cbn [cat_files cat_byHash].
  - destruct (cat_byHash c !! _); [by apply Forall_replace_first|]. apply Forall_app. split; [done|by constructor].
  - intros key f'. destruct (decide (key = Hash_String (fr_Hash n))) as [->|Hk].
    + rewrite lookup_insert_eq. by intros [= <-].
    + rewrite lookup_insert_ne by done. apply Hh.
Qed.

Lemma delete_fits c h : records_fit c -> records_fit (Catalog_Delete c h).1.
Proof.
  intros [Hf Hh]. unfold Catalog_Delete. cbv zeta. destruct (cat_byHash c !! _); [|done].
  apply rebuild_fits. split; cbn [cat_files cat_byHash]; [by apply Forall_delete_first|].
  intros key f' [_ Hl]%lookup_delete_Some. by apply (Hh key).
Qed.

Lemma set_catalog_widths c s : records_fit c -> widths s -> widths (set_sv_catalog c s).
Proof. intros Hc [H1 H2 H3 H4 H5 H6 H7]. by constructor. Qed.

Lemma keeps_persist : keeps widths persistCatalog.
Proof.
  intros s Hs. unfold persistCatalog. destruct (write_ok _); [|by apply (widths_same s)].
  apply keeps_bump. by apply (widths_same s).
Qed.
Hint Resolve keeps_persist : widths.

(** A record of an administrator. *)
Definition record_fits (r : FileRecord) : Prop := file_fits r /\ len (fr_Endpoints r) < 2 ^ 63.

Lemma keeps_upsert record : record_fits record -> keeps widths (UpsertFile record).
Proof.
  intros [Hr Hm]. unfold UpsertFile. apply (keeps_bind_with _ records_fit); [apply keeps_gets| |].
  { intros s c s' Hs [= <- _]. apply Hs. }
  intros c Hc. destruct (Catalog_Upsert c record) as [c'|e] eqn:E; [|apply keeps_fail].
  apply keeps_bind; [|intros _; width_auto]. intros s Hs. apply set_catalog_widths; [|done]. by eapply upsert_fits.
Qed.

Lemma keeps_delete h : keeps widths (DeleteFile h).
Proof.
  unfold DeleteFile. apply (keeps_bind_with _ records_fit); [apply keeps_gets| |].
  { intros s c s' Hs [= <- _]. apply Hs. }
  intros c Hc. pose proof (delete_fits c h Hc) as Hd. destruct (Catalog_Delete c h) as [c' [|]]; [|apply keeps_ret].
  cbn [negb]. apply keeps_bind; [|intros _; width_auto]. intros s Hs. by apply set_catalog_widths.
Qed.
Hint Resolve keeps_delete : widths.

Lemma keeps_event ev :
  match ev with EvUpsert r => record_fits r | _ => True end -> keeps widths (run_event ev).
Proof.
  intros Hev. destruct ev as [remote local first handshake|sid proto opcode body n|sid|record|h]; cbn [run_event].
  - width_auto.
  - width_auto.
  - width_auto.
  - apply keeps_bind; [by apply keeps_try, keeps_upsert|intros; apply keeps_ret].
  - width_auto.
Qed.

(** ** UDP *)

Definition service_widths (u : UdpService) : Prop := widths (us_server u).

Lemma keeps_srv {A} (m : M A) : keeps widths m -> keeps service_widths (srv m).
Proof.
  intros Hm u Hu. specialize (Hm _ Hu). unfold srv, zoom. by destruct (m (us_server u)).
Qed.

Lemma keeps_sgets {A} (f : Server -> A) : keeps service_widths (sgets f).
Proof. by intros u Hu. Qed.

Lemma keeps_service f : (forall u, us_server (f u) = us_server u) -> keeps service_widths (modify f).
Proof. intros Hf u Hu. unfold service_widths, modify. cbn [snd]. by rewrite Hf. Qed.

Ltac service_step :=
  match goal with
  | |- keeps _ (ret _) => apply keeps_ret
  | |- keeps _ (fail _) => apply keeps_fail
  | |- keeps _ (gets _) => apply keeps_gets
  | |- keeps _ (sgets _) => apply keeps_sgets
  | |- keeps _ (srv _) => apply keeps_srv; width_auto
  | |- keeps _ (bind _ _) => apply keeps_bind; [|intros ?]
  | |- keeps _ (modify _) => apply keeps_service; reflexivity
  | |- keeps _ (if ?b then _ else _) => destruct b
  | |- keeps _ (match ?x with _ => _ end) => destruct x
  | |- keeps _ _ => solve [auto 2 with widths]
  end.
Ltac service_auto := cbv zeta; repeat (service_step; cbv zeta beta).

Lemma keeps_udp_write : keeps widths udp_write.
Proof. intros s Hs. by apply (widths_same s). Qed.
Hint Resolve keeps_udp_write : widths.

Lemma keeps_writeUDP addr op datagram : keeps service_widths (writeUDP addr op datagram).
Proof. unfold writeUDP. service_auto. Qed.
Hint Resolve keeps_writeUDP : widths.

Lemma keeps_flush w : keeps service_widths (writer_flush w).
Proof. unfold writer_flush. service_auto. Qed.
Hint Resolve keeps_flush : widths.

Lemma keeps_writer_add w block : keeps service_widths (writer_add w block).
Proof. unfold writer_add. service_auto. Qed.
Hint Resolve keeps_writer_add : widths.

Lemma keeps_blocks w blocks : keeps service_widths (add_blocks w blocks).
Proof. revert w; induction blocks as [|b bs IH]; intros w; cbn [add_blocks]; service_auto. Qed.
Hint Resolve keeps_blocks : widths.

Lemma keeps_sources_loop fuel withSize reader w n : keeps service_widths (sources_loop fuel withSize reader w n).
Proof. revert reader w n; induction fuel as [|fuel IH]; intros reader w n; cbn [sources_loop]; service_auto. Qed.
Hint Resolve keeps_sources_loop : widths.

Lemma keeps_markSeen addr : keeps widths (peers_markSeen addr).
Proof. unfold peers_markSeen. width_auto. Qed.

Lemma keeps_learn addrs n : keeps widths (learn_peers addrs n).
Proof. revert n; induction addrs as [|a addrs IH]; intros n; cbn [learn_peers]; width_auto. Qed.
Hint Resolve keeps_markSeen keeps_learn : widths.

Lemma keeps_list_res addr body : keeps widths (handleServerListRes addr body).
Proof. unfold handleServerListRes. width_auto. Qed.
Hint Resolve keeps_list_res : widths.

Lemma keeps_udp_callback addr body : keeps service_widths (handleUDPCallback addr body).
Proof. unfold handleUDPCallback. service_auto. Qed.

Lemma keeps_udp_search addr opcode body : keeps service_widths (handleUDPSearchRequest addr opcode body).
Proof. unfold handleUDPSearchRequest, enqueue. service_auto. Qed.

Lemma keeps_udp_sources addr body withSize : keeps service_widths (handleUDPGetSources addr body withSize).
Proof. unfold handleUDPGetSources, newUDPDatagramWriter. service_auto. Qed.
Hint Resolve keeps_udp_callback keeps_udp_search keeps_udp_sources : widths.

Lemma keeps_receive addr datagram : keeps service_widths (receiveUDP addr datagram).
Proof. unfold receiveUDP, dispatchUDP, udp_allow, udp_request. service_auto. Qed.

Lemma keeps_worker : keeps service_widths udpSearchWorker.
Proof. unfold udpSearchWorker, runUDPSearch, newUDPDatagramWriter. service_auto. Qed.

Lemma keeps_pings : keeps service_widths sendPeerPings.
Proof.
  unfold sendPeerPings. apply keeps_bind; [service_auto|intros t]. cbv zeta. apply keeps_bind; [apply keeps_sgets|].
  intros [addrs|]; [|apply keeps_fail]. generalize ([ed2kUDPHeader; opGlobServStatReq] ++ put32 t) as req. intros req.
  induction addrs as [|a addrs IH]; cbn [ping_all]; service_auto.
Qed.

Lemma keeps_start listening : keeps service_widths (maybeStartServerUDP listening).
Proof. unfold maybeStartServerUDP, startUDPWorkersLocked. service_auto. Qed.
Hint Resolve keeps_receive keeps_worker keeps_pings keeps_start : widths.

Lemma keeps_udp_event ev :
  match ev with UeServer (EvUpsert r) => record_fits r | _ => True end -> keeps service_widths (run_udp_event ev).
Proof.
  intros Hev. destruct ev as [ev|port bound|addr datagram| |]; cbn [run_udp_event]; service_auto.
  apply keeps_event. by destruct ev.
Qed.

(** ** The management interface *)

Lemma storable_fits (f : FileRecord) : storable f -> file_fits f.
Proof.
  intros [_ H2 _ _ _ H6 H7 H8 H9 H10]. constructor; [apply List.Forall_forall; done|each_fits|].
  eapply Forall_impl; [exact H10|]. intros e [_ Hp Ho _]. by constructor; [apply List.Forall_forall| |].
Qed.

Lemma append_moments log t entry :
  moment t -> au_Time entry = 0 -> Forall (fun e => moment (au_Time e)) log ->
  Forall (fun e => moment (au_Time e)) (appendAudit log t entry).
Proof.
  intros Ht He Hl. unfold appendAudit. cbv zeta. rewrite He. cbn [Z.eqb].
  assert (Forall (fun e => moment (au_Time e)) (log ++ [mkAudit t (au_Action entry) (au_Resource entry)
    (au_ResourceID entry) (au_RemoteAddr entry)
    (if bytes_eqb (au_Status entry) [] then lit "ok" else au_Status entry) (au_Detail entry)])) as H.
  { apply Forall_app. split; [done|]. by constructor. }
  destruct (maxAuditEntries <? _); [by apply Forall_drop|done].
Qed.

Lemma keeps_audit action resource id addr status detail :
  keeps widths (audit action resource id addr status detail).
Proof.
  unfold audit. apply keeps_bind_now. intros t Ht s [H1 H2 H3 H4 H5 H6 H7].
  constructor; try done. by apply append_moments.
Qed.
Hint Resolve keeps_audit : widths.

Lemma keeps_batch texts deleted missing : keeps widths (batch_delete texts deleted missing).
Proof.
  revert deleted missing; induction texts as [|text texts IH]; intros deleted missing; cbn [batch_delete]; width_auto.
Qed.
Hint Resolve keeps_batch : widths.

Lemma request_record r record :
  request_in_memory r -> decodeFileRecord (r_Body r) = Some record -> record_fits record.
Proof.
  intros Hr E. split; [by eapply storable_fits, decodeFileRecord_storable|by apply Hr].
Qed.

Lemma keeps_upsertFile r : request_in_memory r -> keeps widths (upsertFile r).
Proof.
  intros Hr. unfold upsertFile. destruct (decodeFileRecord (r_Body r)) as [record|] eqn:E; [|width_auto].
  cbv zeta. apply keeps_bind; [|intros; width_auto]. apply keeps_try, keeps_upsert. by eapply request_record.
Qed.
Hint Resolve keeps_upsertFile : widths.

Lemma keeps_handler rt r : request_in_memory r -> keeps widths (route_handler rt r).
Proof.
  intros Hr. destruct rt; cbn [route_handler];
    unfold handleAdminUI, handleAdminJS, handleAdminCSS, handleHealthz, withAdminAuth, handleAdminAudit,
      handleAdminStats, handleAdminClients, handleAdminClientByID, handleAdminBatchDeleteFiles,
      handleAdminFiles, listFiles, handleAdminFileByHash, deleteFile, handleAdminPersist, only; width_auto.
Qed.

Lemma keeps_request r : request_in_memory r -> keeps widths (adminMux r).
Proof.
  intros Hr. unfold adminMux. pose proof (fun rt => keeps_handler rt r Hr). width_auto.
Qed.

(** ** The whole program *)

Lemma disconnect_widths sids s : widths s -> widths (disconnect sids s).
Proof.
  revert s; induction sids as [|sid sids IH]; intros s Hs; cbn [disconnect]; [done|].
  apply IH. by apply (keeps_event (EvClose sid) I).
Qed.

Lemma sys_widths ev p : durable_event ev -> widths (server p) -> widths (server (run_sys ev p)).
Proof using HJL RL.
  intros Hev Hp. pose proof (fun ev H => keeps_udp_event ev H (pr_service p) Hp) as Hu.
  destruct ev as [ev|r|adminPort port bound|a|ctx]; cbn [run_sys].
  - apply Hu. destruct ev as [[]| | | |]; try done. destruct Hev. split; [by apply storable_fits|done].
  - destruct (pr_admin p); [done|..]; by apply keeps_request.
  - assert (forall port q, pr_service q = pr_service p -> widths (server (Serve port bound q))) as Hq.
    { intros port' q Eq. unfold server, Serve. cbn [pr_service]. rewrite Eq. by apply (Hu (UeServe port' bound)). }
    unfold ListenAndServe. destruct (negb _), adminPort, port; try done; by apply Hq.
  - destruct (pr_serving p); [|done]. unfold serve_round, accept_round.
    pose proof (fun remote local first handshake => Hu (UeServer (EvConnect remote local first handshake)) I) as H.
    destruct (pr_listener p), a as [remote local first handshake|temporary];
      try (by apply H); destruct (pr_closed p); try destruct temporary; done.
  - by apply disconnect_widths.
Qed.

Lemma initial_widths s : initial s -> records_fit (sv_catalog s) -> widths s.
Proof using RL.
  intros [(cfg & catalog & Hn & _) _] Hc. unfold NewServer in Hn. destruct (Normalize cfg); [|done].
  injection Hn as <-. constructor; cbn; try done.
  - intros sid. unfold session. cbn. apply new_session_fits; by left.
  - right. by eexists.
Qed.

Lemma reach_widths s0 tracer p :
  initial s0 -> records_fit (sv_catalog s0) -> durable_reach s0 tracer p -> widths (server p).
Proof using HJL RL.
  intros H0 Hc. induction 1 as [|p ev Hr IH Hm Hev]; [by apply initial_widths|by apply sys_widths].
Qed.
End widths.
