(* ===== verification/Answers.v ===== *)
(** * Every answer can be written

    The numbers of every answer fit their JSON fields, so that the management
    interface always answers with one document, in every state that the program
    reaches. *)

From S2P Require Import StateErr.
From S2P Require Import Prelude GoStrings GoUtf8 GoSort GoNet GoTime GoPath Json JsonFacts JsonDecode Ed2kLib Ed2kRef.
From S2P Require Import Ed2kWire FileRecord CatalogJson CatalogJsonFacts Search Catalog CatalogFacts Config.
From S2P Require Import PeerServers Limiter Text Frames AuditLog AdminLocale.
From S2P Require Import Server ServerFacts FrameRule ServerInv ServerDemo ServerProps Snapshots Udp UdpFacts UdpProps.
From S2P Require Import Admin AdminFacts AdminRuns AdminText AdminTextFacts.
From S2P Require Import Trace Lifecycle LifecycleFacts System Durability Widths.

Local Open Scope Z_scope.
Local Open Scope srv_scope.

(** A table whose keys are 32 bits wide is not larger than that. *)
Lemma range_size {V} (m : gmap Z V) from n :
  0 <= n -> (forall k v, m !! k = Some v -> from <= k < from + n) -> Z.of_nat (size m) <= n.
Proof.
  intros Hn Hm. rewrite <- length_map_to_list, <- (length_map fst).
  assert (length (map fst (map_to_list m)) <= length (seqZ from n))%nat as H; [|rewrite length_seqZ in H; lia].
  apply NoDup_incl_length; [apply NoDup_ListNoDup, NoDup_fst_map_to_list|]. intros k Hk.
  apply in_map_iff in Hk as ([k' v] & <- & Hin). apply list_elem_of_In in Hin. apply elem_of_map_to_list in Hin.
  apply list_elem_of_In, elem_of_seqZ. by apply Hm in Hin.
Qed.

Lemma width_size {V} (m : gmap Z V) : (forall k v, m !! k = Some v -> in_s 32 k) -> Z.of_nat (size m) <= 2 ^ 32.
Proof.
  intros Hm. apply (range_size m (- 2 ^ 31)); [done|]. intros k v Hk. apply Hm in Hk. unfold in_s in Hk.
  change (2 ^ (32 - 1)) with (2 ^ 31) in Hk. lia.
Qed.

Lemma small_in_s z : 0 <= z <= 2 ^ 62 -> in_s 64 z.
Proof. unfold in_s. simpl. lia. Qed.

Create HintDb widths.

Section answers.
Context {L : Ed2kLib} {HL : Ed2kHashLaws} {W : Ed2kWire} {WL : Ed2kWireLaws} {RL : Ed2kRangeLaws}.
Context {T : UnicodeTables} {MI : MapIter} {ML : MapIterLaws}.
Context {D : TextDecoder} {ZL : Zlib} {PC : PacketCombiner} {WD : World}.
Context {SS : SliceSort} {SL : SliceSortLaws} {HJ : HashJson} {HJL : HashJsonLaws} {AT : AdminTexts}.
Context {LZ : LocalZone} {LZL : LocalZoneLaws} {PT : ParseTexts}.

(** The zero time of the model is early in 1970 or late in 1969. *)
Lemma zero_shown : time_shown 0.
Proof.
  unfold time_shown, zone_of, year_of. change (0 / Second) with 0. destruct (zone_minutes 0) as [_ H].
  assert ((0 + local_offset 0) / 86400 = 0 \/ (0 + local_offset 0) / 86400 = -1) as [-> | ->].
  { assert (0 <= local_offset 0 \/ local_offset 0 < 0) as [?|?] by lia;
      Z.div_mod_to_equations; lia. }
  - by vm_compute.
  - by vm_compute.
Qed.

(** The clock shows years of four digits. *)
Context (Hclock : forall n, time_shown (clock n)).

Lemma moment_shown t : moment t -> time_shown t.
Proof using LZL Hclock. intros [->|[n ->]]; [apply zero_shown|apply Hclock]. Qed.

Definition any_text : bytes -> Prop := fun _ => True.

Lemma any_texts l : Forall any_text l.
Proof. by apply List.Forall_forall. Qed.

(** ** What is shown *)

Lemma snapshot_fits c : session_fits c -> client_with any_text (snapshot c).
Proof using LZL Hclock.
  intros [H1 H2 H3 H4 H5]. constructor; cbn; [done|split; by apply moment_shown|apply any_texts|].
  repeat (apply Forall_cons; split; [apply H5|]). constructor.
Qed.

Lemma sized_range_map {V} (m : gmap Z V) :
  (forall k v, m !! k = Some v -> in_s 32 k) -> 0 <= len (range_map m) <= 2 ^ 32.
Proof. intros Hm. rewrite range_map_len. split; [lia|by apply width_size]. Qed.

Lemma materialize_fits d : shared_fits d -> file_fits (materialize d).
Proof.
  intros [[H1 H2 H3] Hc Hb]. unfold materialize. cbv zeta.
  set (endpoints := map snd (range_map (dyn_byClient d))).
  set (complete := List.filter (fun kv => kv.2) (range_map (dyn_completes d))).
  assert (in_s 64 (len endpoints)) as Hs.
  { apply small_in_s. unfold endpoints, len. rewrite length_map.
    assert (0 <= len (range_map (dyn_byClient d)) <= 2 ^ 32) as H; [|unfold len in H; lia].
    apply sized_range_map. intros k v Hv. by apply Hc in Hv as [? _]. }
  assert (in_s 64 (len complete)) as Hf.
  { apply small_in_s. pose proof (filter_len (fun kv : Z * bool => kv.2) (range_map (dyn_completes d))).
    pose proof (sized_range_map (dyn_completes d) Hb). pose proof (len_nonneg complete). unfold complete in *. lia. }
  repeat (apply Forall_cons in H2 as [? H2]). constructor; cbn [fr_Name fr_FileType fr_Extension fr_MediaCodec
    fr_Size fr_MediaLength fr_MediaBitrate fr_Sources fr_CompleteSources fr_Endpoints]; [apply any_texts| |].
  - repeat (apply Forall_cons; split; [first [assumption|destruct (_ =? 0); assumption]|]). constructor.
  - apply Forall_forall. intros e He. apply list_elem_of_fmap in He as ([id e'] & -> & He).
    rewrite (range_map_perm (dyn_byClient d)) in He. apply elem_of_map_to_list in He. by apply Hc in He as [_ ?].
Qed.

Lemma Slice_Forall {A} (P : A -> Prop) less (l : list A) : Forall P l -> Forall P (Slice less l).
Proof. by rewrite Slice_perm. Qed.

Lemma filter_Forall {A} (P : A -> Prop) (f : A -> bool) l : Forall P l -> Forall P (List.filter f l).
Proof.
  rewrite !List.Forall_forall. intros H x [Hx _]%filter_In. by apply H.
Qed.

Lemma clients_fit s : widths s -> Forall (client_with any_text) (ClientsSnapshot s).
Proof using LZL SL Hclock.
  intros Hs. apply Slice_Forall, Forall_map, Forall_forall. intros sid _. apply snapshot_fits, Hs.
Qed.

Lemma files_fit_snapshot s : widths s -> Forall file_fits (FilesSnapshot s).
Proof using ML SS.
  intros Hs. apply Forall_app. split; [apply (wd_catalog _ Hs)|]. apply Forall_map, Forall_forall. intros [key d] Hd.
  rewrite (range_map_perm (sv_dynamicFiles s)) in Hd. apply elem_of_map_to_list in Hd.
  by apply materialize_fits, (wd_shared _ Hs key).
Qed.

Lemma file_fit s h f : widths s -> FileSnapshot s h = Some f -> file_fits f.
Proof.
  intros Hs. unfold FileSnapshot, Catalog_Get. destruct (cat_byHash (sv_catalog s) !! _) as [g|] eqn:E.
  - intros [= <-]. by apply (proj2 (wd_catalog _ Hs) (Hash_String h)).
  - destruct (sv_dynamicFiles s !! _) as [d|] eqn:Ed; [|done]. intros [= <-].
    by apply materialize_fits, (wd_shared _ Hs (Hash_String h)).
Qed.

Lemma zero_fits : file_fits zero_file.
Proof. constructor; [apply any_texts| |constructor]. repeat (apply Forall_cons; split; [by vm_compute|]). constructor. Qed.

Lemma audit_fits s : widths s -> Forall (audit_with any_text) (AuditSnapshot (sv_auditLog s)).
Proof using LZL SL Hclock.
  intros Hs. apply Slice_Forall. eapply Forall_impl; [exact (wd_audit _ Hs)|]. intros e He.
  constructor; [by apply moment_shown|apply any_texts].
Qed.

Lemma paginate_fits {A} (P : A -> Prop) entries r items meta :
  Forall P entries -> len entries < 2 ^ 62 -> paginate entries r = Some (items, meta) ->
  Forall P items /\ meta_with any_text meta.
Proof.
  intros He Hl. unfold paginate. destruct (parsePagination r) as [page perPage] eqn:Ep.
  destruct (bounds _ _ _) as [start fin]. destruct (if start <? len entries then _ else _) as [l|] eqn:E; [|done].
  intros [= <- <-]. assert (Forall P l /\ len l <= len entries) as [Hp Hn].
  { destruct (start <? len entries); [|injection E as <-; split; [constructor|apply len_nonneg]].
    unfold slice in E. destruct (_ && _); [|done]. injection E as <-. split; [by apply Forall_take, Forall_drop|].
    unfold len. rewrite length_take, length_drop. lia. }
  split; [done|]. assert (in_s 64 page /\ in_s 64 perPage) as [H1 H2].
  { pose proof (parsePagination_range r) as [H1 H2]. rewrite Ep in H1, H2. cbn [fst snd] in *.
    unfold in_s. simpl in *. lia. }
  pose proof (len_nonneg l). pose proof (len_nonneg entries).
  unfold pageMeta, meta_with. repeat (apply Forall_cons; split; [split; [exact I|]|]); [done..| | |constructor];
    apply small_in_s; lia.
Qed.

(** ** Handlers *)

(** What a handler that succeeds returns. *)
Definition gives {S A} (I : S -> Prop) (P : A -> Prop) (m : ST S srvErr A) : Prop :=
  forall s a s', I s -> m s = (Ok a, s') -> P a.

Lemma gives_ret {S A} (I : S -> Prop) (P : A -> Prop) a : P a -> gives I P (ret a).
Proof. intros Ha s a' s' _ [= <- _]. exact Ha. Qed.

Lemma gives_read {S A B} (I : S -> Prop) (P : B -> Prop) (f : S -> A) (k : A -> ST S srvErr B) :
  (forall s, I s -> gives I P (k (f s))) -> gives I P (bind (gets f) k).
Proof. intros Hk s b s' Hs E. rewrite bind_gets in E. by apply (Hk s Hs s b s'). Qed.

Lemma gives_bind {S A B} (I : S -> Prop) (P : B -> Prop) (m : ST S srvErr A) (k : A -> ST S srvErr B) :
  keeps I m -> (forall a, gives I P (k a)) -> gives I P (bind m k).
Proof.
  intros Hm Hk s b s' Hs E. specialize (Hm s Hs). unfold bind in E. destruct (m s) as [[a|e] s1]; [|done].
  by apply (Hk a s1 b s').
Qed.

Lemma gives_option {S A B} (I : S -> Prop) (P : B -> Prop) (o : option A) e (k : A -> ST S srvErr B) :
  (forall a, o = Some a -> gives I P (k a)) -> gives I P (bind (of_option o e) k).
Proof. intros Hk s b s' Hs E. destruct o as [a|]; [by apply (Hk a eq_refl s b s')|done]. Qed.

Lemma gives_weaken {S A} (I J : S -> Prop) (P : A -> Prop) (m : ST S srvErr A) :
  (forall s, J s -> I s) -> gives I P m -> gives J P m.
Proof. intros HIJ Hm s a s' Hs. by apply (Hm s), HIJ. Qed.

(** An answer whose numbers fit. *)
Definition fitting (resp : Response) : Prop :=
  match resp_Body resp with
  | ApiOK data meta => data_with any_text data /\ meta_with any_text meta
  | _ => True
  end.

(** A state whose lists fit in memory, as they do in every state of a run. *)
Record roomy (s : Server) : Prop := {
  ro_widths : widths s;
  ro_memory : memory_ok s;
  ro_peers : registry_len (sv_peers s) <= 2 ^ 62;
  ro_log : log_ok s
}.

Ltac texts := repeat (apply Forall_cons; split; [split; exact I|]); apply List.Forall_nil.

Ltac gives_step :=
  match goal with
  | |- gives _ _ (ret _) => apply gives_ret; first [exact I|assumption|split; [first [exact I|done]|texts]]
  | |- gives _ _ (bind (gets _) _) => apply gives_read; intros ? ?
  | |- gives _ _ (bind (of_option _ _) _) => apply gives_option; intros ? ?
  | |- gives _ _ (bind _ _) => apply gives_bind; [solve [auto 3 using keeps_try with widths]|intros ?]
  | |- gives _ _ (if ?b then _ else _) => destruct b
  | |- gives _ _ (match ?x with _ => _ end) => destruct x eqn:?
  end.
Ltac gives_auto := cbv zeta; repeat (gives_step; cbv zeta beta).

Lemma gives_page {A} (P : A -> Prop) (entries : list A) r (data : list A -> apiData) :
  Forall P entries -> len entries < 2 ^ 62 -> (forall items, Forall P items -> data_with any_text (data items)) ->
  gives roomy fitting (do! (items, meta) := of_option (paginate entries r) Panic in
                       ret (writeAPI StatusOK (data items) meta)).
Proof.
  intros He Hl Hd. apply gives_option. intros [items meta] E. apply gives_ret.
  destruct (paginate_fits P entries r items meta He Hl E). split; [by apply Hd|done].
Qed.

Lemma gives_audit r : gives roomy fitting (handleAdminAudit r).
Proof using LZL SL Hclock.
  unfold handleAdminAudit, only. destruct (negb _); [gives_auto|]. apply gives_read. intros s Hs.
  apply (gives_page (audit_with any_text) _ r DataAudit); [apply audit_fits, Hs| |done].
  unfold AuditSnapshot. rewrite Slice_len. pose proof (ro_log _ Hs) as H. unfold log_ok, maxAuditEntries in H. simpl. lia.
Qed.

Lemma gives_clients r : gives roomy fitting (handleAdminClients r).
Proof using LZL SL ML Hclock.
  unfold handleAdminClients, only. destruct (negb _); [gives_auto|]. apply gives_read. intros s Hs. cbv zeta.
  unfold sortClients. assert (len (filterClients (ClientsSnapshot s) r) < 2 ^ 62 /\
    Forall (client_with any_text) (filterClients (ClientsSnapshot s) r)) as [H1 H2].
  { pose proof (clients_len s (ro_memory _ Hs)). pose proof (clients_fit s (ro_widths _ Hs)). unfold filterClients.
    destruct (bytes_eqb _ []); [split; [lia|done]|]. split; [|by apply filter_Forall].
    pose proof (filter_len (client_matches (search_text r)) (ClientsSnapshot s)). lia. }
  apply (gives_page (client_with any_text) _ r DataClients); [by apply Slice_Forall|by rewrite Slice_len|done].
Qed.

Lemma gives_files r : gives roomy fitting (listFiles r).
Proof using LZL SL ML.
  unfold listFiles. apply gives_read. intros s Hs. cbv zeta. unfold sortFiles.
  apply (gives_page file_fits _ r DataFiles); [| |done].
  - apply Slice_Forall, filter_Forall, files_fit_snapshot, Hs.
  - rewrite Slice_len. unfold filterFiles. cbv zeta. pose proof (files_len s (ro_memory _ Hs)).
    match goal with |- len (List.filter ?f ?l) < _ => pose proof (filter_len f l) end. lia.
Qed.

Lemma stats_fit s : roomy s -> stats_ok (StatsSnapshot s).
Proof using LZL Hclock.
  intros [Hs [Hf Hc] Hp _]. constructor; cbn; [apply moment_shown, Hs| |apply Hs].
  repeat (apply Forall_cons; split); [| | |constructor].
  - apply small_in_s. unfold clientCount. lia.
  - apply wrap_s_range. lia.
  - apply small_in_s. unfold registry_len in *. lia.
Qed.

Lemma gives_stats r : gives roomy fitting (handleAdminStats r).
Proof using LZL Hclock.
  unfold handleAdminStats, only. destruct (negb _); [gives_auto|]. apply gives_read. intros s Hs.
  apply gives_read. intros s2 _. apply gives_ret. split; [by apply stats_fit|texts].
Qed.

Lemma gives_client r : gives roomy fitting (handleAdminClientByID r).
Proof using LZL Hclock.
  unfold handleAdminClientByID. gives_auto. apply gives_ret. split; [|constructor].
  unfold ClientSnapshotByID in *. destruct (sv_clients _ !! _); [|done].
  match goal with H : _ = Some _ |- _ => injection H as <- end. by apply snapshot_fits, ro_widths.
Qed.

Lemma try_upsert r record :
  request_in_memory r -> decodeFileRecord (r_Body r) = Some record -> keeps widths (try_ (UpsertFile record)).
Proof using HJL. intros Hr E. apply keeps_try, keeps_upsert. by eapply request_record. Qed.

Lemma gives_upsert r : request_in_memory r -> gives widths fitting (upsertFile r).
Proof using HJL ML SS RL.
  intros Hr. unfold upsertFile. destruct (decodeFileRecord (r_Body r)) as [record|] eqn:E; cbv zeta.
  - apply gives_bind; [by eapply try_upsert|]. intros [[]|e].
    + apply gives_read. intros s Hs. apply gives_bind; [apply keeps_audit|intros _]. apply gives_ret.
      split; [|texts]. destruct (FileSnapshot s _) eqn:Ef; [by eapply file_fit|apply zero_fits].
    + apply gives_bind; [apply keeps_audit|intros _]. by apply gives_ret.
  - apply gives_bind; [apply keeps_audit|intros _]. by apply gives_ret.
Qed.

Hint Resolve keeps_audit keeps_batch keeps_delete keeps_persist keeps_now : widths.

Lemma gives_batch r : gives widths fitting (handleAdminBatchDeleteFiles r).
Proof using ML SS RL.
  unfold handleAdminBatchDeleteFiles, only. gives_auto. apply gives_ret.
  split; [split; apply any_texts|texts].
Qed.

Lemma gives_by_hash r : gives widths fitting (handleAdminFileByHash r).
Proof using ML SS RL.
  unfold handleAdminFileByHash, deleteFile. gives_auto.
  apply gives_ret. split; [by eapply file_fit|constructor].
Qed.

Lemma gives_persist r : gives widths fitting (handleAdminPersist r).
Proof using RL. unfold handleAdminPersist, only. gives_auto. Qed.

Lemma gives_handler rt r : request_in_memory r -> gives roomy fitting (route_handler rt r).
Proof.
  intros Hr. assert (forall next, gives roomy fitting (next r) -> gives roomy fitting (withAdminAuth next r)) as Ha.
  { intros next Hn. unfold withAdminAuth. apply gives_read. intros s _. destruct (bytes_eqb _ _); [exact Hn|].
    destruct (negb _); [by apply gives_ret|exact Hn]. }
  assert (forall m, gives widths fitting m -> gives roomy fitting m) as Hw.
  { intros m. apply gives_weaken, ro_widths. }
  destruct rt; cbn [route_handler]; try apply Ha.
  - unfold handleAdminUI, only. gives_auto.
  - unfold handleAdminJS, only. gives_auto.
  - unfold handleAdminCSS, only. gives_auto.
  - apply Hw. unfold handleHealthz, only. gives_auto.
  - apply gives_audit.
  - apply gives_stats.
  - apply gives_clients.
  - apply gives_client.
  - apply Hw, gives_batch.
  - unfold handleAdminFiles. destruct (bytes_eqb _ MethodGet); [apply gives_files|].
    destruct (bytes_eqb _ MethodPost); [by apply Hw, gives_upsert|by apply gives_ret].
  - apply Hw, gives_by_hash.
  - apply Hw, gives_persist.
Qed.

Lemma gives_request r : request_in_memory r -> gives roomy fitting (adminMux r).
Proof.
  intros Hr. unfold adminMux. cbv zeta. destruct (redirect_slash _); [by apply gives_ret|].
  destruct (negb _); [by apply gives_ret|].
  destruct (best_pattern _) as [[pattern rt]|]; [by apply gives_handler|by apply gives_ret].
Qed.

(** An answer that the handlers encode themselves. *)
Definition in_json (body : respBody) : bool :=
  match body with ApiOK _ _ | ApiError _ => true | _ => false end.

(** C29: in every state that the program reaches from its start, shutdown included,
    every counter, size, client ID and port that it keeps is within the type it
    has in Go; so, as long as the clock shows years of four digits, the management
    interface answers every request, and an answer in JSON is never refused by
    the encoder: its text is one document, which a client reads as written. *)
Theorem answers_encodable s0 tracer p :
  initial s0 -> records_fit (sv_catalog s0) -> durable_reach s0 tracer p ->
  widths (server p) /\
  forall r, request_in_memory r -> memory_ok (server p) -> registry_len (sv_peers (server p)) <= 2 ^ 62 ->
  exists resp s', adminMux r (server p) = (Ok resp, s') /\
    (in_json (resp_Body resp) = true ->
     exists j text, api_json (resp_Body resp) = Some j /\ api_text (resp_Body resp) = Some text /\
                    parse_document text = Some (coerced j)).
Proof.
  intros H0 Hc Hr. pose proof (reach_widths s0 tracer p H0 Hc Hr) as Hw. split; [done|]. intros r Hrm Hm Hp.
  destruct (sys_reach_ok _ _ _ H0 (durable_sys_reach _ _ _ Hr)) as [Hu Hl].
  destruct (good_request r (server p) (uk_server _ Hu) Hm Hl) as (resp & s' & E & _).
  exists resp, s'. split; [done|]. intros Hj.
  assert (fitting resp) as Hfit by (eapply (gives_request r Hrm (server p)); [by constructor|exact E]).
  assert (answer_with any_text (resp_Body resp)) as Ha by (unfold fitting in Hfit; by destruct (resp_Body resp)).
  destruct (api_json_fits any_text (fun _ _ => I) _ Ha) as (j & Ej & Hf).
  exists j, (Marshal j ++ [x0a]). split; [done|]. split; [unfold api_text; by rewrite Ej|].
  apply (parse_document_coerced false j [x0a] Hf), newline_space.
Qed.
End answers.

(** ** Witness *)

(** Decides that a record fits. *)
Definition file_fits_b `{Ed2kLib} (f : FileRecord) : bool :=
  forallb (fun z => (- 2 ^ 63 <=? z) && (z <? 2 ^ 63))
    [fr_Size f; fr_MediaLength f; fr_MediaBitrate f; fr_Sources f; fr_CompleteSources f] &&
  forallb (fun e => (0 <=? se_Port e) && (se_Port e <? 2 ^ 16) &&
                    ((0 <=? se_ObfuscationOptions e) && (se_ObfuscationOptions e <? 2 ^ 8))) (fr_Endpoints f).

Lemma file_fits_b_ok {L : Ed2kLib} f : file_fits_b f = true -> file_fits f.
Proof.
  unfold file_fits_b. rewrite andb_true_iff, !forallb_forall. intros [Hn He]. constructor; [apply any_texts|..];
    apply List.Forall_forall.
  - intros z Hz%Hn. apply andb_true_iff in Hz as [?%Z.leb_le ?%Z.ltb_lt]. by split.
  - intros e Hin%He. apply andb_true_iff in Hin as [[?%Z.leb_le ?%Z.ltb_lt]%andb_true_iff [?%Z.leb_le ?%Z.ltb_lt]%andb_true_iff].
    constructor; [apply any_texts| |by split]. unfold in_s. simpl in *. lia.
Qed.

Lemma demo_records_fit : records_fit (catalog_of demo_files).
Proof.
  assert (forallb file_fits_b (cat_files (catalog_of demo_files)) = true) as H by (vm_compute; reflexivity).
  assert (Forall file_fits (cat_files (catalog_of demo_files))) as Hf.
  { apply List.Forall_forall. intros f Hf. apply file_fits_b_ok. by apply (proj1 (forallb_forall _ _) H). }
  split; [exact Hf|]. intros key f Hl. apply (ok_byHash _ demo_catalog_ok) in Hl as [Hl _].
  by apply (proj1 (Forall_forall _ _) Hf).
Qed.

(** The clock stands in November 2023. *)
Definition steady_world : World :=
  {| clock := fun _ => 1700000000 * Second; write_ok := fun _ => true; ResolveTCPPort := fun _ => Some 4661 |}.

Definition steady_server : Server :=
  match NewServer (WD := steady_world) demo_config (catalog_of demo_files) with
  | Ok s => s
  | Err _ => demo_server
  end.

Lemma steady_initial : initial (WD := steady_world) steady_server.
Proof.
  split; [|reflexivity]. exists demo_config, (catalog_of demo_files). split; [|apply demo_catalog_ok].
  assert (is_ok (NewServer (WD := steady_world) demo_config (catalog_of demo_files)) = true) as H
    by (vm_compute; reflexivity).
  unfold steady_server. destruct (NewServer _ _); [reflexivity|discriminate H].
Qed.

(** A start, a client that logs in, and a file from the administrator. *)
Definition steady_events : list (@sys_event ed2k_ref) :=
  [SysListen (Some 8080) (Some 4661) true;
   SysAccept (AcceptConn (demo_addr x01) (Some (demo_addr xfe)) (Some xe3) false);
   SysService (UeServer (demo_login 0 xa1));
   SysAdmin (demo_request MethodPost (lit "/api/files") [] [] demo_body)].

Definition steady_process : Process :=
  sys_run (WD := steady_world) steady_events (new_process steady_server None).

Definition demo_stats : Request := demo_request MethodGet (lit "/api/stats") [] [] [].

Lemma demo_stats_memory : durable_event (SysAdmin demo_stats).
Proof. apply body_in_memory. vm_compute. reflexivity. Qed.

Lemma answers_encodable_witness :
  widths (WD := steady_world) (server steady_process) /\
  exists resp s' stats meta text, adminMux (WD := steady_world) demo_stats (server steady_process) = (Ok resp, s') /\
    resp_Body resp = ApiOK (DataStats stats) meta /\ st_CurrentClients stats = 1 /\ st_CurrentFiles stats = 3 /\
    api_text (LZ := demo_zone) (H := demo_parse_texts) (resp_Body resp) = Some text.
Proof.
  destruct (answers_encodable (WD := steady_world) (LZ := demo_zone) (LZL := demo_zone_laws) (PT := demo_parse_texts))
    with (s0 := steady_server) (tracer := @None packetTracer) (p := steady_process) as [Hw Ha].
  - intros n. assert ((0 <=? year_of 7200 (1700000000 * Second)) && (year_of 7200 (1700000000 * Second) <=? 9999) = true)
      as H by (vm_compute; reflexivity).
    apply andb_true_iff in H as [?%Z.leb_le ?%Z.leb_le]. by split.
  - exact steady_initial.
  - exact demo_records_fit.
  - apply durable_run_reach; [apply durable_start|vm_compute; reflexivity|].
    repeat (apply Forall_cons; split; [first [exact I|apply body_in_memory; vm_compute; reflexivity]|]). constructor.
  - split; [exact Hw|].
    assert (memory_b (server steady_process) && (registry_len (sv_peers (server steady_process)) <=? 2 ^ 62) &&
      match (adminMux (WD := steady_world) demo_stats (server steady_process)).1 with
      | Ok resp => match resp_Body resp with
                   | ApiOK (DataStats stats) _ => (st_CurrentClients stats =? 1) && (st_CurrentFiles stats =? 3)
                   | _ => false
                   end
      | Err _ => false
      end = true) as Hc by (vm_compute; reflexivity).
    apply andb_true_iff in Hc as [[Hm%memory_b_ok Hp%Z.leb_le]%andb_true_iff Hc].
    destruct (Ha demo_stats) as (resp & s' & E & Hj); [|exact Hm|exact Hp|].
    { exact demo_stats_memory. }
    rewrite E in Hc. cbn [fst] in Hc.
    destruct (resp_Body resp) as [[|stats| | | | | | | |] meta| | | | | |] eqn:Eb; try discriminate Hc.
    apply andb_true_iff in Hc as [H1%Z.eqb_eq H2%Z.eqb_eq]. destruct Hj as (j & text & _ & Ht & _); [reflexivity|].
    exists resp, s', stats, meta, text. rewrite Eb. by repeat split.
Defined.
