(* ===== verification/Conn.v ===== *)
(** * Whole connections (ed2ksrv/server.go, handleConn)

    The goroutine that serves one connection, from the first byte to the end of
    the stream: it composes the admission, the obfuscation handshake, the frame
    reader and the dispatcher. Its theorem is that it does what the events of
    the transition system in [Server] do, so what holds of reachable servers
    holds for it. *)

From S2P Require Import Prelude StateErr GoStrings GoNet Ed2kLib Ed2kWire FileRecord Search.
From S2P Require Import Catalog Config Limiter Text Frames Rc4 Streams Obfuscate Server.

Local Open Scope Z_scope.
Local Open Scope srv_scope.

(** The dynamic types of [conn] in [handleConn]. *)
Inductive servedConn :=
| ObfuscatedConn (c : prependConn obfConn)
| PlainConn (c : prependConn netConn).

#[export] Instance served_reader : Reader servedConn := fun k c =>
  match c with
  | ObfuscatedConn c =>
    match conn_read k c with Some (b, c) => Some (b, ObfuscatedConn c) | None => None end
  | PlainConn c =>
    match conn_read k c with Some (b, c) => Some (b, PlainConn c) | None => None end
  end.

#[export] Program Instance served_stream : ReaderStream servedConn :=
  {| stream_of c := match c with
                    | ObfuscatedConn c => stream_of c
                    | PlainConn c => stream_of c
                    end |}.
Next Obligation.
  intros k [c|c] Hk; unfold conn_read at 1, served_reader; pose proof (conn_read_spec k c Hk) as Hc;
    by destruct (conn_read k c) as [[b c']|].
Qed.

Section conn.
Context {L : Ed2kLib} {W : Ed2kWire} {U : UnicodeTables} {MI : MapIter} {D : TextDecoder}.
Context {ZL : Zlib} {PC : PacketCombiner} {WD : World}.

(** The byte that [handleConn] peeks at. *)
Definition first_byte (c : netConn) : option (byte * netConn) :=
  match conn_ReadFull c 1 with
  | Ok (b :: _, c) => Some (b, c)
  | _ => None
  end.

(** The connection that is served: deciphered after a handshake, or as it is,
    with the first byte put back. [None]: the handshake failed. *)
Definition wrap_conn (cfg : Config) (rnd : handshakeRandom) (first : byte) (c : netConn)
    : option servedConn :=
  if ProtocolObfuscation cfg && negb (isPlainEd2kFirstByte first) then
    match serverObfuscatedHandshake rnd first c with
    | (Ok conn, _) => Some (ObfuscatedConn conn)
    | _ => None
    end
  else Some (PlainConn (mkPrepend c [first])).

Definition read_frame (c : servedConn) : result frameErr (byte * byte * bytes * Z * servedConn) :=
  readFrameFrom conn_ReadFull c.

(** The frame loop, and the deferred clean-up when it ends. *)
Fixpoint frame_loop (fuel sid : nat) (c : servedConn) : M unit :=
  match fuel with
  | O => close_conn sid
  | S fuel' =>
    match read_frame c with
    | Err _ => close_conn sid
    | Ok (proto, opcode, body, frameBytes, c') =>
      do! r := try_ (serve_frame sid proto opcode body frameBytes) in
      match r with
      | Ok _ => frame_loop fuel' sid c'
      | Err Panic => fail Panic
      | Err _ => close_conn sid
      end
    end
  end.

(** A frame takes six bytes at least, so the length of the stream is enough. *)
Definition loop_fuel (c : servedConn) : nat := S (length (stream_of c)).

Definition handleConn (remote : NetAddr) (local : option NetAddr) (rnd : handshakeRandom)
    (c : netConn) : M unit :=
  do! sid := gets sv_conns in
  modify (set_sv_conns (S sid)) ;;;
  do! cfg := gets sv_cfg in
  let first := first_byte c in
  let served := match first with Some (b, c) => wrap_conn cfg rnd b c | None => None end in
  do! ok := admit_conn sid remote (fst <$> first) (bool_decide (is_Some served)) in
  if ok then
    match served with
    | None => ret tt
    | Some conn => open_session sid (Some remote) local ;;; frame_loop (loop_fuel conn) sid conn
    end
  else ret tt.

(** ** The events of a connection *)

(** The frames of a stream up to its end or the first error. *)
Fixpoint frames_of (fuel : nat) (stream : bytes) : list (byte * byte * bytes * Z) :=
  match fuel with
  | O => []
  | S fuel' =>
    match readFrame stream with
    | Err _ => []
    | Ok (frame, rest) => frame :: frames_of fuel' rest
    end
  end.

Definition frame_event (sid : nat) (f : byte * byte * bytes * Z) : event :=
  let '(proto, opcode, body, n) := f in EvFrame sid proto opcode body n.

(** What the server is told about the connection. *)
Definition conn_events (s : Server) (remote : NetAddr) (local : option NetAddr)
    (rnd : handshakeRandom) (c : netConn) : list event :=
  let sid := sv_conns s in
  let first := first_byte c in
  let served := match first with Some (b, c) => wrap_conn (sv_cfg s) rnd b c | None => None end in
  EvConnect remote local (fst <$> first) (bool_decide (is_Some served)) ::
  match served with
  | None => []
  | Some conn => map (frame_event sid) (frames_of (loop_fuel conn) (stream_of conn)) ++ [EvClose sid]
  end.
End conn.
