(* ===== verification/ConnFacts.v ===== *)
(** * Connections are sequences of events

    [handleConn] refines the transition system of [Server]: serving a connection
    to its end is to run the events it consists of. With the agreement of
    [Handshake]: an obfuscated connection and a plain one that carry the same
    bytes drive the server through the same states. *)

From S2P Require Import Prelude StateErr GoStrings GoNet Ed2kLib Ed2kRef Ed2kWire FileRecord.
From S2P Require Import Search Catalog CatalogFacts Config Limiter Text Frames GoCrypto Rc4.
From S2P Require Import Streams Obfuscate Handshake Server ServerFacts FrameRule ServerInv.
From S2P Require Import ServerDemo ServerProps Conn.

Local Open Scope Z_scope.
Local Open Scope srv_scope.

Section conn_facts.
Context {L : Ed2kLib} {HL : Ed2kHashLaws} {W : Ed2kWire} {U : UnicodeTables}.
Context {MI : MapIter} {ML : MapIterLaws}.
Context {D : TextDecoder} {ZL : Zlib} {PC : PacketCombiner} {WD : World}.

(** ** Frames *)

(** The frames of a stream, up to the first read that fails. *)
Inductive framed : bytes -> list (byte * byte * bytes * Z) -> Prop :=
| framed_end stream e : readFrame stream = Err e -> framed stream []
| framed_next stream frame rest frames :
    readFrame stream = Ok (frame, rest) -> framed rest frames -> framed stream (frame :: frames).

Lemma ReadFull_length stream n b rest :
  0 <= n -> ReadFull stream n = Ok (b, rest) ->
  (length rest + Z.to_nat n = length stream)%nat.
Proof.
  intros Hn. unfold ReadFull, len. destruct (Z.ltb_spec (Z.of_nat (length stream)) n); [done|].
  intros [= _ <-]. rewrite length_drop. lia.
Qed.

Lemma readFrame_shorter stream frame rest :
  readFrame stream = Ok (frame, rest) -> (length rest < length stream)%nat.
Proof.
  unfold readFrame, readFrameFrom. intros Hr.
  apply rbind_ok in Hr as ([header r1] & E1 & Hr).
  apply ReadFull_length in E1; [|unfold PacketHeaderSize; lia].
  unfold PacketHeaderSize in E1. change (Z.to_nat 6) with 6%nat in E1.
  destruct (PacketHeader_Get header) as [[[proto opcode] size]|]; [|done].
  destruct (Z.ltb_spec size 0); [done|]. apply rbind_ok in Hr as ([body r2] & E2 & Hr).
  apply ReadFull_length in E2; [|done].
  assert (r2 = rest) as ->; [|lia].
  destruct (byte_eqb proto PackedProt); [|by injection Hr].
  apply rbind_ok in Hr as (inflated & _ & Hr). by injection Hr.
Qed.

Lemma frames_of_framed fuel stream :
  (length stream < fuel)%nat -> framed stream (frames_of fuel stream).
Proof.
  revert stream; induction fuel as [|fuel IH]; intros stream Hf; [lia|]. cbn [frames_of].
  destruct (readFrame stream) as [[frame rest]|e] eqn:E; [|by eapply framed_end].
  eapply framed_next; [done|]. apply IH. apply readFrame_shorter in E. lia.
Qed.

(** ** The loop *)

(** Events of a connection that is not served change nothing. *)
Lemma closed_events s sid frames :
  sid ∉ sv_open s -> run_events (map (frame_event sid) frames ++ [EvClose sid]) s = (Ok tt, s).
Proof.
  intros Hs. assert (forall ev, ev = EvClose sid \/ (exists f, ev = frame_event sid f) ->
    run_event ev s = (Ok tt, s)) as Hev.
  { intros ev [->|[[[[p o] b] n] ->]]; cbn [frame_event run_event]; rewrite bind_gets;
      by rewrite bool_decide_eq_false_2. }
  induction frames as [|f frames IH]; cbn [map app run_events].
  - rewrite Hev by by left. done.
  - rewrite Hev by (right; by eexists). exact IH.
Qed.

Lemma close_conn_closes sid s r s' : close_conn sid s = (Ok r, s') -> sid ∉ sv_open s'.
Proof.
  unfold close_conn. intros E. unfold bind in E.
  destruct (unregisterClient sid s) as [[[]|e] s1]; [|done]. injection E as <- <-.
  change (sv_open (set_sv_open _ _)) with (sv_open s1 ∖ {[sid]}).
  intros [_ Hn]%elem_of_difference. by apply Hn, elem_of_singleton.
Qed.

Lemma close_event sid s :
  sid ∈ sv_open s -> run_events [EvClose sid] s = close_conn sid s.
Proof.
  intros Hs. cbn [run_events run_event]. rewrite bind_gets, bool_decide_eq_true_2 by done.
  by destruct (close_conn sid s) as [[[]|e] s'].
Qed.

(** The loop is the run of its frames, whatever the requests do. *)
Lemma frame_loop_events fuel sid c s :
  sid ∈ sv_open s ->
  frame_loop fuel sid c s =
    run_events (map (frame_event sid) (frames_of fuel (stream_of c)) ++ [EvClose sid]) s.
Proof.
  revert c s; induction fuel as [|fuel IH]; intros c s Hs;
    cbn [frame_loop frames_of map app]; [by rewrite close_event|].
  pose proof (readFrame_stream c) as Hr. unfold read_frame.
  destruct (readFrame (stream_of c)) as [[[[[proto op] body] n] rest]|e].
  2: { rewrite Hr. cbn [map app]. by rewrite close_event. }
  destruct Hr as (c' & -> & <-). cbn [map app run_events frame_event run_event].
  rewrite bind_gets, bool_decide_eq_true_2 by done.
  pose proof (frames_serve_frame open_view sid proto op body n s) as Hf.
  unfold serve_or_close, bind, try_.
  destruct (serve_frame sid proto op body n s) as [[[]|e] s1]; cbn [snd] in Hf.
  { apply IH. injection Hf as Hf _. by rewrite Hf. }
  assert (close_conn sid s1 =
    match close_conn sid s1 with
    | (Ok _, s') => run_events (map (frame_event sid) (frames_of fuel (stream_of c')) ++ [EvClose sid]) s'
    | (Err e, s') => (Err e, s')
    end) as Hc.
  { destruct (close_conn sid s1) as [[[]|e'] s2] eqn:Ec; [|done].
    rewrite closed_events; [done|]. by eapply close_conn_closes. }
  destruct e; [..|done]; done.
Qed.

(** ** The connection *)

(** A connection that is admitted is one that can be served. *)
Lemma admit_true sid remote first handshake s s' :
  admit_conn sid remote first handshake s = (Ok true, s') ->
  exists b, first = Some b /\
    (handshake = true \/ ProtocolObfuscation (sv_cfg s) && negb (isPlainEd2kFirstByte b) = false).
Proof.
  unfold admit_conn. rewrite bind_gets. unfold bind at 1.
  assert (exists ok s1, sv_cfg s1 = sv_cfg s /\
    match sv_connLimiter s with
    | Some l => do! t := now in
                let '(l', ok) := allow l t (IP_String (addr_IP remote)) in
                modify (set_sv_connLimiter (Some l')) ;;; ret ok
    | None => ret true
    end s = (Ok ok, s1)) as (ok & s1 & Hcfg & ->).
  { destruct (sv_connLimiter s) as [l|]; [|by exists true, s].
    unfold bind, now. destruct (allow l _ _) as [l' ok].
    do 2 eexists. split; [|reflexivity]. done. }
  destruct ok; [|done]. cbn [negb]. destruct first as [b|]; [|done].
  rewrite bind_gets, Hcfg. intros Ha. exists b. split; [done|].
  destruct (ProtocolObfuscation (sv_cfg s) && negb (isPlainEd2kFirstByte b)); [left|by right].
  by injection Ha.
Qed.

Lemma wrap_conn_plain cfg rnd b c :
  ProtocolObfuscation cfg && negb (isPlainEd2kFirstByte b) = false ->
  wrap_conn cfg rnd b c = Some (PlainConn (mkPrepend c [b])).
Proof. intros H. unfold wrap_conn. by rewrite H. Qed.

Lemma handleConn_run s remote local rnd c :
  server_ok s ->
  handleConn remote local rnd c s = run_events (conn_events s remote local rnd c) s.
Proof.
  intros Hs. unfold handleConn, conn_events. rewrite bind_gets.
  set (sid := sv_conns s). set (s0 := set_sv_conns (S sid) s).
  rewrite (bind_ok (modify _) _ s tt s0) by done. rewrite bind_gets.
  change (sv_cfg s0) with (sv_cfg s).
  set (served := match first_byte c with Some (b, c') => _ | None => None end).
  assert (sid ∉ sv_open s0) as Hnew.
  { intros Hx. pose proof (so_open s Hs sid Hx). unfold sid in *. lia. }
  cbn [run_events run_event]. rewrite bind_gets. fold sid.
  rewrite (bind_ok (modify _) _ s tt s0) by done.
  pose proof (frames_admit open_view sid remote (fst <$> first_byte c)
                (bool_decide (is_Some served)) s0) as Hf.
  destruct (admit_conn sid remote _ _ s0) as [[ok|e] s1] eqn:Ea; cbn [snd] in Hf.
  2: { by rewrite !(bind_err _ _ _ _ _ Ea). }
  rewrite !(bind_ok _ _ _ _ _ Ea). destruct ok.
  - destruct (admit_true _ _ _ _ _ _ Ea) as (b & Hfirst & Hserve).
    assert (exists conn, served = Some conn) as [conn Econn].
    { destruct (first_byte c) as [[b' c']|]; [|done]. injection Hfirst as ->.
      destruct Hserve as [Hb%bool_decide_eq_true|Hp]; [by destruct Hb; eexists|].
      unfold served. rewrite wrap_conn_plain by done. by eexists. }
    rewrite Econn. destruct (open_session_eq s1 sid (Some remote) local) as (t1 & t2 & s2 & Hc2 & _ & Eo).
    rewrite (bind_ok _ _ _ _ _ Eo), Eo. apply frame_loop_events.
    rewrite (sc_open _ _ Hc2). change (sid ∈ {[sid]} ∪ sv_open s1). set_solver.
  - cbn [ret]. destruct served as [conn|]; [|done]. symmetry. apply closed_events.
    injection Hf as -> _. exact Hnew.
Qed.

(** C5: [handleConn] refines the events: serving a connection from its first byte
    to its end, whatever arrives and however it is cut into segments, is the
    connect event, the frames of its stream in order, and the close event; the
    frames are all of them, up to the first read that fails. *)
Theorem handleConn_refines s remote local rnd c :
  server_ok s ->
  handleConn remote local rnd c s = run_events (conn_events s remote local rnd c) s /\
  forall b c' conn, first_byte c = Some (b, c') -> wrap_conn (sv_cfg s) rnd b c' = Some conn ->
    exists frames, framed (stream_of conn) frames /\
      tail (conn_events s remote local rnd c) =
        map (frame_event (sv_conns s)) frames ++ [EvClose (sv_conns s)].
Proof.
  intros Hs. split; [by apply handleConn_run|]. intros b c' conn Hb Hw.
  exists (frames_of (loop_fuel conn) (stream_of conn)).
  split; [apply frames_of_framed; unfold loop_fuel; lia|].
  unfold conn_events. by rewrite Hb, Hw.
Qed.

(** ** Transparency *)

Lemma first_byte_ok segments out ok b rest :
  concat segments = b :: rest ->
  exists segs, first_byte (mkNet segments out ok) = Some (b, mkNet segs out ok) /\
               concat segs = rest.
Proof.
  intros Hs. destruct (read_full_ok (mkNet segments out ok) 1 [b] rest Hs eq_refl) as (segs & E & Hc).
  exists segs. split; [|done]. unfold first_byte, read_full in *.
  destruct (conn_ReadFull _ _) as [[p c]|e]; [|done]. by injection E as -> ->.
Qed.

(** Whether it deciphers or not, the server admits a connection it can serve. *)
Lemma connect_same s remote local b1 b2 h2 :
  ProtocolObfuscation (sv_cfg s) = true ->
  isPlainEd2kFirstByte b1 = false -> isPlainEd2kFirstByte b2 = true ->
  run_event (EvConnect remote local (Some b1) true) s =
  run_event (EvConnect remote local (Some b2) h2) s.
Proof.
  intros Hobf H1 H2. cbn [run_event]. rewrite !bind_gets.
  set (s0 := set_sv_conns (S (sv_conns s)) s).
  rewrite !(bind_ok (modify _) _ s tt s0) by done.
  assert (admit_conn (sv_conns s) remote (Some b1) true s0 =
          admit_conn (sv_conns s) remote (Some b2) h2 s0) as Ha; [|unfold bind; by rewrite Ha].
  unfold admit_conn. rewrite !bind_gets. change (sv_connLimiter s0) with (sv_connLimiter s).
  destruct (sv_connLimiter s) as [l|].
  - unfold bind, now, gets. destruct (allow l _ _) as [l' ok]. cbn [modify ret]. destruct ok; [|done].
    cbn [negb]. cbv zeta. change (sv_cfg (set_sv_connLimiter _ _)) with (sv_cfg s).
    by rewrite Hobf, H1, H2.
  - unfold bind, gets, ret. cbn [negb]. change (sv_cfg s0) with (sv_cfg s). by rewrite Hobf, H1, H2.
Qed.

(** C6: obfuscation is transparent: for a client that follows the handshake, with
    any secrets, paddings and segmentation, the server goes through exactly the
    states, and ends in the result, of a plain connection that delivers the
    same bytes. *)
Theorem obfuscation_transparent s remote local marker a padA padB b0 data priv rb pad segments
    rnd' segments' out' ok' :
  server_ok s -> ProtocolObfuscation (sv_cfg s) = true ->
  isPlainEd2kFirstByte marker = false -> isPlainEd2kFirstByte b0 = true ->
  0 <= a -> 0 <= priv -> len padA <= 15 -> len padB <= 15 ->
  let s96 := client_secret a (2 ^ priv mod dh768P) in
  forall up,
  newAmuleRC4 (md5Key97 s96 magicValueRequester) = Some up ->
  concat segments =
    marker :: client_hello a padA ++ (xorInPlace up (client_tail padB (b0 :: data))).1 ->
  concat segments' = b0 :: data ->
  handleConn remote local (mkRandom (Some priv) (Some rb) (Some pad)) (mkNet segments [] true) s =
  handleConn remote local rnd' (mkNet segments' out' ok') s.
Proof.
  intros Hs Hobf Hm Hb0 Ha Hp HpA HpB s96 up Hup Hseg Hseg'.
  destruct (cipher_exists s96 magicValueServer) as [down Hdown].
  destruct (first_byte_ok _ [] true _ _ Hseg) as (segs & Ef & Hc).
  destruct (first_byte_ok _ out' ok' _ _ Hseg') as (segs' & Ef' & Hc').
  destruct (agreed a padA padB (b0 :: data) priv rb pad marker segs Ha Hp HpA HpB ltac:(done)
    up down Hup Hdown Hc) as (c & conn & Eh & Hstream & _).
  rewrite !handleConn_run by done. unfold conn_events. rewrite Ef, Ef'.
  unfold wrap_conn. rewrite Hobf, Hm, Hb0, Eh. cbn [negb andb fmap option_fmap option_map fst].
  rewrite !bool_decide_eq_true_2 by by eexists. cbn [run_events].
  rewrite (connect_same s remote local marker b0 true) by done.
  unfold loop_fuel. cbn [stream_of served_stream prepend_stream net_stream pc_prefix pc_Conn nc_in app].
  cbn [stream_of served_stream prepend_stream net_stream pc_prefix pc_Conn nc_in] in Hstream.
  rewrite Hstream, Hc'. done.
Qed.
End conn_facts.

(** ** Witnesses *)

(** A connection that asks for the server list. *)
Definition demo_frame : bytes := plain_frame opGetServerList [].

Lemma handleConn_refines_witness :
  handleConn (demo_addr x01) None (mkRandom None None None)
    (mkNet [take 2 demo_frame; drop 2 demo_frame] [] true) demo_server =
  run_events [EvConnect (demo_addr x01) None (Some EdonkeyHeader) true;
              EvFrame 0 EdonkeyHeader opGetServerList [] 6; EvClose 0] demo_server.
Proof.
  destruct (handleConn_refines demo_server (demo_addr x01) None (mkRandom None None None)
    (mkNet [take 2 demo_frame; drop 2 demo_frame] [] true)) as [E _];
    [apply (initial_ok demo_server), demo_initial|].
  rewrite E. f_equal.
Defined.

Lemma obfuscation_transparent_witness :
  handleConn (demo_addr x01) None (mkRandom (Some 7) (Some x03) (Some [x0a; x0b; x0c]))
    (mkNet ([x42] :: demo_traffic demo_frame) [] true) demo_server =
  handleConn (demo_addr x01) None (mkRandom None None None)
    (mkNet [take 2 demo_frame; drop 2 demo_frame] [] true) demo_server.
Proof.
  apply (obfuscation_transparent demo_server (demo_addr x01) None x42 5 [x01] [x07; x08]
    EdonkeyHeader (tail demo_frame) 7 x03 [x0a; x0b; x0c] ([x42] :: demo_traffic demo_frame)
    (mkRandom None None None) [take 2 demo_frame; drop 2 demo_frame] [] true) with
    (up := demo_cipher magicValueRequester);
    [apply (initial_ok demo_server), demo_initial|reflexivity..|lia|lia|done|done| | |].
  - exact (demo_cipher_eq magicValueRequester).
  - cbn [concat app]. by rewrite demo_traffic_eq.
  - reflexivity.
Defined.
